(* ===== verification/_CoqProject ===== *)
-Q . S2P
Prelude.v
Text.v
Clock.v
Status.v
Datatype.v
Uthash.v
Mem.v
Net.v
Frame.v
FrameFacts.v
HeaderCodec.v
FrameOp.v
FrameRw.v
FrameProps.v
Subscriber.v
Topic.v
Print.v
Log.v
TopicTokens.v
TopicShape.v
TopicSpec.v
TopicFind.v
TopicProps.v
TopicService.v
Transfer.v
PubHeaders.v
Broker.v
Client.v
BrokerOps.v
Handle.v
BrokerSpec.v
ClientSpec.v
Delivery.v
Publish.v
Safe.v
Serve.v
Loop.v
Accept.v
Samples.v
Requests.v
PubSub.v
PubSubFacts.v
PubSubProps.v
BrokerProps.v
Cli.v
CliFacts.v
CliFrames.v
CliRuns.v
CliProps.v
EndToEnd.v
CClient.v
CClientProps.v
Server.v
ServerProps.v
NetOpen.v
Locks.v
LocksProps.v
Sorting.v
HashFn.v
HashTable.v
HashLists.v
HashChains.v
HashRep.v
HashOps.v
HashDel.v
HashMore.v
HashInorder.v
HashSrt.v
HashProps.v
Utarray.v
UtarrayProps.v
UtarrayOps.v
UtarraySpec.v
UtarrayRefines.v
FindArray.v
ClockProps.v
PrintProps.v
DtorTree.v
Shutdown.v
Tests.v
