(* ===== verification/Prelude.v ===== *)
(** * BPSP: a verification library for the Basic Publish Subscribe Protocol broker

    The program is a small publish/subscribe broker in C with its command-line clients.  A
    client sends frames over TCP: an eight-byte header in network byte order, variable headers
    of the form [key:QvalueQ;] (with Q the double quote), and a payload.  The broker keeps a tree of topic filters, in which
    [+] stands for one level and [*] for all that follow; a publication goes to every subscriber
    whose filter matches its topic.  One thread serves one client.

    ** The parts, and the files that model them

    Each component has one file with its data and its operations, named as in the source.  The
    files below it hold the invariants and the lemmas; the theorems that state what a component
    does are in the files whose names end in [Props] or [Refines] and in [EndToEnd], [FindArray],
    [NetOpen], [DtorTree] and [Shutdown], numbered C1 to C40 by importance, each
    with a doc comment and with an instance ([..._witness]) at a concrete input.

    - [Prelude]: the outcome of a C function ([exec]: a result, undefined behaviour, a wait for
      a lock that the thread holds, or too little fuel), machine integers as [Z] with their
      wrap-around, bytes, cells (a byte or indeterminate), C strings, tactics.
    - [Status] (lib/status.h, status.c), [Datatype] (lib/datatype.h), [Mem] (lib/mem.c: blocks,
      bounds of copies; whether an allocation succeeds is the class [Malloc]).
    - [Text], [Clock], [Log], [Print]: numbers as printf writes them; the date of lib/util.c, with
      the calendar that [gmtime] follows; the lines of lib/log.c; what [topic__print_tree]
      (lib/topic.c) and [frame__print] (lib/frame.c) print.
    - [Uthash] (deps/uthash.h): a hash table as the list of its elements in the order in which
      they were added, which is what iteration shows; the other components use this view.
      [HashFn], [HashTable]: the macros themselves, with hash functions, buckets, handles on two
      doubly-linked lists, and the doubling of the buckets.  [HashLists] (the list of all
      elements), [HashChains] (the list of a bucket), [HashRep] (when a table
      represents a list, [rep]), [HashOps], [HashDel]: each macro does to [rep] what the
      function of [Uthash] does to the list; for any [HashFunction].  [HashMore]: the macros that
      the program does not use (adding in order, replacing, sorting, selecting); [Sorting] has
      comparison functions and the stable sort as a reference, [HashInorder] and [HashSrt] show
      that the macros follow it.
    - [Utarray] (deps/utarray.h): arrays with copies of their elements, each copy an object of its
      own; [UtarrayProps]: the list that an array holds.  [FindArray]: the search for
      subscribers of lib/topic.c over such arrays ([Topic] has it over lists).  [UtarrayOps]: the
      other macros of the header, [UtarraySpec] and [UtarrayRefines]: what they do to the list;
      [qsort] and [bsearch] are a class ([SortLib]) with laws ([SortLaws]) and an instance.
    - [Net] (lib/net.c): blocking reads and writes as loops over the class [Socket], whose laws
      ([SocketLaws]) are those of recv and send; [script_socket] is an instance that cuts its
      stream at given places.  [NetOpen]: connecting, listening, accepting and freeing, with the
      set of open descriptors.
    - [Frame] (lib/frame.c), [FrameOp] (lib/frame_op.c), [FrameRw] (lib/frame_rw.c): frames.
      [FrameFacts]: the invariant [frame_wf]; [HeaderCodec]: the wire form of the headers, its
      printer and its parser; [Transfer]: what any transfer does to its connection;
      [PubHeaders]: headers that are set again for each delivery.
    - [Subscriber] (first part of lib/client.c) and [Topic] (lib/topic.c): subscribers and nodes
      in heaps, with the pointers of the source; the tree lock.  [TopicTokens]: topics as levels;
      [TopicShape]: the invariant [tree_wf] and [pruned]; [TopicSpec], [TopicFind]: the tree as
      a table from paths to subscribers ([subs_at]) and matching ([matches]).
      [TopicService] is the interface (a class) against which the broker is proved; the tree is
      its instance.  [DtorTree]: the nodes of a subtree, and what freeing it leaves.
    - [Broker], [Client], [BrokerOps] (lib/broker.c, lib/client.c), [Handle] (server/handle.c):
      the broker is a record with the heap of its clients, their table, the topic tree and the
      locks.  [BrokerSpec], [ClientSpec]: the registry, which says how the table of clients, the
      tables of subscriptions and the tree agree ([registry], [broker_ok], [broker_inv]).
      [Delivery], [Publish], [Requests]: exactly which bytes each client receives ([emits]).
      [Safe], [Serve], [Loop], [Accept]: on any input, no thread waits for a lock of its own and
      no loop is endless; [reachable] is the closure of the steps that accept, read, handle and
      end clients in any order.  [Samples] computes a small broker for the instances.
      [PubSub]: the broker as a service without frames, heaps and bytes (who is there, who
      subscribes to what, what is still to be read, what each client is sent); [PubSubFacts]
      relates one turn of the broker to one step of the service.  [Tests] computes the test
      programs of test/ on the model.
    - [Server] (server/server.c), [Cli] (tools/bpsp.c), [CClient] (client/c-client/client.c):
      the programs.  [CliFacts], [CliFrames], [CliRuns]: buffers, requests, runs against a
      server.

    - [Locks]: the accepting thread and the threads of the clients side by side: for each function
      of lib/client.c, lib/broker.c, lib/topic.c and server/handle.c that locks something, its
      locks and what it does in between to shared data; a step is a step of any thread.
      [LocksProps]: the order of the locks, the guards of the data and the life of a client as an
      invariant of all interleavings.

    ** What the theorems show

    - End to end ([EndToEnd], C1): the broker handles a publication and `bpsp sub` on another
      host prints one line for each matching subscription.  Over a whole run ([PubSubProps], C2): the
      broker is the service of [PubSub], and sends each client exactly what the service says.
    - The broker ([BrokerProps], [ServerProps], [Shutdown]: C3 to C7, C12 to C16): who receives what for a publication,
      what subscribing, unsubscribing, accepting and ending a client change and what they leave
      alone; in every reachable state no pointer dangles and no lock is held; threads end; and when the
      broker is destroyed nothing that it refers to is left.
    - Threads ([LocksProps]: C8 to C10, C39): in every interleaving no deadlock, no use of a client that
      is freed, and no race but two, which do happen.
    - Data structures: the tables of uthash.h are the lists that the components take them for, their
      merge sort is the stable sort, and iterating while deleting is safe ([HashProps]: C11, C34);
      the arrays of utarray.h are lists, and every element is given up exactly once
      ([UtarrayRefines]: C31); the search with such arrays shows what the search with lists
      shows ([FindArray]: C33).
    - The frame layer ([FrameProps]: C17, C18, C21 to C26): what is sent is received, for all
      byte orders and segmentations; the layout of the specification; truncation; printing and
      parsing of headers; termination and bounds of the parser; the invariant of frames.
    - The programs ([CliProps]: C19, C20, C38), and the
      theorems [get_input_total], [get_input_measures] and [parse_args_accepts].
    - The topic tree ([TopicProps]: C27 to C30): tokens, adding, removing, searching, all as
      operations on the table of subscriptions, and the theorems [topic__add_del] and
      [reachable_tree_wf]; freeing it ([DtorTree]: C32); printing it ([PrintProps]: C35).
    - The date of a frame ([ClockProps]: C36).  Descriptors ([NetOpen]: C37).
    - Where the code does something else than it announces: C26, C38 to C40, the theorems
      [client__write_keeps_mutex] and [client__read_unknown_opcode], and the lemmas
      [client__sub1_dangling],
      [frame__set_var_header_refused_update], [frame__dup_dangling], [net__write_lock_sends_nothing],
      [frame__get_op_text_out_of_bounds], [handle__PUB_no_topic], [handle__UNSUB_no_default],
      [client__sub0_ambiguous], [client_pub_no_type], [server__loop_accept_fails],
      [connection__init_leaks], [net__dup_shares], [frame__print_unknown_opcode],
      [print_payload_wraps], [print_label_overflow], [reserve_loop_diverges], [HASH_SELECT_stale_tail].

    ** Fuel

    A loop whose end depends on its input has a number of rounds.  Theorems show that it is
    enough: two steps for each byte of a header block for the parser ([parse_fuel]); the length
    of the buffer for reads and writes; the bytes of the stream and one more for the thread of a
    client (a frame has eight bytes at least) and for [sub_loop]; the characters that are typed
    and one more for [get_input]; the number of handles and one more for the chain of a bucket, the
    place of an element and the merge of two runs; 32 passes for a merge sort, whose runs are
    doubled from 1 to 2^31; 32 doublings for the slots of an array (8 doubled 28 times is 2^31); the number of nodes for
    printing the tree; and for [broker__accept] as many rounds as it takes the random
    generator to draw an identifier that is free, which is a hypothesis.

    ** What the model leaves out

    - In the model of the broker requests are handled one at a time, in any order of whole reads
      and whole requests, and a lock is seen by the thread that holds it.  Interleavings inside
      the handlers are those of [Locks], which knows the locks and the shared data but not the
      frames: which subscribers a request finds and how it is answered are arguments there.  The text of the clock is one
      argument for a whole request.
    - The strings that [mem__strdup] copies are taken to be there where the code does not check
      the copy; [allocates] and hypotheses on [malloc_ok] say where an allocation must succeed.
    - What the handlers print is not part of their results: the lines of the log, of the tree and of
      frames are the functions of [Log] and [Print], and the transfers of [FrameRw] take the
      option for frames to be off, when [frame__print] does nothing.  The usage texts, and
      [getopt_long], whose result is an argument.
    - Of deps/uthash.h what the configuration of the program leaves out: Bloom filters, tables that
      survive a lack of memory, writing the keys to a file, compilers without [decltype]; and
      keys that are not strings.  [HASH_SELECT] is a definition with a computed example only.  The
      components use the list view of [Uthash]; that the macros implement it is C11, on
      distinct keys, which the invariants of the components give.
    - The Java client. *)

From Stdlib Require Export ZArith Lia Ascii String.
From stdpp Require Export base tactics option numbers strings gmap list.
#[global] Set Default Goal Selector "!".

(** ** Outcomes of a C function

    [Done a]   : the function returns, with [a] for its result and the state it leaves;
    [Undef]    : the execution reaches undefined behaviour (a NULL, dangling or indeterminate
                 pointer is used, a buffer is overrun, indeterminate bytes leave the process);
    [Blocked]  : the thread waits for a lock that it already holds itself;
    [NoFuel]   : the bound given to a loop was too small (theorems show it is never reached). *)
Inductive exec (A : Type) : Type :=
  | Done (a : A)
  | Undef
  | Blocked
  | NoFuel.
Arguments Done {A} a.
Arguments Undef {A}.
Arguments Blocked {A}.
Arguments NoFuel {A}.

#[export] Instance exec_ret : MRet exec := fun A a => Done a.
#[export] Instance exec_bind : MBind exec := fun A B f m =>
  match m with
  | Done a => f a
  | Undef => Undef
  | Blocked => Blocked
  | NoFuel => NoFuel
  end.

Declare Scope bpsp_scope.
Delimit Scope bpsp_scope with bpsp.

(** [run]: the execution ends normally, with this result. *)
Notation "m '⇓' a" := (m = Done a) (at level 70) : bpsp_scope.
Open Scope bpsp_scope.

Lemma exec_bind_done {A B} (m : exec A) (f : A → exec B) b :
  m ≫= f = Done b ↔ ∃ a, m = Done a ∧ f a = Done b.
Proof.
  split; [|by intros (a & -> & ?)].
  destruct m; intros H; [eauto|done..].
Qed.

Lemma exec_bind_assoc {A B C} (m : exec A) (f : A → exec B) (g : B → exec C) :
  (m ≫= f) ≫= g = m ≫= (fun a => f a ≫= g).
Proof. by destruct m. Qed.

Lemma exec_done_bind {A B} (a : A) (f : A → exec B) : Done a ≫= f = f a.
Proof. reflexivity. Qed.

(** [of_option o]: dereference; NULL (or dangling) is undefined behaviour. *)
Definition deref {A} (o : option A) : exec A :=
  match o with Some a => Done a | None => Undef end.

Lemma deref_done {A} (o : option A) a : deref o = Done a ↔ o = Some a.
Proof. destruct o; cbn; split; congruence. Qed.

(** [defined m]: the execution returns (no undefined behaviour, no deadlock). *)
Definition defined {A} (m : exec A) : Prop := ∃ a, m = Done a.

(** ** Bytes, cells and C strings

    A byte is an [ascii]; a cell of freshly allocated memory may be indeterminate ([None]).
    A C string ([char*] that is not NULL) is the Rocq string of its characters before the
    terminating NUL. *)
Notation byte := ascii (only parsing).
Notation bytes := (list ascii) (only parsing).
Notation cell := (option ascii) (only parsing).

Definition chars (s : string) : bytes := String.list_ascii_of_string s.
Definition str (l : bytes) : string := String.string_of_list_ascii l.
Definition strlen (s : string) : Z := Z.of_nat (String.length s).
Definition NUL : ascii := Ascii.zero.

(** ** Machine integers: a w-bit unsigned value is a [Z] in [0, 2^w) *)
Definition u8 (z : Z) : Z := z mod 2 ^ 8.
Definition u16 (z : Z) : Z := z mod 2 ^ 16.
Definition u32 (z : Z) : Z := z mod 2 ^ 32.

Definition byte_of_Z (z : Z) : ascii := ascii_of_N (Z.to_N (u8 z)).
Definition Z_of_byte (b : ascii) : Z := Z.of_N (N_of_ascii b).

Lemma Z_of_byte_range b : (0 ≤ Z_of_byte b < 256)%Z.
Proof. unfold Z_of_byte. pose proof (N_ascii_bounded b). lia. Qed.

Lemma byte_of_Z_of_byte b : byte_of_Z (Z_of_byte b) = b.
Proof.
  unfold byte_of_Z, u8. rewrite Z.mod_small by (pose proof (Z_of_byte_range b); lia).
  unfold Z_of_byte. rewrite N2Z.id. apply ascii_N_embedding.
Qed.

Lemma Z_of_byte_of_Z z : Z_of_byte (byte_of_Z z) = (z mod 256)%Z.
Proof.
  unfold byte_of_Z, Z_of_byte, u8. pose proof (Z.mod_pos_bound z (2 ^ 8)).
  rewrite N_ascii_embedding by lia. rewrite Z2N.id by lia. reflexivity.
Qed.

Lemma u16_small z : (0 ≤ z < 65536)%Z → u16 z = z.
Proof. intros. apply Z.mod_small. lia. Qed.
Lemma u16_range z : (0 ≤ u16 z < 65536)%Z.
Proof. apply (Z.mod_pos_bound z). lia. Qed.
Lemma u32_small z : (0 ≤ z < 4294967296)%Z → u32 z = z.
Proof. intros. apply Z.mod_small. lia. Qed.
Lemma u32_range z : (0 ≤ u32 z < 4294967296)%Z.
Proof. apply (Z.mod_pos_bound z). lia. Qed.

(** ** Strings *)
Lemma str_chars s : str (chars s) = s.
Proof. apply String.string_of_list_ascii_of_string. Qed.
Lemma chars_str l : chars (str l) = l.
Proof. apply String.list_ascii_of_string_of_list_ascii. Qed.
Lemma length_chars s : List.length (chars s) = String.length s.
Proof. induction s; cbn; [done | by f_equal]. Qed.
Lemma chars_app s1 s2 : chars (s1 +:+ s2) = chars s1 ++ chars s2.
Proof. induction s1 as [|a s1 IH]; [done|]. apply (f_equal (cons a) IH). Qed.
Lemma chars_inj s1 s2 : chars s1 = chars s2 → s1 = s2.
Proof. intros H. rewrite <- (str_chars s1), <- (str_chars s2). by rewrite H. Qed.
Lemma strlen_nonneg s : (0 ≤ strlen s)%Z.
Proof. unfold strlen. lia. Qed.
Lemma strlen_chars s : strlen s = Z.of_nat (List.length (chars s)).
Proof. by rewrite length_chars. Qed.
Lemma strlen_app s1 s2 : strlen (s1 +:+ s2) = (strlen s1 + strlen s2)%Z.
Proof. rewrite !strlen_chars, chars_app, length_app. lia. Qed.

(** ** The bytes of a buffer from an offset up to a NUL: what a [char*] into it denotes *)
Fixpoint until_nul (l : bytes) : option bytes :=
  match l with
  | [] => None
  | c :: l' => if decide (c = NUL) then Some [] else cons c <$> until_nul l'
  end.

Definition cstr_at (buf : bytes) (off : nat) : exec string :=
  s ← deref (until_nul (drop off buf)); mret (str s).

Definition no_nul (l : bytes) : Prop := NUL ∉ l.
#[export] Instance no_nul_dec l : Decision (no_nul l).
Proof. unfold no_nul. apply _. Defined.

Lemma until_nul_app l r : no_nul l → until_nul (l ++ NUL :: r) = Some l.
Proof.
  unfold no_nul. induction l as [|c l IH]; intros H; cbn.
  - done.
  - rewrite not_elem_of_cons in H. destruct H as [? ?].
    rewrite decide_False by done. by rewrite IH.
Qed.

Lemma until_nul_no_nul l r : until_nul l = Some r → no_nul r.
Proof.
  unfold no_nul. revert r. induction l as [|c l IH]; intros r; cbn; [done|].
  case_decide; [intros [= <-]; apply not_elem_of_nil|].
  destruct (until_nul l) as [r'|]; [|done]. intros [= <-]. apply not_elem_of_cons.
  split; [done|by apply IH].
Qed.

Lemma cstr_at_no_nul buf off s : cstr_at buf off = Done s → no_nul (chars s).
Proof.
  unfold cstr_at. destruct (until_nul (drop off buf)) as [l|] eqn:E; [cbn|done].
  intros [= <-]. rewrite chars_str. by eapply until_nul_no_nul.
Qed.

(** ** Lists *)
Lemma list_filter_all {A} (P : A → Prop) `{!∀ x, Decision (P x)} (l : list A) :
  (∀ x, x ∈ l → P x) → filter P l = l.
Proof.
  induction l as [|x l IH]; intros Hl; [done|].
  rewrite filter_cons_True by (apply Hl; left). f_equal. apply IH. intros. apply Hl. by right.
Qed.

Lemma list_filter_ext {A} (P Q : A → Prop) `{!∀ x, Decision (P x), !∀ x, Decision (Q x)}
    (l : list A) :
  (∀ x, x ∈ l → P x ↔ Q x) → filter P l = filter Q l.
Proof.
  induction l as [|x l IH]; intros Hl; [done|].
  pose proof (Hl x ltac:(left)) as Hx. cbn. unfold filter in *. cbn.
  rewrite IH by (intros; apply Hl; by right).
  destruct (decide (P x)), (decide (Q x)); tauto || done.
Qed.

(** ** Tactics *)

(** Linear arithmetic with division and modulo by constants. *)
Ltac dlia := Z.to_euclidean_division_equations; lia.

(** Nested appends and conses, to the right. *)
Ltac app_norm := repeat (progress (rewrite <- ?app_assoc; cbn [app])).

(** Split a successful execution into the successful executions of its steps. *)
Ltac exec_inv :=
  repeat match goal with
  | H : (_ ≫= _) = Done _ |- _ => apply exec_bind_done in H; destruct H as (? & ? & ?)
  | H : deref _ = Done _ |- _ => apply deref_done in H
  | H : mret _ = Done _ |- _ => injection H as H
  | H : Done _ = Done _ |- _ => injection H as H
  | H : Undef = Done _ |- _ => discriminate H
  | H : Blocked = Done _ |- _ => discriminate H
  | H : NoFuel = Done _ |- _ => discriminate H
  | H : (_, _) = (_, _) |- _ => injection H as H
  | x : (_ * _)%type |- _ => destruct x
  end; simplify_eq/=.
