(* ===== verification/Text.v ===== *)
(** * Numbers as text: the formats of printf that the program uses

    [%d] and [%u] ([decimal]), [%04d] and the like ([digits]), and reading them back. *)
From S2P Require Import Prelude.
Local Open Scope Z_scope.

(** [printf("%d")] of a number that is not negative. *)
Fixpoint decimal (fuel : nat) (n : Z) (acc : string) : string :=
  match fuel with
  | O => acc
  | S fuel =>
      let acc := String (byte_of_Z (48 + n mod 10)) acc in
      if n <? 10 then acc else decimal fuel (n / 10) acc
  end.

(** An [int] or an [unsigned] has at most ten digits. *)
Definition int_text (n : Z) : string := decimal 10 n "".

(** A field of [w] digits with zeros in front, of a number that has no more digits. *)
Fixpoint digits (w : nat) (n : Z) (acc : string) : string :=
  match w with
  | O => acc
  | S w => digits w (n / 10) (String (byte_of_Z (48 + n mod 10)) acc)
  end.

(** The number that a text of digits shows. *)
Fixpoint read_digits (start : Z) (s : string) : Z :=
  match s with
  | EmptyString => start
  | String c s => read_digits (10 * start + (Z_of_byte c - 48)) s
  end.

Definition is_digit (c : ascii) : Prop := 48 ≤ Z_of_byte c < 58.

(** ** Facts *)

Lemma digit_code n : Z_of_byte (byte_of_Z (48 + n mod 10)) = 48 + n mod 10.
Proof. rewrite Z_of_byte_of_Z. pose proof (Z.mod_pos_bound n 10). apply Z.mod_small. lia. Qed.

Lemma digit_is_digit n : is_digit (byte_of_Z (48 + n mod 10)).
Proof. unfold is_digit. rewrite digit_code. pose proof (Z.mod_pos_bound n 10). lia. Qed.

(** A number with exactly [S w] digits. *)
Lemma decimal_digits fuel w n acc :
  (w < fuel)%nat → (w = 0%nat ∨ 10 ^ Z.of_nat w ≤ n) → 0 ≤ n < 10 ^ Z.of_nat (S w) →
  decimal fuel n acc = digits (S w) n acc.
Proof.
  revert w n acc. induction fuel as [|fuel IH]; intros w n acc Hw Hlo Hn; [lia|].
  cbn [decimal digits]. destruct w as [|w].
  - rewrite (proj2 (Z.ltb_lt _ _)) by (cbn in Hn; lia). done.
  - destruct Hlo as [?|Hlo]; [lia|]. rewrite !Nat2Z.inj_succ, !Z.pow_succ_r in * by lia.
    pose proof (Z.pow_pos_nonneg 10 (Z.of_nat w)). rewrite (proj2 (Z.ltb_ge _ _)) by lia.
    rewrite (IH w); [done|lia| |].
    + right. apply Z.div_le_lower_bound; lia.
    + rewrite Nat2Z.inj_succ, Z.pow_succ_r by lia.
      split; [apply Z.div_pos; lia|apply Z.div_lt_upper_bound; lia].
Qed.

Lemma read_digits_app w n start acc :
  0 ≤ n < 10 ^ Z.of_nat w →
  read_digits start (digits w n acc) = read_digits (10 ^ Z.of_nat w * start + n) acc.
Proof.
  revert n acc. induction w as [|w IH]; intros n acc Hn; cbn [digits].
  { cbn in Hn. f_equal. lia. }
  rewrite Nat2Z.inj_succ, Z.pow_succ_r in * by lia.
  rewrite IH by (split; [apply Z.div_pos; lia|apply Z.div_lt_upper_bound; lia]).
  cbn [read_digits]. rewrite digit_code. f_equal. pose proof (Z.div_mod n 10). lia.
Qed.

(** What is written with [digits] is read back. *)
Lemma read_digits_digits w n : 0 ≤ n < 10 ^ Z.of_nat w → read_digits 0 (digits w n "") = n.
Proof. intros Hn. rewrite read_digits_app by done. cbn. lia. Qed.

Lemma digits_chars w n acc : chars (digits w n acc) = chars (digits w n "") ++ chars acc.
Proof.
  revert n acc. induction w as [|w IH]; intros n acc; [done|]. cbn [digits].
  rewrite IH, (IH _ (String _ "")). cbn. by rewrite <-app_assoc.
Qed.

Lemma digits_length w n : List.length (chars (digits w n "")) = w.
Proof.
  revert n. induction w as [|w IH]; intros n; [done|]. cbn [digits].
  rewrite digits_chars, length_app, IH. cbn. lia.
Qed.

Lemma digits_are_digits w n : Forall is_digit (chars (digits w n "")).
Proof.
  revert n. induction w as [|w IH]; intros n; [constructor|]. cbn [digits].
  rewrite digits_chars. apply Forall_app. split; [apply IH|].
  constructor; [apply digit_is_digit|constructor].
Qed.

(** ** Output in pieces *)

Lemma string_app_assoc (a b c : string) : ((a +:+ b) +:+ c = a +:+ (b +:+ c))%string.
Proof. induction a as [|x a IH]; [done|]. exact (f_equal (String x) IH). Qed.

Lemma string_app_nil_r (a : string) : (a +:+ "" = a)%string.
Proof. induction a as [|x a IH]; [done|]. exact (f_equal (String x) IH). Qed.

(** The pieces, one after another. *)
Definition cat (l : list string) : string := foldr String.append ""%string l.

Lemma cat_app l1 l2 : cat (l1 ++ l2) = (cat l1 +:+ cat l2)%string.
Proof.
  induction l1 as [|s l1 IH]; [done|].
  change (s +:+ cat (l1 ++ l2) = (s +:+ cat l1) +:+ cat l2)%string. by rewrite IH, string_app_assoc.
Qed.

(** [s] printed [n] times. *)
Definition times (n : nat) (s : string) : string := cat (replicate n s).
