(* ===== verification/Clock.v ===== *)
(** * util.c: the date, as it is put into frames and into the log

    [time] gives the seconds since 1970, without leap seconds; [gmtime] makes a calendar date of
    them (here by the cycles of 400, 100, 4 and 1 years from March 2000 on, as in the C library),
    and [strftime] a text, if it fits into the buffer.  [timegm] is the calendar itself, which
    tells how far a date is from 1970. *)
From S2P Require Import Prelude Text.
Local Open Scope Z_scope.

(** [struct tm]: the year counts from 1900, the month from 0. *)
Record tm := {
  tm_year : Z; tm_mon : Z; tm_mday : Z;
  tm_hour : Z; tm_min : Z; tm_sec : Z;
}.

(** The months from March to February of the next year. *)
Definition march_months : list Z := [31; 30; 31; 30; 31; 31; 30; 31; 30; 31; 31; 29].

(** The month, and the day in it, in which this day of the year falls. *)
Fixpoint month_loop (lens : list Z) (months days : Z) : Z * Z :=
  match lens with
  | [] => (months, days)
  | len :: lens => if len <=? days then month_loop lens (months + 1) (days - len) else (months, days)
  end.

(** The years since March 2000 of this day, and the day in that year. *)
Definition year_of_day (days : Z) : Z * Z :=
  let qc := days / 146097 in
  let rem := days mod 146097 in
  let c := Z.min (rem / 36524) 3 in
  let rem := rem - c * 36524 in
  let q := Z.min (rem / 1461) 24 in
  let rem := rem - q * 1461 in
  let r := Z.min (rem / 365) 3 in
  (r + 4 * q + 100 * c + 400 * qc, rem - r * 365).

Definition gmtime (t : Z) : tm :=
  let days := t / 86400 - 11017 in
  let secs := t mod 86400 in
  let '(years, rem) := year_of_day days in
  let '(months, day) := month_loop march_months 0 rem in
  let '(years, months) := if 10 <=? months then (years + 1, months - 12) else (years, months) in
  {| tm_year := years + 100; tm_mon := months + 2; tm_mday := day + 1;
     tm_hour := secs / 3600; tm_min := secs / 60 mod 60; tm_sec := secs mod 60 |}.

(** ["%Y-%m-%dT%H:%M:%S"] *)
Definition strftime (t : tm) : string :=
  (int_text (tm_year t + 1900) +:+ "-" +:+ digits 2 (tm_mon t + 1) "" +:+ "-" +:+
   digits 2 (tm_mday t) "" +:+ "T" +:+ digits 2 (tm_hour t) "" +:+ ":" +:+
   digits 2 (tm_min t) "" +:+ ":" +:+ digits 2 (tm_sec t) "")%string.

(** A text that does not fit, with its NUL, leaves the buffer indeterminate. *)
Definition in_buffer (len : Z) (text : string) : option string :=
  if strlen text <? len then Some text else None.

Definition date_now_utc (rawtime len : Z) : option string :=
  in_buffer len (strftime (gmtime rawtime) +:+ ".000000Z")%string.

(** ** The calendar *)

Definition is_leap (y : Z) : bool :=
  ((y mod 4 =? 0) && negb (y mod 100 =? 0)) || (y mod 400 =? 0).

Definition month_days (y : Z) : list Z :=
  [31; if is_leap y then 29 else 28; 31; 30; 31; 30; 31; 31; 30; 31; 30; 31].

(** The leap years before this one. *)
Definition leaps_before (y : Z) : Z := (y - 1) / 4 - (y - 1) / 100 + (y - 1) / 400.

Definition days_before_year (y : Z) : Z := 365 * (y - 1970) + leaps_before y - leaps_before 1970.

Definition timegm (t : tm) : Z :=
  let y := tm_year t + 1900 in
  let days := days_before_year y + foldr Z.add 0 (take (Z.to_nat (tm_mon t)) (month_days y))
              + (tm_mday t - 1) in
  86400 * days + 3600 * tm_hour t + 60 * tm_min t + tm_sec t.

(** A date and a time of day that there are. *)
Record tm_ok (t : tm) : Prop := {
  tk_mon : 0 ≤ tm_mon t < 12;
  tk_mday : 1 ≤ tm_mday t ≤ default 0 (month_days (tm_year t + 1900) !! Z.to_nat (tm_mon t));
  tk_hour : 0 ≤ tm_hour t < 24;
  tk_min : 0 ≤ tm_min t < 60;
  tk_sec : 0 ≤ tm_sec t < 60;
}.

(** A year has 365 or 366 days: [days_before_year] counts them. *)
Lemma days_before_year_succ y :
  days_before_year (y + 1) = days_before_year y + foldr Z.add 0 (month_days y).
Proof.
  unfold days_before_year, leaps_before, month_days, is_leap.
  replace (y + 1 - 1) with y by lia.
  destruct (Z.eqb_spec (y mod 4) 0), (Z.eqb_spec (y mod 100) 0), (Z.eqb_spec (y mod 400) 0);
    cbn [andb orb negb foldr]; Z.to_euclidean_division_equations; lia.
Qed.

(** ** gmtime gives the date of the calendar *)

(** Where the cycles end: the day is in a year of 366 days only if that year is a leap year. *)
Lemma year_of_day_spec days y rem :
  year_of_day days = (y, rem) →
  days = 365 * y + y / 4 - y / 100 + y / 400 + rem ∧ 0 ≤ rem < (if is_leap (y + 1) then 366 else 365).
Proof.
  unfold year_of_day, is_leap. intros [= <- <-].
  pose proof (Z.div_mod days 146097 ltac:(lia)) as Hd.
  pose proof (Z.mod_pos_bound days 146097 ltac:(lia)) as Hm.
  remember (days / 146097) as qc eqn:E. clear E. remember (days mod 146097) as m eqn:E. clear E.
  remember (Z.min (m / 36524) 3) as c eqn:Ec.
  assert (0 ≤ c ≤ 3 ∧ 0 ≤ m - c * 36524 ≤ 36524 ∧ (c < 3 → m - c * 36524 < 36524))
    as (Hc & Hc1 & Hc2) by dlia.
  clear Ec. remember (m - c * 36524) as r1 eqn:E1.
  remember (Z.min (r1 / 1461) 24) as q eqn:Eq.
  assert (0 ≤ q ≤ 24 ∧ 0 ≤ r1 - q * 1461 < 1461 ∧ (q = 24 → r1 - q * 1461 = 1460 → c = 3))
    as (Hq & Hq1 & Hq2) by dlia.
  clear Eq. remember (r1 - q * 1461) as r2 eqn:E2.
  remember (Z.min (r2 / 365) 3) as r eqn:Er.
  assert (0 ≤ r ≤ 3 ∧ 0 ≤ r2 - r * 365 ≤ 365 ∧ (r2 - r * 365 = 365 → r2 = 1460))
    as (Hr & Hr1 & Hr2) by dlia.
  clear Er. remember (r + 4 * q + 100 * c + 400 * qc) as y eqn:Ey.
  assert (y / 4 = q + 25 * c + 100 * qc) as -> by dlia.
  assert (y / 100 = c + 4 * qc) as -> by dlia.
  assert (y / 400 = qc) as -> by dlia.
  split; [lia|]. split; [lia|].
  destruct (decide (r2 - r * 365 = 365)) as [H365|]; [|destruct (_ || _); lia].
  specialize (Hr2 H365). assert (r = 3) as -> by lia.
  rewrite (proj2 (Z.eqb_eq ((y + 1) mod 4) 0)) by dlia.
  destruct (Z.eqb_spec ((y + 1) mod 100) 0) as [H100|]; cbn [andb negb orb]; [|lia].
  assert (q = 24) by dlia. rewrite (proj2 (Z.eqb_eq _ 0)); [lia|]. dlia.
Qed.

Lemma is_leap_2000 y : is_leap (2000 + y) = is_leap y.
Proof.
  unfold is_leap. replace ((2000 + y) mod 4) with (y mod 4) by dlia.
  replace ((2000 + y) mod 100) with (y mod 100) by dlia.
  by replace ((2000 + y) mod 400) with (y mod 400) by dlia.
Qed.

(** The first of March, and the first of January after it. *)
Lemma days_before_march y :
  days_before_year (2000 + y) + 59 + (if is_leap y then 1 else 0)
  = 11017 + 365 * y + y / 4 - y / 100 + y / 400.
Proof.
  unfold days_before_year, leaps_before, is_leap.
  destruct (Z.eqb_spec (y mod 4) 0), (Z.eqb_spec (y mod 100) 0), (Z.eqb_spec (y mod 400) 0);
    cbn [andb orb negb]; dlia.
Qed.

Lemma days_before_january y :
  days_before_year (2001 + y) = 11017 + 306 + 365 * y + y / 4 - y / 100 + y / 400.
Proof. unfold days_before_year, leaps_before. dlia. Qed.

(** The month of a day of the year that starts in March. *)
Lemma month_loop_spec day :
  0 ≤ day < 366 →
  ∃ k d, month_loop march_months 0 day = (Z.of_nat k, d) ∧ (k < 12)%nat ∧
    0 ≤ d < default 0 (march_months !! k) ∧ day = foldr Z.add 0 (take k march_months) + d.
Proof.
  intros Hday. unfold march_months. cbn [month_loop].
  repeat match goal with
  | |- context [Z.leb ?a ?b] => destruct (Z.leb_spec a b)
  end; try lia.
  1-12: [> exists 11%nat | exists 10%nat | exists 9%nat | exists 8%nat | exists 7%nat | exists 6%nat
    | exists 5%nat | exists 4%nat | exists 3%nat | exists 2%nat | exists 1%nat | exists 0%nat ];
    eexists; (split; [reflexivity|]); cbn; lia.
Qed.

(** The number of a known month is evaluated. *)
Ltac month_nat :=
  repeat match goal with
  | |- context [Z.to_nat ?e] => let v := eval vm_compute in (Z.to_nat e) in change (Z.to_nat e) with v
  end.

(** A goal about a month that is known by its number. *)
Ltac month_case EY :=
  cbn [tm_year tm_mon tm_mday tm_hour tm_min tm_sec]; try done; rewrite ?EY;
  month_nat; cbn in *; try lia; repeat case_match; lia.

Lemma gmtime_ok t : tm_ok (gmtime t) ∧ timegm (gmtime t) = t.
Proof.
  unfold gmtime. destruct (year_of_day (t / 86400 - 11017)) as [y rem] eqn:Hy.
  apply year_of_day_spec in Hy as [Hdays Hrem].
  destruct (month_loop_spec rem) as (k & d & -> & Hk & Hd & Hrem'); [destruct (is_leap _); lia|].
  assert (t = 86400 * (t / 86400) + t mod 86400 ∧ 0 ≤ t mod 86400 < 86400) as [Ht Hs] by dlia.
  remember (t mod 86400) as secs eqn:E. clear E. remember (t / 86400) as days eqn:E. clear E.
  assert (secs = 3600 * (secs / 3600) + 60 * (secs / 60 mod 60) + secs mod 60 ∧ 0 ≤ secs / 3600 < 24
    ∧ 0 ≤ secs / 60 mod 60 < 60 ∧ 0 ≤ secs mod 60 < 60) as (Hsecs & ? & ? & ?) by dlia.
  pose proof (days_before_march y) as Hm. pose proof (days_before_january y) as Hj.
  destruct (Z.leb_spec 10 (Z.of_nat k)) as [H10|H10].
  - replace (is_leap (y + 1)) with (is_leap (2001 + y)) in Hrem
      by (rewrite <-(is_leap_2000 (y + 1)); f_equal; lia).
    assert (y + 1 + 100 + 1900 = 2001 + y) as EY by lia.
    assert (k = 10%nat ∨ k = 11%nat) as [-> | ->] by lia; (split; [split|unfold timegm]); month_case EY.
  - rewrite <-(is_leap_2000 y) in Hm. assert (y + 100 + 1900 = 2000 + y) as EY by lia.
    do 10 (destruct k as [|k]; [(split; [split|unfold timegm]); month_case EY|]). lia.
Qed.

(** ** The years of four digits *)

(** A day lies in its year. *)
Lemma day_in_year t :
  tm_ok t →
  0 ≤ foldr Z.add 0 (take (Z.to_nat (tm_mon t)) (month_days (tm_year t + 1900))) + (tm_mday t - 1)
    < foldr Z.add 0 (month_days (tm_year t + 1900)).
Proof.
  intros [Hm Hd _ _ _]. remember (tm_mon t) as m eqn:Em. clear Em.
  remember (tm_year t + 1900) as y eqn:Ey. clear Ey.
  assert (m ∈ Z.of_nat <$> seq 0 12) as Hin.
  { apply list_elem_of_fmap. exists (Z.to_nat m). split; [lia|]. apply elem_of_seq. lia. }
  unfold month_days in *. cbn [seq fmap list_fmap] in Hin. rewrite !elem_of_cons, elem_of_nil in Hin.
  destruct_or! Hin; try done; subst m; revert Hd; month_nat; cbn; destruct (is_leap y); lia.
Qed.

Lemma days_before_year_mono a b : a ≤ b → days_before_year a ≤ days_before_year b.
Proof.
  intros Hab. replace b with (a + (b - a)) by lia.
  generalize (b - a), (Z.le_0_sub a b). intros n [_ Hn]. specialize (Hn Hab). clear b Hab. revert n Hn.
  apply natlike_ind; [rewrite Z.add_0_r; lia|]. intros n Hn IH.
  replace (a + Z.succ n) with (a + n + 1) by lia. rewrite days_before_year_succ.
  unfold month_days. cbn [foldr]. destruct (is_leap _); lia.
Qed.

Lemma tm_year_bound t : tm_ok t → 0 ≤ timegm t < 253402300800 → 1970 ≤ tm_year t + 1900 < 10000.
Proof.
  intros Hok Ht. pose proof (day_in_year _ Hok) as Hday.
  destruct Hok as [_ _ Hh Hm Hs]. unfold timegm in Ht.
  pose proof (days_before_year_succ (tm_year t + 1900)) as Hnext.
  remember (tm_year t + 1900) as y eqn:Ey. clear Ey.
  remember (foldr Z.add 0 (take _ _)) as sum eqn:E. clear E.
  remember (foldr Z.add 0 (month_days y)) as len eqn:E. clear E.
  assert (0 ≤ days_before_year y + sum + (tm_mday t - 1) < 2932897) as Hrange by lia.
  assert (days_before_year y < 2932897 ∧ 0 < days_before_year (y + 1)) as [Hhi Hlo] by lia.
  assert (days_before_year 10000 = 2932897) as H10000 by (vm_compute; reflexivity).
  assert (days_before_year 1970 = 0) as H1970 by (vm_compute; reflexivity).
  pose proof (days_before_year_mono 10000 y) as Hm1. pose proof (days_before_year_mono (y + 1) 1970) as Hm2.
  clear - Hhi Hlo H10000 H1970 Hm1 Hm2. lia.
Qed.

Lemma gmtime_year t : 0 ≤ t < 253402300800 → 1970 ≤ tm_year (gmtime t) + 1900 < 10000.
Proof.
  intros Ht. destruct (gmtime_ok t) as [Hok Htm]. apply tm_year_bound; [done|]. by rewrite Htm.
Qed.

Lemma month_day_small t : tm_ok t → tm_mday t < 100.
Proof.
  intros Hok. pose proof (day_in_year t Hok) as Hd. destruct Hok as [_ Hday _ _ _].
  remember (tm_year t + 1900) as y eqn:Ey. clear Ey Hd. remember (Z.to_nat (tm_mon t)) as k eqn:Ek. clear Ek.
  unfold month_days in Hday. do 12 (destruct k as [|k]; [cbn in Hday; destruct (is_leap y); lia|]).
  rewrite lookup_ge_None_2 in Hday by (cbn; lia). cbn in Hday. lia.
Qed.
