(* ===== verification/Status.v ===== *)
(** * status.h, status.c: the status codes and their texts *)
From S2P Require Import Prelude.

Inductive status__err :=
  | BPSP_OK
  | BPSP_ERR
  | BPSP_PROTOCOL_ERROR
  | BPSP_IO_ERROR
  | BPSP_MAX_VAR_HEADERS
  | BPSP_CONNECTION_CLOSED
  | BPSP_NO_SERVER
  | BPSP_STALE_CONNECTION
  | BPSP_SECURE_CONNECTION_WANTED
  | BPSP_SECURE_CONNECTION_REQUIRED
  | BPSP_CONNECTION_DISCONNECTED
  | BPSP_CONNECTION_AUTH_FAILED
  | BPSP_NOT_PERMITTED
  | BPSP_NOT_FOUND
  | BPSP_ADDRESS_MISSING
  | BPSP_INVALID_OPCODE
  | BPSP_INVALID_TOPIC
  | BPSP_INVALID_ARG
  | BPSP_NOT_COMPLETED_FRAME
  | BPSP_INVALID_SUBSCRIBER
  | BPSP_TREE_DUP_SUBSCRIBER
  | BPSP_INVALID_VAR_HEADERS
  | BPSP_ILLEGAL_STATE
  | BPSP_SLOW_SUBSCRIBER
  | BPSP_MAX_PAYLOAD
  | BPSP_MAX_DELIVERED_MSGS
  | BPSP_INSUFFICIENT_BUFFER
  | BPSP_NO_MEMORY
  | BPSP_SYS_ERROR
  | BPSP_TIMEOUT
  | BPSP_FAILED_TO_INITIALIZE
  | BPSP_NOT_INITIALIZED
  | BPSP_SSL_ERROR
  | BPSP_NO_SERVER_SUPPORT
  | BPSP_NOT_YET_CONNECTED
  | BPSP_DRAINING
  | BPSP_INVALID_GROUP_NAME
  | BPSP_NO_RESPONDERS
  | BPSP_MISMATCH
  | BPSP_MISSED_HEARTBEAT.

#[export] Instance status__err_eq_dec : EqDecision status__err.
Proof. solve_decision. Defined.

(** The C enumeration starts at 0 and has no gaps: the value of a code is its position. *)
Definition status__all : list status__err :=
  [BPSP_OK; BPSP_ERR; BPSP_PROTOCOL_ERROR; BPSP_IO_ERROR; BPSP_MAX_VAR_HEADERS;
   BPSP_CONNECTION_CLOSED; BPSP_NO_SERVER; BPSP_STALE_CONNECTION;
   BPSP_SECURE_CONNECTION_WANTED; BPSP_SECURE_CONNECTION_REQUIRED;
   BPSP_CONNECTION_DISCONNECTED; BPSP_CONNECTION_AUTH_FAILED; BPSP_NOT_PERMITTED;
   BPSP_NOT_FOUND; BPSP_ADDRESS_MISSING; BPSP_INVALID_OPCODE; BPSP_INVALID_TOPIC;
   BPSP_INVALID_ARG; BPSP_NOT_COMPLETED_FRAME; BPSP_INVALID_SUBSCRIBER;
   BPSP_TREE_DUP_SUBSCRIBER; BPSP_INVALID_VAR_HEADERS; BPSP_ILLEGAL_STATE;
   BPSP_SLOW_SUBSCRIBER; BPSP_MAX_PAYLOAD; BPSP_MAX_DELIVERED_MSGS;
   BPSP_INSUFFICIENT_BUFFER; BPSP_NO_MEMORY; BPSP_SYS_ERROR; BPSP_TIMEOUT;
   BPSP_FAILED_TO_INITIALIZE; BPSP_NOT_INITIALIZED; BPSP_SSL_ERROR;
   BPSP_NO_SERVER_SUPPORT; BPSP_NOT_YET_CONNECTED; BPSP_DRAINING;
   BPSP_INVALID_GROUP_NAME; BPSP_NO_RESPONDERS; BPSP_MISMATCH; BPSP_MISSED_HEARTBEAT].

Fixpoint index_of (s : status__err) (l : list status__err) : nat :=
  match l with
  | [] => 0
  | x :: l' => if decide (x = s) then 0 else S (index_of s l')
  end.

Definition status__code (s : status__err) : nat := index_of s status__all.

Definition err_text : list string :=
  ["OK"; "Error"; "Protocol Error"; "IO Error"; "Maximum Variable Headers Exceeded (65 KB)";
   "Connection Closed"; "No server available for connection"; "Stale Connection";
   "Secure Connection not available"; "Secure Connection Required";
   "Connection Disconnected"; "Authentication Violation"; "Not Permitted"; "Not Found";
   "TCP Address missing"; "Invalid Opcode"; "Invalid Topic"; "Invalid Argument";
   "Not completed frame"; "Invalid Subscriber"; "Duplicate Subscriber in Node Tree";
   "Invalid Variable Headers"; "Illegal State"; "Slow Consumer, messages dropped";
   "Maximum Payload Exceeded (4 GB)"; "Maximum Messages Delivered"; "Insufficient Buffer";
   "No Memory"; "System Error"; "Timeout"; "Initialization Failed"; "Not Initialized";
   "SSL Error"; "Not Supported By Server"; "Not Yet Connected"; "Draining in progress";
   "Invalid queue name"; "No responders available for request"; "Mismatch";
   "Missed Server Heartbeat"].

(** [err_text[(int)s]]: an index past the array is undefined behaviour. *)
Definition status__get_text (s : status__err) : exec string :=
  deref (err_text !! status__code s).

(** ** Sequencing on BPSP_OK

    [ASSERT_BPSP_OK(s)] returns the status as soon as it is not BPSP_OK; the functions that
    use it thread the object they work on. *)
Definition bind_ok {S} (m : exec (status__err * S))
    (k : S → exec (status__err * S)) : exec (status__err * S) :=
  m ≫= fun r =>
    match r with
    | (BPSP_OK, x) => k x
    | (s, x) => Done (s, x)
    end.
Notation "'ok!' x ← m ; k" := (bind_ok m (fun x => k))
  (at level 20, x name, m at level 100, k at level 200, right associativity,
   format "ok!  x  ←  m ;  '/' k") : bpsp_scope.

Lemma bind_ok_done {S} (m : exec (status__err * S)) k x :
  m = Done (BPSP_OK, x) → bind_ok m k = k x.
Proof. by intros ->. Qed.

Lemma bind_ok_err {S} (m : exec (status__err * S)) k s x :
  m = Done (s, x) → s ≠ BPSP_OK → bind_ok m k = Done (s, x).
Proof. intros -> ?. by destruct s. Qed.

Lemma bind_ok_inv {S} (m : exec (status__err * S)) k x :
  bind_ok m k = Done (BPSP_OK, x) → ∃ y, m = Done (BPSP_OK, y) ∧ k y = Done (BPSP_OK, x).
Proof.
  unfold bind_ok. destruct m as [[s y]| | |]; cbn; try done.
  destruct s; try done. eauto.
Qed.

Ltac ok_inv :=
  repeat match goal with
  | H : bind_ok _ _ = Done (BPSP_OK, _) |- _ =>
      apply bind_ok_inv in H; destruct H as (? & ? & ?)
  end.

(** Every code of the enumeration has its own text: the lookup of [status__get_text] is never
    out of bounds, and the text of a code is the entry at the position of the code. *)
Theorem status__get_text_total (s : status__err) :
  ∃ t, status__get_text s = Done t ∧ err_text !! status__code s = Some t
       ∧ status__all !! status__code s = Some s.
Proof. destruct s; eexists; repeat split. Qed.

Theorem status__get_text_inj (s1 s2 : status__err) :
  status__get_text s1 = status__get_text s2 → s1 = s2.
Proof.
  assert (NoDup err_text) as Hnd by (apply (bool_decide_unpack _); vm_compute; exact I).
  destruct (status__get_text_total s1) as (t1 & -> & E1 & A1).
  destruct (status__get_text_total s2) as (t2 & -> & E2 & A2).
  intros [= ->]. pose proof (NoDup_lookup _ _ _ _ Hnd E1 E2) as E. congruence.
Qed.
