(* ===== verification/Datatype.v ===== *)
(** * datatype.h: fixed-width integers on the wire

    The encoders copy the representation of an integer in the memory of the host, after
    swapping its bytes when [is_bigendian] says that the host is little endian.  The host's
    byte order is a parameter [big] of the model; the theorems hold for both orders. *)
From S2P Require Import Prelude.
Local Open Scope Z_scope.

Section Datatype.
(** [is_bigendian()]: the first byte of the representation of 0x01020304 is 1. *)
Context (big : bool).

(** The bytes of a [n]-byte integer, least significant first. *)
Fixpoint le_bytes (n : nat) (val : Z) : bytes :=
  match n with
  | O => []
  | S n' => byte_of_Z val :: le_bytes n' (Z.shiftr val 8)
  end.

Fixpoint le_value (l : bytes) : Z :=
  match l with
  | [] => 0
  | b :: l' => Z_of_byte b + Z.shiftl (le_value l') 8
  end.

(** What [memcpy(data, &val, n)] writes, and what [memcpy(&val, data, n)] reads. *)
Definition repr (n : nat) (val : Z) : bytes :=
  if big then rev (le_bytes n val) else le_bytes n val.
Definition unrepr (l : bytes) : Z :=
  if big then le_value (rev l) else le_value l.

Definition is_bigendian : bool :=
  match repr 4 0x01020304 with
  | c :: _ => bool_decide (Z_of_byte c = 1)
  | [] => false
  end.

Definition swap16 (val : Z) : Z :=
  u16 (Z.lor (Z.shiftr (Z.land val 0xFF00) 8) (Z.shiftl (Z.land val 0x00FF) 8)).

Definition swap32 (val : Z) : Z :=
  u32 (Z.lor (Z.lor (Z.lor (Z.shiftr (Z.land val 0xFF000000) 24)
                           (Z.shiftr (Z.land val 0x00FF0000) 8))
                    (Z.shiftl (Z.land val 0x0000FF00) 8))
             (Z.shiftl (Z.land val 0x000000FF) 24)).

Definition datatype__e8 (val : Z) : bytes := repr 1 val.
Definition datatype__d8 (data : bytes) : Z := unrepr (take 1 data).

Definition datatype__e16 (val : Z) : bytes :=
  let val := if is_bigendian then val else swap16 val in repr 2 val.
Definition datatype__d16 (data : bytes) : Z :=
  let val := unrepr (take 2 data) in if is_bigendian then val else swap16 val.

Definition datatype__e32 (val : Z) : bytes :=
  let val := if is_bigendian then val else swap32 val in repr 4 val.
Definition datatype__d32 (data : bytes) : Z :=
  let val := unrepr (take 4 data) in if is_bigendian then val else swap32 val.
End Datatype.

(** The order of the specification: most significant byte first. *)
Definition be_bytes (n : nat) (val : Z) : bytes := rev (le_bytes n val).

Lemma is_bigendian_eq big : is_bigendian big = big.
Proof. by destruct big. Qed.

Lemma length_le_bytes n val : List.length (le_bytes n val) = n.
Proof. revert val; induction n as [|n IH]; intros; cbn; [done|]. by rewrite IH. Qed.
Lemma length_be_bytes n val : List.length (be_bytes n val) = n.
Proof. unfold be_bytes. by rewrite length_rev, length_le_bytes. Qed.

(** A byte-aligned mask selects one base-256 digit. *)
Lemma land_digit val k :
  0 ≤ k → Z.land val (Z.shiftl 0xFF k) = Z.shiftl ((val / 2 ^ k) mod 256) k.
Proof.
  intros. change 0xFF with (Z.ones 8). change 256 with (2 ^ 8).
  rewrite <- Z.land_ones, <- Z.shiftr_div_pow2 by lia.
  apply Z.bits_inj'. intros i Hi. rewrite Z.land_spec, !Z.shiftl_spec by lia.
  destruct (decide (i < k)).
  - rewrite !(Z.testbit_neg_r _ (i - k)) by lia. apply andb_false_r.
  - rewrite Z.land_spec, Z.shiftr_spec by lia. by rewrite Z.sub_add.
Qed.

Lemma lor_disjoint a b k : 0 ≤ k → 0 ≤ b < 2 ^ k → a mod 2 ^ k = 0 → Z.lor b a = b + a.
Proof.
  intros Hk Hb Ha.
  assert (Z.land b a = 0) as Hl.
  { apply Z.bits_inj'. intros i Hi. rewrite Z.land_spec, Z.bits_0.
    destruct (decide (i < k)).
    - rewrite <- (Z.mod_pow2_bits_low a k) by lia. by rewrite Ha, Z.bits_0, andb_false_r.
    - rewrite <- (Z.mod_small b (2 ^ k)) by lia. by rewrite Z.mod_pow2_bits_high by lia. }
  rewrite <- Z.lxor_lor, <- Z.add_nocarry_lxor by done. done.
Qed.

Lemma swap16_eq val :
  0 ≤ val < 65536 → swap16 val = val / 256 + (val mod 256) * 256.
Proof.
  intros Hv. unfold swap16.
  change 0xFF00 with (Z.shiftl 0xFF 8). change 0x00FF with (Z.shiftl 0xFF 0).
  rewrite !land_digit, Z.shiftr_shiftl_l, !Z.shiftl_mul_pow2 by lia.
  change (2 ^ (8 - 8)) with 1. change (2 ^ 0) with 1. change (2 ^ 8) with 256.
  rewrite !Z.mul_1_r, Z.div_1_r.
  rewrite (lor_disjoint _ _ 8); [|lia|change (2 ^ 8) with 256; dlia|apply Z_mod_mult].
  rewrite u16_small; dlia.
Qed.

Lemma swap32_eq val : 0 ≤ val < 4294967296 →
  swap32 val = val / 16777216 + (val / 65536) mod 256 * 256
               + (val / 256) mod 256 * 65536 + val mod 256 * 16777216.
Proof.
  intros Hv. unfold swap32.
  change 0xFF000000 with (Z.shiftl 0xFF 24). change 0x00FF0000 with (Z.shiftl 0xFF 16).
  change 0x0000FF00 with (Z.shiftl 0xFF 8). change 0x000000FF with (Z.shiftl 0xFF 0).
  rewrite !land_digit, !Z.shiftr_shiftl_l, !Z.shiftl_shiftl, !Z.shiftl_mul_pow2 by lia.
  change (2 ^ (24 - 24)) with 1. change (2 ^ (16 - 8)) with 256.
  change (2 ^ (8 + 8)) with 65536. change (2 ^ (0 + 24)) with 16777216.
  change (2 ^ 0) with 1. change (2 ^ 8) with 256. change (2 ^ 16) with 65536.
  change (2 ^ 24) with 16777216. rewrite Z.mul_1_r, Z.div_1_r.
  pose proof (Z.mod_pos_bound (val / 16777216) 256).
  pose proof (Z.mod_pos_bound (val / 65536) 256).
  pose proof (Z.mod_pos_bound (val / 256) 256).
  pose proof (Z.mod_pos_bound val 256).
  rewrite (lor_disjoint (_ * 256) _ 8) by (change (2 ^ 8) with 256; try apply Z_mod_mult; lia).
  rewrite (lor_disjoint (_ * 65536) _ 16) by (change (2 ^ 16) with 65536; try apply Z_mod_mult; lia).
  rewrite (lor_disjoint (_ * 16777216) _ 24) by (change (2 ^ 24) with 16777216; try apply Z_mod_mult; lia).
  rewrite u32_small; dlia.
Qed.

(** ** Round trips *)

Lemma le_value_bytes n val :
  0 ≤ val < 2 ^ (8 * Z.of_nat n) → le_value (le_bytes n val) = val.
Proof.
  revert val. induction n as [|n IH]; intros val Hv; cbn [le_bytes le_value].
  - change (2 ^ (8 * Z.of_nat 0)) with 1 in Hv. lia.
  - replace (8 * Z.of_nat (S n)) with (8 + 8 * Z.of_nat n) in Hv by lia.
    rewrite Z.pow_add_r in Hv by lia. change (2 ^ 8) with 256 in Hv.
    rewrite Z_of_byte_of_Z, Z.shiftr_div_pow2 by lia. change (2 ^ 8) with 256.
    rewrite IH by (split; [apply Z.div_pos|apply Z.div_lt_upper_bound]; lia).
    rewrite Z.shiftl_mul_pow2 by lia. change (2 ^ 8) with 256. dlia.
Qed.

Lemma le_value_range l : 0 ≤ le_value l < 2 ^ (8 * Z.of_nat (List.length l)).
Proof.
  induction l as [|b l IH]; cbn [le_value List.length]; [done|].
  rewrite Z.shiftl_mul_pow2 by lia. pose proof (Z_of_byte_range b).
  replace (8 * Z.of_nat (S (List.length l))) with (8 * Z.of_nat (List.length l) + 8) by lia.
  rewrite Z.pow_add_r by lia. change (2 ^ 8) with 256. lia.
Qed.

Lemma le_bytes_value l : le_bytes (List.length l) (le_value l) = l.
Proof.
  induction l as [|b l IH]; [done|]. cbn [le_value List.length le_bytes].
  pose proof (Z_of_byte_range b).
  rewrite Z.shiftr_div_pow2, Z.shiftl_mul_pow2 by lia. change (2 ^ 8) with 256.
  f_equal.
  - rewrite <- (byte_of_Z_of_byte b) at 2. unfold byte_of_Z, u8.
    change (2 ^ 8) with 256. by rewrite Z_mod_plus_full.
  - etransitivity; [|exact IH]. f_equal. dlia.
Qed.

Lemma unrepr_repr big n val :
  0 ≤ val < 2 ^ (8 * Z.of_nat n) → unrepr big (repr big n val) = val.
Proof.
  intros. unfold unrepr, repr. destruct big; rewrite ?rev_involutive; by apply le_value_bytes.
Qed.

Lemma length_repr big n val : List.length (repr big n val) = n.
Proof. unfold repr. destruct big; rewrite ?length_rev; apply length_le_bytes. Qed.

Lemma swap16_range val : 0 ≤ val < 65536 → 0 ≤ swap16 val < 65536.
Proof. intros. apply u16_range. Qed.
Lemma swap32_range val : 0 ≤ val < 4294967296 → 0 ≤ swap32 val < 4294967296.
Proof. intros. apply u32_range. Qed.

Lemma swap16_invol val : 0 ≤ val < 65536 → swap16 (swap16 val) = val.
Proof.
  intros. rewrite swap16_eq by (by apply swap16_range). rewrite swap16_eq by done. dlia.
Qed.
(** A 32-bit integer by its four base-256 digits. *)
Definition of_digits (d0 d1 d2 d3 : Z) : Z := d0 + 256 * (d1 + 256 * (d2 + 256 * d3)).

Lemma digits_exist val : 0 ≤ val < 4294967296 → ∃ d0 d1 d2 d3, val = of_digits d0 d1 d2 d3
  ∧ 0 ≤ d0 < 256 ∧ 0 ≤ d1 < 256 ∧ 0 ≤ d2 < 256 ∧ 0 ≤ d3 < 256.
Proof.
  intros. exists (val mod 256), (val / 256 mod 256), (val / 256 / 256 mod 256),
    (val / 256 / 256 / 256).
  repeat split; try (apply Z.mod_pos_bound; lia); unfold of_digits; dlia.
Qed.

Lemma digit_shift d r : 0 ≤ d < 256 → (d + 256 * r) / 256 = r ∧ (d + 256 * r) mod 256 = d.
Proof. intros. split; dlia. Qed.

Lemma swap32_digits d0 d1 d2 d3 :
  0 ≤ d0 < 256 → 0 ≤ d1 < 256 → 0 ≤ d2 < 256 → 0 ≤ d3 < 256 →
  swap32 (of_digits d0 d1 d2 d3) = of_digits d3 d2 d1 d0.
Proof.
  intros H0 H1 H2 H3. rewrite swap32_eq by (unfold of_digits; lia).
  change 16777216 with (256 * 256 * 256) at 1. change 65536 with (256 * 256) at 1.
  rewrite <- !Z.div_div by lia. unfold of_digits.
  repeat match goal with
  | |- context [(?d + 256 * ?r) / 256] => rewrite (proj1 (digit_shift d r ltac:(lia)))
  | |- context [(?d + 256 * ?r) mod 256] => rewrite (proj2 (digit_shift d r ltac:(lia)))
  end. lia.
Qed.

Lemma swap32_invol val : 0 ≤ val < 4294967296 → swap32 (swap32 val) = val.
Proof.
  intros (d0 & d1 & d2 & d3 & -> & ? & ? & ? & ?)%digits_exist. by rewrite !swap32_digits.
Qed.

Lemma take_repr big n val l : take n (repr big n val ++ l) = repr big n val.
Proof. apply take_app_length'. symmetry. apply length_repr. Qed.

(** The bytes on the wire do not depend on the host: they are the big-endian bytes. *)
Lemma repr_swap16 val : 0 ≤ val < 65536 → le_bytes 2 (swap16 val) = be_bytes 2 val.
Proof.
  intros. rewrite swap16_eq by done. unfold be_bytes. cbn.
  rewrite !Z.shiftr_div_pow2 by lia. change (2 ^ 8) with 256.
  unfold byte_of_Z, u8. change (2 ^ 8) with 256.
  replace ((val / 256 + val mod 256 * 256) mod 256) with (val / 256 mod 256) by dlia.
  replace ((val / 256 + val mod 256 * 256) / 256) with (val mod 256) by dlia.
  by rewrite Z.mod_mod by lia.
Qed.
Lemma le_bytes_digits d0 d1 d2 d3 :
  0 ≤ d0 < 256 → 0 ≤ d1 < 256 → 0 ≤ d2 < 256 → 0 ≤ d3 < 256 →
  le_bytes 4 (of_digits d0 d1 d2 d3) = [byte_of_Z d0; byte_of_Z d1; byte_of_Z d2; byte_of_Z d3].
Proof.
  intros H0 H1 H2 H3. cbn [le_bytes]. rewrite !Z.shiftr_div_pow2 by lia.
  change (2 ^ 8) with 256. unfold byte_of_Z, u8, of_digits. change (2 ^ 8) with 256.
  repeat match goal with
  | |- context [(?d + 256 * ?r) / 256] => rewrite (proj1 (digit_shift d r ltac:(lia)))
  | |- context [(?d + 256 * ?r) mod 256] => rewrite (proj2 (digit_shift d r ltac:(lia)))
  end. by rewrite !(Z.mod_small _ 256) by lia.
Qed.
Lemma repr_swap32 val : 0 ≤ val < 4294967296 → le_bytes 4 (swap32 val) = be_bytes 4 val.
Proof.
  intros (d0 & d1 & d2 & d3 & -> & ? & ? & ? & ?)%digits_exist.
  unfold be_bytes. rewrite swap32_digits by done. by rewrite !le_bytes_digits by done.
Qed.

Lemma datatype__e8_be big val : datatype__e8 big val = be_bytes 1 val.
Proof. by destruct big. Qed.
Lemma datatype__e16_be big val : 0 ≤ val < 65536 → datatype__e16 big val = be_bytes 2 val.
Proof.
  intros. unfold datatype__e16. rewrite is_bigendian_eq.
  destruct big; [done|]. by apply repr_swap16.
Qed.
Lemma datatype__e32_be big val :
  0 ≤ val < 4294967296 → datatype__e32 big val = be_bytes 4 val.
Proof.
  intros. unfold datatype__e32. rewrite is_bigendian_eq.
  destruct big; [done|]. by apply repr_swap32.
Qed.

Lemma datatype__d8_e8 big val l :
  0 ≤ val < 256 → datatype__d8 big (datatype__e8 big val ++ l) = val.
Proof.
  intros. unfold datatype__d8, datatype__e8. rewrite take_repr. by apply unrepr_repr.
Qed.
Lemma datatype__d16_e16 big val l :
  0 ≤ val < 65536 → datatype__d16 big (datatype__e16 big val ++ l) = val.
Proof.
  intros. unfold datatype__d16, datatype__e16. rewrite is_bigendian_eq, take_repr.
  destruct big.
  - by apply unrepr_repr.
  - rewrite unrepr_repr by (by apply swap16_range). by apply swap16_invol.
Qed.
Lemma datatype__d32_e32 big val l :
  0 ≤ val < 4294967296 → datatype__d32 big (datatype__e32 big val ++ l) = val.
Proof.
  intros. unfold datatype__d32, datatype__e32. rewrite is_bigendian_eq, take_repr.
  destruct big.
  - by apply unrepr_repr.
  - rewrite unrepr_repr by (by apply swap32_range). by apply swap32_invol.
Qed.

Lemma unrepr_range big l n :
  List.length l = n → 0 ≤ unrepr big l < 2 ^ (8 * Z.of_nat n).
Proof.
  intros <-. unfold unrepr. destruct big; [rewrite <- (length_rev l)|]; apply le_value_range.
Qed.

(** The decoders of two hosts read the same integer: the byte order cancels out. *)
Lemma datatype__d16_host big1 big2 val l :
  0 ≤ val < 65536 → datatype__d16 big2 (datatype__e16 big1 val ++ l) = val.
Proof.
  intros. rewrite datatype__e16_be, <- (datatype__e16_be big2) by done.
  by apply datatype__d16_e16.
Qed.
Lemma datatype__d32_host big1 big2 val l :
  0 ≤ val < 4294967296 → datatype__d32 big2 (datatype__e32 big1 val ++ l) = val.
Proof.
  intros. rewrite datatype__e32_be, <- (datatype__e32_be big2) by done.
  by apply datatype__d32_e32.
Qed.
Lemma datatype__d8_host big1 big2 val l :
  0 ≤ val < 256 → datatype__d8 big2 (datatype__e8 big1 val ++ l) = val.
Proof.
  intros. rewrite datatype__e8_be, <- (datatype__e8_be big2). by apply datatype__d8_e8.
Qed.
