(* ===== verification/Uthash.v ===== *)
(** * uthash.h: string-keyed hash tables, as the library uses them

    A [UT_hash] table keeps its elements on a doubly-linked list in the order in which they
    were added ([HASH_APPEND_LIST] appends at the tail) and iterates in that order
    ([HASH_ITER]); the empty table is the NULL head.  The model is that list, with the key
    and the value of each element.  [HASH_ADD] does not look for an equal key; of elements
    with equal keys [HASH_FIND] meets the one added last first, since [HASH_ADD_TO_BKT] puts
    an element at the head of its bucket.  The tables of the library keep their keys distinct
    (see the invariants of [Frame], [Topic] and [Broker]), so that the order inside a bucket,
    which an expansion of the table may reverse, is never observed.  [HashTable] has the macros
    with their buckets and links, and [HashProps.uthash_refines] shows that they implement this
    view. *)
From S2P Require Import Prelude.

Notation hash V := (list (string * V)) (only parsing).

Section Uthash.
Context {V : Type}.
Implicit Types (h : list (string * V)) (k : string) (v : V).

Fixpoint hash_find k h : option V :=
  match h with
  | [] => None
  | (k', v) :: h' =>
      match hash_find k h' with
      | Some w => Some w
      | None => if decide (k' = k) then Some v else None
      end
  end.

(** [HASH_ADD_STR] *)
Definition hash_add k v h : list (string * V) := h ++ [(k, v)].

(** [HASH_DEL] of the element that [HASH_FIND_STR] returns for [k]. *)
Fixpoint hash_del k h : list (string * V) :=
  match h with
  | [] => []
  | (k', v) :: h' =>
      match hash_find k h' with
      | Some _ => (k', v) :: hash_del k h'
      | None => if decide (k' = k) then h' else (k', v) :: h'
      end
  end.

(** Assignment to a field of the element that [HASH_FIND_STR] returns for [k]. *)
Fixpoint hash_set k v h : list (string * V) :=
  match h with
  | [] => []
  | (k', w) :: h' =>
      match hash_find k h' with
      | Some _ => (k', w) :: hash_set k v h'
      | None => if decide (k' = k) then (k', v) :: h' else (k', w) :: h'
      end
  end.

(** [HASH_COUNT] *)
Definition hash_count h : nat := List.length h.

(** *** Laws *)

Lemma hash_find_add k k' v h :
  hash_find k (hash_add k' v h) = if decide (k' = k) then Some v else hash_find k h.
Proof.
  unfold hash_add. induction h as [|[k0 v0] h IH]; cbn; [done|].
  rewrite IH. by case_decide.
Qed.

Lemma hash_find_None k h : hash_find k h = None ↔ k ∉ h.*1.
Proof.
  induction h as [|[k0 v0] h IH]; cbn.
  - split; [intros _; apply not_elem_of_nil|done].
  - rewrite not_elem_of_cons, <- IH. destruct (hash_find k h); [naive_solver|].
    case_decide; naive_solver.
Qed.

Lemma hash_find_Some_elem k v h : hash_find k h = Some v → (k, v) ∈ h.
Proof.
  induction h as [|[k0 v0] h IH]; cbn; [done|].
  destruct (hash_find k h) as [w|].
  - intros [= ->]. right. by apply IH.
  - case_decide; [|done]. intros [= ->]. subst. left.
Qed.

Lemma hash_find_elem k v h : NoDup h.*1 → (k, v) ∈ h → hash_find k h = Some v.
Proof.
  induction h as [|[k0 v0] h IH]; cbn; [by intros _ ?%not_elem_of_nil|].
  intros [Hn Hd]%NoDup_cons [[= -> ->]|Hin]%elem_of_cons.
  - apply hash_find_None in Hn. rewrite Hn. by rewrite decide_True.
  - by rewrite IH.
Qed.

Lemma hash_find_iff k v h : NoDup h.*1 → hash_find k h = Some v ↔ (k, v) ∈ h.
Proof. split; [apply hash_find_Some_elem|by apply hash_find_elem]. Qed.

Lemma hash_find_Some_key k v h : hash_find k h = Some v → k ∈ h.*1.
Proof.
  intros H. destruct (decide (k ∈ h.*1)) as [|Hn]; [done|].
  apply hash_find_None in Hn. congruence.
Qed.

Lemma hash_add_keys k v h : (hash_add k v h).*1 = h.*1 ++ [k].
Proof. unfold hash_add. by rewrite fmap_app. Qed.

Lemma hash_add_NoDup k v h :
  hash_find k h = None → NoDup h.*1 → NoDup (hash_add k v h).*1.
Proof.
  intros Hf%hash_find_None Hd. rewrite hash_add_keys. apply NoDup_app.
  split_and!; [done|by intros x Hx ->%list_elem_of_singleton|apply NoDup_singleton].
Qed.

Lemma hash_set_keys k v h : (hash_set k v h).*1 = h.*1.
Proof.
  induction h as [|[k0 v0] h IH]; cbn; [done|].
  destruct (hash_find k h); [cbn; by rewrite IH|]. by case_decide.
Qed.

Lemma hash_find_set k k' v h :
  is_Some (hash_find k' h) →
  hash_find k (hash_set k' v h) = if decide (k' = k) then Some v else hash_find k h.
Proof.
  induction h as [|[k0 v0] h IH]; cbn; [by intros [? ?]|].
  destruct (hash_find k' h) as [w|] eqn:E; cbn.
  - intros _. rewrite IH by done. case_decide; [done|]. done.
  - destruct (decide (k0 = k')) as [->|]; [|by intros [? ?]]. intros _. cbn.
    destruct (decide (k' = k)) as [->|]; [by rewrite E|]. by destruct (hash_find k h).
Qed.

Lemma hash_find_del k k' h :
  NoDup h.*1 →
  hash_find k (hash_del k' h) = if decide (k' = k) then None else hash_find k h.
Proof.
  induction h as [|[k0 v0] h IH]; cbn; [by case_decide|].
  intros [Hn Hd]%NoDup_cons. apply hash_find_None in Hn.
  destruct (hash_find k' h) as [w|] eqn:E; cbn.
  - rewrite IH by done. destruct (decide (k' = k)) as [->|]; [|done].
    rewrite decide_False; [done|]. intros ->. congruence.
  - destruct (decide (k0 = k')) as [->|]; cbn.
    + destruct (decide (k' = k)) as [->|]; [done|]. by destruct (hash_find k h).
    + destruct (decide (k' = k)) as [->|]; [|done]. rewrite E. by rewrite decide_False.
Qed.

(** With distinct keys, deletion removes exactly the element of this key. *)
Lemma hash_del_filter k h : NoDup h.*1 → hash_del k h = filter (fun e => e.1 ≠ k) h.
Proof.
  induction h as [|[k0 v0] h IH]; [done|].
  intros [Hn Hd]%NoDup_cons. cbn [hash_del].
  destruct (hash_find k h) as [w|] eqn:E.
  - rewrite filter_cons_True; [by rewrite IH|]. cbn. intros ->.
    apply hash_find_Some_key in E. done.
  - apply hash_find_None in E.
    assert (filter (fun e : string * V => e.1 ≠ k) h = h) as Hf.
    { apply list_filter_all. intros [k1 v1] Hin. cbn. intros ->. apply E.
      by apply (list_elem_of_fmap_2 fst _ (k, v1)). }
    case_decide.
    + rewrite filter_cons_False; [done|]. cbn. naive_solver.
    + rewrite filter_cons_True by done. by rewrite Hf.
Qed.

Lemma hash_del_keys k h : NoDup h.*1 → NoDup (hash_del k h).*1.
Proof.
  intros Hd. rewrite hash_del_filter by done.
  apply (sublist_NoDup _ h.*1); [done|]. apply fmap_sublist, sublist_filter.
Qed.

Lemma hash_del_elem k k' v h :
  NoDup h.*1 → (k', v) ∈ hash_del k h ↔ (k', v) ∈ h ∧ k' ≠ k.
Proof. intros. rewrite hash_del_filter, list_elem_of_filter by done. cbn. tauto. Qed.

Lemma hash_del_notin k h : hash_find k h = None → hash_del k h = h.
Proof.
  induction h as [|[k0 v0] h IH]; cbn; [done|].
  destruct (hash_find k h); [done|]. by case_decide.
Qed.

Lemma hash_del_add k v h : hash_find k h = None → hash_del k (hash_add k v h) = h.
Proof.
  induction h as [|[k0 v0] h IH]; cbn; [by rewrite decide_True|].
  destruct (hash_find k h) eqn:E; [done|]. case_decide as Hk; [done|]. intros _.
  change (h ++ [(k, v)]) with (hash_add k v h).
  rewrite hash_find_add, decide_True by done. by rewrite IH.
Qed.

Lemma hash_set_split k v w h :
  NoDup h.*1 → hash_find k h = Some w →
  ∃ h1 h2, h = h1 ++ (k, w) :: h2 ∧ hash_set k v h = h1 ++ (k, v) :: h2.
Proof.
  induction h as [|[k0 v0] h IH]; cbn; [done|].
  intros [Hn Hd]%NoDup_cons Hf.
  destruct (hash_find k h) as [w'|] eqn:E.
  - destruct IH as (h1 & h2 & -> & ->); [done..|]. by exists ((k0, v0) :: h1), h2.
  - destruct (decide (k0 = k)) as [->|]; [|done]. injection Hf as ->. by exists [], h.
Qed.

Lemma hash_del_split k w h :
  NoDup h.*1 → hash_find k h = Some w →
  ∃ h1 h2, h = h1 ++ (k, w) :: h2 ∧ hash_del k h = h1 ++ h2.
Proof.
  induction h as [|[k0 v0] h IH]; cbn; [done|].
  intros [Hn Hd]%NoDup_cons Hf.
  destruct (hash_find k h) as [w'|] eqn:E.
  - destruct IH as (h1 & h2 & -> & ->); [done..|]. by exists ((k0, v0) :: h1), h2.
  - destruct (decide (k0 = k)) as [->|]; [|done]. injection Hf as ->. by exists [], h.
Qed.
End Uthash.

Create HintDb uthash.
#[export] Hint Resolve hash_add_NoDup hash_del_keys : uthash.
#[export] Hint Rewrite @hash_find_add @hash_set_keys @hash_add_keys : uthash.
