(* ===== verification/Mem.v ===== *)
(** * mem.h, mem.c: allocation and copies

    [malloc_ok n] is the answer of the allocator of the C library to a request for [n] bytes;
    the model leaves it open (a theorem that needs an allocation to succeed says so).  A fresh
    block has indeterminate cells.  Where the library does not test the result of [mem__strdup]
    (all uses but those of [subscriber__new]), it is taken to succeed. *)
From S2P Require Import Prelude.
Local Open Scope Z_scope.

Class Malloc := malloc_ok : Z → bool.

(** An allocator that never fails, and one with a largest block. *)
Definition malloc_always : Malloc := fun _ => true.
Definition malloc_upto (limit : Z) : Malloc := fun n => n <=? limit.

(** A buffer of [total] cells whose first bytes are [bs], the rest still indeterminate. *)
Definition block (total : Z) (bs : bytes) : option (list cell) :=
  Some ((Some <$> bs) ++ replicate (Z.to_nat (total - Z.of_nat (List.length bs))) None).

Lemma block_full bs : block (Z.of_nat (List.length bs)) bs = Some (Some <$> bs).
Proof. unfold block. by rewrite Z.sub_diag, app_nil_r. Qed.

Section Mem.
Context `{Malloc}.

Definition mem__malloc (size : Z) : option (list cell) :=
  if malloc_ok size then Some (replicate (Z.to_nat size) None) else None.

Definition mem__calloc (nmemb size : Z) : option (list cell) :=
  if malloc_ok (nmemb * size) then Some (replicate (Z.to_nat (nmemb * size)) (Some NUL))
  else None.

Definition mem__strdup (s : string) : option string :=
  if malloc_ok (strlen s + 1) then Some s else None.

(** On success the common prefix is kept; on failure the old block is left to the caller. *)
Definition mem__realloc (ptr : option (list cell)) (size : Z) : option (list cell) :=
  if malloc_ok size then Some (resize (Z.to_nat size) None (default [] ptr)) else None.

(** A block that is named by its address in [h] is given back; it must be there. *)
Definition mem__free {V} (h : gmap positive V) (mem : positive) : exec (gmap positive V) :=
  _ ← deref (h !! mem); mret (delete mem h).

(** At most [num] characters of the string. *)
Definition mem__strndup (s : string) (num : Z) : option string :=
  let d := String.substring 0 (Z.to_nat num) s in
  if malloc_ok (strlen d + 1) then Some d else None.

(** [memcpy(dst + off, src, num)]: both ranges must lie in their blocks. *)
Definition mem__memcpy (dst : option (list cell)) (off : Z) (src : option (list cell))
    (num : Z) : exec (option (list cell)) :=
  if num =? 0 then Done dst else
  match dst, src with
  | Some d, Some s =>
      if (num <=? Z.of_nat (List.length s)) && (off + num <=? Z.of_nat (List.length d))
      then Done (Some (take (Z.to_nat off) d ++ take (Z.to_nat num) s
                       ++ drop (Z.to_nat (off + num)) d))
      else Undef
  | _, _ => Undef
  end.

(** The library moves between different blocks only, where it is a copy. *)
Definition mem__memmove := mem__memcpy.

Lemma mem__memcpy_whole src n :
  Z.of_nat (List.length src) = n →
  mem__memcpy (Some (replicate (Z.to_nat n) None)) 0 (Some src) n
  = Done (Some src).
Proof.
  intros <-. unfold mem__memcpy. rewrite Nat2Z.id, length_replicate.
  destruct (Z.eqb_spec (Z.of_nat (List.length src)) 0) as [E|].
  - destruct src; [done|cbn in E; lia].
  - rewrite Z.leb_refl. cbn [andb]. rewrite Z.add_0_l, Z.leb_refl, Nat2Z.id.
    rewrite take_0, drop_replicate, Nat.sub_diag, app_nil_r. cbn. by rewrite firstn_all.
Qed.

(** A copy keeps the length of the block it writes to. *)
Lemma mem__memcpy_length dst off src num dst' :
  0 ≤ off → 0 ≤ num → mem__memcpy dst off src num = Done dst' →
  List.length <$> dst' = List.length <$> dst.
Proof.
  intros Ho Hn. unfold mem__memcpy. destruct (num =? 0); [by intros [= ->]|].
  destruct dst as [d|], src as [s|]; try done.
  destruct (Z.leb_spec num (Z.of_nat (List.length s)));
    destruct (Z.leb_spec (off + num) (Z.of_nat (List.length d))); cbn; try done.
  intros [= <-]. cbn. f_equal.
  rewrite !length_app, !length_take, length_drop. lia.
Qed.

(** Copies one behind the other fill a block. *)
Lemma mem__memcpy_fill total bs b off n :
  off = Z.of_nat (List.length bs) → n = Z.of_nat (List.length b) → off + n ≤ total →
  mem__memcpy (block total bs) off (Some (Some <$> b)) n = Done (block total (bs ++ b)).
Proof.
  intros -> -> Ht. unfold mem__memcpy, block. rewrite (length_app bs).
  destruct (Z.eqb_spec (Z.of_nat (List.length b)) 0) as [E|E].
  { destruct b; [|cbn in E; lia]. by rewrite app_nil_r, Nat.add_0_r. }
  rewrite !length_fmap, length_app, length_fmap, length_replicate.
  rewrite (proj2 (Z.leb_le _ _)), (proj2 (Z.leb_le (_ + _) _)) by lia. cbn [andb].
  rewrite !Nat2Z.id, take_app_length' by (by rewrite length_fmap).
  rewrite firstn_all2 by (rewrite length_fmap; lia).
  rewrite Z2Nat.inj_add, !Nat2Z.id by lia.
  rewrite drop_app_add' by (by rewrite length_fmap).
  rewrite drop_replicate, fmap_app, app_assoc. repeat f_equal; lia.
Qed.

(** A copy over a whole block. *)
Lemma mem__memcpy_over d src n :
  Z.of_nat (List.length src) = n → Z.of_nat (List.length d) = n →
  mem__memcpy (Some d) 0 (Some src) n = Done (Some src).
Proof.
  intros Hs Hd. unfold mem__memcpy. rewrite Hs, Hd, Z.add_0_l, Z.leb_refl. cbn [andb].
  destruct (Z.eqb_spec n 0) as [->|].
  - destruct src, d; done.
  - rewrite take_0. cbn. f_equal. f_equal.
    rewrite take_ge, drop_ge, app_nil_r by lia. done.
Qed.
End Mem.

(** The bytes of a block that holds no indeterminate cell: what may leave the process. *)
Fixpoint cells_defined (l : list cell) : exec bytes :=
  match l with
  | [] => Done []
  | Some b :: l' => r ← cells_defined l'; mret (b :: r)
  | None :: _ => Undef
  end.

Lemma cells_defined_some bs : cells_defined (Some <$> bs) = Done bs.
Proof. induction bs as [|b bs IH]; cbn; [done|]. by rewrite IH. Qed.

(** [sizeof] of the structures that the library allocates one by one (LP64). *)
Definition sizeof_bpsp__var_header : Z := 88.
Definition sizeof_bpsp__frame : Z := 40.
Definition sizeof_topic__hash_node : Z := 72.
Definition sizeof_topic__node : Z := 48.
Definition sizeof_subscriber__hash : Z := 72.
Definition sizeof_bpsp__subscriber : Z := 40.

(** ** C strings in buffers *)

(** The string that starts at a cell: up to the first NUL. *)
Fixpoint cells_chars (l : list cell) : exec bytes :=
  match l with
  | [] | None :: _ => Undef
  | Some c :: l => if decide (c = NUL) then Done [] else s ← cells_chars l; mret (c :: s)
  end.

Definition cells_cstr (l : list cell) : exec string := s ← cells_chars l; mret (str s).

(** [buf[i] = c] *)
Definition put_cell (buf : list cell) (i : Z) (c : ascii) : exec (list cell) :=
  r ← mem__memcpy (Some buf) i (Some [Some c]) 1; deref r.

(** ** The counters of mem.c

    Nothing but [mem__set_limit] writes to them, and no allocation looks at the limit. *)
Record mem_counters := { memcount : Z; max_memcount : Z; mem_limit : Z }.
Definition mem_init : mem_counters := {| memcount := 0; max_memcount := 0; mem_limit := 0 |}.
Definition mem__memory_used (m : mem_counters) : Z := memcount m.
Definition mem__max_memory_used (m : mem_counters) : Z := max_memcount m.
Definition mem__set_limit (m : mem_counters) (lim : Z) : mem_counters :=
  {| memcount := memcount m; max_memcount := max_memcount m; mem_limit := lim |}.
