(* ===== verification/Net.v ===== *)
(** * net.h, net.c: blocking reads and writes on a connection

    The kernel's side of a socket is an interface, [Socket]: the calls [recv] and [send] and
    the documented relation between what they return and the byte streams of the connection.
    [net__read] and [net__write] are loops over these calls; the theorems are proved against
    the interface, and [script_socket] is an implementation of it that cuts the streams at
    given places. *)
From S2P Require Import Prelude Status.
Local Open Scope Z_scope.

(** ** Sockets *)

Class Socket (S : Type) := {
  (** [recv(fd, buf, n, 0)]: the value returned, the bytes stored, the socket after. *)
  sys_recv : S → Z → Z * bytes * S;
  (** [send(fd, buf, n, MSG_NOSIGNAL)] of the [n] bytes given. *)
  sys_send : S → bytes → Z * S;
  (** The bytes the peer sends before it closes, not yet received. *)
  rx : S → bytes;
  (** The bytes accepted for the peer so far. *)
  tx : S → bytes;
  (** The peer stays connected: [send] accepts at least one byte. *)
  writable : S → Prop;
}.

Class SocketLaws (S : Type) `{Socket S} : Prop := {
  recv_some s n k bs s' :
    0 < n → sys_recv s n = (k, bs, s') → 0 < k →
    k ≤ n ∧ Z.of_nat (List.length bs) = k ∧ rx s = bs ++ rx s';
  recv_none s n k bs s' :
    0 < n → sys_recv s n = (k, bs, s') → k ≤ 0 → rx s = [] ∧ rx s' = [];
  recv_tx s n k bs s' :
    sys_recv s n = (k, bs, s') → tx s' = tx s ∧ (writable s → writable s');
  send_some s bs k s' :
    bs ≠ [] → sys_send s bs = (k, s') → 0 < k →
    k ≤ Z.of_nat (List.length bs) ∧ tx s' = tx s ++ take (Z.to_nat k) bs;
  send_none s bs k s' :
    bs ≠ [] → sys_send s bs = (k, s') → k ≤ 0 → tx s' = tx s ∧ ¬ writable s;
  send_rx s bs k s' : sys_send s bs = (k, s') → rx s' = rx s;
  send_writable s bs k s' :
    bs ≠ [] → sys_send s bs = (k, s') → writable s → writable s';
}.

Inductive net__type := NET_T_NOOP | NET_T_PASSIVE | NET_T_ACTIVE.

Inductive net__state :=
  | NET_S_INIT
  | NET_S_DISCONNECTED
  | NET_S_CLOSED
  | NET_S_CONNECTING
  | NET_S_CONNECTED
  | NET_S_RECONNECTING
  | NET_S_LISTEN.

(** [addr] is the peer's address: the text of [inet_ntoa] and the port in host order.
    [sock] is the kernel's socket behind [sockfd]. *)
Record bpsp__connection {S : Type} := {
  sockfd : Z;
  addr : string * Z;
  type : net__type;
  state : net__state;
  sock : S;
}.
Arguments bpsp__connection : clear implicits.

Section Net.
Context {S : Type} `{Socket S}.
Implicit Types (conn : bpsp__connection S).

Definition set_sock conn (s : S) : bpsp__connection S :=
  {| sockfd := sockfd conn; addr := addr conn; type := type conn; state := state conn;
     sock := s |}.

Definition connection__create (fd : Z) (a : string * Z) (st : net__state) (t : net__type)
    (s : S) : bpsp__connection S :=
  {| sockfd := fd; addr := a; type := t; state := st; sock := s |}.

(** [close] is called only on a positive descriptor; the descriptor becomes 0. *)
Definition connection__close (conn : option (bpsp__connection S))
  : status__err * option (bpsp__connection S) :=
  match conn with
  | None => (BPSP_OK, None)
  | Some conn =>
      (BPSP_OK, Some {| sockfd := 0; addr := addr conn; type := type conn;
                        state := state conn; sock := sock conn |})
  end.

Definition net__close (conn : option (bpsp__connection S))
  : status__err * option (bpsp__connection S) :=
  match conn with
  | None => (BPSP_OK, None)
  | Some conn => connection__close (Some conn)
  end.

(** The system calls on the descriptor; on a closed one ([sockfd] is then 0) they fail. *)
Definition fd_recv conn (n : Z) : Z * bytes * bpsp__connection S :=
  if 0 <? sockfd conn then
    let '(k, bs, s') := sys_recv (sock conn) n in (k, bs, set_sock conn s')
  else (-1, [], conn).

Definition fd_send conn (bs : bytes) : Z * bpsp__connection S :=
  if 0 <? sockfd conn then
    let '(k, s') := sys_send (sock conn) bs in (k, set_sock conn s')
  else (-1, conn).

(** The loop of [net__read]; [buf] holds the [n_read] bytes stored so far. *)
Fixpoint net__read_loop (fuel : nat) conn (size n_read : Z) (buf : bytes) (block : bool)
  : exec (status__err * Z * bytes * bpsp__connection S) :=
  if n_read <? size then
    match fuel with
    | O => NoFuel
    | Datatypes.S fuel =>
        let '(n, bs, conn) := fd_recv conn (size - n_read) in
        if n =? 0 then Done (BPSP_CONNECTION_CLOSED, n_read, buf, conn)
        else if n <? 0 then Done (BPSP_IO_ERROR, n_read, buf, conn)
        else if block then net__read_loop fuel conn size (n_read + n) (buf ++ bs) block
        else Done (BPSP_OK, n_read + n, buf ++ bs, conn)
    end
  else Done (BPSP_OK, n_read, buf, conn).

(** Every iteration that goes on has stored at least one byte: [size] rounds are enough. *)
Definition net__read conn (size : Z) (block : bool)
  : exec (status__err * Z * bytes * bpsp__connection S) :=
  if size <=? 0 then Done (BPSP_OK, 0, [], conn)
  else net__read_loop (Z.to_nat size) conn size 0 [] block.

Fixpoint net__write_loop (fuel : nat) conn (buf : bytes) (size n_write : Z) (block : bool)
  : exec (status__err * Z * bpsp__connection S) :=
  if n_write <? size then
    match fuel with
    | O => NoFuel
    | Datatypes.S fuel =>
        let '(n, conn) :=
          fd_send conn (take (Z.to_nat (size - n_write)) (drop (Z.to_nat n_write) buf)) in
        if n =? 0 then Done (BPSP_CONNECTION_CLOSED, n_write, conn)
        else if n <? 0 then Done (BPSP_IO_ERROR, n_write, conn)
        else if block then net__write_loop fuel conn buf size (n_write + n) block
        else Done (BPSP_OK, n_write + n, conn)
    end
  else Done (BPSP_OK, n_write, conn).

(** Sending more than the buffer holds would read past its end. *)
Definition net__write (conn : option (bpsp__connection S)) (buf : option bytes) (size : Z)
    (block : bool) : exec (status__err * Z * option (bpsp__connection S)) :=
  match conn with
  | None => Done (BPSP_INVALID_ARG, 0, None)
  | Some conn =>
      if size <=? 0 then Done (BPSP_OK, 0, Some conn)
      else match buf with
           | None => Done (BPSP_INVALID_ARG, 0, Some conn)
           | Some buf =>
               if Z.of_nat (List.length buf) <? size then Undef
               else r ← net__write_loop (Z.to_nat size) conn buf size 0 block;
                    let '(s, n, conn) := r in mret (s, n, Some conn)
           end
  end.

Definition net__read_lock (conn : option (bpsp__connection S)) (size : Z) (block : bool)
  : exec (status__err * Z * bytes * option (bpsp__connection S)) :=
  match conn with
  | None => Done (BPSP_INVALID_ARG, 0, [], None)
  | Some conn =>
      r ← net__read conn size block; let '(s, n, buf, conn) := r in mret (s, n, buf, Some conn)
  end.

(** The source calls [net__read] here too. *)
Definition net__write_lock (conn : option (bpsp__connection S)) (size : Z) (block : bool)
  : exec (status__err * Z * bytes * option (bpsp__connection S)) :=
  match conn with
  | None => Done (BPSP_INVALID_ARG, 0, [], None)
  | Some conn =>
      r ← net__read conn size block; let '(s, n, buf, conn) := r in mret (s, n, buf, Some conn)
  end.

(** ** Theorems *)

Context `{!SocketLaws S}.

Lemma fd_recv_spec conn n k bs conn' :
  0 < sockfd conn → 0 < n → fd_recv conn n = (k, bs, conn') →
  ∃ s', conn' = set_sock conn s' ∧ tx s' = tx (sock conn)
    ∧ (writable (sock conn) → writable s')
    ∧ (0 < k → k ≤ n ∧ Z.of_nat (List.length bs) = k ∧ rx (sock conn) = bs ++ rx s')
    ∧ (k ≤ 0 → rx (sock conn) = [] ∧ rx s' = []).
Proof.
  intros Ho Hn. unfold fd_recv. rewrite (proj2 (Z.ltb_lt 0 _) Ho).
  destruct (sys_recv (sock conn) n) as [[k0 bs0] s0] eqn:E. intros [= -> -> <-].
  exists s0. pose proof (recv_tx _ _ _ _ _ E) as [? ?].
  split_and!; eauto using recv_some, recv_none.
Qed.

Lemma net__read_loop_spec fuel conn size n buf :
  0 < sockfd conn → 0 ≤ n → size - n ≤ Z.of_nat fuel →
  ∃ s got s', net__read_loop fuel conn size n buf true
              = Done (s, n + Z.of_nat (List.length got), buf ++ got, set_sock conn s')
    ∧ rx (sock conn) = got ++ rx s' ∧ tx s' = tx (sock conn)
    ∧ (writable (sock conn) → writable s')
    ∧ (s = BPSP_OK ∧ (n ≤ size → n + Z.of_nat (List.length got) = size)
       ∨ (s = BPSP_CONNECTION_CLOSED ∨ s = BPSP_IO_ERROR)
         ∧ n + Z.of_nat (List.length got) < size ∧ rx s' = []).
Proof.
  revert conn n buf. induction fuel as [|fuel IH]; intros conn n buf Ho Hn Hf;
    cbn [net__read_loop]; destruct (Z.ltb_spec n size) as [Hlt|Hge].
  - lia.
  - exists BPSP_OK, [], (sock conn). rewrite app_nil_r, Z.add_0_r. destruct conn; cbn in *.
    split_and!; try done. left. split; [done|lia].
  - destruct (fd_recv conn (size - n)) as [[k bs] conn'] eqn:E.
    apply fd_recv_spec in E as (s1 & -> & Htx & Hw & Hpos & Hneg); [|lia..].
    destruct (Z.eqb_spec k 0) as [->|Hk0].
    { destruct Hneg as [Hr Hr']; [lia|]. exists BPSP_CONNECTION_CLOSED, [], s1.
      rewrite app_nil_r, Z.add_0_r, Hr, Hr'. cbn. split_and!; eauto with lia. }
    destruct (Z.ltb_spec k 0).
    { destruct Hneg as [Hr Hr']; [lia|]. exists BPSP_IO_ERROR, [], s1.
      rewrite app_nil_r, Z.add_0_r, Hr, Hr'. cbn. split_and!; eauto with lia. }
    destruct Hpos as (Hle & Hlen & Hrx); [lia|].
    destruct (IH (set_sock conn s1) (n + k) (buf ++ bs)) as (s & got & s2 & -> & Hg & Ht & Hw2 & Hd);
      [done|lia..|]. cbn in *.
    exists s, (bs ++ got), s2. rewrite !length_app, <- !app_assoc, Hrx, Hg.
    rewrite Ht, Htx. replace (n + Z.of_nat (List.length bs + List.length got))
      with (n + k + Z.of_nat (List.length got)) by lia.
    split_and!; try done; [naive_solver|].
    destruct Hd as [[-> Hd]|Hd]; [left|right]; intuition lia.
  - exists BPSP_OK, [], (sock conn). rewrite app_nil_r, Z.add_0_r. destruct conn; cbn in *.
    split_and!; try done. left. split; [done|lia].
Qed.

(** [net__read] in blocking mode, in one relation: it returns with the first [size] bytes of
    the stream, or with all of them and an error when there are fewer. *)
Lemma net__read_spec conn size :
  0 < sockfd conn → 0 ≤ size →
  ∃ s got s', net__read conn size true
              = Done (s, Z.of_nat (List.length got), got, set_sock conn s')
    ∧ rx (sock conn) = got ++ rx s' ∧ tx s' = tx (sock conn)
    ∧ (writable (sock conn) → writable s')
    ∧ (s = BPSP_OK ∧ Z.of_nat (List.length got) = size
       ∨ (s = BPSP_CONNECTION_CLOSED ∨ s = BPSP_IO_ERROR)
         ∧ Z.of_nat (List.length got) < size ∧ rx s' = []).
Proof.
  intros Ho Hs. unfold net__read. destruct (Z.leb_spec size 0).
  - exists BPSP_OK, [], (sock conn). destruct conn; cbn in *. split_and!; try done.
    left. split; [done|lia].
  - destruct (net__read_loop_spec (Z.to_nat size) conn size 0 []) as
      (s & got & s' & -> & ? & ? & ? & Hd); [done|lia..|].
    exists s, got, s'. cbn. rewrite Z.add_0_l in *. split_and!; try done.
    destruct Hd as [[-> Hd]|Hd]; [left|right]; [|done]. split; [done|]. apply Hd. lia.
Qed.

(** The same, when the stream holds [bs] first and [size] is its length. *)
Lemma net__read_exact conn bs rest :
  0 < sockfd conn → rx (sock conn) = bs ++ rest →
  ∃ s', net__read conn (Z.of_nat (List.length bs)) true
        = Done (BPSP_OK, Z.of_nat (List.length bs), bs, set_sock conn s')
    ∧ rx s' = rest ∧ tx s' = tx (sock conn) ∧ (writable (sock conn) → writable s').
Proof.
  intros Ho Hrx.
  destruct (net__read_spec conn (Z.of_nat (List.length bs)))
    as (s & got & s' & E & Hrx' & Htx & Hw & Hd); [done|lia|].
  exists s'. destruct Hd as [[-> Hlen]|(_ & Hlt & Hnil)].
  - assert (got = bs ∧ rx s' = rest) as [-> ->].
    { apply (app_inj_1 got bs); [lia|]. congruence. }
    done.
  - exfalso. rewrite Hrx, Hnil, app_nil_r in Hrx'.
    apply (f_equal List.length) in Hrx'. rewrite length_app in Hrx'. lia.
Qed.

Lemma fd_send_spec conn bs k conn' :
  0 < sockfd conn → bs ≠ [] → fd_send conn bs = (k, conn') →
  ∃ s', conn' = set_sock conn s' ∧ rx s' = rx (sock conn)
    ∧ (writable (sock conn) → writable s' ∧ 0 < k)
    ∧ (0 < k → k ≤ Z.of_nat (List.length bs) ∧ tx s' = tx (sock conn) ++ take (Z.to_nat k) bs)
    ∧ (k ≤ 0 → tx s' = tx (sock conn)).
Proof.
  intros Ho Hn. unfold fd_send. rewrite (proj2 (Z.ltb_lt 0 _) Ho).
  destruct (sys_send (sock conn) bs) as [k0 s0] eqn:E. intros [= -> <-].
  exists s0. split_and!; eauto using send_rx, send_some.
  - intros Hw. split; [by eapply send_writable|].
    destruct (Z.leb_spec k 0) as [Hk|]; [|lia].
    eapply send_none in E; [|done..]. naive_solver.
  - intros. by eapply send_none.
Qed.

Lemma net__write_loop_spec fuel conn buf size n :
  0 < sockfd conn → 0 ≤ n ≤ size → size ≤ Z.of_nat (List.length buf) →
  size - n ≤ Z.of_nat fuel →
  ∃ s m s', net__write_loop fuel conn buf size n true = Done (s, m, set_sock conn s')
    ∧ n ≤ m ≤ size ∧ rx s' = rx (sock conn)
    ∧ tx s' = tx (sock conn) ++ take (Z.to_nat (m - n)) (drop (Z.to_nat n) buf)
    ∧ (s = BPSP_OK ∧ m = size
       ∨ (s = BPSP_CONNECTION_CLOSED ∨ s = BPSP_IO_ERROR) ∧ m < size)
    ∧ (writable (sock conn) → s = BPSP_OK ∧ writable s').
Proof.
  revert conn n. induction fuel as [|fuel IH]; intros conn n Ho Hn Hb Hf;
    cbn [net__write_loop]; destruct (Z.ltb_spec n size) as [Hlt|Hge]; [lia| | |].
  1, 3: assert (n = size) as -> by lia; exists BPSP_OK, size, (sock conn);
    rewrite Z.sub_diag, take_0, app_nil_r; destruct conn; cbn in *;
    split_and!; [done|lia|lia|done|done|by left|done].
  destruct (fd_send conn _) as [k conn'] eqn:E.
  apply fd_send_spec in E as (s1 & -> & Hrx & Hw & Hpos & Hneg); [|done|].
  2: { intros Hnil%(f_equal List.length). rewrite length_take, length_drop in Hnil.
       cbn in Hnil. lia. }
  rewrite length_take, length_drop in Hpos.
  destruct (Z.eqb_spec k 0) as [->|Hk0].
  { exists BPSP_CONNECTION_CLOSED, n, s1. rewrite Z.sub_diag, take_0, app_nil_r, Hneg by lia.
    split_and!; try done; [lia..|right; auto|]. intros [_ ?]%Hw. lia. }
  destruct (Z.ltb_spec k 0).
  { exists BPSP_IO_ERROR, n, s1. rewrite Z.sub_diag, take_0, app_nil_r, Hneg by lia.
    split_and!; try done; [lia..|right; auto|]. intros [_ ?]%Hw. lia. }
  destruct Hpos as (Hle & Htx); [lia|].
  destruct (IH (set_sock conn s1) (n + k)) as (s & m & s2 & -> & Hm & Hrx2 & Ht & Hd & Hw2);
    [done|lia..|]. cbn in *.
  exists s, m, s2. split_and!; [done|lia|lia|congruence| |done|naive_solver].
  rewrite Ht, Htx, take_take, <- app_assoc. f_equal.
  rewrite Nat.min_l by lia.
  replace (Z.to_nat (n + k)) with (Z.to_nat n + Z.to_nat k)%nat by lia.
  rewrite <- drop_drop. replace (Z.to_nat (m - n)) with
    (Z.to_nat k + Z.to_nat (m - (n + k)))%nat by lia.
  apply take_take_drop.
Qed.

Lemma net__write_spec conn buf size :
  0 < sockfd conn → 0 ≤ size ≤ Z.of_nat (List.length buf) →
  ∃ s m s', net__write (Some conn) (Some buf) size true = Done (s, m, Some (set_sock conn s'))
    ∧ 0 ≤ m ≤ size ∧ rx s' = rx (sock conn)
    ∧ tx s' = tx (sock conn) ++ take (Z.to_nat m) buf
    ∧ (s = BPSP_OK ∧ m = size
       ∨ (s = BPSP_CONNECTION_CLOSED ∨ s = BPSP_IO_ERROR) ∧ m < size)
    ∧ (writable (sock conn) → s = BPSP_OK ∧ writable s').
Proof.
  intros Ho Hs. unfold net__write. destruct (Z.leb_spec size 0).
  - assert (size = 0) as -> by lia. exists BPSP_OK, 0, (sock conn).
    rewrite take_0, app_nil_r. destruct conn; cbn in *. split_and!; try done. by left.
  - destruct (Z.ltb_spec (Z.of_nat (List.length buf)) size); [lia|].
    destruct (net__write_loop_spec (Z.to_nat size) conn buf size 0) as
      (s & m & s' & E & ? & ? & Ht & ? & ?); [done|lia..|].
    exists s, m, s'. rewrite E. rewrite Z.sub_0_r, drop_0 in Ht. done.
Qed.

(** A connection whose peer reads takes the whole buffer. *)
Lemma net__write_exact conn bs :
  0 < sockfd conn → writable (sock conn) →
  ∃ s', net__write (Some conn) (Some bs) (Z.of_nat (List.length bs)) true
        = Done (BPSP_OK, Z.of_nat (List.length bs), Some (set_sock conn s'))
    ∧ rx s' = rx (sock conn) ∧ tx s' = tx (sock conn) ++ bs ∧ writable s'.
Proof.
  intros Ho Hw.
  destruct (net__write_spec conn bs (Z.of_nat (List.length bs))) as
    (s & m & s' & -> & ? & ? & Ht & Hd & Hw'); [done|lia|].
  destruct Hw' as [-> ?]; [done|]. exists s'.
  destruct Hd as [[_ ->]|[[?|?] _]]; [|done..].
  rewrite Nat2Z.id, firstn_all in Ht. done.
Qed.
End Net.

(** ** A socket with given segment sizes

    [rx_cuts] bounds what successive [recv] calls return, [tx_cuts] what successive [send]
    calls accept (an exhausted list means no bound); after the data, [recv] returns 0 when
    [closing], and fails otherwise; [send] fails once the peer is [gone]. *)
Record script_socket := {
  s_rx : bytes; rx_cuts : list nat; closing : bool;
  s_tx : bytes; tx_cuts : list nat; gone : bool;
}.

Definition script_recv (s : script_socket) (n : Z) : Z * bytes * script_socket :=
  match s_rx s with
  | [] => (if closing s then 0 else -1, [], s)
  | _ =>
      let k := match rx_cuts s with
               | [] => Z.to_nat n
               | c :: _ => Nat.min (Z.to_nat n) (Datatypes.S c)
               end in
      let got := take k (s_rx s) in
      (Z.of_nat (List.length got), got,
       {| s_rx := drop k (s_rx s); rx_cuts := tail (rx_cuts s); closing := closing s;
          s_tx := s_tx s; tx_cuts := tx_cuts s; gone := gone s |})
  end.

Definition script_send (s : script_socket) (bs : bytes) : Z * script_socket :=
  if gone s then (-1, s) else
  let k := match tx_cuts s with
           | [] => List.length bs
           | c :: _ => Nat.min (List.length bs) (Datatypes.S c)
           end in
  (Z.of_nat k,
   {| s_rx := s_rx s; rx_cuts := rx_cuts s; closing := closing s;
      s_tx := s_tx s ++ take k bs; tx_cuts := tail (tx_cuts s); gone := gone s |}).

#[export] Instance Socket_script : Socket script_socket := {
  sys_recv := script_recv; sys_send := script_send; rx := s_rx; tx := s_tx;
  writable s := gone s = false;
}.

#[export] Instance SocketLaws_script : SocketLaws script_socket.
Proof.
  split; cbn.
  - intros s n k bs s' Hn. unfold script_recv. destruct (s_rx s) as [|b r] eqn:E.
    { destruct (closing s); intros [= <- <- <-]; lia. }
    intros [= <- <- <-] _. rewrite length_take. cbn [s_rx]. rewrite take_drop.
    split_and!; [|done|done]. destruct (rx_cuts s); lia.
  - intros s n k bs s' Hn. unfold script_recv. destruct (s_rx s) as [|b r] eqn:E.
    { by intros [= <- <- <-]. }
    intros [= <- <- <-]. rewrite length_take. cbn [List.length]. destruct (rx_cuts s); lia.
  - intros s n k bs s'. unfold script_recv. destruct (s_rx s).
    + by intros [= <- <- <-].
    + by intros [= <- <- <-].
  - intros s bs k s' Hb. unfold script_send. destruct (gone s); intros [= <- <-]; [lia|].
    intros _. rewrite Nat2Z.id. split; [|done]. destruct (tx_cuts s); lia.
  - intros s bs k s' Hb. unfold script_send. destruct (gone s); intros [= <- <-]; [done|].
    destruct bs as [|b bs]; [done|]. cbn [List.length]. destruct (tx_cuts s); lia.
  - intros s bs k s'. unfold script_send. by destruct (gone s); intros [= <- <-].
  - intros s bs k s' _. unfold script_send. destruct (gone s) eqn:E; intros [= <- <-]; done.
Qed.
