(* ===== verification/Frame.v ===== *)
(** * frame.h, frame.c: frames, their variable headers and their payload *)
From S2P Require Import Prelude Status Uthash Mem.
Local Open Scope Z_scope.

(** ** Data *)

Inductive bpsp__opcode :=
  | OP_NOOP | OP_INFO | OP_CONNECT | OP_PUB | OP_SUB | OP_UNSUB | OP_MSG | OP_OK | OP_ERR.

Definition opcode_code (o : bpsp__opcode) : Z :=
  match o with
  | OP_NOOP => 0 | OP_INFO => 1 | OP_CONNECT => 2 | OP_PUB => 3 | OP_SUB => 4
  | OP_UNSUB => 5 | OP_MSG => 6 | OP_OK => 7 | OP_ERR => 8
  end.

Definition FL_ACK : Z := 0x80.
Definition FL_PUB_ECHO : Z := 0x40.
Definition flag__is_set (flag flags_set : Z) : bool := negb (Z.land flag flags_set =? 0).

(** The [value] pointer of a header: the C code leaves it indeterminate when a header is
    created with an empty value. *)
Inductive header_value :=
  | Indet
  | Str (s : string).

#[export] Instance header_value_eq_dec : EqDecision header_value.
Proof. solve_decision. Defined.

(** The key of a [bpsp__var_header] is the key of its entry in the table; the fields [n_key]
    and [n_value] are never assigned nor read. *)
Notation var_headers_t := (hash header_value).

Record bpsp__frame := {
  vars_size : Z;                     (* uint16 *)
  opcode : Z;                        (* uint8 *)
  flag : Z;                          (* uint8 *)
  data_size : Z;                     (* uint32 *)
  var_headers : list (string * header_value);
  payload : option (list cell);      (* NULL or a block *)
  payload_size : Z;                  (* uint32 *)
  pos : Z;                           (* uint32 *)
  _is_completed : Z;                 (* uint8 *)
}.

Definition set_vars (f : bpsp__frame) (size : Z) (hs : list (string * header_value)) :=
  {| vars_size := size; opcode := opcode f; flag := flag f; data_size := data_size f;
     var_headers := hs; payload := payload f; payload_size := payload_size f; pos := pos f;
     _is_completed := _is_completed f |}.

Definition set_control (f : bpsp__frame) (op fl : Z) :=
  {| vars_size := vars_size f; opcode := op; flag := fl; data_size := data_size f;
     var_headers := var_headers f; payload := payload f; payload_size := payload_size f;
     pos := pos f; _is_completed := _is_completed f |}.

(** [data_size] and [payload_size] are always assigned together. *)
Definition set_payload (f : bpsp__frame) (p : option (list cell)) (size at_pos : Z) :=
  {| vars_size := vars_size f; opcode := opcode f; flag := flag f; data_size := size;
     var_headers := var_headers f; payload := p; payload_size := size; pos := at_pos;
     _is_completed := _is_completed f |}.

Definition set_pos (f : bpsp__frame) (at_pos : Z) :=
  {| vars_size := vars_size f; opcode := opcode f; flag := flag f; data_size := data_size f;
     var_headers := var_headers f; payload := payload f; payload_size := payload_size f;
     pos := at_pos; _is_completed := _is_completed f |}.

Definition set_completed (f : bpsp__frame) (c : Z) :=
  {| vars_size := vars_size f; opcode := opcode f; flag := flag f; data_size := data_size f;
     var_headers := var_headers f; payload := payload f; payload_size := payload_size f;
     pos := pos f; _is_completed := c |}.

(** A frame whose memory is set to 0. *)
Definition frame_zero : bpsp__frame :=
  {| vars_size := 0; opcode := 0; flag := 0; data_size := 0; var_headers := [];
     payload := None; payload_size := 0; pos := 0; _is_completed := 0 |}.

(** A [char* ]; [None] is NULL. *)
Notation cstr := (option string) (only parsing).

(** [bpsp__var_header_pair]: NULL, or the key and the value. *)
Notation header_pair := (option (cstr * cstr)) (only parsing).

Section Frame.
Context `{Malloc}.

(** ** Variable headers *)

(** The value that [var_header__new] leaves in the new header. *)
Definition var_header__new (key value : cstr) : option (string * header_value) :=
  match key with
  | None => None
  | Some k =>
      if malloc_ok sizeof_bpsp__var_header then
        Some (k, match value with
                 | Some v => if strlen v =? 0 then Indet else Str v
                 | None => Indet
                 end)
      else None
  end.

Definition frame__alloc : option bpsp__frame :=
  if malloc_ok sizeof_bpsp__frame then Some frame_zero else None.

Definition frame__new : option bpsp__frame := frame__alloc.

Definition frame__free_payload (f : bpsp__frame) : bpsp__frame := set_payload f None 0 0.

(** [vars_size] is not touched. *)
Definition frame__free_var_headers (f : bpsp__frame) : bpsp__frame :=
  set_vars f (vars_size f) [].

Definition frame__empty (f : bpsp__frame) : exec (status__err * bpsp__frame) :=
  let f := frame__free_payload f in
  let f := frame__free_var_headers f in
  Done (BPSP_OK, frame_zero).

Definition frame__get_var_header (f : bpsp__frame) (key : cstr) : option header_value :=
  match key with
  | None => None
  | Some k => hash_find k (var_headers f)
  end.

(** [strlen] of a header value: an indeterminate pointer may not be read. *)
Definition value_strlen (v : header_value) : exec Z :=
  match v with Indet => Undef | Str s => Done (strlen s) end.

Definition frame__set_var_header (f : bpsp__frame) (key value : cstr)
  : exec (status__err * bpsp__frame) :=
  match key with
  | None => Done (BPSP_INVALID_ARG, f)
  | Some k =>
      if strlen k =? 0 then Done (BPSP_INVALID_ARG, f) else
      v ← deref value;
      let key_len := u16 (strlen k) in
      let value_len := u16 (strlen v) in
      match hash_find k (var_headers f) with
      | Some old =>
          old_len ← value_strlen old;
          let size := u16 (vars_size f - old_len) in
          (* var_header__set: the old value is freed and replaced *)
          let f := set_vars f size (hash_set k (Str v) (var_headers f)) in
          if size + value_len <? 65536
          then Done (BPSP_OK, set_vars f (u16 (size + value_len)) (var_headers f))
          else Done (BPSP_MAX_VAR_HEADERS, f)
      | None =>
          match var_header__new (Some k) (Some v) with
          | None => Done (BPSP_NO_MEMORY, f)
          | Some (k, hv) =>
              if vars_size f + key_len + value_len + 5 <? 65536
              then Done (BPSP_OK, set_vars f (u16 (vars_size f + key_len + value_len + 5))
                                           (hash_add k hv (var_headers f)))
              else Done (BPSP_MAX_VAR_HEADERS, f)
          end
      end
  end.

Definition frame__set_var_header2 (f : bpsp__frame) (pair : header_pair)
  : exec (status__err * bpsp__frame) :=
  match pair with
  | None => Done (BPSP_INVALID_ARG, f)
  | Some (k, v) => frame__set_var_header f k v
  end.

(** The loop over [headers[0..n_headers-1]]; reading past the array is undefined. *)
Fixpoint set_var_headers_loop (f : bpsp__frame) (headers : list header_pair) (n : nat)
  {struct n}
  : exec (status__err * bpsp__frame) :=
  match n with
  | O => Done (BPSP_OK, f)
  | S n => match headers with
           | [] => Undef
           | p :: headers =>
               ok! f ← frame__set_var_header2 f p; set_var_headers_loop f headers n
           end
  end.

Definition frame__set_var_headers (f : bpsp__frame) (headers : option (list header_pair))
    (n_headers : nat) : exec (status__err * bpsp__frame) :=
  if (n_headers =? 0)%nat then Done (BPSP_OK, f) else
  match headers with
  | None => Done (BPSP_INVALID_ARG, f)
  | Some hs => set_var_headers_loop f hs n_headers
  end.

(** ** The wire form of the headers *)

Definition QUOTE : ascii := "034"%char.
Definition BACKSLASH : ascii := "\"%char.
Definition SEMICOLON : ascii := ";"%char.

(** [data + n] receives the first [len] bytes of [bs]; [n], a uint16, moves past them. *)
Definition put_bytes (data : option (list cell)) (n : Z) (bs : bytes) (len : Z)
  : exec (option (list cell) * Z) :=
  data ← mem__memcpy data n (Some (Some <$> bs)) len; mret (data, u16 (n + len)).

Fixpoint to_bytes_loop (hs : list (string * header_value)) (data : option (list cell))
    (n : Z) : exec (option (list cell)) :=
  match hs with
  | [] => Done data
  | (key, value) :: hs =>
      '(data, n) ← put_bytes data n [QUOTE] 1;
      '(data, n) ← put_bytes data n (chars key) (u16 (strlen key));
      '(data, n) ← put_bytes data n [QUOTE] 1;
      '(data, n) ← put_bytes data n [QUOTE] 1;
      match value with
      | Indet => Undef
      | Str v =>
          '(data, n) ← put_bytes data n (chars v) (u16 (strlen v));
          '(data, n) ← put_bytes data n [QUOTE] 1;
          '(data, n) ← put_bytes data n [SEMICOLON] 1;
          to_bytes_loop hs data n
      end
  end.

Definition var_header__to_bytes (hs : list (string * header_value))
    (data : option (list cell)) : exec (status__err * option (list cell)) :=
  if (hash_count hs =? 0)%nat then Done (BPSP_OK, data) else
  data ← to_bytes_loop hs data 0; mret (BPSP_OK, data).

(** The locals of [frame__parse_var_header]; the buffer is written to. *)
Record parse_state := {
  p_n : Z; start_key : Z; end_key : Z; start_value : Z;
  p_buf : bytes; p_frame : bpsp__frame;
}.

Definition parse_mark (st : parse_state) (k e v : Z) : parse_state :=
  {| p_n := u16 (p_n st + 1); start_key := k; end_key := e; start_value := v;
     p_buf := p_buf st; p_frame := p_frame st |}.

(** The test that [continue]s: not the first byte, and not an unescaped double quote. *)
Definition parse_skips (buf : bytes) (n : Z) : exec bool :=
  if n =? 0 then Done false else
  c ← deref (buf !! Z.to_nat n);
  if decide (c = QUOTE) then
    p ← deref (buf !! Z.to_nat (n - 1)); Done (bool_decide (p = BACKSLASH))
  else Done true.

(** The closing quote of a value: terminate both strings and store the header; the status
    of [frame__set_var_header] is dropped. *)
Definition parse_close (st : parse_state) : exec parse_state :=
  let buf := <[Z.to_nat (p_n st) := NUL]> (<[Z.to_nat (end_key st) := NUL]> (p_buf st)) in
  k ← cstr_at buf (Z.to_nat (start_key st));
  v ← cstr_at buf (Z.to_nat (start_value st));
  '(_, f) ← frame__set_var_header (p_frame st) (Some k) (Some v);
  mret {| p_n := u16 (u16 (p_n st + 1) + 1); start_key := 0; end_key := 0; start_value := 0;
          p_buf := buf; p_frame := f |}.

Fixpoint parse_loop (fuel : nat) (size : Z) (st : parse_state) : exec parse_state :=
  if p_n st <? size then
    match fuel with
    | O => NoFuel
    | S fuel =>
        skips ← parse_skips (p_buf st) (p_n st);
        if (skips : bool) then
          parse_loop fuel size (parse_mark st (start_key st) (end_key st) (start_value st))
        else if start_key st =? 0 then
          parse_loop fuel size (parse_mark st (u16 (p_n st + 1)) (end_key st) (start_value st))
        else if end_key st =? 0 then
          parse_loop fuel size (parse_mark st (start_key st) (p_n st) (start_value st))
        else if start_value st =? 0 then
          parse_loop fuel size (parse_mark st (start_key st) (end_key st) (u16 (p_n st + 1)))
        else st ← parse_close st; parse_loop fuel size st
    end
  else Done st.

(** The counter wraps at most once (only in a block of 65535 bytes that ends with a closing
    quote), so two passes over the block are enough. *)
Definition parse_fuel (size : Z) : nat := 2 * Z.to_nat size.

Definition frame__parse_var_header (f : bpsp__frame) (buf : bytes) (size : Z)
  : exec (status__err * bpsp__frame) :=
  if size =? 0 then Done (BPSP_OK, f) else
  st ← parse_loop (parse_fuel size) size
         {| p_n := 0; start_key := 0; end_key := 0; start_value := 0;
            p_buf := buf; p_frame := f |};
  if start_key st =? 0 then mret (BPSP_OK, p_frame st)
  else mret (BPSP_INVALID_VAR_HEADERS, p_frame st).

(** ** Opcode and flag *)

Definition frame__validate_opcode (op : Z) : status__err :=
  if op <=? 0 then BPSP_INVALID_OPCODE
  else if 0 <? op then BPSP_OK else BPSP_INVALID_OPCODE.

Definition frame__set_opcode (f : bpsp__frame) (op : Z) : exec (status__err * bpsp__frame) :=
  match frame__validate_opcode op with
  | BPSP_OK => Done (BPSP_OK, set_control f op (flag f))
  | s => Done (s, f)
  end.

Definition frame__set_flag (f : bpsp__frame) (fl : Z) : exec (status__err * bpsp__frame) :=
  Done (BPSP_OK, set_control f (opcode f) fl).

Definition frame__set_frame_control (f : bpsp__frame) (op fl : Z)
  : exec (status__err * bpsp__frame) :=
  ok! f ← frame__set_opcode f op; frame__set_flag f fl.

(** ** Payload *)

Definition frame__malloc_payload (f : bpsp__frame) (size : Z)
  : exec (status__err * bpsp__frame) :=
  if size =? 0 then Done (BPSP_OK, frame__free_payload f) else
  let p :=
    if negb (payload_size f =? 0) then
      if negb (payload_size f =? size) then mem__realloc (payload f) size else payload f
    else mem__malloc size in
  match p with
  | None => Done (BPSP_NO_MEMORY, set_payload f None 0 0)
  | Some _ => Done (BPSP_OK, set_payload f p size 0)
  end.

Definition frame__put_payload (f : bpsp__frame) (src : option (list cell)) (size : Z)
    (append : bool) : exec (status__err * bpsp__frame) :=
  let at_pos := if append then pos f else 0 in
  let allocate_size := if append then u32 (payload_size f + size) else size in
  ok! f ← frame__malloc_payload f allocate_size;
  p ← mem__memcpy (payload f) at_pos src size;
  mret (BPSP_OK, set_payload f p (payload_size f) (u32 (size + at_pos))).

Definition frame__replace_payload (f : bpsp__frame) (p : option (list cell)) (size : Z)
  : exec (status__err * bpsp__frame) :=
  let f := frame__free_payload f in Done (BPSP_OK, set_payload f p size size).

Definition frame__validate_var_headers (f : bpsp__frame) : status__err :=
  if vars_size f <? 65536 then BPSP_OK else BPSP_MAX_VAR_HEADERS.

Definition frame__is_completed (f : option bpsp__frame) : status__err :=
  match f with
  | None => BPSP_INVALID_ARG
  | Some f => if _is_completed f =? 0 then BPSP_NOT_COMPLETED_FRAME else BPSP_OK
  end.

(** [now] is the text that [date_now_utc] writes. *)
Definition frame__build (now : string) (f : bpsp__frame) : exec (status__err * bpsp__frame) :=
  ok! f ← frame__set_var_header f (Some "x-time"%string) (Some now);
  match frame__validate_opcode (opcode f) with
  | BPSP_OK => Done (BPSP_OK, set_completed f 1)
  | s => Done (s, f)
  end.

(** ** Copies *)

(** [var_header->value] is passed on as it is: an indeterminate pointer is used. *)
Fixpoint frame__copy_var_headers (dst : bpsp__frame) (hs : list (string * header_value))
  : exec (status__err * bpsp__frame) :=
  match hs with
  | [] => Done (BPSP_OK, dst)
  | (k, Indet) :: hs => Undef
  | (k, Str v) :: hs =>
      ok! dst ← frame__set_var_header dst (Some k) (Some v); frame__copy_var_headers dst hs
  end.

Definition frame__copy_header (dst src : bpsp__frame) : exec (status__err * bpsp__frame) :=
  ok! dst ← frame__set_frame_control dst (opcode src) (flag src);
  frame__copy_var_headers dst (var_headers src).

Definition frame__copy (now : string) (dst src : bpsp__frame) (build : bool)
  : exec (status__err * bpsp__frame) :=
  if decide (frame__is_completed (Some src) = BPSP_OK) then
    ok! dst ← frame__empty dst;
    ok! dst ← frame__copy_header dst src;
    ok! dst ← frame__put_payload dst (payload src) (payload_size src) false;
    if build then frame__build now dst else Done (BPSP_OK, dst)
  else Done (BPSP_INVALID_ARG, dst).

(** What [frame__dup] returns: NULL, a frame, or a pointer to a frame it has freed. *)
Inductive dup_result := DupNull | DupFrame (f : bpsp__frame) | DupFreed.

Definition frame__dup (now : string) (src : option bpsp__frame) (build : bool)
  : exec dup_result :=
  match src with
  | None => Done DupNull
  | Some src =>
      match frame__new with
      | None => Done DupNull
      | Some dst =>
          '(s, dst) ← frame__copy now dst src build;
          if decide (s = BPSP_OK) then mret (DupFrame dst) else mret DupFreed
      end
  end.
End Frame.

#[global] Arguments frame__set_var_header : simpl never.
#[global] Arguments frame__malloc_payload : simpl never.
#[global] Arguments frame__put_payload : simpl never.
#[global] Arguments frame__build : simpl never.
