(* ===== verification/FrameFacts.v ===== *)
(** * The invariant of a frame, and what the operations of [Frame] do to it *)
From S2P Require Import Prelude Status Uthash Mem Frame.
Local Open Scope Z_scope.

(** ** Invariant *)

Definition value_len (v : header_value) : Z :=
  match v with Indet => 0 | Str s => strlen s end.

(** The bytes that the code counts for a header: uint16 lengths, four quotes, a semicolon. *)
Definition header_size (e : string * header_value) : Z :=
  u16 (strlen e.1) + u16 (value_len e.2) + 5.

Fixpoint headers_size (hs : list (string * header_value)) : Z :=
  match hs with
  | [] => 0
  | e :: hs => header_size e + headers_size hs
  end.

Record headers_wf (f : bpsp__frame) : Prop := {
  hw_size : vars_size f = headers_size (var_headers f);
  hw_max : vars_size f < 65536;
  hw_keys : NoDup (var_headers f).*1;
  hw_nonempty : ∀ k v, (k, v) ∈ var_headers f → strlen k ≠ 0;
}.

(** The payload pointer, its two sizes, and the block behind it agree. *)
Record payload_wf (f : bpsp__frame) : Prop := {
  pw_sizes : data_size f = payload_size f;
  pw_range : 0 ≤ payload_size f < 4294967296;
  pw_block : match payload f with
             | None => payload_size f = 0
             | Some l => payload_size f = Z.of_nat (List.length l) ∧ payload_size f ≠ 0
             end;
}.

Record frame_wf (f : bpsp__frame) : Prop := {
  fw_headers : headers_wf f;
  fw_payload : payload_wf f;
  fw_opcode : 0 ≤ opcode f < 256;
  fw_flag : 0 ≤ flag f < 256;
}.

(** Every value pointer is initialised. *)
Definition all_str (hs : list (string * header_value)) : Prop :=
  Forall (fun e => e.2 ≠ Indet) hs.

#[export] Instance all_str_dec hs : Decision (all_str hs).
Proof. unfold all_str. apply _. Defined.

(** ** Sizes *)

Lemma header_size_bounds e : 5 ≤ header_size e.
Proof.
  unfold header_size. pose proof (u16_range (strlen e.1)).
  pose proof (u16_range (value_len e.2)). lia.
Qed.

Lemma headers_size_nonneg hs : 0 ≤ headers_size hs.
Proof. induction hs as [|e hs IH]; cbn; [lia|]. pose proof (header_size_bounds e). lia. Qed.

Lemma headers_size_app hs1 hs2 :
  headers_size (hs1 ++ hs2) = headers_size hs1 + headers_size hs2.
Proof. induction hs1 as [|e hs1 IH]; cbn; lia. Qed.

Lemma headers_size_set hs k v w :
  NoDup hs.*1 → hash_find k hs = Some w →
  headers_size (hash_set k v hs)
  = headers_size hs - u16 (value_len w) + u16 (value_len v).
Proof.
  intros Hd Hf. destruct (hash_set_split k v w hs Hd Hf) as (h1 & h2 & -> & ->).
  rewrite !headers_size_app. cbn. unfold header_size. cbn. lia.
Qed.

Lemma headers_size_found hs k w :
  NoDup hs.*1 → hash_find k hs = Some w → u16 (value_len w) + 5 ≤ headers_size hs.
Proof.
  intros Hd Hf. destruct (hash_set_split k w w hs Hd Hf) as (h1 & h2 & -> & _).
  rewrite headers_size_app. cbn. unfold header_size. cbn.
  pose proof (headers_size_nonneg h1). pose proof (headers_size_nonneg h2).
  pose proof (u16_range (strlen k)). lia.
Qed.

Lemma hash_set_elem k v k' v' (hs : list (string * header_value)) :
  (k', v') ∈ hash_set k v hs → ∃ w, (k', w) ∈ hs.
Proof.
  intros Hin. assert (k' ∈ (hash_set k v hs).*1) as Hk by
    (by apply (list_elem_of_fmap_2 fst _ (k', v'))).
  rewrite hash_set_keys in Hk. apply list_elem_of_fmap in Hk as ([k0 w] & -> & ?). by exists w.
Qed.

Section FrameFacts.
Context `{Malloc}.

(** ** frame__set_var_header *)

(** A key that is not in the table. *)
Lemma set_var_header_new f k v :
  strlen k ≠ 0 → hash_find k (var_headers f) = None →
  frame__set_var_header f (Some k) (Some v) =
    Done (if malloc_ok sizeof_bpsp__var_header then
            let hv := if strlen v =? 0 then Indet else Str v in
            if vars_size f + header_size (k, Str v) <? 65536
            then (BPSP_OK, set_vars f (u16 (vars_size f + header_size (k, Str v)))
                                      (hash_add k hv (var_headers f)))
            else (BPSP_MAX_VAR_HEADERS, f)
          else (BPSP_NO_MEMORY, f)).
Proof.
  intros Hk Hf. unfold frame__set_var_header. rewrite (proj2 (Z.eqb_neq _ 0) Hk). cbn.
  rewrite Hf. unfold var_header__new, header_size. destruct (malloc_ok _); [|done]. cbn.
  rewrite !Z.add_assoc. by destruct (_ <? 65536).
Qed.

(** A key of the table whose value is initialised. *)
Lemma set_var_header_found f k v w :
  headers_wf f → strlen k ≠ 0 → hash_find k (var_headers f) = Some (Str w) →
  let size := vars_size f - u16 (strlen w) in
  frame__set_var_header f (Some k) (Some v) =
    Done (if size + u16 (strlen v) <? 65536
          then (BPSP_OK, set_vars f (size + u16 (strlen v))
                                    (hash_set k (Str v) (var_headers f)))
          else (BPSP_MAX_VAR_HEADERS, set_vars f size (hash_set k (Str v) (var_headers f)))).
Proof.
  intros Hw Hk Hf size. unfold frame__set_var_header.
  rewrite (proj2 (Z.eqb_neq _ 0) Hk). cbn. rewrite Hf. cbn.
  pose proof (headers_size_found _ _ _ (hw_keys _ Hw) Hf) as Hle. cbn in Hle.
  pose proof (hw_size _ Hw). pose proof (hw_max _ Hw).
  pose proof (u16_range (strlen w)). pose proof (u16_range (strlen v)).
  assert (u16 (vars_size f - strlen w) = size) as ->.
  { unfold size. rewrite <- (u16_small (vars_size f - u16 (strlen w))) by lia.
    unfold u16. by rewrite Zminus_mod_idemp_r. }
  destruct (Z.ltb_spec (size + u16 (strlen v)) 65536); [|done].
  rewrite u16_small by lia. done.
Qed.

(** The headers after a header was set: an existing entry keeps its place. *)
Definition headers_after (hs : list (string * header_value)) (k v : string) :=
  match hash_find k hs with
  | Some _ => hash_set k (Str v) hs
  | None => hash_add k (if strlen v =? 0 then Indet else Str v) hs
  end.

Lemma set_var_header_ok_inv f key value f' :
  frame__set_var_header f key value = Done (BPSP_OK, f') →
  ∃ k v, key = Some k ∧ value = Some v ∧ strlen k ≠ 0
    ∧ hash_find k (var_headers f) ≠ Some Indet
    ∧ f' = set_vars f (vars_size f') (headers_after (var_headers f) k v).
Proof.
  unfold frame__set_var_header, headers_after. destruct key as [k|]; [|done].
  destruct (Z.eqb_spec (strlen k) 0) as [|Hk]; [done|].
  destruct value as [v|]; [cbn|done]. intros E. exists k, v.
  destruct (hash_find k (var_headers f)) as [[|w]|]; [done| |]; cbn in E.
  - destruct (_ <? 65536); [|done]. injection E as <-. done.
  - destruct (malloc_ok _); [cbn in E|done].
    destruct (_ <? 65536); [|done]. injection E as <-. done.
Qed.

(** Only the headers and their counted size change. *)
Lemma set_var_header_vars f key value s f' :
  frame__set_var_header f key value = Done (s, f') → ∃ size hs, f' = set_vars f size hs.
Proof.
  unfold frame__set_var_header.
  assert (∃ size hs, f = set_vars f size hs) as Hself
    by (exists (vars_size f), (var_headers f); by destruct f).
  destruct key as [k|]; [|by intros [= <- <-]].
  destruct (strlen k =? 0); [by intros [= <- <-]|].
  destruct value as [v|]; [cbn|done].
  destruct (hash_find k (var_headers f)) as [[|w]|]; [done| |]; cbn.
  - destruct (_ <? 65536); intros [= <- <-]; by eexists _, _.
  - destruct (malloc_ok _); cbn; [|by intros [= <- <-]].
    destruct (_ <? 65536); intros [= <- <-]; [by eexists _, _|done].
Qed.

(** A successful [frame__set_var_header] keeps the invariant of the headers: the counted size
    is the size of the wire form, and fits in 16 bits. *)
Lemma set_var_header_wf f key value f' :
  headers_wf f → frame__set_var_header f key value = Done (BPSP_OK, f') → headers_wf f'.
Proof.
  intros Hw E. pose proof (set_var_header_ok_inv _ _ _ _ E) as
    (k & v & -> & -> & Hk & Hnot & _).
  pose proof (headers_size_nonneg (var_headers f)). destruct Hw as [Hsz Hmax Hnd Hne] eqn:EHw.
  destruct (hash_find k (var_headers f)) as [[|w]|] eqn:Hf; [done| |].
  - rewrite (set_var_header_found f k v w) in E by done.
    destruct (Z.ltb_spec (vars_size f - u16 (strlen w) + u16 (strlen v)) 65536); [|done].
    injection E as <-. split; cbn.
    + rewrite (headers_size_set _ _ _ (Str w)) by done. cbn. lia.
    + lia.
    + by rewrite hash_set_keys.
    + intros k' v' [w' ?]%hash_set_elem. by eapply Hne.
  - rewrite set_var_header_new in E by done. destruct (malloc_ok _); [|done].
    destruct (Z.ltb_spec (vars_size f + header_size (k, Str v)) 65536) as [Hlt|]; [|done].
    injection E as <-. pose proof (header_size_bounds (k, Str v)).
    split; cbn.
    + rewrite u16_small by lia. unfold hash_add. rewrite headers_size_app, Hsz. cbn.
      unfold header_size. cbn. destruct (Z.eqb_spec (strlen v) 0) as [Hv|]; cbn; [|lia].
      rewrite Hv. cbn. lia.
    + rewrite u16_small by lia. lia.
    + by apply hash_add_NoDup.
    + intros k' v' [?|[= -> ->]%list_elem_of_singleton]%elem_of_app; [by eapply Hne|done].
Qed.

(** A refused header: what status, and what is left of the frame. *)
Lemma set_var_header_error f key value s f' :
  frame__set_var_header f key value = Done (s, f') → s ≠ BPSP_OK →
  (s = BPSP_INVALID_ARG ∨ s = BPSP_NO_MEMORY ∨ s = BPSP_MAX_VAR_HEADERS)
  ∧ ((∀ k, key = Some k → hash_find k (var_headers f) = None) → f' = f).
Proof.
  unfold frame__set_var_header. destruct key as [k|]; [|intros [= <- <-]; auto].
  destruct (strlen k =? 0); [intros [= <- <-]; auto|].
  destruct value as [v|]; [cbn|done]. intros E Hs.
  destruct (hash_find k (var_headers f)) as [[|w]|] eqn:Hf; [done| |]; cbn in E.
  - destruct (_ <? 65536); injection E as <- <-; [done|].
    split; [auto|]. intros Hn. specialize (Hn k eq_refl). congruence.
  - destruct (malloc_ok _); cbn in E; [|injection E as <- <-; auto].
    destruct (_ <? 65536); injection E as <- <-; [done|auto].
Qed.

(** It never reads an indeterminate value when all are initialised. *)
Lemma set_var_header_defined f k v :
  all_str (var_headers f) → ∃ s f', frame__set_var_header f (Some k) (Some v) = Done (s, f').
Proof.
  intros Ha. unfold frame__set_var_header. destruct (strlen k =? 0); [by eauto|]. cbn.
  destruct (hash_find k (var_headers f)) as [[|w]|] eqn:Hf.
  - exfalso. apply hash_find_Some_elem in Hf. unfold all_str in Ha.
    rewrite Forall_forall in Ha. by apply (Ha _ Hf).
  - cbn. destruct (_ <? 65536); eauto.
  - destruct (malloc_ok _); cbn; [|by eauto]. destruct (_ <? 65536); eauto.
Qed.

Lemma headers_after_find hs k v k' :
  hash_find k' (headers_after hs k v) =
    if decide (k = k')
    then Some (if (strlen v =? 0) && bool_decide (hash_find k hs = None) then Indet else Str v)
    else hash_find k' hs.
Proof.
  unfold headers_after. destruct (hash_find k hs) eqn:E.
  - rewrite hash_find_set by (by rewrite E). case_decide; [|done].
    by rewrite andb_false_r.
  - rewrite hash_find_add. case_decide; [|done]. by rewrite andb_true_r.
Qed.

Lemma headers_after_all_str hs k v :
  strlen v ≠ 0 → all_str hs → all_str (headers_after hs k v).
Proof.
  intros Hv Ha. unfold headers_after, all_str. destruct (hash_find k hs) as [w|] eqn:E.
  - clear -Ha. induction hs as [|[k0 v0] hs IH]; cbn; [constructor|].
    apply Forall_cons in Ha as [? ?]. destruct (hash_find k hs); [constructor; auto|].
    case_decide; by constructor.
  - unfold hash_add. apply Forall_app. split; [done|]. constructor; [|constructor]. cbn.
    by rewrite (proj2 (Z.eqb_neq _ 0) Hv).
Qed.

(** ** Headers copied one after the other *)

(** Every key and every value is there and not empty: what the wire and a copy can carry. *)
Definition full_header (e : string * header_value) : Prop :=
  e.1 ≠ ""%string ∧ match e.2 with Str v => v ≠ ""%string | Indet => False end.

#[export] Instance full_header_dec e : Decision (full_header e).
Proof. destruct e as [k [|v]]; unfold full_header; cbn; apply _. Defined.

Lemma strlen_zero s : strlen s = 0 ↔ s = ""%string.
Proof. unfold strlen. destruct s; cbn; [done|]. split; [lia|done]. Qed.

Lemma full_headers_all_str hs : Forall full_header hs → all_str hs.
Proof. intros Hf. eapply Forall_impl; [exact Hf|]. by intros [k [|v]] []. Qed.

Lemma copy_var_headers_fresh f hs :
  malloc_ok sizeof_bpsp__var_header = true →
  0 ≤ vars_size f → vars_size f + headers_size hs < 65536 →
  NoDup ((var_headers f).*1 ++ hs.*1) → Forall full_header hs →
  frame__copy_var_headers f hs
  = Done (BPSP_OK, set_vars f (vars_size f + headers_size hs) (var_headers f ++ hs)).
Proof.
  intros Hmal. revert f. induction hs as [|[k [|v]] hs IH]; intros f H0 Hs Hnd Hne.
  { cbn. rewrite Z.add_0_r, app_nil_r. by destruct f. }
  { by apply Forall_cons in Hne as [[_ []] _]. }
  apply Forall_cons in Hne as [[Hk Hv] Hne]. cbn [fst snd] in *.
  rewrite <- strlen_zero in Hk, Hv. cbn [fmap list_fmap headers_size fst snd] in *.
  pose proof (header_size_bounds (k, Str v)). pose proof (headers_size_nonneg hs).
  apply NoDup_app in Hnd as (Hnd1 & Hnk & Hnd2).
  cbn [frame__copy_var_headers]. rewrite set_var_header_new; [|done|].
  2: { apply hash_find_None. intros Hin. apply (Hnk k Hin). left. }
  rewrite Hmal. cbn zeta. rewrite (proj2 (Z.eqb_neq _ _) Hv).
  rewrite (proj2 (Z.ltb_lt _ 65536)), u16_small by lia.
  cbn [bind_ok mbind exec_bind]. rewrite IH; cbn [vars_size var_headers set_vars].
  - f_equal. unfold set_vars, hash_add. cbn. f_equal. f_equal; [lia|by rewrite <- app_assoc].
  - lia.
  - lia.
  - rewrite hash_add_keys, <- app_assoc. apply NoDup_app. split_and!; [done| |done].
    intros k' Hk'. by apply Hnk.
  - done.
Qed.

(** ** Payload *)

(** The block that [frame__malloc_payload] leaves, whatever the outcome, agrees with the
    sizes; nothing but the payload changes. *)
Lemma malloc_payload_wf f size s f' :
  payload_wf f → 0 ≤ size < 4294967296 → frame__malloc_payload f size = Done (s, f') →
  payload_wf f' ∧ f' = set_payload f (payload f') (payload_size f') 0
  ∧ (s = BPSP_OK ∧ payload_size f' = size ∨ s = BPSP_NO_MEMORY ∧ payload_size f' = 0).
Proof.
  intros [Hs Hr Hb] Hsz. unfold frame__malloc_payload.
  destruct (Z.eqb_spec size 0) as [->|Hnz].
  { intros [= <- <-]. split_and!; [split; cbn; try done; lia|done|by left]. }
  set (p := if negb _ then _ else _).
  assert (∀ l, p = Some l → Z.of_nat (List.length l) = size) as Hp.
  { intros l. unfold p. destruct (Z.eqb_spec (payload_size f) 0) as [E|E]; cbn.
    - unfold mem__malloc. destruct (malloc_ok size); [|done]. intros [= <-].
      rewrite length_replicate. lia.
    - destruct (Z.eqb_spec (payload_size f) size) as [E'|E']; cbn.
      + intros El. rewrite El in Hb. lia.
      + unfold mem__realloc. destruct (malloc_ok size); [|done]. intros [= <-].
        rewrite length_resize. lia. }
  destruct p as [l|]; intros [= <- <-]; cbn.
  - split_and!; [|done|by left]. split; cbn; [done|lia|]. rewrite (Hp l) by done. done.
  - split_and!; [|done|by right]. split; cbn; [done|lia|done].
Qed.

Lemma put_payload_wf f src size app s f' :
  payload_wf f → 0 ≤ pos f → 0 ≤ size < 4294967296 →
  frame__put_payload f src size app = Done (s, f') →
  payload_wf f' ∧ f' = set_payload f (payload f') (payload_size f') (pos f').
Proof.
  intros Hw Hpos Hsz. unfold frame__put_payload.
  set (a := if app then u32 _ else size).
  assert (0 ≤ a < 4294967296) as Ha by
    (unfold a; pose proof (u32_range (payload_size f + size)); destruct app; lia).
  destruct (frame__malloc_payload f a) as [[s1 f1]| | |] eqn:E; [|done..].
  apply malloc_payload_wf in E as (Hw1 & E1 & _); [|done..].
  unfold bind_ok. cbn [mbind exec_bind].
  destruct (decide (s1 = BPSP_OK)) as [->|Hs1].
  2: { assert (s1 = s → f1 = f' → payload_wf f' ∧
         f' = set_payload f (payload f') (payload_size f') (pos f')) as K.
       { intros <- <-. split; [done|]. rewrite E1 at 1. f_equal. by rewrite E1. }
       destruct s1; try done; intros [= ? ?]; by apply K. }
  destruct (mem__memcpy _ _ src size) as [p| | |] eqn:M; [|done..].
  intros [= <- <-]. apply mem__memcpy_length in M; [|destruct app; lia|lia].
  destruct Hw1 as [H1 H2 H3]. split; [split; cbn; [done|done|]|cbn; rewrite E1; done].
  rewrite E1 in M. cbn in M. rewrite E1 in H3. cbn in H3.
  destruct p as [l|], (payload f1) as [l1|]; cbn in M; try done.
  injection M as ->. rewrite E1. cbn. done.
Qed.

Lemma put_payload_pos f src size s f' :
  frame__put_payload f src size false = Done (s, f') → 0 ≤ pos f → 0 ≤ pos f'.
Proof.
  unfold frame__put_payload, frame__malloc_payload. intros E Hp.
  destruct (size =? 0); [|case_match]; cbn in E.
  1, 2: destruct (mem__memcpy _ 0 src size); [|done..]; injection E as <- <-; cbn;
    pose proof (u32_range (size + 0)); lia.
  injection E as <- <-. cbn. lia.
Qed.

(** Without [append], the payload is the source. *)
Lemma put_payload_spec f (src : list cell) size :
  payload_wf f → malloc_ok size = true → Z.of_nat (List.length src) = size →
  0 < size < 4294967296 →
  frame__put_payload f (Some src) size false
  = Done (BPSP_OK, set_payload f (Some src) size size).
Proof.
  intros Hw Hm Hl Hsz. unfold frame__put_payload.
  destruct (frame__malloc_payload f size) as [[s1 f1]| | |] eqn:E.
  - pose proof E as E0. apply malloc_payload_wf in E0 as (Hw1 & E1 & Hd); [|done|lia].
    destruct Hd as [[-> Hs1]|[-> _]].
    + cbn [bind_ok mbind exec_bind]. destruct Hw1 as [_ _ Hb].
      destruct (payload f1) as [d|]; [|lia]. destruct Hb as [Hd _].
      rewrite mem__memcpy_over by lia. cbn. rewrite E1. unfold set_payload. cbn.
      rewrite Z.add_0_r, u32_small by lia. by rewrite Hs1.
    + exfalso. revert E. unfold frame__malloc_payload, mem__malloc, mem__realloc.
      destruct Hw as [_ _ Hb]. rewrite Hm. destruct (Z.eqb_spec size 0); [lia|].
      destruct (Z.eqb_spec (payload_size f) 0); cbn; [done|].
      destruct (Z.eqb_spec (payload_size f) size); cbn; [|done].
      by destruct (payload f).
  - revert E. unfold frame__malloc_payload. destruct (size =? 0); [done|]. by case_match.
  - revert E. unfold frame__malloc_payload. destruct (size =? 0); [done|]. by case_match.
  - revert E. unfold frame__malloc_payload. destruct (size =? 0); [done|]. by case_match.
Qed.

Lemma put_payload_none f src :
  frame__put_payload f src 0 false = Done (BPSP_OK, set_payload f None 0 0).
Proof. done. Qed.

(** ** Results when nothing is refused *)

Lemma headers_after_size hs k v :
  NoDup hs.*1 → all_str hs →
  headers_size (headers_after hs k v) =
    match hash_find k hs with
    | Some w => headers_size hs - u16 (value_len w) + u16 (strlen v)
    | None => headers_size hs + header_size (k, Str v)
    end.
Proof.
  intros Hd Ha. unfold headers_after. destruct (hash_find k hs) as [w|] eqn:E.
  - by rewrite (headers_size_set _ _ _ w).
  - unfold hash_add. rewrite headers_size_app. cbn. unfold header_size. cbn.
    destruct (Z.eqb_spec (strlen v) 0) as [->|]; cbn; lia.
Qed.

Lemma set_var_header_ok f k v :
  malloc_ok sizeof_bpsp__var_header = true → headers_wf f → all_str (var_headers f) →
  k ≠ ""%string → headers_size (headers_after (var_headers f) k v) < 65536 →
  frame__set_var_header f (Some k) (Some v)
  = Done (BPSP_OK, set_vars f (headers_size (headers_after (var_headers f) k v))
                            (headers_after (var_headers f) k v)).
Proof.
  intros Hm Hw Ha Hk Hs. rewrite <- strlen_zero in Hk.
  rewrite headers_after_size in * by (done || apply Hw).
  pose proof (hw_size _ Hw). pose proof (headers_size_nonneg (var_headers f)).
  destruct (hash_find k (var_headers f)) as [w|] eqn:E.
  - assert (∃ t, w = Str t) as [t ->].
    { apply hash_find_Some_elem in E. unfold all_str in Ha. rewrite Forall_forall in Ha.
      specialize (Ha _ E). destruct w; [done|by eexists]. }
    rewrite (set_var_header_found f k v t) by done. cbn [value_len] in *. cbv zeta.
    rewrite (proj2 (Z.ltb_lt _ _)) by lia. unfold headers_after. rewrite E. cbn.
    by rewrite <- (hw_size _ Hw).
  - rewrite set_var_header_new by done. rewrite Hm. cbv zeta.
    pose proof (header_size_bounds (k, Str v)).
    rewrite (proj2 (Z.ltb_lt _ _)), u16_small by lia. unfold headers_after. rewrite E.
    by rewrite <- (hw_size _ Hw).
Qed.

Definition completes (f : bpsp__frame) := _is_completed f ≠ 0 ∧ 0 < opcode f.

(** A copy has the same control bytes, headers, in the same order, and payload. *)
Lemma frame__copy_spec now f src :
  malloc_ok sizeof_bpsp__var_header = true → malloc_ok (payload_size src) = true →
  frame_wf src → Forall full_header (var_headers src) → completes src →
  frame__copy now f src false
  = Done (BPSP_OK,
      {| vars_size := vars_size src; opcode := opcode src; flag := flag src;
         data_size := payload_size src; var_headers := var_headers src;
         payload := payload src; payload_size := payload_size src;
         pos := payload_size src; _is_completed := 0 |}).
Proof.
  intros Hm Hp [[Hsz Hmax Hnd _] [Hds Hr Hb] _ _] Hfull [Hc Ho]. unfold frame__copy.
  rewrite decide_True; [|unfold frame__is_completed; by rewrite (proj2 (Z.eqb_neq _ _) Hc)].
  unfold frame__empty. cbn [bind_ok mbind exec_bind].
  unfold frame__copy_header, frame__set_frame_control, frame__set_opcode,
    frame__validate_opcode, frame__set_flag.
  destruct (Z.leb_spec (opcode src) 0); [lia|].
  rewrite (proj2 (Z.ltb_lt 0 (opcode src))) by lia. cbn [bind_ok mbind exec_bind].
  rewrite copy_var_headers_fresh by (cbn; first [exact Hnd|done|lia]).
  cbn [bind_ok mbind exec_bind]. rewrite Hsz.
  destruct (payload src) as [l|].
  - destruct Hb as [Hl Hnz]. rewrite put_payload_spec; [done|split; cbn; [done|lia|done]|done|done|lia].
  - rewrite Hb. by rewrite put_payload_none.
Qed.
End FrameFacts.
