(* ===== verification/HeaderCodec.v ===== *)
(** * The wire form of the variable headers: printing and parsing

    [encode_headers] is the reference: for each header, in the order of the table, its key and
    its value between double quotes, and a semicolon.  [var_header__to_bytes] writes exactly these bytes and stays inside the
    buffer that [frame__send] allocates; [frame__parse_var_header], a state machine over byte
    positions kept in 16-bit counters, terminates, and reads them back. *)
From S2P Require Import Prelude Status Uthash Mem Frame FrameFacts.
Local Open Scope Z_scope.

(** ** The reference encoder *)

Definition encode_header (k v : string) : bytes :=
  QUOTE :: take (Z.to_nat (u16 (strlen k))) (chars k) ++ [QUOTE; QUOTE]
  ++ take (Z.to_nat (u16 (strlen v))) (chars v) ++ [QUOTE; SEMICOLON].

Fixpoint encode_headers (hs : list (string * header_value)) : bytes :=
  match hs with
  | [] => []
  | (k, Str v) :: hs => encode_header k v ++ encode_headers hs
  | (k, Indet) :: hs => []
  end.

Lemma u16_le z : 0 ≤ z → u16 z ≤ z.
Proof. intros. unfold u16. apply Z.mod_le; lia. Qed.

Lemma length_take_u16 s :
  Z.of_nat (List.length (take (Z.to_nat (u16 (strlen s))) (chars s))) = u16 (strlen s).
Proof.
  pose proof (u16_range (strlen s)). pose proof (u16_le (strlen s) (strlen_nonneg s)).
  rewrite length_take. rewrite strlen_chars in *. lia.
Qed.

Lemma length_encode_header k v :
  Z.of_nat (List.length (encode_header k v)) = header_size (k, Str v).
Proof.
  unfold encode_header, header_size. cbn [List.length fst snd value_len].
  rewrite !length_app. cbn [List.length].
  pose proof (length_take_u16 k). pose proof (length_take_u16 v). lia.
Qed.

Lemma length_encode_headers hs :
  all_str hs → Z.of_nat (List.length (encode_headers hs)) = headers_size hs.
Proof.
  induction hs as [|[k [|v]] hs IH]; intros Ha; [done| |].
  - apply Forall_cons in Ha as [Hv _]. by cbn in Hv.
  - apply Forall_cons in Ha as [_ Ha]. cbn [encode_headers headers_size].
    rewrite length_app, Nat2Z.inj_add, length_encode_header, IH by done. done.
Qed.

(** ** var_header__to_bytes *)

Lemma put_block total bs b len :
  0 ≤ len ≤ Z.of_nat (List.length b) → Z.of_nat (List.length bs) + len ≤ total →
  total < 65536 →
  put_bytes (block total bs) (Z.of_nat (List.length bs)) b len
  = Done (block total (bs ++ take (Z.to_nat len) b),
          Z.of_nat (List.length (bs ++ take (Z.to_nat len) b))).
Proof.
  intros Hlen Htot Hmax. unfold put_bytes, mem__memcpy, block.
  rewrite (length_app bs), length_take, (u16_small (_ + _)) by lia.
  destruct (Z.eqb_spec len 0) as [->|Hnz].
  - cbn [mbind exec_bind mret exec_ret]. rewrite take_0, app_nil_r. repeat f_equal; lia.
  - rewrite !length_fmap, length_app, length_fmap, length_replicate.
    rewrite (proj2 (Z.leb_le len _)), (proj2 (Z.leb_le (_ + len) _)) by lia.
    cbn [andb mbind exec_bind mret exec_ret].
    rewrite Nat2Z.id, take_app_length' by (by rewrite length_fmap).
    rewrite Z2Nat.inj_add, Nat2Z.id by lia.
    rewrite drop_app_add' by (by rewrite length_fmap).
    rewrite drop_replicate, fmap_app, <- fmap_take, app_assoc. repeat f_equal; lia.
Qed.

Lemma put_block1 total bs c :
  Z.of_nat (List.length bs) + 1 ≤ total → total < 65536 →
  put_bytes (block total bs) (Z.of_nat (List.length bs)) [c] 1
  = Done (block total (bs ++ [c]), Z.of_nat (List.length (bs ++ [c]))).
Proof. intros. by apply put_block. Qed.

Lemma to_bytes_loop_spec hs bs total :
  all_str hs → Z.of_nat (List.length bs) + headers_size hs ≤ total → total < 65536 →
  to_bytes_loop hs (block total bs) (Z.of_nat (List.length bs))
  = Done (block total (bs ++ encode_headers hs)).
Proof.
  intros Ha Htot Hmax. revert bs Htot.
  induction hs as [|[k [|v]] hs IH]; intros bs Htot; [by rewrite app_nil_r| |].
  { apply Forall_cons in Ha as [Hv _]. by cbn in Hv. }
  apply Forall_cons in Ha as [_ Ha]. cbn [to_bytes_loop headers_size encode_headers] in *.
  unfold header_size in Htot. cbn [fst snd value_len] in Htot.
  pose proof (length_take_u16 k) as Lk. pose proof (length_take_u16 v) as Lv.
  pose proof (u16_range (strlen k)). pose proof (u16_range (strlen v)).
  pose proof (u16_le _ (strlen_nonneg k)) as Hk. rewrite strlen_chars in Hk at 2.
  pose proof (u16_le _ (strlen_nonneg v)) as Hv. rewrite strlen_chars in Hv at 2.
  pose proof (headers_size_nonneg hs).
  do 7 ((rewrite put_block1 || rewrite put_block);
        [|repeat (rewrite length_app); cbn [List.length]; lia..]; cbn [mbind exec_bind]).
  rewrite IH by (done || (repeat (rewrite length_app); cbn [List.length]; lia)).
  f_equal. f_equal. unfold encode_header. cbn [take Z.to_nat Pos.to_nat Pos.iter_op].
  rewrite <- !app_assoc. cbn. repeat (rewrite <- app_assoc; cbn). done.
Qed.

(** ** Strings that survive the wire

    The parser ends a string at a double quote that is not preceded by a backslash, and the
    strings it cuts out end at their first NUL.  [quote_free p l]: no such quote in [l] when
    the byte before it is [p], nor one right behind it. *)
Fixpoint quote_free (p : ascii) (l : bytes) : bool :=
  match l with
  | [] => bool_decide (p ≠ BACKSLASH)
  | c :: l => negb (bool_decide (c = QUOTE) && bool_decide (p ≠ BACKSLASH)) && quote_free c l
  end.

Record wire_safe (s : string) : Prop := {
  ws_len : strlen s < 65536;
  ws_nul : no_nul (chars s);
  ws_quote : quote_free QUOTE (chars s) = true;
}.

#[export] Instance wire_safe_dec s : Decision (wire_safe s).
Proof.
  refine (cast_if_and3 (decide (strlen s < 65536)) (decide (no_nul (chars s)))
            (decide (quote_free QUOTE (chars s) = true))).
  - by split.
  - abstract (by intros []).
  - abstract (by intros []).
  - abstract (by intros []).
Defined.

Lemma quote_free_last p l :
  quote_free p l = true → ∃ l' q, p :: l = l' ++ [q] ∧ q ≠ BACKSLASH.
Proof.
  revert p. induction l as [|c l IH]; intros p; cbn.
  - intros Hp%bool_decide_eq_true. by exists [], p.
  - intros [_ (l' & q & -> & ?)%IH]%andb_prop. by exists (p :: l'), q.
Qed.

Lemma u16_strlen s : strlen s < 65536 → u16 (strlen s) = strlen s.
Proof. intros. apply u16_small. pose proof (strlen_nonneg s). lia. Qed.

Lemma encode_header_full k v :
  strlen k < 65536 → strlen v < 65536 →
  encode_header k v = QUOTE :: chars k ++ [QUOTE; QUOTE] ++ chars v ++ [QUOTE; SEMICOLON].
Proof.
  intros Hk Hv. unfold encode_header. rewrite !u16_strlen by done.
  rewrite !strlen_chars, !Nat2Z.id. by rewrite !firstn_all.
Qed.

(** ** One round of the parser *)

Section Parse.
Context `{Malloc}.

Definition mk (n : nat) (k e v : Z) (buf : bytes) (f : bpsp__frame) : parse_state :=
  {| p_n := Z.of_nat n; start_key := k; end_key := e; start_value := v;
     p_buf := buf; p_frame := f |}.

(** [buf] holds [c] at position [n], and [p] right before it. *)
Definition at_pos (buf : bytes) (n : nat) (p c : ascii) : Prop :=
  ∃ m, n = S m ∧ buf !! m = Some p ∧ buf !! n = Some c.

Lemma parse_skips_spec buf n p c :
  at_pos buf n p c →
  parse_skips buf (Z.of_nat n)
  = Done (if decide (c = QUOTE) then bool_decide (p = BACKSLASH) else true).
Proof.
  intros (m & -> & Hp & Hc). unfold parse_skips.
  destruct (Z.eqb_spec (Z.of_nat (S m)) 0); [lia|].
  replace (Z.to_nat (Z.of_nat (S m) - 1)) with m by lia.
  rewrite Nat2Z.id, Hc, Hp. cbn. by case_decide.
Qed.

Lemma parse_mark_mk n k e v k' e' v' buf f :
  Z.of_nat (S n) < 65536 → parse_mark (mk n k e v buf f) k' e' v' = mk (S n) k' e' v' buf f.
Proof.
  intros. unfold parse_mark, mk. cbn [p_n p_buf p_frame]. f_equal. rewrite u16_small; lia.
Qed.

Lemma parse_loop_mk fuel size n k e v buf f :
  Z.of_nat n < size → Z.of_nat (S n) < 65536 →
  parse_loop (S fuel) size (mk n k e v buf f) =
    skips ← parse_skips buf (Z.of_nat n);
    if (skips : bool) then parse_loop fuel size (mk (S n) k e v buf f)
    else if k =? 0 then parse_loop fuel size (mk (S n) (Z.of_nat (S n)) e v buf f)
    else if e =? 0 then parse_loop fuel size (mk (S n) k (Z.of_nat n) v buf f)
    else if v =? 0 then parse_loop fuel size (mk (S n) k e (Z.of_nat (S n)) buf f)
    else st ← parse_close (mk n k e v buf f); parse_loop fuel size st.
Proof.
  intros Hn Hm. unfold parse_loop at 1; fold parse_loop.
  change (p_n (mk n k e v buf f)) with (Z.of_nat n).
  rewrite (proj2 (Z.ltb_lt _ size)) by lia.
  cbn [start_key end_key start_value p_buf mk].
  rewrite !parse_mark_mk by done.
  replace (u16 (Z.of_nat n + 1)) with (Z.of_nat (S n)) by (rewrite u16_small; lia). done.
Qed.

(** [l] lies in [buf] from position [S m] on, behind the byte [p]. *)
Definition run_at (buf : bytes) (m : nat) (p : ascii) (l : bytes) : Prop :=
  ∀ i c, (p :: l) !! i = Some c → buf !! (m + i)%nat = Some c.

Lemma parse_skip_run l m p buf fuel size k e v f :
  run_at buf m p l → quote_free p l = true →
  Z.of_nat (S m + List.length l) < 65536 → Z.of_nat (S m + List.length l) ≤ size →
  parse_loop (List.length l + fuel) size (mk (S m) k e v buf f)
  = parse_loop fuel size (mk (S m + List.length l) k e v buf f).
Proof.
  revert m p. induction l as [|c l IH]; intros m p Hrun Hq Hmax Hsize.
  - cbn [List.length Nat.add]. by rewrite Nat.add_0_r.
  - cbn [List.length] in *. cbn [Nat.add].
    assert (at_pos buf (S m) p c) as Hat.
    { exists m. split_and!; [done| |].
      - rewrite <- (Nat.add_0_r m). by apply Hrun.
      - rewrite <- Nat.add_1_r. by apply Hrun. }
    rewrite parse_loop_mk, (parse_skips_spec _ _ p c) by (done || lia).
    cbn [quote_free] in Hq. apply andb_prop in Hq as [Hc Hq].
    assert ((if decide (c = QUOTE) then bool_decide (p = BACKSLASH) else true) = true) as ->.
    { destruct (decide (c = QUOTE)) as [->|]; [|done]. apply bool_decide_eq_true.
      rewrite bool_decide_true in Hc by done. apply dec_stable. intros Hp.
      by rewrite (bool_decide_true (p ≠ _)) in Hc. }
    cbn [mbind exec_bind]. rewrite (IH (S m) c); [f_equal; f_equal; lia| |done|lia|lia].
    intros i c' Hi. rewrite Nat.add_succ_comm. by apply Hrun.
Qed.

Lemma parse_at_quote buf n p fuel size k e v f :
  at_pos buf n p QUOTE → p ≠ BACKSLASH →
  Z.of_nat n < size → Z.of_nat (S n) < 65536 →
  parse_loop (S fuel) size (mk n k e v buf f) =
    if k =? 0 then parse_loop fuel size (mk (S n) (Z.of_nat (S n)) e v buf f)
    else if e =? 0 then parse_loop fuel size (mk (S n) k (Z.of_nat n) v buf f)
    else if v =? 0 then parse_loop fuel size (mk (S n) k e (Z.of_nat (S n)) buf f)
    else st ← parse_close (mk n k e v buf f); parse_loop fuel size st.
Proof.
  intros Hat Hp Hs Hmax. rewrite parse_loop_mk, (parse_skips_spec _ _ p QUOTE) by done.
  rewrite decide_True by done. by rewrite bool_decide_false.
Qed.

(** The very first byte is taken for a quote without being read. *)
Lemma parse_at_start buf fuel size f :
  0 < size →
  parse_loop (S fuel) size (mk 0 0 0 0 buf f) = parse_loop fuel size (mk 1 1 0 0 buf f).
Proof.
  intros Hs. by rewrite parse_loop_mk by lia.
Qed.

Lemma insert_mid {A} (l : list A) x y r : <[List.length l := y]> (l ++ x :: r) = l ++ y :: r.
Proof. induction l as [|a l IH]; cbn; [done|by f_equal]. Qed.

Lemma cstr_at_mid pre l post :
  no_nul l → cstr_at (pre ++ l ++ NUL :: post) (List.length pre) = Done (str l).
Proof. intros Hl. unfold cstr_at. rewrite drop_app_length, until_nul_app by done. done. Qed.

(** The closing quote: the key and the value are those between the quotes. *)
Lemma parse_close_spec pre k v post f :
  no_nul (chars k) → no_nul (chars v) →
  let buf c := (pre ++ QUOTE :: chars k) ++ c :: (QUOTE :: chars v) ++ c :: post in
  let nk := S (List.length pre) in
  let ne := (nk + List.length (chars k))%nat in
  let nv := S (S ne) in
  let n := (nv + List.length (chars v))%nat in
  Z.of_nat (S (S n)) < 65536 →
  parse_close (mk n (Z.of_nat nk) (Z.of_nat ne) (Z.of_nat nv) (buf QUOTE) f)
  = '(_, f) ← frame__set_var_header f (Some k) (Some v);
    mret (mk (S (S n)) 0 0 0 (buf NUL) f).
Proof.
  intros Hk Hv buf nk ne nv n Hmax. unfold parse_close.
  cbn [p_n start_key end_key start_value p_buf p_frame mk]. rewrite !Nat2Z.id.
  assert (<[n := NUL]> (<[ne := NUL]> (buf QUOTE)) = buf NUL) as ->.
  { unfold buf. replace ne with (List.length (pre ++ QUOTE :: chars k))
      by (rewrite length_app; cbn; lia).
    rewrite insert_mid.
    replace ((pre ++ QUOTE :: chars k) ++ NUL :: (QUOTE :: chars v) ++ QUOTE :: post)
      with (((pre ++ QUOTE :: chars k) ++ NUL :: QUOTE :: chars v) ++ QUOTE :: post)
      by (by rewrite <- !app_assoc).
    replace n with (List.length ((pre ++ QUOTE :: chars k) ++ NUL :: QUOTE :: chars v))
      by (rewrite !length_app; cbn; lia).
    rewrite insert_mid. by rewrite <- !app_assoc. }
  assert (cstr_at (buf NUL) nk = Done k) as ->.
  { unfold buf. replace ((pre ++ QUOTE :: chars k) ++ NUL :: (QUOTE :: chars v) ++ NUL :: post)
      with ((pre ++ [QUOTE]) ++ chars k ++ NUL :: (QUOTE :: chars v) ++ NUL :: post)
      by (by rewrite <- !app_assoc).
    replace nk with (List.length (pre ++ [QUOTE])) by (rewrite length_app; cbn; lia).
    rewrite cstr_at_mid by done. by rewrite str_chars. }
  assert (cstr_at (buf NUL) nv = Done v) as ->.
  { unfold buf. replace ((pre ++ QUOTE :: chars k) ++ NUL :: (QUOTE :: chars v) ++ NUL :: post)
      with (((pre ++ QUOTE :: chars k) ++ [NUL; QUOTE]) ++ chars v ++ NUL :: post)
      by (by rewrite <- !app_assoc).
    replace nv with (List.length ((pre ++ QUOTE :: chars k) ++ [NUL; QUOTE]))
      by (rewrite !length_app; cbn; lia).
    rewrite cstr_at_mid by done. by rewrite str_chars. }
  cbn [mbind exec_bind]. unfold mk.
  rewrite (u16_small (Z.of_nat n + 1)), (u16_small (Z.of_nat n + 1 + 1)) by lia.
  destruct (frame__set_var_header f (Some k) (Some v)) as [[s f']| | |]; [|done..].
  cbn. repeat f_equal. lia.
Qed.

(** The bytes of [pre ++ w ++ post] that come from [w]. *)
Lemma lookup_window {A} (pre w post : list A) i c :
  w !! i = Some c → (pre ++ w ++ post) !! (List.length pre + i)%nat = Some c.
Proof.
  intros Hi. rewrite lookup_app_r by lia.
  replace (List.length pre + i - List.length pre)%nat with i by lia.
  by apply lookup_app_l_Some.
Qed.

Lemma run_at_window (buf : bytes) pre p l post :
  buf = pre ++ (p :: l) ++ post → run_at buf (List.length pre) p l.
Proof. intros -> i c Hi. by apply lookup_window. Qed.

Lemma at_pos_window (buf : bytes) pre p c post n :
  buf = pre ++ [p; c] ++ post → n = S (List.length pre) → at_pos buf n p c.
Proof.
  intros -> ->. exists (List.length pre). split_and!; [done| |].
  - rewrite <- (Nat.add_0_r (List.length pre)). by apply lookup_window.
  - rewrite <- Nat.add_1_r. by apply lookup_window.
Qed.

(** *** A header is read in one go *)

Definition parsed_header (k v : string) : bytes :=
  QUOTE :: chars k ++ NUL :: QUOTE :: chars v ++ [NUL; SEMICOLON].

(** The byte before the opening quote, if any, is not a backslash. *)
Definition opens (pre : bytes) : Prop :=
  pre = [] ∨ ∃ pre' q, pre = pre' ++ [q] ∧ q ≠ BACKSLASH.

Lemma parse_open pre l fuel size buf f :
  buf = pre ++ QUOTE :: l → opens pre →
  Z.of_nat (List.length pre) < size → Z.of_nat (S (List.length pre)) < 65536 →
  parse_loop (S fuel) size (mk (List.length pre) 0 0 0 buf f)
  = parse_loop fuel size
      (mk (S (List.length pre)) (Z.of_nat (S (List.length pre))) 0 0 buf f).
Proof.
  intros -> [->|(pre' & q & -> & Hq)] Hs Hm.
  - by apply parse_at_start.
  - rewrite (parse_at_quote _ _ q); [done| |done..].
    apply (at_pos_window _ pre' q QUOTE l); [by rewrite <- app_assoc|].
    rewrite length_app. cbn. lia.
Qed.

(** A string that is quote-free behind its opening quote is run over, and the quote behind
    it is seen. *)
Lemma parse_string pre s l fuel size buf k e v f n :
  buf = pre ++ QUOTE :: chars s ++ QUOTE :: l → quote_free QUOTE (chars s) = true →
  n = S (List.length pre + List.length (chars s))%nat →
  Z.of_nat n < size → Z.of_nat (S n) < 65536 →
  parse_loop (List.length (chars s) + S fuel) size (mk (S (List.length pre)) k e v buf f) =
    if k =? 0 then parse_loop fuel size (mk (S n) (Z.of_nat (S n)) e v buf f)
    else if e =? 0 then parse_loop fuel size (mk (S n) k (Z.of_nat n) v buf f)
    else if v =? 0 then parse_loop fuel size (mk (S n) k e (Z.of_nat (S n)) buf f)
    else st ← parse_close (mk n k e v buf f); parse_loop fuel size st.
Proof.
  intros Hbuf Hq Hn Hs Hm.
  rewrite (parse_skip_run (chars s) _ QUOTE);
    [|by apply (run_at_window _ _ _ _ (QUOTE :: l))|done|lia..].
  replace (S (List.length pre) + List.length (chars s))%nat with n by lia.
  destruct (quote_free_last _ _ Hq) as (l' & q & El & Hnq).
  apply (parse_at_quote _ _ q); [|done..].
  apply (at_pos_window _ (pre ++ l') q QUOTE l).
  - rewrite Hbuf, <- app_assoc. f_equal.
    change (QUOTE :: chars s ++ QUOTE :: l) with ((QUOTE :: chars s) ++ QUOTE :: l).
    rewrite El, <- app_assoc. done.
  - apply (f_equal List.length) in El. rewrite length_app in El |- *. cbn in El. lia.
Qed.

Lemma parse_header pre k v post fuel size f :
  wire_safe k → wire_safe v → opens pre →
  Z.of_nat (List.length (pre ++ encode_header k v)) ≤ size → size < 65536 →
  parse_loop (List.length (chars k) + List.length (chars v) + 4 + fuel) size
    (mk (List.length pre) 0 0 0 (pre ++ encode_header k v ++ post) f)
  = '(_, f) ← frame__set_var_header f (Some k) (Some v);
    parse_loop fuel size (mk (List.length (pre ++ encode_header k v)) 0 0 0
                             (pre ++ parsed_header k v ++ post) f).
Proof.
  intros [Hkl Hkn Hkq] [Hvl Hvn Hvq] Hop.
  rewrite encode_header_full by done. unfold parsed_header.
  assert (∀ c, pre ++ (QUOTE :: chars k ++ c :: QUOTE :: chars v ++ [c; SEMICOLON]) ++ post
    = (pre ++ QUOTE :: chars k) ++ c :: (QUOTE :: chars v) ++ c :: SEMICOLON :: post) as Eb.
  { intros c. by app_norm. }
  change ([QUOTE; QUOTE] ++ chars v ++ [QUOTE; SEMICOLON])
    with (QUOTE :: QUOTE :: chars v ++ [QUOTE; SEMICOLON]).
  rewrite !Eb. set (buf := _ ++ QUOTE :: (QUOTE :: chars v) ++ _).
  assert (buf = pre ++ QUOTE :: chars k ++ QUOTE :: QUOTE :: chars v ++ QUOTE :: SEMICOLON :: post)
    as Eb1 by (unfold buf; by app_norm).
  rewrite length_app. cbn [List.length]. rewrite !length_app. cbn [List.length].
  rewrite length_app. cbn [List.length]. intros Hs Hm.
  replace (List.length (chars k) + List.length (chars v) + 4 + fuel)%nat
    with (S (List.length (chars k) + S (S (List.length (chars v) + S fuel)))) by lia.
  rewrite (parse_open _ _ _ _ _ _ Eb1) by (done || lia).
  erewrite (parse_string _ _ _ _ _ _ _ _ _ _ _ Eb1 Hkq eq_refl) by lia.
  rewrite (proj2 (Z.eqb_neq _ _)), Z.eqb_refl by lia.
  set (ne := S (List.length pre + List.length (chars k))%nat).
  rewrite (parse_at_quote _ _ QUOTE); [| |done|unfold ne; lia|unfold ne; lia].
  2: { apply (at_pos_window _ (pre ++ QUOTE :: chars k) QUOTE QUOTE
                (chars v ++ QUOTE :: SEMICOLON :: post)).
       - rewrite Eb1, <- app_assoc. done.
       - unfold ne. rewrite length_app. cbn. lia. }
  rewrite !(proj2 (Z.eqb_neq _ 0)), Z.eqb_refl by (unfold ne; lia).
  assert (buf = (pre ++ QUOTE :: chars k ++ [QUOTE]) ++ QUOTE :: chars v ++ QUOTE :: SEMICOLON :: post)
    as Eb2 by (rewrite Eb1; by app_norm).
  replace (S (S ne)) with (S (List.length (pre ++ QUOTE :: chars k ++ [QUOTE])))
    by (unfold ne; rewrite length_app; cbn; rewrite length_app; cbn; lia).
  erewrite (parse_string _ _ _ _ _ _ _ _ _ _ _ Eb2 Hvq eq_refl)
    by (rewrite length_app; cbn [List.length]; rewrite length_app; cbn [List.length]; lia).
  rewrite !(proj2 (Z.eqb_neq _ 0)) by (unfold ne; lia).
  pose proof (parse_close_spec pre k v (SEMICOLON :: post) f Hkn Hvn) as Hc. cbv zeta in Hc.
  replace (S (List.length (pre ++ QUOTE :: chars k ++ [QUOTE]) + List.length (chars v)))%nat
    with (S (S (S (List.length pre) + List.length (chars k))) + List.length (chars v))%nat
    by (rewrite length_app; cbn; rewrite length_app; cbn; lia).
  replace (S (List.length (pre ++ QUOTE :: chars k ++ [QUOTE])))
    with (S (S (S (List.length pre) + List.length (chars k))))
    by (rewrite length_app; cbn; rewrite length_app; cbn; lia).
  unfold ne, buf. replace (S (List.length pre + List.length (chars k)))
    with (S (List.length pre) + List.length (chars k))%nat by lia.
  rewrite Hc by lia.
  destruct (frame__set_var_header f (Some k) (Some v)) as [[s f']| | |]; [|done..].
  cbn [mbind exec_bind mret exec_ret]. f_equal. f_equal. lia.
Qed.

(** *** A block of headers *)

(** What the parser does to the frame: it stores the headers it finds one after the other,
    and does not look at the status. *)
Fixpoint store_headers (f : bpsp__frame) (hs : list (string * string)) : exec bpsp__frame :=
  match hs with
  | [] => Done f
  | (k, v) :: hs =>
      '(_, f) ← frame__set_var_header f (Some k) (Some v); store_headers f hs
  end.

Definition as_header (kv : string * string) : string * header_value := (kv.1, Str kv.2).

Fixpoint parsed_headers (hs : list (string * string)) : bytes :=
  match hs with
  | [] => []
  | (k, v) :: hs => parsed_header k v ++ parsed_headers hs
  end.

Definition wire_safe_pair (kv : string * string) : Prop := wire_safe kv.1 ∧ wire_safe kv.2.

Lemma parsed_header_length k v :
  wire_safe k → wire_safe v →
  List.length (parsed_header k v) = List.length (encode_header k v).
Proof.
  intros [] []. rewrite encode_header_full by done. unfold parsed_header.
  cbn [List.length app]. rewrite !length_app. cbn [List.length].
  rewrite !length_app. cbn [List.length]. lia.
Qed.

Lemma parsed_header_opens pre k v : opens (pre ++ parsed_header k v).
Proof.
  right. exists (pre ++ QUOTE :: chars k ++ NUL :: QUOTE :: chars v ++ [NUL]), SEMICOLON.
  split; [|done]. unfold parsed_header. by app_norm.
Qed.

Lemma encode_header_length_pos k v : (1 ≤ List.length (encode_header k v))%nat.
Proof. unfold encode_header. cbn. lia. Qed.

#[local] Arguments encode_header : simpl never.
#[local] Arguments parsed_header : simpl never.

Lemma parse_headers hs pre fuel size f :
  Forall wire_safe_pair hs → opens pre →
  Z.of_nat (List.length (pre ++ encode_headers (as_header <$> hs))) = size → size < 65536 →
  (List.length (encode_headers (as_header <$> hs)) ≤ fuel)%nat →
  parse_loop fuel size
    (mk (List.length pre) 0 0 0 (pre ++ encode_headers (as_header <$> hs)) f)
  = f ← store_headers f hs;
    Done (mk (Z.to_nat size) 0 0 0 (pre ++ parsed_headers hs) f).
Proof.
  intros Hw. revert pre fuel f.
  induction Hw as [|[k v] hs [Hk Hv] _ IH]; intros pre fuel f Hop Hs Hm Hfuel; cbn in *.
  - rewrite app_nil_r in *. subst. rewrite Nat2Z.id.
    destruct fuel; cbn; by rewrite Z.ltb_irrefl.
  - set (rest := encode_headers (as_header <$> hs)) in *.
    rewrite app_assoc, length_app in Hs. rewrite length_app in Hfuel.
    pose proof (length_encode_header k v) as Hl. unfold header_size in Hl.
    cbn [fst snd value_len] in Hl.
    rewrite (u16_strlen k), (u16_strlen v), !strlen_chars in Hl by (apply ws_len; done).
    replace fuel with (List.length (chars k) + List.length (chars v) + 4
      + (fuel - (List.length (chars k) + List.length (chars v) + 4)))%nat by lia.
    rewrite parse_header by (done || lia).
    destruct (frame__set_var_header f (Some k) (Some v)) as [[s f']| | |]; [|done..].
    cbn [mbind exec_bind].
    replace (List.length (pre ++ encode_header k v))
      with (List.length (pre ++ parsed_header k v))
      by (rewrite (length_app pre (parsed_header k v)), parsed_header_length, length_app; done).
    rewrite app_assoc, (app_assoc pre _ (parsed_headers hs)). apply IH.
    + apply parsed_header_opens.
    + rewrite length_app in Hs. rewrite !length_app, parsed_header_length by done. lia.
    + done.
    + lia.
Qed.

Lemma parse_encode_headers f hs :
  Forall wire_safe_pair hs → headers_size (as_header <$> hs) < 65536 →
  let bs := encode_headers (as_header <$> hs) in
  frame__parse_var_header f bs (Z.of_nat (List.length bs))
  = f ← store_headers f hs; Done (BPSP_OK, f).
Proof.
  intros Hw Hmax bs. unfold frame__parse_var_header.
  assert (all_str (as_header <$> hs)) as Ha
    by (apply Forall_fmap, Forall_true; intros [k v]; done).
  pose proof (length_encode_headers _ Ha) as Hl. fold bs in Hl.
  destruct (Z.eqb_spec (Z.of_nat (List.length bs)) 0) as [E|Hnz].
  - destruct hs as [|[k v] hs]; [done|]. cbn in bs. unfold bs in E.
    rewrite length_app in E. pose proof (encode_header_length_pos k v). lia.
  - pose proof (parse_headers hs [] (parse_fuel (Z.of_nat (List.length bs)))
      (Z.of_nat (List.length bs)) f Hw (or_introl eq_refl) eq_refl) as P.
    cbn [app List.length] in P. unfold mk in P at 1. change (Z.of_nat 0) with 0 in P. fold bs in P.
    rewrite P by (unfold parse_fuel; lia).
    destruct (store_headers f hs) as [f'| | |]; done.
Qed.
End Parse.

(** ** The parser on any input

    Whatever the bytes, the parser stops, stays inside the buffer and does nothing but store
    a list of headers that depends on the bytes alone. *)

Lemma until_nul_found (l : bytes) i : l !! i = Some NUL → is_Some (until_nul l).
Proof.
  revert i. induction l as [|c l IH]; intros [|i] Hi; cbn in *; try done.
  - injection Hi as ->. by rewrite decide_True.
  - case_decide; [done|]. destruct (IH i Hi) as [s ->]. done.
Qed.

Lemma cstr_at_found (l : bytes) off i :
  (off ≤ i)%nat → l !! i = Some NUL → ∃ s, cstr_at l off = Done s.
Proof.
  intros Ho Hi. unfold cstr_at.
  destruct (until_nul_found (drop off l) (i - off)) as [s ->]; [|by eexists].
  rewrite lookup_drop. by replace (off + (i - off))%nat with i by lia.
Qed.

Section Total.
Context `{Malloc}.

Definition with_frame (st : parse_state) (f : bpsp__frame) : parse_state :=
  {| p_n := p_n st; start_key := start_key st; end_key := end_key st;
     start_value := start_value st; p_buf := p_buf st; p_frame := f |}.

(** The marks are set in order, and none lies behind the position. *)
Definition marks_ok (n k e v : Z) : Prop :=
  (k = 0 ∧ e = 0 ∧ v = 0) ∨ (0 < k ≤ n ∧ e = 0 ∧ v = 0)
  ∨ (0 < k ≤ e ∧ e < n ∧ v = 0) ∨ (0 < k ≤ e ∧ e < v ≤ n).

Record parse_inv (size : Z) (st : parse_state) : Prop := {
  pi_len : Z.of_nat (List.length (p_buf st)) = size;
  pi_n : 0 ≤ p_n st;
  pi_marks : marks_ok (p_n st) (start_key st) (end_key st) (start_value st);
}.

(** The rounds left: one more pass when the last byte is a quote, behind which the 16-bit
    position could wrap. *)
Definition parse_measure (size : Z) (st : parse_state) : Z :=
  size - p_n st
  + (if decide (p_buf st !! Z.to_nat (size - 1) = Some QUOTE) then size else 0).

Lemma parse_skips_total buf n :
  0 ≤ n < Z.of_nat (List.length buf) →
  ∃ b, parse_skips buf n = Done b ∧ (b = false → n ≠ 0 → buf !! Z.to_nat n = Some QUOTE).
Proof.
  intros Hn. unfold parse_skips. destruct (Z.eqb_spec n 0) as [->|]; [by eexists|].
  destruct (lookup_lt_is_Some_2 buf (Z.to_nat n)) as [c Hc]; [lia|].
  destruct (lookup_lt_is_Some_2 buf (Z.to_nat (n - 1))) as [p Hp]; [lia|].
  rewrite Hc, Hp. cbn. case_decide; subst; eexists; (split; [done|]); [done|done].
Qed.

(** Closing a value: two strings are cut out, and the rounds left decrease. *)
Lemma parse_close_total size st :
  parse_inv size st → p_n st < size < 65536 → start_value st ≠ 0 →
  p_buf st !! Z.to_nat (p_n st) = Some QUOTE →
  ∃ k v st', parse_inv size st' ∧ parse_measure size st' < parse_measure size st
    ∧ ∀ f, parse_close (with_frame st f)
           = '(_, f) ← frame__set_var_header f (Some k) (Some v); Done (with_frame st' f).
Proof.
  intros [Hl Hn Hm] Hs Hv Hq.
  assert (0 < start_key st ≤ end_key st ∧ end_key st < start_value st ≤ p_n st) as [Hk He]
    by (destruct Hm as [?|[?|[?|?]]]; lia).
  set (buf := <[Z.to_nat (p_n st) := NUL]> (<[Z.to_nat (end_key st) := NUL]> (p_buf st))).
  assert (List.length buf = List.length (p_buf st)) as Hlb
    by (unfold buf; by rewrite !length_insert).
  assert (buf !! Z.to_nat (p_n st) = Some NUL) as Bn
    by (apply list_lookup_insert_eq; rewrite length_insert; lia).
  assert (buf !! Z.to_nat (end_key st) = Some NUL) as Be.
  { unfold buf. rewrite list_lookup_insert_ne by lia. apply list_lookup_insert_eq. lia. }
  destruct (cstr_at_found buf (Z.to_nat (start_key st)) (Z.to_nat (end_key st))
    ltac:(lia) Be) as [k Ek].
  destruct (cstr_at_found buf (Z.to_nat (start_value st)) (Z.to_nat (p_n st))
    ltac:(lia) Bn) as [v Ev].
  exists k, v, {| p_n := u16 (u16 (p_n st + 1) + 1); start_key := 0; end_key := 0;
    start_value := 0; p_buf := buf; p_frame := p_frame st |}.
  pose proof (u16_range (u16 (p_n st + 1) + 1)). split_and!.
  - split; cbn; [by rewrite Hlb|lia|by left].
  - unfold parse_measure. cbn. rewrite (u16_small (p_n st + 1)) by lia.
    destruct (decide (p_n st + 2 < 65536)).
    + rewrite u16_small by lia. case_decide as Hb; [|case_decide; lia].
      assert (p_buf st !! Z.to_nat (size - 1) = Some QUOTE) as ->.
      { unfold buf in Hb. apply list_lookup_insert_Some in Hb as [[_ [? _]]|[_ Hb]]; [done|].
        apply list_lookup_insert_Some in Hb as [[_ [? _]]|[_ Hb]]; done. }
      rewrite decide_True by done. lia.
    + assert (p_n st = size - 1) as En by lia. rewrite En in *.
      rewrite Bn, Hq, decide_False, decide_True by done.
      assert (u16 (size - 1 + 1 + 1) = 0) as -> by (replace size with 65535 by lia; done).
      lia.
  - intros f. unfold parse_close, with_frame. cbn [p_n start_key end_key start_value p_buf p_frame].
    fold buf. rewrite Ek, Ev. done.
Qed.

Lemma parse_loop_total fuel size st :
  parse_inv size st → size < 65536 → parse_measure size st ≤ Z.of_nat fuel →
  ∃ hs st', ∀ f, parse_loop fuel size (with_frame st f)
                 = f ← store_headers f hs; Done (with_frame st' f).
Proof.
  revert st. induction fuel as [|fuel IH]; intros st Hi Hs Hf.
  { exists [], st. intros f. unfold parse_measure in Hf.
    destruct Hi as [Hl Hn _]. cbn. destruct (Z.ltb_spec (p_n st) size); [|done].
    case_decide; lia. }
  destruct (Z.ltb_spec (p_n st) size) as [Hlt|Hge].
  2: { exists [], st. intros f. cbn. by rewrite (proj2 (Z.ltb_ge _ _) Hge). }
  destruct Hi as [Hl Hn Hm] eqn:Hinv.
  destruct (parse_skips_total (p_buf st) (p_n st)) as (b & Eb & Hb); [lia|].
  assert (∀ k e v, marks_ok (p_n st + 1) k e v →
    ∃ hs st', ∀ f, parse_loop fuel size (parse_mark (with_frame st f) k e v)
                   = f ← store_headers f hs; Done (with_frame st' f)) as Hstep.
  { intros k e v Hmk. apply (IH (parse_mark st k e v)); [|done|].
    - split; cbn; rewrite ?u16_small by lia; [done|lia|done].
    - unfold parse_measure in *. cbn. rewrite u16_small by lia. lia. }
  destruct b.
  { destruct (Hstep (start_key st) (end_key st) (start_value st)) as (hs & st' & H').
    - destruct Hm as [?|[?|[?|?]]]; unfold marks_ok; lia.
    - exists hs, st'. intros f. rewrite <- H'. cbn. rewrite (proj2 (Z.ltb_lt _ _) Hlt), Eb. done. }
  destruct (Z.eqb_spec (start_key st) 0) as [Ek|Hk].
  { destruct (Hstep (p_n st + 1) (end_key st) (start_value st)) as (hs & st' & H').
    - destruct Hm as [?|[?|[?|?]]]; unfold marks_ok; lia.
    - exists hs, st'. intros f. rewrite <- H'. cbn.
      rewrite (proj2 (Z.ltb_lt _ _) Hlt), Eb, Ek, (u16_small (p_n st + 1)) by lia. done. }
  destruct (Z.eqb_spec (end_key st) 0) as [Ee|He].
  { destruct (Hstep (start_key st) (p_n st) (start_value st)) as (hs & st' & H').
    - destruct Hm as [?|[?|[?|?]]]; unfold marks_ok; lia.
    - exists hs, st'. intros f. rewrite <- H'. cbn.
      rewrite (proj2 (Z.ltb_lt _ _) Hlt), Eb, (proj2 (Z.eqb_neq _ _) Hk), Ee. done. }
  destruct (Z.eqb_spec (start_value st) 0) as [Ev|Hv].
  { destruct (Hstep (start_key st) (end_key st) (p_n st + 1)) as (hs & st' & H').
    - destruct Hm as [?|[?|[?|?]]]; unfold marks_ok; lia.
    - exists hs, st'. intros f. rewrite <- H'. cbn.
      rewrite (proj2 (Z.ltb_lt _ _) Hlt), Eb, (proj2 (Z.eqb_neq _ _) Hk),
        (proj2 (Z.eqb_neq _ _) He), Ev, (u16_small (p_n st + 1)) by lia. done. }
  destruct (parse_close_total size st Hi) as (k & v & st1 & Hi1 & Hm1 & Hc1);
    [lia|done|apply Hb; [done|destruct Hm as [?|[?|[?|?]]]; lia]|].
  destruct (IH st1 Hi1 Hs ltac:(lia)) as (hs & st' & H').
  exists ((k, v) :: hs), st'. intros f.
  transitivity (st ← parse_close (with_frame st f); parse_loop fuel size st).
  - cbn. rewrite (proj2 (Z.ltb_lt _ _) Hlt), Eb, (proj2 (Z.eqb_neq _ _) Hk),
      (proj2 (Z.eqb_neq _ _) He), (proj2 (Z.eqb_neq _ _) Hv). done.
  - rewrite Hc1. cbn [store_headers].
    destruct (frame__set_var_header f (Some k) (Some v)) as [[s f']| | |]; [|done..].
    apply H'.
Qed.

Lemma parse_var_header_total buf :
  Z.of_nat (List.length buf) < 65536 →
  ∃ hs (closed : bool), ∀ f,
    frame__parse_var_header f buf (Z.of_nat (List.length buf))
    = f ← store_headers f hs;
      Done (if closed then BPSP_OK else BPSP_INVALID_VAR_HEADERS, f).
Proof.
  intros Hs. unfold frame__parse_var_header.
  destruct (Z.eqb_spec (Z.of_nat (List.length buf)) 0); [by exists [], true|].
  set (size := Z.of_nat (List.length buf)) in *.
  set (st := {| p_n := 0; start_key := 0; end_key := 0; start_value := 0; p_buf := buf;
                p_frame := frame_zero |}).
  destruct (parse_loop_total (parse_fuel size) size st) as (hs & st' & E); [|done| |].
  - split; cbn; [done|lia|by left].
  - unfold parse_measure, parse_fuel. cbn. case_decide; lia.
  - exists hs, (start_key st' =? 0). intros f. specialize (E f).
    change {| p_n := 0; start_key := 0; end_key := 0; start_value := 0; p_buf := buf;
      p_frame := f |} with (with_frame st f). rewrite E.
    destruct (store_headers f hs) as [f'| | |]; [cbn|done..]. by destruct (_ =? 0).
Qed.

(** Storing a list of headers never loops nor blocks, and keeps the invariants. *)
Lemma store_headers_outcome f hs :
  store_headers f hs = Undef ∨ ∃ f', store_headers f hs = Done f'.
Proof.
  revert f. induction hs as [|[k v] hs IH]; intros f; [right; by eexists|].
  cbn [store_headers].
  assert (frame__set_var_header f (Some k) (Some v) = Undef
          ∨ ∃ r, frame__set_var_header f (Some k) (Some v) = Done r) as [->|[[s f1] ->]].
  - unfold frame__set_var_header. destruct (_ =? 0); [right; by eexists|]. cbn.
    destruct (hash_find k _) as [[|w]|]; cbn; [by left| |].
    + destruct (_ <? 65536); right; by eexists.
    + destruct (malloc_ok _); cbn; [destruct (_ <? 65536)|]; right; by eexists.
  - by left.
  - apply IH.
Qed.
End Total.

(** ** Headers that the wire carries unchanged *)

Definition wire_safe_header (e : string * header_value) : Prop :=
  wire_safe e.1 ∧ match e.2 with Str v => wire_safe v | Indet => False end.

#[export] Instance wire_safe_header_dec e : Decision (wire_safe_header e).
Proof. destruct e as [k [|v]]; unfold wire_safe_header; cbn; apply _. Defined.

Record headers_valid (hs : list (string * header_value)) : Prop := {
  hv_keys : NoDup hs.*1;
  hv_safe : Forall wire_safe_header hs;
  hv_full : Forall full_header hs;
  hv_size : headers_size hs < 65536;
}.

#[export] Instance headers_valid_dec hs : Decision (headers_valid hs).
Proof.
  refine (cast_if_and4 (decide (NoDup hs.*1)) (decide (Forall wire_safe_header hs))
            (decide (Forall full_header hs)) (decide (headers_size hs < 65536))).
  - by split.
  - abstract (by intros []).
  - abstract (by intros []).
  - abstract (by intros []).
  - abstract (by intros []).
Defined.

Lemma as_headers hs : all_str hs → ∃ l, hs = as_header <$> l.
Proof.
  induction hs as [|[k [|v]] hs IH]; intros Ha; [by exists []| |].
  - by apply Forall_cons in Ha as [[] _].
  - apply Forall_cons in Ha as [_ Ha]. destruct (IH Ha) as [l ->]. by exists ((k, v) :: l).
Qed.

Section Store.
Context `{Malloc}.

Lemma copy_store f l f' :
  frame__copy_var_headers f (as_header <$> l) = Done (BPSP_OK, f') →
  store_headers f l = Done f'.
Proof.
  revert f. induction l as [|[k v] l IH]; intros f; cbn [fmap list_fmap].
  - by intros [= ->].
  - intros E. change (as_header (k, v)) with (k, Str v) in E.
    cbn [frame__copy_var_headers] in E. ok_inv. cbn [store_headers].
    match goal with E1 : frame__set_var_header _ _ _ = _ |- _ => rewrite E1 end.
    by apply IH.
Qed.

(** What [frame__send] writes for the headers, [frame__recv] stores again. *)
Lemma parse_encode_valid f hs :
  malloc_ok sizeof_bpsp__var_header = true → headers_valid hs →
  var_headers f = [] → vars_size f = 0 →
  let bs := encode_headers hs in
  frame__parse_var_header f bs (Z.of_nat (List.length bs))
  = Done (BPSP_OK, set_vars f (headers_size hs) hs).
Proof.
  intros Hmal [Hk Hw Hne Hs] Hh Hv bs. unfold bs.
  destruct (as_headers hs (full_headers_all_str _ Hne)) as [l ->].
  rewrite parse_encode_headers; [|rewrite Forall_fmap in Hw; exact Hw|done].
  erewrite copy_store; [cbn [mbind exec_bind]; reflexivity|].
  rewrite copy_var_headers_fresh by (rewrite ?Hh, ?Hv; (exact Hk || done || lia)).
  by rewrite Hh, Hv, Z.add_0_l.
Qed.

(** The serialiser fills the block that the counted size asks for, and only that. *)
Lemma to_bytes_spec hs :
  all_str hs → headers_size hs < 65536 →
  var_header__to_bytes hs (Some (replicate (Z.to_nat (headers_size hs)) None))
  = Done (BPSP_OK, Some (Some <$> encode_headers hs)).
Proof.
  intros Ha Hs. unfold var_header__to_bytes. destruct hs as [|e hs]; [done|].
  cbn [hash_count List.length Nat.eqb].
  pose proof (to_bytes_loop_spec (e :: hs) [] (headers_size (e :: hs)) Ha) as L.
  unfold block in L at 1. cbn [List.length fmap list_fmap app] in L.
  change (Z.of_nat 0) with 0 in L. rewrite Z.sub_0_r in L.
  rewrite L by lia. cbn [mbind exec_bind mret exec_ret].
  rewrite <- length_encode_headers by done. by rewrite block_full.
Qed.
End Store.
