(* ===== verification/FrameOp.v ===== *)
(** * frame_op.c: the frames of the protocol's operations *)
From S2P Require Import Prelude Status Uthash Mem Frame FrameFacts.
Local Open Scope Z_scope.

Definition op_text : list string :=
  ["NO OP"; "INFO"; "CONNECT"; "PUB"; "SUB"; "UNSUB"; "MSG"; "OK"; "ERR"]%string.

(** [op_text[(int)op]]: an opcode past the array is undefined behaviour. *)
Definition frame__get_op_text (op : Z) : exec string := deref (op_text !! Z.to_nat op).

(** The characters of a string, as the cells of a block. *)
Definition string_cells (s : string) : option (list cell) := Some (Some <$> chars s).

Section FrameOp.
Context `{Malloc}.
(** The text that [date_now_utc] writes in [frame__build]. *)
Variable now : string.

(** The name and the version are those of [broker->info]; they are put side by side, and a
    NUL behind them. *)
Definition frame__INFO (f : bpsp__frame) (name version : string)
  : exec (status__err * bpsp__frame) :=
  ok! f ← frame__empty f;
  ok! f ← frame__set_frame_control f (opcode_code OP_INFO) 0;
  let version_len := u32 (strlen version) in
  let name_len := u32 (strlen name) in
  let info_len := u32 (version_len + name_len + 1) in
  match mem__malloc info_len with
  | None => Done (BPSP_NO_MEMORY, f)
  | Some block =>
      p ← mem__memcpy (Some block) 0 (string_cells version) version_len;
      p ← mem__memcpy p version_len (string_cells name) name_len;
      p ← mem__memcpy p (info_len - 1) (Some [Some NUL]) 1;
      ok! f ← frame__put_payload f p info_len false;
      frame__build now f
  end.

Definition frame__CONNECT (f : bpsp__frame) (info : option (list cell)) (size : Z)
  : exec (status__err * bpsp__frame) :=
  ok! f ← frame__empty f;
  ok! f ← frame__set_frame_control f (opcode_code OP_CONNECT) 0;
  ok! f ← frame__put_payload f info size false;
  frame__build now f.

Definition frame__PUB (f : bpsp__frame) (topic : cstr) (fl : Z)
    (headers : option (list header_pair)) (n_headers : nat)
    (msg : option (list cell)) (size : Z) : exec (status__err * bpsp__frame) :=
  ok! f ← frame__empty f;
  ok! f ← frame__set_frame_control f (opcode_code OP_PUB) fl;
  ok! f ← frame__set_var_headers f headers n_headers;
  ok! f ← frame__set_var_header f (Some "x-topic"%string) topic;
  ok! f ← frame__put_payload f msg size false;
  frame__build now f.

(** [if (value) set_var_header(key, value)] *)
Definition set_if_given (f : bpsp__frame) (key : string) (value : cstr)
  : exec (status__err * bpsp__frame) :=
  match value with
  | Some _ => frame__set_var_header f (Some key) value
  | None => Done (BPSP_OK, f)
  end.

Definition frame__SUB (f : bpsp__frame) (topic sub_tag : cstr) (fl : Z)
    (headers_rule : option (list header_pair)) (n_headers : nat)
  : exec (status__err * bpsp__frame) :=
  ok! f ← frame__empty f;
  ok! f ← frame__set_frame_control f (opcode_code OP_SUB) fl;
  ok! f ← frame__set_var_headers f headers_rule n_headers;
  ok! f ← set_if_given f "x-topic" topic;
  ok! f ← set_if_given f "x-sub-tag" sub_tag;
  frame__build now f.

Definition frame__UNSUB (f : bpsp__frame) (topic : cstr) (fl : Z)
  : exec (status__err * bpsp__frame) :=
  ok! f ← frame__empty f;
  ok! f ← frame__set_frame_control f (opcode_code OP_UNSUB) fl;
  ok! f ← set_if_given f "x-topic" topic;
  frame__build now f.

Definition frame__MSG (f src : bpsp__frame) : exec (status__err * bpsp__frame) :=
  ok! f ← frame__copy now f src false;
  ok! f ← frame__set_opcode f (opcode_code OP_MSG);
  frame__build now f.

Definition copy_header_if_given (f : bpsp__frame) (src : option bpsp__frame)
  : exec (status__err * bpsp__frame) :=
  match src with
  | Some src => frame__copy_header f src
  | None => Done (BPSP_OK, f)
  end.

Definition default_msg (msg : string) : string :=
  if strlen msg =? 0 then "OK."%string else msg.

Definition frame__OK (f : bpsp__frame) (src : option bpsp__frame) (msg : cstr)
  : exec (status__err * bpsp__frame) :=
  ok! f ← frame__empty f;
  ok! f ← copy_header_if_given f src;
  ok! f ← frame__set_opcode f (opcode_code OP_OK);
  msg ← deref msg;
  let msg := default_msg msg in
  ok! f ← frame__put_payload f (string_cells msg) (u32 (strlen msg)) false;
  ok! f ← frame__set_var_header f (Some "x-status-code"%string) (Some "200"%string);
  frame__build now f.

Definition frame__ERR (f : bpsp__frame) (src : option bpsp__frame) (s_err : status__err)
    (msg : cstr) : exec (status__err * bpsp__frame) :=
  ok! f ← frame__empty f;
  ok! f ← copy_header_if_given f src;
  ok! f ← frame__set_opcode f (opcode_code OP_ERR);
  msg ← deref msg;
  let msg := default_msg msg in
  err_text ← status__get_text s_err;
  let err_len := u32 (strlen err_text) in
  let msg_len := u32 (strlen msg) in
  let size := u32 (err_len + msg_len + 3) in
  match mem__malloc size with
  | None => Done (BPSP_NO_MEMORY, f)
  | Some data =>
      p ← mem__memcpy (Some data) 0 (string_cells "(") 1;
      p ← mem__memcpy p 1 (string_cells err_text) err_len;
      p ← mem__memcpy p (err_len + 1) (string_cells ") ") 2;
      p ← (if msg_len =? 0 then Done p
           else mem__memcpy p (err_len + 3) (string_cells msg) msg_len);
      ok! f ← frame__replace_payload f p size;
      ok! f ← frame__set_var_header f (Some "x-status-code"%string) (Some "500"%string);
      frame__build now f
  end.

(** ** All operations at once *)

Inductive op_call :=
  | CallINFO (name version : string)
  | CallCONNECT (info : option (list cell)) (size : Z)
  | CallPUB (topic : cstr) (fl : Z) (headers : option (list header_pair)) (n_headers : nat)
            (msg : option (list cell)) (size : Z)
  | CallSUB (topic sub_tag : cstr) (fl : Z) (headers_rule : option (list header_pair))
            (n_headers : nat)
  | CallUNSUB (topic : cstr) (fl : Z)
  | CallMSG (src : bpsp__frame)
  | CallOK (src : option bpsp__frame) (msg : cstr)
  | CallERR (src : option bpsp__frame) (s_err : status__err) (msg : cstr).

Definition run_op (f : bpsp__frame) (c : op_call) : exec (status__err * bpsp__frame) :=
  match c with
  | CallINFO name version => frame__INFO f name version
  | CallCONNECT info size => frame__CONNECT f info size
  | CallPUB topic fl hs n msg size => frame__PUB f topic fl hs n msg size
  | CallSUB topic tag fl hs n => frame__SUB f topic tag fl hs n
  | CallUNSUB topic fl => frame__UNSUB f topic fl
  | CallMSG src => frame__MSG f src
  | CallOK src msg => frame__OK f src msg
  | CallERR src s msg => frame__ERR f src s msg
  end.

(** The arguments are values of their C types. *)
Definition call_typed (c : op_call) : Prop :=
  match c with
  | CallINFO _ _ => True
  | CallCONNECT _ size => 0 ≤ size < 4294967296
  | CallPUB _ fl _ _ _ size => 0 ≤ fl < 256 ∧ 0 ≤ size < 4294967296
  | CallSUB _ _ fl _ _ | CallUNSUB _ fl => 0 ≤ fl < 256
  | CallMSG src => 0 ≤ opcode src < 256 ∧ 0 ≤ flag src < 256
                   ∧ 0 ≤ payload_size src < 4294967296
  | CallOK src _ | CallERR src _ _ =>
      match src with
      | Some src => 0 ≤ opcode src < 256 ∧ 0 ≤ flag src < 256
      | None => True
      end
  end.

(** ** Frames under construction *)

Record building (f : bpsp__frame) : Prop := {
  b_wf : frame_wf f;
  b_pos : 0 ≤ pos f;
  b_open : _is_completed f = 0;
}.

(** A step of a builder leaves the frame not completed, and well formed if it succeeds. *)
Definition keeps (m : exec (status__err * bpsp__frame)) : Prop :=
  ∀ s f, m = Done (s, f) → _is_completed f = 0 ∧ (s = BPSP_OK → building f).

(** The last step completes the frame exactly when it succeeds. *)
Definition finishes (m : exec (status__err * bpsp__frame)) : Prop :=
  ∀ s f, m = Done (s, f) →
    (s = BPSP_OK → frame_wf f ∧ _is_completed f = 1) ∧ (s ≠ BPSP_OK → _is_completed f = 0).

Lemma bind_ok_cases {A} (m : exec (status__err * A)) k s x :
  bind_ok m k = Done (s, x) →
  (∃ y, m = Done (BPSP_OK, y) ∧ k y = Done (s, x)) ∨ (s ≠ BPSP_OK ∧ m = Done (s, x)).
Proof.
  unfold bind_ok. destruct m as [[s' y]| | |]; cbn; [|done..].
  destruct (decide (s' = BPSP_OK)) as [->|Hs]; [by left; exists y|].
  intros E. right. assert (Done (s', y) = Done (s, x)) as [= -> ->] by (by destruct s'). done.
Qed.

Lemma bind_finishes m k :
  keeps m → (∀ f, building f → finishes (k f)) → finishes (ok! f ← m; k f).
Proof.
  intros Hm Hk s f [(y & Ey & E)|[Hs E]]%bind_ok_cases.
  - apply Hm in Ey as [_ Hb]. by eapply Hk; [apply Hb|].
  - apply Hm in E as [? _]. done.
Qed.

Lemma bind_keeps m k : keeps m → (∀ f, building f → keeps (k f)) → keeps (ok! f ← m; k f).
Proof.
  intros Hm Hk s f [(y & Ey & E)|[Hs E]]%bind_ok_cases.
  - apply Hm in Ey as [_ Hb]. by eapply Hk; [apply Hb|].
  - apply Hm in E as [? _]. done.
Qed.

Lemma ret_keeps f : building f → keeps (Done (BPSP_OK, f)).
Proof. intros [] s f' [= <- <-]. done. Qed.

Lemma fail_keeps f s : building f → s ≠ BPSP_OK → keeps (Done (s, f)).
Proof. intros [] Hs s' f' [= <- <-]. done. Qed.

Lemma frame_zero_building : building frame_zero.
Proof.
  split; [|done..]. split; cbn; [|by split|lia|lia].
  split; cbn; [done|lia|constructor|by intros k v ?%not_elem_of_nil].
Qed.

Lemma empty_keeps f : keeps (frame__empty f).
Proof. intros s f' [= <- <-]. split; [done|]. intros _. apply frame_zero_building. Qed.

Lemma set_control_building f op fl :
  building f → 0 ≤ op < 256 → 0 ≤ fl < 256 → building (set_control f op fl).
Proof.
  intros [[[] [] ? ?] ? ?] ? ?. repeat (split; cbn; try done; try lia).
Qed.

Lemma set_opcode_keeps f op : building f → 0 ≤ op < 256 → keeps (frame__set_opcode f op).
Proof.
  intros Hb Ho s f'. unfold frame__set_opcode, frame__validate_opcode.
  destruct (Z.leb_spec op 0); [intros [= <- <-]; split; [apply Hb|done]|].
  rewrite (proj2 (Z.ltb_lt 0 op)) by lia. intros [= <- <-].
  split; [apply Hb|]. intros _. apply set_control_building; [done|lia|apply Hb].
Qed.

Lemma set_frame_control_keeps f op fl :
  building f → 0 ≤ op < 256 → 0 ≤ fl < 256 → keeps (frame__set_frame_control f op fl).
Proof.
  intros Hb Ho Hf. apply bind_keeps; [by apply set_opcode_keeps|].
  intros g Hg. apply ret_keeps. apply set_control_building; [done|apply Hg|done].
Qed.

Lemma set_var_header_keeps f key value :
  building f → keeps (frame__set_var_header f key value).
Proof.
  intros Hb s f' E. pose proof (set_var_header_vars _ _ _ _ _ E) as (size & hs & Ef).
  split; [subst; apply Hb|]. intros ->.
  pose proof (set_var_header_wf _ _ _ _ (fw_headers _ (b_wf _ Hb)) E) as Hw.
  destruct Hb as [[_ [] ? ?] ? ?]. subst f'. repeat (split; cbn; try done); apply Hw.
Qed.

Lemma set_if_given_keeps f key value : building f → keeps (set_if_given f key value).
Proof. intros. destruct value; [by apply set_var_header_keeps|by apply ret_keeps]. Qed.

Lemma set_var_headers_keeps f hs n : building f → keeps (frame__set_var_headers f hs n).
Proof.
  intros Hb. unfold frame__set_var_headers. destruct (n =? 0)%nat; [by apply ret_keeps|].
  destruct hs as [hs|]; [|by apply fail_keeps]. revert f hs Hb.
  induction n as [|n IH]; intros f hs Hb; cbn; [by apply ret_keeps|].
  destruct hs as [|p hs]; [done|]. apply bind_keeps; [|intros; by apply IH].
  destruct p as [[k v]|]; [by apply set_var_header_keeps|by apply fail_keeps].
Qed.

Lemma set_payload_building f p size at_pos :
  building f → payload_wf (set_payload f p size at_pos) → 0 ≤ at_pos →
  building (set_payload f p size at_pos).
Proof. intros [[[] ? ? ?] ? ?] ? ?. repeat (split; cbn; try done). Qed.

Lemma put_payload_keeps f src size :
  building f → 0 ≤ size < 4294967296 → keeps (frame__put_payload f src size false).
Proof.
  intros Hb Hs s f' E.
  pose proof (put_payload_pos _ _ _ _ _ E) as Hpos.
  apply put_payload_wf in E as [Hw Ef]; [|apply Hb|apply Hb|done].
  assert (building f') as Hb'; [|split; [apply Hb'|done]].
  rewrite Ef. apply set_payload_building; [done|by rewrite <- Ef|apply Hpos, Hb].
Qed.

Lemma copy_var_headers_keeps f hs : building f → keeps (frame__copy_var_headers f hs).
Proof.
  revert f. induction hs as [|[k [|v]] hs IH]; intros f Hb; cbn; [by apply ret_keeps|done|].
  apply bind_keeps; [by apply set_var_header_keeps|done].
Qed.

Lemma copy_header_keeps f src :
  building f → 0 ≤ opcode src < 256 → 0 ≤ flag src < 256 → keeps (frame__copy_header f src).
Proof.
  intros. apply bind_keeps; [by apply set_frame_control_keeps|].
  intros. by apply copy_var_headers_keeps.
Qed.

Lemma build_finishes f : building f → finishes (frame__build now f).
Proof.
  intros Hb. apply bind_finishes; [by apply set_var_header_keeps|].
  intros g Hg s f'. unfold frame__validate_opcode.
  destruct (Z.leb_spec (opcode g) 0); [intros [= <- <-]; split; [done|intros _; apply Hg]|].
  rewrite (proj2 (Z.ltb_lt 0 _)) by lia. intros [= <- <-]. split; [|done]. intros _.
  destruct Hg as [[[] [] ? ?] ? ?]. repeat (split; cbn; try done).
Qed.

Lemma copy_header_if_given_keeps f src :
  building f → (∀ g, src = Some g → 0 ≤ opcode g < 256 ∧ 0 ≤ flag g < 256) →
  keeps (copy_header_if_given f src).
Proof.
  intros Hb Hs. destruct src as [g|]; [|by apply ret_keeps].
  destruct (Hs g eq_refl). by apply copy_header_keeps.
Qed.

Lemma open_finishes f k :
  (∀ g, building g → finishes (k g)) → finishes (ok! g ← frame__empty f; k g).
Proof. intros Hk. apply bind_finishes; [apply empty_keeps|done]. Qed.

(** A block handed over to the frame. *)
Lemma replace_payload_keeps f l size :
  building f → Z.of_nat (List.length l) = size → 0 < size < 4294967296 →
  keeps (frame__replace_payload f (Some l) size).
Proof.
  intros Hb Hl Hs s f' [= <- <-]. split; [apply Hb|]. intros _.
  apply (set_payload_building (set_payload f None 0 0) (Some l) size size); [|split; cbn; lia|lia].
  apply set_payload_building; [done|split; cbn; lia|lia].
Qed.

Lemma exec_bind_finishes {A} (m : exec A) k :
  (∀ a, m = Done a → finishes (k a)) → finishes (m ≫= k).
Proof. intros Hk s f (a & Ea & E)%exec_bind_done. by eapply Hk. Qed.

Lemma fail_finishes f s : building f → s ≠ BPSP_OK → finishes (Done (s, f)).
Proof. intros [] Hs s' f' [= <- <-]. done. Qed.

Hint Resolve set_var_header_keeps set_if_given_keeps set_var_headers_keeps
  set_frame_control_keeps set_opcode_keeps put_payload_keeps copy_header_if_given_keeps
  build_finishes fail_finishes : building.
Hint Extern 1 (_ ≤ _ < _) => cbn; lia : building.

(** One step of a builder after the other. *)
Local Ltac builder :=
  repeat match goal with
  | |- finishes (frame__build _ _) => apply build_finishes
  | |- finishes (bind_ok _ _) => apply bind_finishes; [|intros ? ?]
  end; eauto with building.

Lemma frame__INFO_finishes f name version : finishes (frame__INFO f name version).
Proof.
  apply open_finishes. intros g Hg. apply bind_finishes; [by apply set_frame_control_keeps|].
  intros f1 H1. cbv zeta. unfold mem__malloc. set (size := u32 (_ + _ + 1)).
  pose proof (u32_range (u32 (strlen version) + u32 (strlen name) + 1)).
  destruct (malloc_ok size); [|by apply fail_finishes].
  do 3 (apply exec_bind_finishes; intros ? _). by builder.
Qed.

Lemma frame__ERR_finishes f src s_err msg :
  (∀ g, src = Some g → 0 ≤ opcode g < 256 ∧ 0 ≤ flag g < 256) →
  finishes (frame__ERR f src s_err msg).
Proof.
  intros Hsrc. apply open_finishes. intros g Hg.
  apply bind_finishes; [by apply copy_header_if_given_keeps|]. intros g1 H1.
  apply bind_finishes; [by apply set_opcode_keeps|]. intros g2 H2.
  do 2 (apply exec_bind_finishes; intros ? _). cbv zeta. unfold mem__malloc.
  set (el := u32 (strlen a0)). set (ml := u32 (strlen (default_msg a))).
  pose proof (u32_range (strlen a0)). pose proof (u32_range (strlen (default_msg a))).
  set (size := u32 (el + ml + 3)). pose proof (u32_range (el + ml + 3)).
  destruct (malloc_ok size); [|by apply fail_finishes].
  apply exec_bind_finishes. intros p1 E1. apply exec_bind_finishes. intros p2 E2.
  apply exec_bind_finishes. intros p3 E3. apply exec_bind_finishes. intros p4 E4.
  assert (size ≠ 0) as Hnz by (intros E; rewrite E in E1; by vm_compute in E1).
  apply mem__memcpy_length in E1, E2, E3; [|lia..].
  assert (List.length <$> p4 = List.length <$> p3) as E4'
    by (destruct (ml =? 0); [by injection E4 as ->|apply mem__memcpy_length in E4; [done|lia..]]).
  rewrite E3, E2, E1 in E4'. cbn in E4'. rewrite length_replicate in E4'.
  destruct p4 as [l|]; [|done]. injection E4' as Hl.
  apply bind_finishes; [apply replace_payload_keeps; [done|lia|lia]|]. intros g3 ?.
  by builder.
Qed.

(** [frame__copy] refuses a source that is not completed before it touches the destination. *)
Lemma frame__copy_outcome f src s f' :
  0 ≤ opcode src < 256 → 0 ≤ flag src < 256 → 0 ≤ payload_size src < 4294967296 →
  frame__copy now f src false = Done (s, f') →
  (s = BPSP_INVALID_ARG ∧ f' = f ∧ _is_completed src = 0)
  ∨ (_is_completed f' = 0 ∧ (s = BPSP_OK → building f')).
Proof.
  intros Ho Hf Hp. unfold frame__copy. case_decide as Hc.
  - intros E. right. revert s f' E. change (keeps (ok! dst ← frame__empty f;
      ok! dst ← frame__copy_header dst src;
      ok! dst ← frame__put_payload dst (payload src) (payload_size src) false;
      Done (BPSP_OK, dst))).
    apply bind_keeps; [apply empty_keeps|intros ? ?].
    apply bind_keeps; [by apply copy_header_keeps|intros ? ?].
    apply bind_keeps; [by apply put_payload_keeps|intros ? ?]. by apply ret_keeps.
  - intros [= <- <-]. left. unfold frame__is_completed in Hc.
    destruct (Z.eqb_spec (_is_completed src) 0); done.
Qed.

(** Every operation either succeeds, with a well-formed frame marked as completed, or fails
    with a frame that is not; only [frame__MSG] of a source that is not completed leaves the
    frame as it was. *)
Lemma run_op_outcome f c s f' :
  call_typed c → run_op f c = Done (s, f') →
  (s = BPSP_OK → frame_wf f' ∧ _is_completed f' = 1)
  ∧ (s ≠ BPSP_OK → _is_completed f' = 0
       ∨ ∃ src, c = CallMSG src ∧ _is_completed src = 0 ∧ f' = f).
Proof.
  intros Ht E.
  assert (finishes (run_op f c) ∨ ∃ src, c = CallMSG src) as [Hf|[src ->]].
  { destruct c; cbn in Ht; try (by right; eexists); left; unfold run_op.
    - apply frame__INFO_finishes.
    - apply open_finishes. intros. by builder.
    - apply open_finishes. intros. destruct Ht. by builder.
    - apply open_finishes. intros. by builder.
    - apply open_finishes. intros.
      by builder.
    - apply open_finishes. intros. apply bind_finishes;
        [apply copy_header_if_given_keeps; [done|by intros ? ->]|]. intros ? ?.
      apply bind_finishes; [by apply set_opcode_keeps|]. intros ? ?.
      apply exec_bind_finishes. intros ? _. cbv zeta.
      pose proof (u32_range (strlen (default_msg a))). by builder.
    - apply frame__ERR_finishes. by intros g ->. }
  { apply Hf in E as [? ?]. split; [done|]. left. auto. }
  destruct Ht as (Ho & Hfl & Hp). unfold run_op, frame__MSG in E.
  apply bind_ok_cases in E as [(y & Ey & E)|[Hs E]].
  - apply frame__copy_outcome in Ey as [[? _]|[_ Hb]]; [done| |done..].
    assert (finishes (ok! g ← frame__set_opcode y (opcode_code OP_MSG); frame__build now g))
      as Hfin by (specialize (Hb eq_refl); by builder).
    apply Hfin in E as [? ?]. split; [done|]. left. auto.
  - split; [done|]. intros _.
    apply frame__copy_outcome in E as [(_ & -> & ?)|[? _]]; [|by left|done..].
    right. by exists src.
Qed.

(** ** What the operations put in the frame *)

Lemma build_ok f :
  malloc_ok sizeof_bpsp__var_header = true → headers_wf f → all_str (var_headers f) →
  0 < opcode f → headers_size (headers_after (var_headers f) "x-time" now) < 65536 →
  frame__build now f
  = Done (BPSP_OK,
      set_completed (set_vars f (headers_size (headers_after (var_headers f) "x-time" now))
                              (headers_after (var_headers f) "x-time" now)) 1).
Proof.
  intros Hm Hw Ha Ho Hs. unfold frame__build. rewrite set_var_header_ok by done.
  cbn [bind_ok mbind exec_bind opcode set_vars]. unfold frame__validate_opcode.
  destruct (Z.leb_spec (opcode f) 0); [lia|]. by rewrite (proj2 (Z.ltb_lt 0 _)).
Qed.

Lemma frame__MSG_spec f src :
  malloc_ok sizeof_bpsp__var_header = true → malloc_ok (payload_size src) = true →
  frame_wf src → Forall full_header (var_headers src) → completes src →
  let hs := headers_after (var_headers src) "x-time" now in
  headers_size hs < 65536 →
  frame__MSG f src
  = Done (BPSP_OK,
      {| vars_size := headers_size hs; opcode := opcode_code OP_MSG; flag := flag src;
         data_size := payload_size src; var_headers := hs;
         payload := payload src; payload_size := payload_size src;
         pos := payload_size src; _is_completed := 1 |}).
Proof.
  intros Hm Hp Hw Hfull Hc hs Hs. unfold frame__MSG.
  rewrite frame__copy_spec by done.
  unfold frame__set_opcode, frame__validate_opcode. cbn [bind_ok mbind exec_bind].
  change (opcode_code OP_MSG <=? 0) with false. cbn iota.
  change (0 <? opcode_code OP_MSG) with true. cbn iota.
  cbn [bind_ok mbind exec_bind].
  rewrite build_ok; [done|done| |by apply full_headers_all_str|done|done].
  destruct Hw as [[] _ _ _]. by split.
Qed.

(** The text of an error reply: the text of the status in parentheses, then the message. *)
Definition err_payload (err_text msg : string) : bytes :=
  chars "(" ++ chars err_text ++ chars ") " ++ chars (default_msg msg).

Lemma err_text_short s t : status__get_text s = Done t → 0 ≤ strlen t < 64.
Proof. destruct s; intros [= <-]; split; by vm_compute. Qed.

Lemma frame__ERR_spec f src s_err t msg :
  malloc_ok sizeof_bpsp__var_header = true →
  (∀ n, n = Z.of_nat (List.length (err_payload t msg)) → malloc_ok n = true) →
  frame_wf src → Forall full_header (var_headers src) → 0 < opcode src →
  status__get_text s_err = Done t → strlen msg < 4294967200 →
  let hs1 := headers_after (var_headers src) "x-status-code" "500" in
  let hs := headers_after hs1 "x-time" now in
  headers_size hs1 < 65536 → headers_size hs < 65536 →
  let size := Z.of_nat (List.length (err_payload t msg)) in
  frame__ERR f (Some src) s_err (Some msg)
  = Done (BPSP_OK,
      {| vars_size := headers_size hs; opcode := opcode_code OP_ERR; flag := flag src;
         data_size := size; var_headers := hs;
         payload := Some (Some <$> err_payload t msg); payload_size := size;
         pos := size; _is_completed := 1 |}).
Proof.
  intros Hm Hp [[Hsz Hmax Hnd Hne] _ _ _] Hfull Ho Et Hmsg hs1 hs Hs1 Hs size.
  unfold frame__ERR, frame__empty, copy_header_if_given.
  cbn [bind_ok mbind exec_bind].
  unfold frame__copy_header, frame__set_frame_control, frame__set_opcode,
    frame__validate_opcode, frame__set_flag.
  destruct (Z.leb_spec (opcode src) 0); [lia|].
  rewrite (proj2 (Z.ltb_lt 0 (opcode src))) by lia. cbn [bind_ok mbind exec_bind].
  rewrite copy_var_headers_fresh by (cbn; first [exact Hnd|done|lia]).
  cbn [bind_ok mbind exec_bind].
  change (opcode_code OP_ERR <=? 0) with false. cbn iota.
  change (0 <? opcode_code OP_ERR) with true. cbn iota.
  cbn [bind_ok mbind exec_bind deref]. rewrite Et. cbn [mbind exec_bind]. cbv zeta.
  pose proof (err_text_short _ _ Et).
  assert (0 ≤ strlen (default_msg msg) < 4294967200) as Hd.
  { pose proof (strlen_nonneg msg). unfold default_msg. destruct (strlen msg =? 0); [by vm_compute|lia]. }
  assert (size = strlen t + strlen (default_msg msg) + 3) as Esz.
  { unfold size, err_payload. rewrite !length_app, !strlen_chars.
    change (List.length (chars "(")) with 1%nat. change (List.length (chars ") ")) with 2%nat.
    lia. }
  rewrite (u32_small (strlen t)), (u32_small (strlen (default_msg msg))), u32_small by lia.
  rewrite <- Esz. unfold mem__malloc. rewrite (Hp size eq_refl). cbn iota.
  assert (∀ A (k : option (list cell) → exec A) (p : exec (option (list cell))) q,
    p = Done q → (p ≫= k) = k q) as Hb by (by intros A k p q ->).
  assert (Some (replicate (Z.to_nat size) None) = block size []) as ->
    by (unfold block; cbn; by rewrite Z.sub_0_r).
  unfold string_cells.
  rewrite (Hb _ _ _ _ (mem__memcpy_fill size [] (chars "(") 0 1 eq_refl eq_refl ltac:(lia))).
  rewrite (Hb _ _ _ _ (mem__memcpy_fill size ([] ++ chars "(") (chars t) 1 (strlen t)
    eq_refl (strlen_chars t) ltac:(lia))).
  rewrite (Hb _ _ _ _ (mem__memcpy_fill size (([] ++ chars "(") ++ chars t) (chars ") ")
    (strlen t + 1) 2 ltac:(rewrite strlen_chars, length_app; cbn; lia) eq_refl ltac:(lia))).
  erewrite (Hb _ _ _ (block size (err_payload t msg))).
  2: { rewrite (proj2 (Z.eqb_neq _ 0)).
       - rewrite mem__memcpy_fill; [|rewrite strlen_chars, !length_app; cbn; lia
                                    |apply strlen_chars|lia].
         unfold err_payload. by app_norm.
       - unfold default_msg. destruct (Z.eqb_spec (strlen msg) 0); [done|lia]. }
  unfold size. rewrite block_full. unfold frame__replace_payload.
  cbn [bind_ok mbind exec_bind].
  set (g := set_payload _ _ _ _).
  assert (headers_wf g) as Hg by (split; cbn; [done|lia|done|done]).
  pose proof (set_var_header_ok g "x-status-code" "500" Hm Hg
    (full_headers_all_str _ Hfull) ltac:(done) Hs1) as Ew.
  pose proof (set_var_header_wf _ _ _ _ Hg Ew) as Hg'.
  rewrite Ew. cbn [bind_ok mbind exec_bind]. fold hs1. rewrite build_ok; [done|done|done| |done|done].
  apply headers_after_all_str; [done|]. by apply full_headers_all_str.
Qed.

(** *** Replies *)

(** The frame that answers [src]: its flag and headers, a status code, and a text. *)
Definition reply_headers (src : bpsp__frame) (code : string) : list (string * header_value) :=
  headers_after (headers_after (var_headers src) "x-status-code" code) "x-time" now.

Definition reply_frame (op : Z) (code : string) (src : bpsp__frame) (data : bytes)
  : bpsp__frame :=
  let size := Z.of_nat (List.length data) in
  {| vars_size := headers_size (reply_headers src code); opcode := op; flag := flag src;
     data_size := size; var_headers := reply_headers src code;
     payload := Some (Some <$> data); payload_size := size; pos := size; _is_completed := 1 |}.

(** The request can be answered: its headers, with those of the reply, fit in a frame. *)
Record answerable (src : bpsp__frame) (code : string) : Prop := {
  an_wf : frame_wf src;
  an_full : Forall full_header (var_headers src);
  an_opcode : 0 < opcode src;
  an_code : headers_size (headers_after (var_headers src) "x-status-code" code) < 65536;
  an_time : headers_size (reply_headers src code) < 65536;
}.

(** Setting the two headers of a reply. *)
Lemma reply_headers_set g src code :
  malloc_ok sizeof_bpsp__var_header = true → answerable src code → code ≠ ""%string →
  0 < opcode g → var_headers g = var_headers src → vars_size g = vars_size src →
  (ok! f ← frame__set_var_header g (Some "x-status-code"%string) (Some code);
   frame__build now f)
  = Done (BPSP_OK, set_completed (set_vars g (headers_size (reply_headers src code))
                                             (reply_headers src code)) 1).
Proof.
  intros Hm [[[Hsz Hmax Hnd Hne] _ _ _] Hfull Ho Hs1 Hs] Hc Hop Eh Es.
  assert (headers_wf g) as Hg by (split; rewrite ?Eh, ?Es; done).
  pose proof (full_headers_all_str _ Hfull) as Ha. rewrite <- Eh in *.
  pose proof (set_var_header_ok g "x-status-code" code Hm Hg Ha ltac:(done) Hs1) as Ew.
  pose proof (set_var_header_wf _ _ _ _ Hg Ew) as Hg'. rewrite Ew.
  cbn [bind_ok mbind exec_bind]. unfold reply_headers in *. rewrite <- Eh in *.
  rewrite build_ok; [done|done|done| |done|done].
  apply headers_after_all_str; [|done]. by rewrite strlen_zero.
Qed.

Lemma frame__OK_spec f src msg :
  malloc_ok sizeof_bpsp__var_header = true →
  malloc_ok (strlen (default_msg msg)) = true →
  answerable src "200" → strlen msg < 4294967296 →
  frame__OK f (Some src) (Some msg)
  = Done (BPSP_OK, reply_frame (opcode_code OP_OK) "200" src (chars (default_msg msg))).
Proof.
  intros Hm Hp Han Hmsg. pose proof Han as [[[Hsz Hmax Hnd Hne] _ _ _] Hfull Ho Hs1 Hs].
  unfold frame__OK, frame__empty, copy_header_if_given.
  cbn [bind_ok mbind exec_bind]. unfold frame__copy_header.
  unfold frame__set_frame_control, frame__set_opcode, frame__validate_opcode, frame__set_flag.
  destruct (Z.leb_spec (opcode src) 0); [lia|].
  rewrite (proj2 (Z.ltb_lt 0 (opcode src))) by lia. cbn [bind_ok mbind exec_bind].
  rewrite copy_var_headers_fresh by (cbn; first [exact Hnd|done|lia]).
  cbn [bind_ok mbind exec_bind].
  change (opcode_code OP_OK <=? 0) with false. cbn iota.
  change (0 <? opcode_code OP_OK) with true. cbn iota.
  cbn [bind_ok mbind exec_bind deref]. cbv zeta.
  assert (0 < strlen (default_msg msg) < 4294967296) as Hd.
  { pose proof (strlen_nonneg msg). unfold default_msg.
    destruct (Z.eqb_spec (strlen msg) 0); [by vm_compute|lia]. }
  rewrite u32_small by lia. unfold string_cells.
  rewrite put_payload_spec; [|by split|done|by rewrite length_fmap, strlen_chars|done].
  cbn [bind_ok mbind exec_bind]. rewrite (reply_headers_set _ src "200") by done.
  unfold reply_frame. by rewrite <- strlen_chars.
Qed.

Lemma frame__ERR_reply_spec f src s_err t msg :
  malloc_ok sizeof_bpsp__var_header = true →
  malloc_ok (Z.of_nat (List.length (err_payload t msg))) = true →
  answerable src "500" → status__get_text s_err = Done t → strlen msg < 4294967200 →
  frame__ERR f (Some src) s_err (Some msg)
  = Done (BPSP_OK, reply_frame (opcode_code OP_ERR) "500" src (err_payload t msg)).
Proof. intros Hm Hp [] Et Hmsg. rewrite (frame__ERR_spec f src s_err t msg) by (done || by intros ? ->). done. Qed.

(** What [handle__reply] answers: the text of an OK or of an ERR frame. *)
Definition reply_data (s : status__err) (msg : string) : bytes :=
  match s, status__get_text s with
  | BPSP_OK, _ => chars (default_msg msg)
  | _, Done t => err_payload t msg
  | _, _ => []
  end.
Definition reply_code (s : status__err) : string :=
  match s with BPSP_OK => "200" | _ => "500" end.
Definition reply_opcode (s : status__err) : bpsp__opcode :=
  match s with BPSP_OK => OP_OK | _ => OP_ERR end.
End FrameOp.

#[global] Arguments frame__OK : simpl never.
#[global] Arguments frame__ERR : simpl never.
#[global] Arguments frame__MSG : simpl never.
#[global] Arguments frame__INFO : simpl never.
