(* ===== verification/FrameRw.v ===== *)
(** * frame_rw.c: frames on a connection

    A frame is sent in three writes (fixed header, variable headers, payload) and received in
    three blocking reads.  The model keeps the state of the connection and of the frame on
    every return path.  Frame logging ([Print.frame__print]) is taken to be switched off. *)
From S2P Require Import Prelude Status Datatype Uthash Mem Net Frame FrameFacts.
From S2P Require Import HeaderCodec FrameOp.
Local Open Scope Z_scope.

Definition FIXED_HEADER_SIZE : nat := 8.
Definition OFFSET_VARS_SIZE : nat := 0.
Definition OFFSET_OPCODE : nat := 2.
Definition OFFSET_FLAG : nat := 3.
Definition OFFSET_DATA_SIZE : nat := 4.

(** The bytes of [bs], written at an offset of an array of cells. *)
Definition write_at (off : nat) (bs : bytes) (a : list cell) : list cell :=
  take off a ++ (Some <$> bs) ++ drop (off + List.length bs) a.

Section FrameRw.
Context `{Malloc} {S : Type} `{Socket S}.
(** The byte order of the host, and the text that [date_now_utc] writes. *)
Variables (big : bool) (now : string).
Notation connection := (bpsp__connection S).

Definition recv_var_headers (conn : connection) (f : bpsp__frame) (vars_size : Z)
  : exec (status__err * bpsp__frame * connection) :=
  match mem__malloc vars_size with
  | None => mret (BPSP_NO_MEMORY, f, conn)
  | Some _ =>
      '(s, _, var_hdr_buf, conn) ← net__read conn vars_size true;
      if decide (s ≠ BPSP_OK) then mret (s, f, conn) else
      '(s, f) ← frame__parse_var_header f var_hdr_buf vars_size;
      mret (s, f, conn)
  end.

Definition recv_payload (conn : connection) (f : bpsp__frame) (data_size : Z)
  : exec (status__err * bpsp__frame * connection) :=
  if 0 <? data_size then
    '(s, n_read, data, conn) ← net__read conn data_size true;
    p ← deref (payload f);
    mret (s, set_payload f (Some (write_at 0 data p)) (payload_size f) (u32 n_read), conn)
  else mret (BPSP_OK, f, conn).

Definition frame__recv (conn : connection) (f : bpsp__frame)
  : exec (status__err * bpsp__frame * connection) :=
  '(s, f) ← frame__empty f;
  if decide (s ≠ BPSP_OK) then mret (s, f, conn) else
  '(s, _, fixed_header, conn) ← net__read conn (Z.of_nat FIXED_HEADER_SIZE) true;
  if decide (s ≠ BPSP_OK) then mret (s, f, conn) else
  let vars_size := datatype__d16 big (drop OFFSET_VARS_SIZE fixed_header) in
  let op := datatype__d8 big (drop OFFSET_OPCODE fixed_header) in
  let fl := datatype__d8 big (drop OFFSET_FLAG fixed_header) in
  '(s, f) ← frame__set_frame_control f op fl;
  if decide (s ≠ BPSP_OK) then mret (s, f, conn) else
  let data_size := datatype__d32 big (drop OFFSET_DATA_SIZE fixed_header) in
  '(s, f, conn) ← recv_var_headers conn f vars_size;
  if decide (s ≠ BPSP_OK) then mret (s, f, conn) else
  '(s, f) ← frame__malloc_payload f data_size;
  if decide (s ≠ BPSP_OK) then mret (s, f, conn) else
  '(s, f, conn) ← recv_payload conn f data_size;
  if decide (s ≠ BPSP_OK) then mret (s, f, conn) else
  '(s, f) ← frame__build now f;
  mret (s, f, conn).

(** [net__write] on a connection that is there. *)
Definition write_block (conn : connection) (buf : option bytes) (size : Z)
  : exec (status__err * Z * connection) :=
  '(s, n, conn) ← net__write (Some conn) buf size true;
  conn ← deref conn; mret (s, n, conn).

(** The cells of a block that goes out; none may be indeterminate. *)
Definition block_bytes (p : option (list cell)) : exec (option bytes) :=
  match p with
  | None => Done None
  | Some l => bs ← cells_defined l; mret (Some bs)
  end.

Definition fixed_header_of (f : bpsp__frame) : list cell :=
  let a := replicate FIXED_HEADER_SIZE None in
  let a := write_at 0 (datatype__e16 big (vars_size f)) a in
  let a := write_at OFFSET_OPCODE (datatype__e8 big (opcode f)) a in
  let a := write_at OFFSET_FLAG (datatype__e8 big (flag f)) a in
  write_at OFFSET_DATA_SIZE (datatype__e32 big (data_size f)) a.

Definition send_var_headers (conn : connection) (f : bpsp__frame)
  : exec (status__err * connection) :=
  if 0 <? vars_size f then
    match mem__malloc (vars_size f) with
    | None => mret (BPSP_NO_MEMORY, conn)
    | Some b =>
        '(s, var_hdr_buf) ← var_header__to_bytes (var_headers f) (Some b);
        if decide (s ≠ BPSP_OK) then mret (s, conn) else
        buf ← block_bytes var_hdr_buf;
        '(s, _, conn) ← write_block conn buf (vars_size f);
        mret (s, conn)
    end
  else mret (BPSP_OK, conn).

Definition frame__send (conn : connection) (f : bpsp__frame)
  : exec (status__err * bpsp__frame * connection) :=
  let s := frame__is_completed (Some f) in
  if decide (s ≠ BPSP_OK) then mret (s, f, conn) else
  fixed_header ← block_bytes (Some (fixed_header_of f));
  '(s, _, conn) ← write_block conn fixed_header (Z.of_nat FIXED_HEADER_SIZE);
  if decide (s ≠ BPSP_OK) then mret (s, f, conn) else
  '(s, conn) ← send_var_headers conn f;
  if decide (s ≠ BPSP_OK) then mret (s, f, conn) else
  if 0 <? data_size f then
    buf ← block_bytes (payload f);
    '(s, n_write, conn) ← write_block conn buf (data_size f);
    mret (s, set_pos f (u32 n_write), conn)
  else mret (s, f, conn).

(** ** The wire format of the specification *)

Definition wire_frame (f : bpsp__frame) (data : bytes) : bytes :=
  be_bytes 2 (vars_size f) ++ be_bytes 1 (opcode f) ++ be_bytes 1 (flag f)
  ++ be_bytes 4 (data_size f) ++ encode_headers (var_headers f) ++ data.

(** The payload is the block of these bytes, or none when there are none. *)
Definition payload_is (f : bpsp__frame) (data : bytes) : Prop :=
  payload f = match data with [] => None | _ => Some (Some <$> data) end.

Lemma payload_is_size f data :
  payload_wf f → payload_is f data → payload_size f = Z.of_nat (List.length data).
Proof.
  intros [_ _ Hb] Hp. rewrite Hp in Hb. destruct data; [done|].
  destruct Hb as [-> _]. by rewrite length_fmap.
Qed.

Definition fixed_bytes (v o fl d : Z) : bytes :=
  be_bytes 2 v ++ be_bytes 1 o ++ be_bytes 1 fl ++ be_bytes 4 d.

Lemma length_fixed_bytes v o fl d : List.length (fixed_bytes v o fl d) = 8%nat.
Proof. unfold fixed_bytes. by rewrite !length_app, !length_be_bytes. Qed.

Lemma fixed_header_spec f :
  0 ≤ vars_size f < 65536 → 0 ≤ data_size f < 4294967296 →
  fixed_header_of f
  = Some <$> fixed_bytes (vars_size f) (opcode f) (flag f) (data_size f).
Proof.
  intros Hv Hd. unfold fixed_header_of, FIXED_HEADER_SIZE, OFFSET_OPCODE, OFFSET_FLAG,
    OFFSET_DATA_SIZE.
  rewrite datatype__e16_be, !datatype__e8_be, datatype__e32_be by done.
  done.
Qed.

Lemma fixed_header_decode v o fl d l :
  0 ≤ v < 65536 → 0 ≤ o < 256 → 0 ≤ fl < 256 → 0 ≤ d < 4294967296 →
  let h := fixed_bytes v o fl d ++ l in
  datatype__d16 big (drop OFFSET_VARS_SIZE h) = v
  ∧ datatype__d8 big (drop OFFSET_OPCODE h) = o
  ∧ datatype__d8 big (drop OFFSET_FLAG h) = fl
  ∧ datatype__d32 big (drop OFFSET_DATA_SIZE h) = d.
Proof.
  intros Hv Ho Hf Hd h. unfold h, fixed_bytes, OFFSET_VARS_SIZE, OFFSET_OPCODE, OFFSET_FLAG,
    OFFSET_DATA_SIZE. rewrite <- !app_assoc, drop_0.
  assert (∀ r, drop 2 (be_bytes 2 v ++ r) = r) as -> by done.
  assert (∀ r, drop 3 (be_bytes 2 v ++ be_bytes 1 o ++ r) = r) as -> by done.
  assert (∀ r, drop 4 (be_bytes 2 v ++ be_bytes 1 o ++ be_bytes 1 fl ++ r) = r) as -> by done.
  rewrite <- (datatype__e16_be big), <- (datatype__e8_be big o),
    <- (datatype__e8_be big fl), <- (datatype__e32_be big) by done.
  by rewrite datatype__d16_e16, !datatype__d8_e8, datatype__d32_e32.
Qed.

Context `{!SocketLaws S}.

Lemma write_block_exact (conn : connection) bs :
  0 < sockfd conn → writable (sock conn) →
  ∃ s', write_block conn (Some bs) (Z.of_nat (List.length bs))
        = Done (BPSP_OK, Z.of_nat (List.length bs), set_sock conn s')
    ∧ rx s' = rx (sock conn) ∧ tx s' = tx (sock conn) ++ bs ∧ writable s'.
Proof.
  intros Ho Hw. destruct (net__write_exact conn bs Ho Hw) as (s' & E & ?).
  exists s'. unfold write_block. by rewrite E.
Qed.

Lemma block_bytes_some bs : block_bytes (Some (Some <$> bs)) = Done (Some bs).
Proof. unfold block_bytes. by rewrite cells_defined_some. Qed.

Lemma set_sock_set (conn : connection) s s' : set_sock (set_sock conn s) s' = set_sock conn s'.
Proof. done. Qed.

(** A completed frame that can be sent. *)
Record sendable (f : bpsp__frame) (data : bytes) : Prop := {
  sn_wf : frame_wf f;
  sn_str : all_str (var_headers f);
  sn_data : payload_is f data;
  sn_done : _is_completed f ≠ 0;
}.

Lemma set_pos_id f : set_pos f (pos f) = f.
Proof. by destruct f. Qed.

Lemma send_var_headers_spec (conn : connection) f :
  (∀ n, n = vars_size f → malloc_ok n = true) → headers_wf f → all_str (var_headers f) →
  0 < sockfd conn → writable (sock conn) →
  ∃ s', send_var_headers conn f = Done (BPSP_OK, set_sock conn s')
    ∧ rx s' = rx (sock conn)
    ∧ tx s' = tx (sock conn) ++ encode_headers (var_headers f) ∧ writable s'.
Proof.
  intros Hm [Hsz Hmax _ _] Ha Ho Hw. unfold send_var_headers.
  pose proof (length_encode_headers _ Ha) as Hl. rewrite <- Hsz in Hl.
  destruct (Z.ltb_spec 0 (vars_size f)) as [Hpos|Hz].
  - unfold mem__malloc. rewrite (Hm _ eq_refl).
    replace (Z.to_nat (vars_size f)) with (Z.to_nat (headers_size (var_headers f)))
      by (by rewrite Hsz).
    rewrite to_bytes_spec by (done || lia). cbn [mbind exec_bind].
    rewrite decide_False by auto. rewrite block_bytes_some. cbn [mbind exec_bind].
    rewrite <- Hl.
    destruct (write_block_exact conn (encode_headers (var_headers f)))
      as (s2 & -> & Hr2 & Ht2 & Hw2); [done..|]. by exists s2.
  - exists (sock conn). destruct (encode_headers (var_headers f)); [|cbn in Hl; lia].
    rewrite app_nil_r. by destruct conn.
Qed.

Lemma frame__send_spec (conn : connection) f data :
  (∀ n, n = vars_size f → malloc_ok n = true) →
  0 < sockfd conn → writable (sock conn) → sendable f data →
  ∃ s', frame__send conn f
        = Done (BPSP_OK, set_pos f (match data with [] => pos f | _ => data_size f end),
                set_sock conn s')
    ∧ rx s' = rx (sock conn) ∧ tx s' = tx (sock conn) ++ wire_frame f data ∧ writable s'.
Proof.
  intros Hm Ho Hw [[Hh Hp _ _] Ha Hd Hc]. pose proof Hh as [Hsz Hmax _ _].
  pose proof (payload_is_size _ _ Hp Hd) as Hpl. pose proof (pw_sizes _ Hp) as Hds.
  pose proof (pw_range _ Hp). pose proof (headers_size_nonneg (var_headers f)).
  unfold frame__send. unfold frame__is_completed. rewrite (proj2 (Z.eqb_neq _ _) Hc). cbn zeta.
  rewrite decide_False by auto.
  rewrite fixed_header_spec, block_bytes_some by lia. cbn [mbind exec_bind].
  set (h := fixed_bytes _ _ _ _).
  assert (Z.of_nat FIXED_HEADER_SIZE = Z.of_nat (List.length h)) as ->
    by (unfold h; by rewrite length_fixed_bytes).
  destruct (write_block_exact conn h Ho Hw) as (s1 & -> & Hr1 & Ht1 & Hw1).
  cbn [mbind exec_bind]. rewrite decide_False by auto.
  destruct (send_var_headers_spec (set_sock conn s1) f) as (s2 & -> & Hr2 & Ht2 & Hw2); [done..|].
  cbn [sock set_sock] in Hr2, Ht2. rewrite set_sock_set.
  cbn [mbind exec_bind]. rewrite decide_False by auto. rewrite Hd.
  assert (wire_frame f data = h ++ encode_headers (var_headers f) ++ data) as ->
    by (unfold wire_frame, h, fixed_bytes; by rewrite <- !app_assoc).
  destruct data as [|b data'] eqn:Edata.
  - rewrite Hds, Hpl. cbn [List.length]. exists s2. rewrite set_pos_id.
    rewrite app_nil_r. split_and!; [done|congruence| |done]. by rewrite Ht2, Ht1, <- app_assoc.
  - rewrite <- Edata in *. rewrite Hds, Hpl.
    destruct (Z.ltb_spec 0 (Z.of_nat (List.length data))); [|subst; cbn in *; lia].
    rewrite block_bytes_some. cbn [mbind exec_bind].
    destruct (write_block_exact (set_sock conn s2) data) as (s3 & -> & Hr3 & Ht3 & Hw3);
      [done..|]. cbn [mbind exec_bind mret exec_ret]. rewrite u32_small by lia.
    exists s3. cbn in *. split_and!; [done|congruence| |done].
    by rewrite Ht3, Ht2, Ht1, <- !app_assoc.
Qed.

(** *** Receiving *)

Lemma recv_var_headers_spec (conn : connection) f hs rest :
  (∀ n, malloc_ok n = true) → 0 < sockfd conn → headers_valid hs →
  rx (sock conn) = encode_headers hs ++ rest → var_headers f = [] → vars_size f = 0 →
  ∃ s', recv_var_headers conn f (headers_size hs)
        = Done (BPSP_OK, set_vars f (headers_size hs) hs, set_sock conn s')
    ∧ rx s' = rest ∧ tx s' = tx (sock conn).
Proof.
  intros Hm Ho Hv Hrx Hh Hz.
  pose proof (length_encode_headers _ (full_headers_all_str _ (hv_full _ Hv))) as Hl.
  destruct (net__read_exact conn _ _ Ho Hrx) as (s' & E & Hr & Ht & _).
  exists s'. split_and!; [|done|done]. unfold recv_var_headers, mem__malloc. rewrite Hm.
  rewrite <- Hl, E. cbn [mbind exec_bind]. rewrite decide_False by auto.
  by rewrite parse_encode_valid, Hl.
Qed.

(** The payload of a frame that had none: a fresh block, filled from the stream. *)
Lemma recv_payload_spec (conn : connection) f data rest :
  (∀ n, malloc_ok n = true) → 0 < sockfd conn → rx (sock conn) = data ++ rest →
  payload_size f = 0 → Z.of_nat (List.length data) < 4294967296 →
  let size := Z.of_nat (List.length data) in
  ∃ f1 s', frame__malloc_payload f size = Done (BPSP_OK, f1)
    ∧ recv_payload conn f1 size
      = Done (BPSP_OK,
          set_payload f (match data with [] => None | _ => Some (Some <$> data) end) size size,
          set_sock conn s')
    ∧ rx s' = rest ∧ tx s' = tx (sock conn).
Proof.
  intros Hm Ho Hrx Hp Hlt size. unfold frame__malloc_payload, recv_payload.
  assert (size = Z.of_nat (List.length data)) as Esz by done. clearbody size.
  destruct data as [|b data'] eqn:Edata.
  - subst size. exists (frame__free_payload f), (sock conn). by destruct conn.
  - rewrite <- Edata in *. assert (0 < size) by (subst; cbn; lia).
    rewrite (proj2 (Z.eqb_neq size 0)), Hp, (proj2 (Z.ltb_lt 0 size)) by lia.
    cbn [negb Z.eqb]. unfold mem__malloc. rewrite Hm. eexists.
    destruct (net__read_exact conn data rest Ho Hrx) as (s' & E & Hr & Ht & _).
    rewrite <- Esz in E. rewrite E. exists s'. split_and!; [done| |done|done].
    cbn [mbind exec_bind payload set_payload deref mret exec_ret]. rewrite u32_small by lia.
    unfold write_at. rewrite take_0, drop_ge by (rewrite length_replicate; lia). cbn [app].
    by rewrite app_nil_r.
Qed.

Lemma set_frame_control_ok f op fl :
  0 < op → frame__set_frame_control f op fl = Done (BPSP_OK, set_control f op fl).
Proof.
  intros Hop. unfold frame__set_frame_control, frame__set_opcode, frame__validate_opcode.
  destruct (Z.leb_spec op 0); [lia|]. by rewrite (proj2 (Z.ltb_lt 0 op)).
Qed.

(** The frame that arrives: the receiver writes its own time into the header [x-time]. *)
Definition received (f : bpsp__frame) (data : bytes) : bpsp__frame :=
  let hs := headers_after (var_headers f) "x-time" now in
  {| vars_size := headers_size hs; opcode := opcode f; flag := flag f;
     data_size := data_size f; var_headers := hs;
     payload := match data with [] => None | _ => Some (Some <$> data) end;
     payload_size := data_size f; pos := data_size f; _is_completed := 1 |}.

Lemma frame__recv_spec (conn : connection) g f data rest :
  (∀ n, malloc_ok n = true) → 0 < sockfd conn →
  headers_valid (var_headers f) → vars_size f = headers_size (var_headers f) →
  0 < opcode f < 256 → 0 ≤ flag f < 256 →
  data_size f = Z.of_nat (List.length data) → data_size f < 4294967296 →
  headers_size (headers_after (var_headers f) "x-time" now) < 65536 →
  rx (sock conn) = wire_frame f data ++ rest →
  ∃ s', frame__recv conn g = Done (BPSP_OK, received f data, set_sock conn s')
    ∧ rx s' = rest ∧ tx s' = tx (sock conn).
Proof.
  intros Hm Ho Hv Hsz Hop Hfl Hds Hdm Hs Hrx.
  pose proof (hv_size _ Hv). pose proof (headers_size_nonneg (var_headers f)).
  set (h := fixed_bytes (vars_size f) (opcode f) (flag f) (data_size f)).
  assert (rx (sock conn) = h ++ encode_headers (var_headers f) ++ data ++ rest) as Hrx1
    by (rewrite Hrx; unfold wire_frame, h, fixed_bytes; by rewrite <- !app_assoc).
  unfold frame__recv, frame__empty. cbn [mbind exec_bind]. rewrite decide_False by auto.
  assert (Z.of_nat FIXED_HEADER_SIZE = Z.of_nat (List.length h)) as ->
    by (unfold h; by rewrite length_fixed_bytes).
  destruct (net__read_exact conn h _ Ho Hrx1) as (s1 & -> & Hr1 & Ht1 & _).
  cbn [mbind exec_bind]. rewrite decide_False by auto. cbv zeta.
  destruct (fixed_header_decode (vars_size f) (opcode f) (flag f) (data_size f) [])
    as (D1 & D2 & D3 & D4); [lia..|].
  rewrite app_nil_r in D1, D2, D3, D4. fold h in D1, D2, D3, D4. rewrite D1, D2, D3, D4.
  rewrite set_frame_control_ok by lia. cbn [mbind exec_bind]. rewrite decide_False by auto.
  rewrite Hsz.
  destruct (recv_var_headers_spec (set_sock conn s1)
    (set_control frame_zero (opcode f) (flag f)) _ _ Hm Ho Hv Hr1 eq_refl eq_refl)
    as (s2 & -> & Hr2 & Ht2).
  cbn [mbind exec_bind]. rewrite decide_False by auto. rewrite Hds.
  destruct (recv_payload_spec (set_sock conn s2) (set_vars (set_control frame_zero (opcode f)
    (flag f)) (headers_size (var_headers f)) (var_headers f)) data rest)
    as (f1 & s3 & -> & E & Hr3 & Ht3); [done|done|done|done|lia|].
  cbn [mbind exec_bind]. rewrite decide_False by auto. cbv zeta in E.
  change (set_sock (set_sock conn s1) s2) with (set_sock conn s2). rewrite E.
  cbn [mbind exec_bind]. rewrite decide_False by auto.
  rewrite build_ok; cbn; [| | | |lia|done].
  - eexists. split_and!; [|done|cbn in *; congruence]. unfold received. by rewrite Hds.
  - apply Hm.
  - split; cbn; [done|lia|apply Hv|]. intros k v Hin ->%strlen_zero.
    pose proof (hv_full _ Hv) as Hf. rewrite Forall_forall in Hf. by destruct (Hf _ Hin).
  - apply full_headers_all_str, Hv.
Qed.

(** *** A stream that ends too early *)

Definition io_failure (s : status__err) : Prop :=
  s = BPSP_CONNECTION_CLOSED ∨ s = BPSP_IO_ERROR.

Lemma net__read_short (conn : connection) size :
  0 < sockfd conn → Z.of_nat (List.length (rx (sock conn))) < size →
  ∃ s n buf conn', net__read conn size true = Done (s, n, buf, conn') ∧ io_failure s.
Proof.
  intros Ho Hl. destruct (net__read_spec conn size) as (s & got & s' & E & Hrx & _ & _ & Hd);
    [done|lia|]. destruct Hd as [[_ Hlen]|[Hs _]]; [|by eauto 10].
  exfalso. rewrite Hrx, length_app in Hl. lia.
Qed.

Lemma io_failure_not_ok s : io_failure s → s ≠ BPSP_OK.
Proof. by intros [->| ->]. Qed.

(** A proper prefix of [l1 ++ l2] ends in [l1] or is [l1] and a proper prefix of [l2]. *)
Lemma short_app {A} (p q l1 l2 : list A) :
  p ++ q = l1 ++ l2 → q ≠ [] →
  (List.length p < List.length l1)%nat ∨ ∃ p', p = l1 ++ p' ∧ p' ++ q = l2.
Proof.
  intros E Hq. destruct (decide (List.length p < List.length l1)%nat); [by left|right].
  exists (drop (List.length l1) p).
  assert (take (List.length l1) p = l1) as Et.
  { apply (f_equal (take (List.length l1))) in E. rewrite take_app_length in E.
    rewrite take_app_le in E by lia. done. }
  split; [by rewrite <- Et at 1; rewrite take_drop|].
  apply (f_equal (drop (List.length l1))) in E. rewrite drop_app_length in E.
  by rewrite drop_app_le in E by lia.
Qed.

Lemma frame__recv_truncated_spec (conn : connection) g f data p q :
  (∀ n, malloc_ok n = true) → 0 < sockfd conn →
  headers_valid (var_headers f) → vars_size f = headers_size (var_headers f) →
  0 < opcode f < 256 → 0 ≤ flag f < 256 →
  data_size f = Z.of_nat (List.length data) → data_size f < 4294967296 →
  p ++ q = wire_frame f data → q ≠ [] → rx (sock conn) = p →
  ∃ s f' conn', frame__recv conn g = Done (s, f', conn') ∧ io_failure s.
Proof.
  intros Hm Ho Hv Hsz Hop Hfl Hds Hdm Hpq Hq Hrx.
  pose proof (hv_size _ Hv). pose proof (headers_size_nonneg (var_headers f)).
  set (h := fixed_bytes (vars_size f) (opcode f) (flag f) (data_size f)).
  assert (p ++ q = h ++ encode_headers (var_headers f) ++ data) as Hpq1
    by (rewrite Hpq; unfold wire_frame, h, fixed_bytes; by rewrite <- !app_assoc).
  assert (List.length h = 8%nat) as Lh by apply length_fixed_bytes.
  unfold frame__recv, frame__empty. cbn [mbind exec_bind]. rewrite decide_False by auto.
  destruct (short_app _ _ _ _ Hpq1 Hq) as [Hsh|(p1 & -> & Hpq2)].
  { destruct (net__read_short conn (Z.of_nat FIXED_HEADER_SIZE) Ho) as (s & n & buf & c & -> & Hs);
      [rewrite Hrx; unfold FIXED_HEADER_SIZE; lia|].
    cbn [mbind exec_bind]. rewrite decide_True by (by apply io_failure_not_ok). by eauto. }
  assert (Z.of_nat FIXED_HEADER_SIZE = Z.of_nat (List.length h)) as -> by (by rewrite Lh).
  destruct (net__read_exact conn h _ Ho Hrx) as (s1 & -> & Hr1 & Ht1 & _).
  cbn [mbind exec_bind]. rewrite decide_False by auto. cbv zeta.
  destruct (fixed_header_decode (vars_size f) (opcode f) (flag f) (data_size f) [])
    as (D1 & D2 & D3 & D4); [lia..|].
  rewrite app_nil_r in D1, D2, D3, D4. fold h in D1, D2, D3, D4. rewrite D1, D2, D3, D4.
  rewrite set_frame_control_ok by lia. cbn [mbind exec_bind]. rewrite decide_False by auto.
  pose proof (length_encode_headers _ (full_headers_all_str _ (hv_full _ Hv))) as Le.
  destruct (short_app _ _ _ _ Hpq2 Hq) as [Hsh|(p2 & -> & Hpq3)].
  { unfold recv_var_headers, mem__malloc. rewrite Hm.
    destruct (net__read_short (set_sock conn s1) (vars_size f) Ho) as (s & n & buf & c & -> & Hs);
      [cbn; rewrite Hr1; lia|].
    cbn [mbind exec_bind]. rewrite decide_True by (by apply io_failure_not_ok).
    cbn [mbind exec_bind mret exec_ret]. rewrite decide_True by (by apply io_failure_not_ok).
    by eauto. }
  rewrite Hsz.
  destruct (recv_var_headers_spec (set_sock conn s1)
    (set_control frame_zero (opcode f) (flag f)) _ _ Hm Ho Hv Hr1 eq_refl eq_refl)
    as (s2 & -> & Hr2 & Ht2).
  cbn [mbind exec_bind]. rewrite decide_False by auto.
  assert (Z.of_nat (List.length p2) < data_size f) as Hlt.
  { apply (f_equal List.length) in Hpq3. rewrite length_app in Hpq3.
    destruct q; [done|]. cbn in Hpq3. lia. }
  unfold frame__malloc_payload. rewrite (proj2 (Z.eqb_neq (data_size f) 0)) by lia.
  cbn [payload_size set_vars set_control frame_zero Z.eqb negb]. unfold mem__malloc.
  rewrite Hm. cbn [mbind exec_bind]. rewrite decide_False by auto.
  unfold recv_payload. rewrite (proj2 (Z.ltb_lt 0 (data_size f))) by lia.
  destruct (net__read_short (set_sock conn s2) (data_size f) Ho) as (s & n & buf & c & E & Hs);
    [cbn; by rewrite Hr2|].
  rewrite set_sock_set, E. cbn [mbind exec_bind payload set_payload deref mret exec_ret].
  rewrite decide_True by (by apply io_failure_not_ok). by eauto.
Qed.

(** *** Replies can be sent *)

Lemma reply_sendable op code src data :
  malloc_ok sizeof_bpsp__var_header = true → answerable now src code → code ≠ ""%string →
  now ≠ ""%string → 0 ≤ op < 256 → data ≠ [] → Z.of_nat (List.length data) < 4294967296 →
  sendable (reply_frame now op code src data) data.
Proof.
  intros Hm Han Hc Hn Hop Hd Hl.
  pose proof Han as [[[Hsz Hmax Hnd Hne] _ _ Hfl] Hfull Ho Hs1 Hs].
  pose proof (full_headers_all_str _ Hfull) as Ha.
  rewrite <- strlen_zero in Hc, Hn.
  assert (0 < Z.of_nat (List.length data)) by (destruct data; cbn; [done|lia]).
  split; [split| | |]; cbn.
  - assert (headers_wf src) as Hw by by split.
    assert (all_str (headers_after (var_headers src) "x-status-code" code)) as Ha1
      by by apply headers_after_all_str.
    pose proof (set_var_header_ok src "x-status-code" code Hm Hw Ha ltac:(done) Hs1) as E1.
    pose proof (set_var_header_wf _ _ _ _ Hw E1) as Hw1.
    pose proof (set_var_header_ok _ "x-time" now Hm Hw1 Ha1 ltac:(done) Hs) as E2.
    apply (set_var_header_wf _ _ _ _ Hw1) in E2. destruct E2. by split.
  - split; cbn; [done|lia|]. rewrite length_fmap. lia.
  - done.
  - done.
  - by do 2 (apply headers_after_all_str; [done|]).
  - unfold payload_is. cbn. by destruct data.
  - done.
Qed.
End FrameRw.

#[global] Arguments frame__send : simpl never.
#[global] Arguments frame__recv : simpl never.
