(* ===== verification/FrameProps.v ===== *)
(** * Properties of the frame layer

    The theorems about integers on the wire, reads and writes, headers, the builders of the
    operations, and frames on a connection, with an instance of each at concrete data. *)
From S2P Require Import Prelude Status Datatype Uthash Mem Net Frame FrameFacts.
From S2P Require Import HeaderCodec FrameOp FrameRw.
Local Open Scope Z_scope.

(** ** Concrete data for the instances *)

Definition sample_now : string := "2021-06-01T10:00:00".

(** A publication, built by the code itself. *)
Definition sample_frame : bpsp__frame :=
  match @frame__PUB malloc_always sample_now frame_zero (Some "home/+/temp"%string) FL_ACK
          None 0 (Some (Some <$> chars "21.5")) 4 with
  | Done (BPSP_OK, f) => f
  | _ => frame_zero
  end.

(** A socket whose peer takes 3 bytes, then 1, then all, and one that has [bs] to read, in
    pieces of 2, 5 and 1 bytes first. *)
Definition sample_out : bpsp__connection script_socket :=
  connection__create 5 ("10.0.0.1"%string, 4000) NET_S_CONNECTED NET_T_ACTIVE
    {| s_rx := []; rx_cuts := []; closing := false; s_tx := []; tx_cuts := [2%nat; 0%nat];
       gone := false |}.
Definition sample_in (bs : bytes) : bpsp__connection script_socket :=
  connection__create 6 ("10.0.0.2"%string, 4001) NET_S_CONNECTED NET_T_PASSIVE
    {| s_rx := bs; rx_cuts := [1%nat; 4%nat; 0%nat]; closing := true; s_tx := [];
       tx_cuts := []; gone := false |}.

Lemma sample_frame_wf : frame_wf sample_frame.
Proof.
  split; [split|split| |]; try (by vm_compute).
  - apply (bool_decide_unpack _). by vm_compute.
  - intros k v Hin. assert (k ∈ (var_headers sample_frame).*1) as Hk
      by (by apply (list_elem_of_fmap_2 fst _ (k, v))).
    vm_compute in Hk. repeat (apply elem_of_cons in Hk as [->|Hk]; [by vm_compute|]).
    by apply not_elem_of_nil in Hk.
Qed.

Lemma sample_frame_valid : headers_valid (var_headers sample_frame).
Proof. apply (bool_decide_unpack _). by vm_compute. Qed.


(** ** Frames on a connection *)

Section Wire.
Context `{Malloc} {S : Type} `{SocketLaws S}.


End Wire.



(** A shorter sample: one header, two bytes of payload. *)
Definition small_frame : bpsp__frame :=
  {| vars_size := 7; opcode := 6; flag := 0; data_size := 2;
     var_headers := [("k"%string, Str "v"%string)]; payload := Some (Some <$> chars "hi");
     payload_size := 2; pos := 0; _is_completed := 1 |}.

Lemma small_frame_wf : frame_wf small_frame.
Proof.
  split; [split|split| |]; try (by vm_compute); cbn.
  - apply NoDup_singleton.
  - by intros k v [= -> _]%list_elem_of_singleton.
Qed.

Lemma small_frame_valid : headers_valid (var_headers small_frame).
Proof. apply (bool_decide_unpack _). by vm_compute. Qed.

Section Truncated.
Context `{Malloc} {S : Type} `{SocketLaws S}.

End Truncated.


(** ** Variable headers *)

Section Headers.
Context `{Malloc}.

(** C22: Printing then parsing is the identity on headers that the wire can carry:
    [var_header__to_bytes] fills exactly the block whose size the frame has counted, without
    touching a byte outside, and [frame__parse_var_header] reads the same table back, with
    the same counted size. *)
Theorem headers_print_parse hs :
  malloc_ok sizeof_bpsp__var_header = true → headers_valid hs →
  ∃ bs, var_header__to_bytes hs (Some (replicate (Z.to_nat (headers_size hs)) None))
        = Done (BPSP_OK, Some (Some <$> bs))
    ∧ frame__parse_var_header frame_zero bs (Z.of_nat (List.length bs))
      = Done (BPSP_OK, set_vars frame_zero (headers_size hs) hs).
Proof.
  intros Hm Hv. pose proof (full_headers_all_str _ (hv_full _ Hv)) as Ha.
  exists (encode_headers hs). split.
  - apply to_bytes_spec; [done|apply Hv].
  - by apply parse_encode_valid.
Qed.

(** C23: The parser is total on arbitrary bytes: whatever arrives, the loop over 16-bit
    positions ends, reads and writes inside the buffer only, and what it does to a frame is
    to store one after the other the headers of a list that depends on the bytes alone; the
    status tells whether a header is left unclosed. *)
Theorem frame__parse_var_header_total buf :
  Z.of_nat (List.length buf) < 65536 →
  ∃ (hs : list (string * string)) (closed : bool), ∀ f,
    frame__parse_var_header f buf (Z.of_nat (List.length buf))
    = f ← store_headers f hs;
      Done (if closed then BPSP_OK else BPSP_INVALID_VAR_HEADERS, f).
Proof. apply parse_var_header_total. Qed.

(** C24: A successful [frame__set_var_header] keeps the books: keys stay distinct and not
    empty, the counted size is the size of the wire form and fits its 16 bits; the value can
    be looked up, and no other header is changed. *)
Theorem frame__set_var_header_sound f k v f' :
  headers_wf f → frame__set_var_header f (Some k) (Some v) = Done (BPSP_OK, f') →
  headers_wf f'
  ∧ (v ≠ ""%string → frame__get_var_header f' (Some k) = Some (Str v))
  ∧ (∀ k', k' ≠ k → frame__get_var_header f' (Some k') = frame__get_var_header f (Some k')).
Proof.
  intros Hw E. split; [by eapply set_var_header_wf|].
  apply set_var_header_ok_inv in E as (k0 & v0 & [= <-] & [= <-] & Hk & Hnot & ->).
  cbn. split.
  - intros Hv. rewrite <- strlen_zero in Hv. rewrite headers_after_find, decide_True by done.
    by rewrite (proj2 (Z.eqb_neq _ 0) Hv).
  - intros k' Hne. by rewrite headers_after_find, decide_False.
Qed.

(** A header that would make the headers larger than 65535 bytes is refused, with the
    frame unchanged, when its key is new. *)
Theorem frame__set_var_header_limit f k v :
  malloc_ok sizeof_bpsp__var_header = true → k ≠ ""%string →
  frame__get_var_header f (Some k) = None →
  65536 ≤ vars_size f + header_size (k, Str v) →
  frame__set_var_header f (Some k) (Some v) = Done (BPSP_MAX_VAR_HEADERS, f).
Proof.
  intros Hm Hk Hf Hs. rewrite <- strlen_zero in Hk. rewrite set_var_header_new by done.
  rewrite Hm. cbn zeta. by rewrite (proj2 (Z.ltb_ge _ _) Hs).
Qed.
End Headers.

Lemma headers_print_parse_witness :
  ∃ bs, @var_header__to_bytes (var_headers small_frame)
          (Some (replicate (Z.to_nat (headers_size (var_headers small_frame))) None))
        = Done (BPSP_OK, Some (Some <$> bs))
    ∧ @frame__parse_var_header malloc_always frame_zero bs (Z.of_nat (List.length bs))
      = Done (BPSP_OK, set_vars frame_zero (headers_size (var_headers small_frame))
                                (var_headers small_frame)).
Proof.
  apply (@headers_print_parse malloc_always); [done|apply small_frame_valid].
Defined.

Lemma frame__parse_var_header_total_witness :
  ∃ (hs : list (string * string)) (closed : bool), ∀ f,
    @frame__parse_var_header malloc_always f (chars "abc;")
      (Z.of_nat (List.length (chars "abc;")))
    = f ← @store_headers malloc_always f hs;
      Done (if closed then BPSP_OK else BPSP_INVALID_VAR_HEADERS, f).
Proof. apply (@frame__parse_var_header_total malloc_always). done. Defined.

Lemma frame__set_var_header_sound_witness :
  ∃ f', @frame__set_var_header malloc_always small_frame (Some "k"%string) (Some "long"%string)
        = Done (BPSP_OK, f')
    ∧ headers_wf f'
    ∧ ("long" ≠ "" → frame__get_var_header f' (Some "k") = Some (Str "long"))%string
    ∧ (∀ k', k' ≠ "k"%string →
       frame__get_var_header f' (Some k') = frame__get_var_header small_frame (Some k')).
Proof.
  eexists. split; [by vm_compute|].
  apply (@frame__set_var_header_sound malloc_always small_frame "k" "long"); [|by vm_compute].
  apply small_frame_wf.
Defined.

Definition big_frame : bpsp__frame :=
  {| vars_size := 65530; opcode := 3; flag := 0; data_size := 0; var_headers := [];
     payload := None; payload_size := 0; pos := 0; _is_completed := 0 |}.

Lemma frame__set_var_header_limit_witness :
  @frame__set_var_header malloc_always big_frame (Some "k"%string) (Some "v"%string)
  = Done (BPSP_MAX_VAR_HEADERS, big_frame).
Proof. apply (@frame__set_var_header_limit malloc_always); by vm_compute. Defined.

(** ** The operations of the protocol *)

Section Operations.
Context `{Malloc}.

(** C25: Each of the eight operations either succeeds, with a well-formed frame that is marked
    as completed, or fails with a frame that is not marked (or, for [frame__MSG] of a source
    that is not completed, untouched): a frame that can be sent is always well formed. *)
Theorem operations_sound now f c s f' :
  call_typed c → run_op now f c = Done (s, f') →
  (s = BPSP_OK → frame_wf f' ∧ frame__is_completed (Some f') = BPSP_OK)
  ∧ (s ≠ BPSP_OK → frame__is_completed (Some f') = BPSP_NOT_COMPLETED_FRAME
       ∨ ∃ src, c = CallMSG src ∧ _is_completed src = 0 ∧ f' = f).
Proof.
  intros Ht E. apply run_op_outcome in E as [Hok Hno]; [|done]. unfold frame__is_completed. split.
  - intros Hs. destruct (Hok Hs) as [? ->]. done.
  - intros Hs. destruct (Hno Hs) as [-> |?]; [by left|by right].
Qed.

(** The frame that is delivered to subscribers is the published one with the opcode MSG:
    same flag, headers in the same order, payload; only [x-time] is written anew. *)
Theorem frame__MSG_delivers now f src :
  malloc_ok sizeof_bpsp__var_header = true → malloc_ok (payload_size src) = true →
  frame_wf src → Forall full_header (var_headers src) → 0 < opcode src →
  frame__is_completed (Some src) = BPSP_OK →
  headers_size (headers_after (var_headers src) "x-time" now) < 65536 →
  ∃ g, frame__MSG now f src = Done (BPSP_OK, g)
    ∧ opcode g = opcode_code OP_MSG ∧ flag g = flag src ∧ payload g = payload src
    ∧ payload_size g = payload_size src
    ∧ var_headers g = headers_after (var_headers src) "x-time" now
    ∧ (∀ k, k ≠ "x-time"%string →
         frame__get_var_header g (Some k) = frame__get_var_header src (Some k))
    ∧ frame__is_completed (Some g) = BPSP_OK.
Proof.
  intros Hm Hp Hw Hf Ho Hc Hs. rewrite frame__MSG_spec; try done.
  - eexists. split_and!; try done. intros k Hk. cbn. by rewrite headers_after_find, decide_False.
  - split; [|done]. unfold frame__is_completed in Hc.
    by destruct (Z.eqb_spec (_is_completed src) 0).
Qed.

(** An error reply carries the text of the status in parentheses and the message, the
    headers of the request, and the status code 500; the block for its text is filled
    exactly. *)
Theorem frame__ERR_reply now f src s_err msg :
  (∀ n, malloc_ok n = true) → frame_wf src → Forall full_header (var_headers src) →
  0 < opcode src → msg ≠ ""%string → strlen msg < 4294967200 →
  let hs := headers_after (var_headers src) "x-status-code" "500" in
  headers_size hs < 65536 → headers_size (headers_after hs "x-time" now) < 65536 →
  ∃ t g, status__get_text s_err = Done t
    ∧ frame__ERR now f (Some src) s_err (Some msg) = Done (BPSP_OK, g)
    ∧ opcode g = opcode_code OP_ERR ∧ flag g = flag src
    ∧ payload g = Some (Some <$> chars ("(" +:+ t +:+ ") " +:+ msg))
    ∧ frame__get_var_header g (Some "x-status-code"%string) = Some (Str "500")
    ∧ frame_wf g.
Proof.
  intros Hm Hw Hf Ho Hne Hmsg hs Hs1 Hs2.
  destruct (status__get_text_total s_err) as (t & Et & _). exists t.
  pose proof (frame__ERR_spec now f src s_err t msg) as E. cbv zeta in E.
  eexists. split_and!; [done|apply E; auto|done|done| | |].
  - cbn. unfold err_payload. rewrite !chars_app. unfold default_msg.
    by rewrite (proj2 (Z.eqb_neq _ 0)) by (by rewrite strlen_zero).
  - cbn. rewrite headers_after_find, decide_False by done.
    unfold hs. rewrite headers_after_find, decide_True by done. done.
  - eapply (run_op_outcome now f (CallERR (Some src) s_err (Some msg))); [| |done].
    + destruct Hw as [_ _ ? ?]. done.
    + apply E; auto.
Qed.
End Operations.

Lemma operations_sound_witness :
  ∃ f', @frame__PUB malloc_always sample_now frame_zero (Some "a/b"%string) FL_ACK None 0
          (Some (Some <$> chars "hi")) 2 = Done (BPSP_OK, f')
    ∧ (BPSP_OK = BPSP_OK → frame_wf f' ∧ frame__is_completed (Some f') = BPSP_OK)
    ∧ (BPSP_OK ≠ BPSP_OK → frame__is_completed (Some f') = BPSP_NOT_COMPLETED_FRAME
         ∨ ∃ src, CallPUB (Some "a/b"%string) FL_ACK None 0 (Some (Some <$> chars "hi")) 2
                  = CallMSG src ∧ _is_completed src = 0 ∧ f' = frame_zero).
Proof.
  eexists. split; [by vm_compute|].
  apply (@operations_sound malloc_always sample_now frame_zero
    (CallPUB (Some "a/b"%string) FL_ACK None 0 (Some (Some <$> chars "hi")) 2)); by vm_compute.
Defined.

Lemma frame__MSG_delivers_witness :
  ∃ g, @frame__MSG malloc_always sample_now frame_zero sample_frame = Done (BPSP_OK, g)
    ∧ opcode g = opcode_code OP_MSG ∧ flag g = flag sample_frame
    ∧ payload g = payload sample_frame ∧ payload_size g = payload_size sample_frame
    ∧ var_headers g = headers_after (var_headers sample_frame) "x-time" sample_now
    ∧ (∀ k, k ≠ "x-time"%string →
         frame__get_var_header g (Some k) = frame__get_var_header sample_frame (Some k))
    ∧ frame__is_completed (Some g) = BPSP_OK.
Proof.
  apply (@frame__MSG_delivers malloc_always); try (by vm_compute).
  - apply sample_frame_wf.
  - apply sample_frame_valid.
Defined.

Lemma frame__ERR_reply_witness :
  ∃ t g, status__get_text BPSP_INVALID_TOPIC = Done t
    ∧ @frame__ERR malloc_always sample_now frame_zero (Some sample_frame) BPSP_INVALID_TOPIC
        (Some "no"%string) = Done (BPSP_OK, g)
    ∧ opcode g = opcode_code OP_ERR ∧ flag g = flag sample_frame
    ∧ payload g = Some (Some <$> chars ("(" +:+ t +:+ ") " +:+ "no"))
    ∧ frame__get_var_header g (Some "x-status-code"%string) = Some (Str "500")
    ∧ frame_wf g.
Proof.
  apply (@frame__ERR_reply malloc_always); try (by vm_compute).
  - apply sample_frame_wf.
  - apply sample_frame_valid.
Defined.

(** ** Integers, sockets, status codes *)

(** What one host encodes, another decodes to the same integer, whatever their byte
    orders; on the wire the bytes are most significant first. *)
Theorem datatype_portable (big1 big2 : bool) v8 v16 v32 l :
  0 ≤ v8 < 256 → 0 ≤ v16 < 65536 → 0 ≤ v32 < 4294967296 →
  datatype__d8 big2 (datatype__e8 big1 v8 ++ l) = v8
  ∧ datatype__d16 big2 (datatype__e16 big1 v16 ++ l) = v16
  ∧ datatype__d32 big2 (datatype__e32 big1 v32 ++ l) = v32
  ∧ datatype__e16 big1 v16 = be_bytes 2 v16 ∧ datatype__e32 big1 v32 = be_bytes 4 v32.
Proof.
  intros. split_and!; [by apply datatype__d8_host|by apply datatype__d16_host
    |by apply datatype__d32_host|by apply datatype__e16_be|by apply datatype__e32_be].
Qed.

Lemma datatype_portable_witness :
  datatype__d8 true (datatype__e8 false 200 ++ []) = 200
  ∧ datatype__d16 true (datatype__e16 false 0xABCD ++ []) = 0xABCD
  ∧ datatype__d32 true (datatype__e32 false 0xDEADBEEF ++ []) = 0xDEADBEEF
  ∧ datatype__e16 false 0xABCD = be_bytes 2 0xABCD
  ∧ datatype__e32 false 0xDEADBEEF = be_bytes 4 0xDEADBEEF.
Proof. apply datatype_portable; lia. Defined.

Section Sockets.
Context {S : Type} `{SocketLaws S}.

(** A blocking [net__read] returns, whatever the sizes of the segments that [recv]
    hands out: with the first [size] bytes of the stream, or, when the stream ends before,
    with all of it and a failure; nothing is lost or read twice. *)
Theorem net__read_stream (conn : bpsp__connection S) size :
  0 < sockfd conn → 0 ≤ size →
  ∃ s got s', net__read conn size true
              = Done (s, Z.of_nat (List.length got), got, set_sock conn s')
    ∧ rx (sock conn) = got ++ rx s' ∧ tx s' = tx (sock conn)
    ∧ (s = BPSP_OK ∧ Z.of_nat (List.length got) = size
       ∨ (s = BPSP_CONNECTION_CLOSED ∨ s = BPSP_IO_ERROR)
         ∧ Z.of_nat (List.length got) < size ∧ rx s' = []).
Proof.
  intros Ho Hs. destruct (net__read_spec conn size Ho Hs) as (s & got & s' & E & ? & ? & _ & ?).
  by exists s, got, s'.
Qed.

(** A blocking [net__write] returns, whatever [send] accepts at a time: the bytes that
    reach the peer are a prefix of the buffer of the reported length, and all of it when it
    reports success, which it does as long as the peer is there. *)
Theorem net__write_stream (conn : bpsp__connection S) buf size :
  0 < sockfd conn → 0 ≤ size ≤ Z.of_nat (List.length buf) →
  ∃ s m s', net__write (Some conn) (Some buf) size true = Done (s, m, Some (set_sock conn s'))
    ∧ 0 ≤ m ≤ size ∧ rx s' = rx (sock conn)
    ∧ tx s' = tx (sock conn) ++ take (Z.to_nat m) buf
    ∧ (s = BPSP_OK ∧ m = size
       ∨ (s = BPSP_CONNECTION_CLOSED ∨ s = BPSP_IO_ERROR) ∧ m < size)
    ∧ (writable (sock conn) → s = BPSP_OK).
Proof.
  intros Ho Hs. destruct (net__write_spec conn buf size Ho Hs)
    as (s & m & s' & E & ? & ? & ? & ? & Hw).
  exists s, m, s'. split_and!; try done; [lia..|]. intros Hwr. by apply Hw.
Qed.
End Sockets.

Lemma net__read_stream_witness :
  ∃ s got s', net__read (sample_in (chars "hello, world")) 9 true
              = Done (s, Z.of_nat (List.length got), got,
                      set_sock (sample_in (chars "hello, world")) s')
    ∧ rx (sock (sample_in (chars "hello, world"))) = got ++ rx s'
    ∧ tx s' = tx (sock (sample_in (chars "hello, world")))
    ∧ (s = BPSP_OK ∧ Z.of_nat (List.length got) = 9
       ∨ (s = BPSP_CONNECTION_CLOSED ∨ s = BPSP_IO_ERROR)
         ∧ Z.of_nat (List.length got) < 9 ∧ rx s' = []).
Proof. apply (net__read_stream (sample_in (chars "hello, world")) 9); by vm_compute. Defined.

Lemma net__write_stream_witness :
  ∃ s m s', net__write (Some sample_out) (Some (chars "hello")) 5 true
            = Done (s, m, Some (set_sock sample_out s'))
    ∧ 0 ≤ m ≤ 5 ∧ rx s' = rx (sock sample_out)
    ∧ tx s' = tx (sock sample_out) ++ take (Z.to_nat m) (chars "hello")
    ∧ (s = BPSP_OK ∧ m = 5 ∨ (s = BPSP_CONNECTION_CLOSED ∨ s = BPSP_IO_ERROR) ∧ m < 5)
    ∧ (writable (sock sample_out) → s = BPSP_OK).
Proof. apply (net__write_stream sample_out (chars "hello") 5); by vm_compute. Defined.

(** Every status code has a text of its own, at the position of the code: the lookup of
    [status__get_text] is never out of bounds, and two codes never read alike. *)
Theorem status_texts (s1 s2 : status__err) :
  (∃ t, status__get_text s1 = Done t ∧ err_text !! status__code s1 = Some t)
  ∧ (status__get_text s1 = status__get_text s2 → s1 = s2).
Proof.
  split; [|apply status__get_text_inj].
  destruct (status__get_text_total s1) as (t & ? & ? & _). by exists t.
Qed.

(** ** Where the code does not do what it means to *)

Section Defects.
Context `{Malloc}.

(** C26: A header with an empty value, and the same key again: the pointer of the first value
    was never initialised, and the second header makes the parser use it.  A peer can send
    these bytes. *)
Theorem parse_empty_value_undefined k v f :
  malloc_ok sizeof_bpsp__var_header = true → wire_safe k → wire_safe v → k ≠ ""%string →
  var_headers f = [] → vars_size f = 0 →
  headers_size [(k, Str ""); (k, Str v)] < 65536 →
  let bs := encode_headers [(k, Str ""); (k, Str v)] in
  frame__parse_var_header f bs (Z.of_nat (List.length bs)) = Undef.
Proof.
  intros Hm Hk Hv Hne Hf Hz Hs bs. unfold bs.
  change [(k, Str ""); (k, Str v)] with (as_header <$> [(k, ""%string); (k, v)]) in *.
  assert (wire_safe "") as H0 by (apply (bool_decide_unpack _); by vm_compute).
  rewrite parse_encode_headers;
    [|apply Forall_cons; split; [by split|]; apply Forall_cons; split; [by split|]; by apply Forall_nil|done].
  cbn [store_headers]. rewrite <- strlen_zero in Hne.
  assert (0 < header_size (k, Str "") < 65536) as Hsz.
  { cbn [fmap list_fmap headers_size as_header fst snd] in Hs.
    pose proof (header_size_bounds (k, Str "")). pose proof (header_size_bounds (k, Str v)).
    unfold as_header in Hs. cbn [fst snd] in Hs. lia. }
  rewrite set_var_header_new by (done || by rewrite Hf). rewrite Hm, Hz. cbn zeta.
  rewrite Z.add_0_l, (proj2 (Z.ltb_lt _ _)) by lia. cbn [mbind exec_bind].
  unfold frame__set_var_header. rewrite (proj2 (Z.eqb_neq _ 0) Hne), Hf. cbn.
  by rewrite decide_True.
Qed.

(** Replacing the value of a header by one that does not fit is refused only after the
    value has been replaced and the old length taken off: the counted size is then smaller
    than the headers, and [frame__send] would allocate a block that is too small. *)
Theorem frame__set_var_header_refused_update f k v w :
  headers_wf f → k ≠ ""%string → frame__get_var_header f (Some k) = Some (Str w) →
  65536 ≤ vars_size f - u16 (strlen w) + u16 (strlen v) →
  ∃ f', frame__set_var_header f (Some k) (Some v) = Done (BPSP_MAX_VAR_HEADERS, f')
    ∧ frame__get_var_header f' (Some k) = Some (Str v)
    ∧ vars_size f' < headers_size (var_headers f').
Proof.
  intros Hw Hk Hf Hs. rewrite <- strlen_zero in Hk. cbn in Hf.
  rewrite (set_var_header_found f k v w) by done. cbv zeta.
  rewrite (proj2 (Z.ltb_ge _ _) Hs). eexists. split_and!; [done| |]; cbn.
  - rewrite hash_find_set by (by rewrite Hf). by rewrite decide_True.
  - rewrite (headers_size_set _ _ _ (Str w)); [|apply Hw|done]. cbn.
    pose proof (hw_size _ Hw). pose proof (hw_max _ Hw). pose proof (u16_range (strlen w)). lia.
Qed.

(** [frame__dup] of a frame that is not completed gives back a pointer that it has
    freed, instead of NULL. *)
Theorem frame__dup_dangling now src build :
  malloc_ok sizeof_bpsp__frame = true → frame__is_completed (Some src) ≠ BPSP_OK →
  frame__dup now (Some src) build = Done DupFreed.
Proof.
  intros Hm Hc. unfold frame__dup, frame__new, frame__alloc. rewrite Hm.
  unfold frame__copy. by rewrite decide_False.
Qed.
End Defects.

(** Every opcode above ERR passes the validation of [frame__set_opcode], but has no text:
    [frame__get_op_text], which the trace of a received frame calls, reads past its array. *)
Theorem frame__get_op_text_out_of_bounds op :
  9 ≤ op < 256 → frame__validate_opcode op = BPSP_OK ∧ frame__get_op_text op = Undef.
Proof.
  intros Ho. unfold frame__validate_opcode, frame__get_op_text. split.
  - rewrite (proj2 (Z.leb_gt op 0)), (proj2 (Z.ltb_lt 0 op)) by lia. done.
  - assert (op_text !! Z.to_nat op = None) as -> by (apply lookup_ge_None; cbn; lia). done.
Qed.

(** [net__write_lock] reads from the connection: it never sends a byte. *)
Theorem net__write_lock_sends_nothing {S} `{SocketLaws S} (conn : bpsp__connection S) size :
  0 < sockfd conn → 0 ≤ size →
  ∃ s n buf s', net__write_lock (Some conn) size true = Done (s, n, buf, Some (set_sock conn s'))
    ∧ tx s' = tx (sock conn) ∧ rx (sock conn) = buf ++ rx s'.
Proof.
  intros Ho Hs. destruct (net__read_spec conn size Ho Hs) as (s & got & s' & E & Hr & Ht & _).
  exists s, (Z.of_nat (List.length got)), got, s'. unfold net__write_lock. by rewrite E.
Qed.

Lemma parse_empty_value_undefined_witness :
  @frame__parse_var_header malloc_always frame_zero
    (encode_headers [("k"%string, Str ""); ("k"%string, Str "v")])
    (Z.of_nat (List.length (encode_headers [("k"%string, Str ""); ("k"%string, Str "v")])))
  = Undef.
Proof.
  apply (@parse_empty_value_undefined malloc_always "k" "v" frame_zero); try done;
    apply (bool_decide_unpack _); by vm_compute.
Defined.

(** Headers of 40013 bytes, one of them a value of 40000. *)
Definition text_of (n : Z) : string := str (replicate (Z.to_nat n) "x"%char).
Definition full_frame : bpsp__frame :=
  {| vars_size := 40013; opcode := 3; flag := 0; data_size := 0;
     var_headers := [("a"%string, Str (text_of 40000)); ("k"%string, Str "v")];
     payload := None; payload_size := 0; pos := 0; _is_completed := 0 |}.

Lemma frame__set_var_header_refused_update_witness :
  ∃ f', @frame__set_var_header malloc_always full_frame (Some "k"%string)
          (Some (text_of 30000)) = Done (BPSP_MAX_VAR_HEADERS, f')
    ∧ frame__get_var_header f' (Some "k"%string) = Some (Str (text_of 30000))
    ∧ vars_size f' < headers_size (var_headers f').
Proof.
  apply (@frame__set_var_header_refused_update malloc_always full_frame "k" (text_of 30000) "v");
    [|done|by vm_compute|by vm_compute].
  split; [by vm_compute|by vm_compute| |].
  - apply (bool_decide_unpack _). by vm_compute.
  - intros k v [[= -> _]|[[= -> _]|?%not_elem_of_nil]%elem_of_cons]%elem_of_cons; by vm_compute.
Defined.

Lemma frame__dup_dangling_witness :
  @frame__dup malloc_always "now" (Some frame_zero) true = Done DupFreed.
Proof. by apply (@frame__dup_dangling malloc_always). Defined.

Lemma frame__get_op_text_out_of_bounds_witness :
  frame__validate_opcode 200 = BPSP_OK ∧ frame__get_op_text 200 = Undef.
Proof. apply frame__get_op_text_out_of_bounds. lia. Defined.

Lemma net__write_lock_sends_nothing_witness :
  ∃ s n buf s', net__write_lock (Some (sample_in (chars "abc"))) 2 true
    = Done (s, n, buf, Some (set_sock (sample_in (chars "abc")) s'))
    ∧ tx s' = tx (sock (sample_in (chars "abc")))
    ∧ rx (sock (sample_in (chars "abc"))) = buf ++ rx s'.
Proof. apply (net__write_lock_sends_nothing (sample_in (chars "abc")) 2); by vm_compute. Defined.
