(* ===== verification/Subscriber.v ===== *)
(** * client.c, first part: subscribers and their identifiers

    The [_id] of a subscriber is the client's id, the tag, a slash and the topic, in one
    string; the topic and the identifier of the subscription are pointers into it. *)
From S2P Require Import Prelude Status Mem Frame.
Local Open Scope Z_scope.

(** Addresses of heap objects. *)
Notation loc := positive (only parsing).

(** The strings may be NULL; [client] and [node] are references. *)
Record bpsp__subscriber := {
  _id : option string;
  client_id : option string;
  sub_tag : option string;
  client : positive;
  node : option positive;
}.

Definition set_node (s : bpsp__subscriber) (n : option positive) : bpsp__subscriber :=
  {| _id := _id s; client_id := client_id s; sub_tag := sub_tag s; client := client s;
     node := n |}.

(** [strlen] of a pointer that may be NULL, counted as 0 then. *)
Definition len_or_0 (s : cstr) : Z := match s with Some s => strlen s | None => 0 end.

(** [s + offset], for an offset inside the string. *)
Definition str_from (s : string) (offset : Z) : exec string :=
  cstr_at (chars s ++ [NUL]) (Z.to_nat offset).

Definition subscriber__get_topic (s : bpsp__subscriber) : exec string :=
  let offset := 1 + len_or_0 (client_id s) + len_or_0 (sub_tag s) in
  i ← deref (_id s); str_from i offset.

Definition subscriber__get_identifier (s : bpsp__subscriber) : exec string :=
  let offset := len_or_0 (client_id s) in
  i ← deref (_id s); str_from i offset.

Definition subscriber__get_client_id (s : bpsp__subscriber) : cstr := client_id s.

(** [subscriber__copy] into a fresh element duplicates the strings. *)
Definition subscriber__copy (src : bpsp__subscriber) : bpsp__subscriber := src.

Section Subscriber.
Context `{Malloc}.

(** [subscriber__gen_id] and [subscriber__make_identifier] write the parts one after the
    other into a block of the right size. *)
Definition subscriber__gen_id (topic tag : string) (cli_id : string) : option string :=
  if malloc_ok (strlen cli_id + strlen tag + strlen topic + 2)
  then Some (cli_id +:+ tag +:+ "/" +:+ topic)%string else None.

Definition subscriber__make_identifier (topic tag : string) : option string :=
  if malloc_ok (strlen tag + strlen topic + 2)
  then Some (tag +:+ "/" +:+ topic)%string else None.

(** [cli] is the address of the client, [cli_id] its id. *)
Definition subscriber__new (topic tag : cstr) (cli : option (positive * string))
    (n : option positive) : option bpsp__subscriber :=
  match topic, cli with
  | Some topic, Some (c, cli_id) =>
      if malloc_ok sizeof_bpsp__subscriber then
        let tag := default "_0"%string tag in
        match subscriber__gen_id topic tag cli_id with
        | None => None
        | Some i =>
            match mem__strdup cli_id, mem__strdup tag with
            | Some cli_id, Some tag =>
                Some {| _id := Some i; client_id := Some cli_id; sub_tag := Some tag;
                        client := c; node := n |}
            | _, _ => None
            end
        end
      else None
  | _, _ => None
  end.

(** The identifier of a subscriber of this client, tag and topic. *)
Definition identifier (tag topic : string) : string := (tag +:+ "/" +:+ topic)%string.

Lemma str_from_app s1 s2 :
  no_nul (chars s2) → str_from (s1 +:+ s2) (strlen s1) = Done s2.
Proof.
  intros Hn. unfold str_from, cstr_at. rewrite strlen_chars, Nat2Z.id, chars_app, <- app_assoc.
  rewrite drop_app_length. change ([NUL]) with (NUL :: []).
  by rewrite until_nul_app; cbn; [rewrite str_chars|].
Qed.

Lemma subscriber__new_parts topic tag c cli_id n s :
  no_nul (chars topic) → no_nul (chars (default "_0"%string tag)) →
  subscriber__new (Some topic) tag (Some (c, cli_id)) n = Some s →
  subscriber__get_topic s = Done topic
  ∧ subscriber__get_identifier s = Done (identifier (default "_0"%string tag) topic)
  ∧ client_id s = Some cli_id ∧ sub_tag s = Some (default "_0"%string tag)
  ∧ client s = c ∧ node s = n
  ∧ _id s = Some (cli_id +:+ identifier (default "_0"%string tag) topic)%string.
Proof.
  intros Hn Ht. unfold subscriber__new, subscriber__gen_id.
  destruct (malloc_ok sizeof_bpsp__subscriber); [|done].
  set (t := default "_0"%string tag) in *. destruct (malloc_ok _); [|done].
  unfold mem__strdup. destruct (malloc_ok (strlen cli_id + 1)), (malloc_ok (strlen t + 1));
    try done. intros [= <-].
  assert (no_nul (chars (identifier t topic))) as Hi.
  { unfold identifier. rewrite !chars_app. unfold no_nul in *.
    rewrite !elem_of_app. intros [?|[E|?]]; [done| |done].
    apply list_elem_of_singleton in E. done. }
  split_and!; try done.
  - unfold subscriber__get_topic. cbn.
    assert (cli_id +:+ t +:+ "/" +:+ topic = (cli_id +:+ t +:+ "/") +:+ topic)%string as ->
      by (apply chars_inj; rewrite !chars_app; by rewrite <- !app_assoc).
    replace (1 + strlen cli_id + strlen t) with (strlen (cli_id +:+ t +:+ "/"))
      by (rewrite !strlen_app; change (strlen "/") with 1; lia).
    by apply str_from_app.
  - unfold subscriber__get_identifier. cbn. by apply str_from_app.
Qed.
End Subscriber.
