(* ===== verification/Topic.v ===== *)
(** * topic.h, topic.c: the topic tree

    The tree lives in a heap of nodes that refer to each other by address, with a reference
    from every node to its parent; a subscriber refers to the node that holds it.  A freed
    address is never used again, so that the use of a dangling pointer shows as [Undef].
    The tokens of a topic lie in one buffer, cut at NULs by [strtok_r]. *)
From S2P Require Import Prelude Status Uthash Mem Subscriber.
Local Open Scope Z_scope.

Record topic__node := {
  subs : list (string * positive);      (* subscriber__hash: id and subscriber *)
  sl_node : option positive;
  ml_node : option positive;
  parent : option positive;
  nodes : list (string * positive);     (* topic__hash_node: token and node *)
}.

Definition node_zero : topic__node :=
  {| subs := []; sl_node := None; ml_node := None; parent := None; nodes := [] |}.

Definition set_subs (n : topic__node) h :=
  {| subs := h; sl_node := sl_node n; ml_node := ml_node n; parent := parent n;
     nodes := nodes n |}.
Definition set_sl_node (n : topic__node) c :=
  {| subs := subs n; sl_node := c; ml_node := ml_node n; parent := parent n;
     nodes := nodes n |}.
Definition set_ml_node (n : topic__node) c :=
  {| subs := subs n; sl_node := sl_node n; ml_node := c; parent := parent n;
     nodes := nodes n |}.
Definition set_parent (n : topic__node) p :=
  {| subs := subs n; sl_node := sl_node n; ml_node := ml_node n; parent := p;
     nodes := nodes n |}.
Definition set_nodes (n : topic__node) h :=
  {| subs := subs n; sl_node := sl_node n; ml_node := ml_node n; parent := parent n;
     nodes := h |}.

(** The lock of the tree, as the calling thread sees it: it blocks when it asks again for a
    lock that it holds for writing, or asks to write while it holds it at all. *)
Inductive rwlock := Unlocked | ReadLocked | WriteLocked.

#[export] Instance rwlock_eq_dec : EqDecision rwlock.
Proof. solve_decision. Defined.

(** The tree: its nodes, the subscribers it refers to, the next fresh address. *)
Record bpsp__topic_tree := {
  heap : gmap positive topic__node;
  sub_heap : gmap positive bpsp__subscriber;
  next : positive;
  rw_lock : rwlock;
}.

(** The address of the node that is a part of the tree itself. *)
Definition root : positive := 1.

Definition with_heap (t : bpsp__topic_tree) h :=
  {| heap := h; sub_heap := sub_heap t; next := next t; rw_lock := rw_lock t |}.
Definition with_sub_heap (t : bpsp__topic_tree) h :=
  {| heap := heap t; sub_heap := h; next := next t; rw_lock := rw_lock t |}.
Definition with_lock (t : bpsp__topic_tree) l :=
  {| heap := heap t; sub_heap := sub_heap t; next := next t; rw_lock := l |}.

Definition get_node (t : bpsp__topic_tree) (l : positive) : exec topic__node :=
  deref (heap t !! l).
Definition put_node (t : bpsp__topic_tree) (l : positive) (n : topic__node) :=
  with_heap t (<[l := n]> (heap t)).
Definition get_sub (t : bpsp__topic_tree) (l : positive) : exec bpsp__subscriber :=
  deref (sub_heap t !! l).
Definition put_sub (t : bpsp__topic_tree) (l : positive) (s : bpsp__subscriber) :=
  with_sub_heap t (<[l := s]> (sub_heap t)).

Definition pthread_rwlock_wrlock (t : bpsp__topic_tree) : exec bpsp__topic_tree :=
  if decide (rw_lock t = Unlocked) then Done (with_lock t WriteLocked) else Blocked.
Definition pthread_rwlock_rdlock (t : bpsp__topic_tree) : exec bpsp__topic_tree :=
  if decide (rw_lock t = Unlocked) then Done (with_lock t ReadLocked) else Blocked.
Definition pthread_rwlock_unlock (t : bpsp__topic_tree) : bpsp__topic_tree :=
  with_lock t Unlocked.

(** ** Nodes *)

Definition count_ptr (p : option positive) : nat := if p then 1%nat else 0%nat.

(** A NULL node has no child, no subscriber, and is empty. *)
Definition topic__node_num_child_nodes (n : option topic__node) : nat :=
  match n with
  | None => 0
  | Some n => (hash_count (nodes n) + count_ptr (ml_node n) + count_ptr (sl_node n))%nat
  end.

Definition topic__node_num_subs (n : option topic__node) : nat :=
  match n with None => 0 | Some n => hash_count (subs n) end.

Definition topic__node_is_empty (n : option topic__node) : bool :=
  match n with
  | None => true
  | Some n => (topic__node_num_subs (Some n) =? 0)%nat
              && (topic__node_num_child_nodes (Some n) =? 0)%nat
  end.

Section Topic.
Context `{Malloc}.

Definition topic__new_node (t : bpsp__topic_tree)
  : option positive * bpsp__topic_tree :=
  if malloc_ok sizeof_topic__node then
    (Some (next t),
     {| heap := <[next t := node_zero]> (heap t); sub_heap := sub_heap t;
        next := Pos.succ (next t); rw_lock := rw_lock t |})
  else (None, t).

(** The new node; the element of the hash table is the token with it. *)
Definition topic__new_hash_node (t : bpsp__topic_tree) (token : string)
  : option (string * positive) * bpsp__topic_tree :=
  if malloc_ok sizeof_topic__hash_node then
    match topic__new_node t with
    | (Some l, t) => (Some (token, l), t)
    | (None, t) => (None, t)
    end
  else (None, t).

(** [subscriber__new_hash_elt] *)
Definition subscriber__new_hash_elt (key : option string) (sub : option positive)
  : option (string * positive) :=
  match key, sub with
  | Some k, Some s => if malloc_ok sizeof_subscriber__hash then Some (k, s) else None
  | _, _ => None
  end.

Definition topic__node_add_sub (t : bpsp__topic_tree) (l sub : positive)
  : exec (status__err * bpsp__topic_tree) :=
  s ← get_sub t sub;
  let t := put_sub t sub (set_node s (Some l)) in
  n ← get_node t l;
  i ← deref (_id s);
  if decide (hash_find i (subs n) = Some sub) then Done (BPSP_TREE_DUP_SUBSCRIBER, t)
  else match subscriber__new_hash_elt (Some i) (Some sub) with
       | None => Done (BPSP_NO_MEMORY, t)
       | Some (k, s) => Done (BPSP_OK, put_node t l (set_subs n (hash_add k s (subs n))))
       end.

(** *** Freeing a subtree

    [topic__free_node] and [topic__dtor_node] call each other; the fuel bounds the depth. *)
Definition free_child (free : bpsp__topic_tree → positive → exec bpsp__topic_tree)
    (t : bpsp__topic_tree) (c : option positive) : exec bpsp__topic_tree :=
  match c with Some c => free t c | None => Done t end.

Fixpoint free_children (free : bpsp__topic_tree → positive → exec bpsp__topic_tree)
    (t : bpsp__topic_tree) (l : positive) (h : list (string * positive))
  : exec bpsp__topic_tree :=
  match h with
  | [] => Done t
  | (k, c) :: h =>
      n ← get_node t l;
      let t := put_node t l (set_nodes n (hash_del k (nodes n))) in
      t ← free t c; free_children free t l h
  end.

Definition dtor_node_with (free : bpsp__topic_tree → positive → exec bpsp__topic_tree)
    (t : bpsp__topic_tree) (l : positive) : exec bpsp__topic_tree :=
  n ← get_node t l;
  t ← free_child free t (ml_node n);
  n ← get_node t l;
  let t := put_node t l (set_ml_node n None) in
  t ← free_child free t (sl_node n);
  n ← get_node t l;
  let t := put_node t l (set_subs (set_sl_node n None) []) in
  n ← get_node t l;
  free_children free t l (nodes n).

Fixpoint topic__free_node (fuel : nat) (t : bpsp__topic_tree) (l : positive)
  : exec bpsp__topic_tree :=
  match fuel with
  | O => NoFuel
  | S fuel =>
      t ← dtor_node_with (topic__free_node fuel) t l;
      h ← mem__free (heap t) l;
      mret (with_heap t h)
  end.

Definition topic__dtor_node (fuel : nat) := dtor_node_with (topic__free_node fuel).

(** No node lies deeper than there are nodes. *)
Definition tree_fuel (t : bpsp__topic_tree) : nat := S (size (heap t)).

(** ** The tree *)

Definition topic__init_tree (subscribers : gmap positive bpsp__subscriber)
  : bpsp__topic_tree :=
  {| heap := {[root := node_zero]}; sub_heap := subscribers; next := 2; rw_lock := Unlocked |}.

Definition topic__dtor_tree (t : bpsp__topic_tree) : exec bpsp__topic_tree :=
  t ← pthread_rwlock_wrlock t;
  t ← topic__dtor_node (tree_fuel t) t root;
  mret (pthread_rwlock_unlock t).

(** ** Tokens of a topic *)

Definition SLASH : ascii := "/"%char.
Definition STAR : ascii := "*"%char.
Definition PLUS : ascii := "+"%char.

(** [strspn(s, "/")] and [strcspn(s, "/")] *)
Fixpoint strspn (s : bytes) : nat :=
  match s with
  | [] => 0
  | c :: s => if decide (c = SLASH) then S (strspn s) else 0
  end.
Fixpoint strcspn (s : bytes) : nat :=
  match s with
  | [] => 0
  | c :: s => if decide (c = SLASH ∨ c = NUL) then 0 else S (strcspn s)
  end.

(** [strtok_r(NULL, "/", &saveptr)] with [saveptr] at offset [save] of the buffer: the
    offset of the token, the buffer with the token cut off, and the new [saveptr]. *)
Definition strtok_r (buf : bytes) (save : nat) : exec (option nat * bytes * nat) :=
  let start := (save + strspn (drop save buf))%nat in
  c ← deref (buf !! start);
  if decide (c = NUL) then Done (None, buf, start) else
  let stop := (start + strcspn (drop start buf))%nat in
  c ← deref (buf !! stop);
  if decide (c = NUL) then Done (Some start, buf, stop)
  else Done (Some start, <[stop := NUL]> buf, S stop).

(** [*tok == c && strlen(tok) == 1] *)
Definition token_is (tok : string) (c : ascii) : bool := bool_decide (tok = str [c]).

(** The loop of [topic__extract_token]: whether it ends without RET_ERROR, the number of
    tokens counted, the buffer. *)
Fixpoint extract_loop (fuel : nat) (buf : bytes) (save : nat) (tok : option nat) (n_tok : Z)
  : exec (bool * Z * bytes) :=
  match tok with
  | None => Done (true, n_tok, buf)
  | Some at_tok =>
      match fuel with
      | O => NoFuel
      | S fuel =>
          '(next_tok, buf, save) ← strtok_r buf save;
          t ← cstr_at buf at_tok;
          if token_is t STAR && bool_decide (next_tok ≠ None)
          then Done (false, n_tok + 1, buf)
          else extract_loop fuel buf save next_tok (n_tok + 1)
      end
  end.

(** A token: an offset of the buffer that [mem__strdup] made of the topic. *)
Record token := { tok_buf : bytes; tok_off : nat }.

(** What [*first_tok] is after the call. *)
Inductive first_token :=
  | NotAssigned
  | Assigned (tok : option token).

(** The status, [*n_tok] (the callers set it to 0 before), and [*first_tok]. *)
Definition topic__extract_token (topic : string) : exec (status__err * Z * first_token) :=
  if strlen topic =? 0 then Done (BPSP_INVALID_TOPIC, 0, NotAssigned) else
  first ← deref (chars topic !! 0%nat);
  last ← deref (chars topic !! Z.to_nat (strlen topic - 1));
  if decide (first = SLASH ∨ last = SLASH) then Done (BPSP_INVALID_TOPIC, 0, NotAssigned) else
  '(tok, buf, save) ← strtok_r (chars topic ++ [NUL]) 0;
  '(ok, n, buf) ← extract_loop (S (String.length topic)) buf save tok 0;
  if negb ok || (n =? 0) then Done (BPSP_INVALID_TOPIC, n, Assigned None)
  else Done (BPSP_OK, n,
             Assigned (match tok with
                       | Some tok => Some {| tok_buf := buf; tok_off := tok |}
                       | None => None
                       end)).

Definition topic__next_token (t : token) : exec token :=
  s ← cstr_at (tok_buf t) (tok_off t);
  mret {| tok_buf := tok_buf t; tok_off := (tok_off t + String.length s + 1)%nat |}.

(** The character string at a token. *)
Definition tok_str (t : token) : exec string := cstr_at (tok_buf t) (tok_off t).

Fixpoint token_to_array_loop (t : option token) (n : nat) : exec (list (option token)) :=
  match n with
  | O => Done []
  | S n => t ← deref t; t ← topic__next_token t;
           ts ← token_to_array_loop (Some t) n; mret (Some t :: ts)
  end.

Definition topic__token_to_array (t : first_token) (n_tok : Z) : exec (list (option token)) :=
  if n_tok =? 0 then Done [] else
  match t with
  | NotAssigned => Undef
  | Assigned t => ts ← token_to_array_loop t (Z.to_nat (n_tok - 1)); mret (t :: ts)
  end.

(** ** Adding a subscriber *)

(** One step down the tree; [None] when the allocation of a node fails. *)
Definition descend_star (t : bpsp__topic_tree) (l : positive)
  : exec (option positive * bpsp__topic_tree) :=
  n ← get_node t l;
  match ml_node n with
  | Some c => Done (Some c, t)
  | None =>
      match topic__new_node t with
      | (None, t) => Done (None, t)
      | (Some c, t) =>
          let t := put_node t l (set_ml_node n (Some c)) in
          cn ← get_node t c;
          Done (Some c, put_node t c (set_parent cn (Some l)))
      end
  end.

Definition descend_plus (t : bpsp__topic_tree) (l : positive)
  : exec (option positive * bpsp__topic_tree) :=
  n ← get_node t l;
  match sl_node n with
  | Some c => Done (Some c, t)
  | None =>
      match topic__new_node t with
      | (None, t) => Done (None, t)
      | (Some c, t) =>
          let t := put_node t l (set_sl_node n (Some c)) in
          cn ← get_node t c;
          Done (Some c, put_node t c (set_parent cn (Some l)))
      end
  end.

Definition descend_literal (t : bpsp__topic_tree) (l : positive) (tok : string)
  : exec (option positive * bpsp__topic_tree) :=
  n ← get_node t l;
  match hash_find tok (nodes n) with
  | Some c => Done (Some c, t)
  | None =>
      match topic__new_hash_node t tok with
      | (None, t) => Done (None, t)
      | (Some (k, c), t) =>
          let t := put_node t l (set_nodes n (hash_add k c (nodes n))) in
          cn ← get_node t c;
          Done (Some c, put_node t c (set_parent cn (Some l)))
      end
  end.

(** The [while (n_tok > 0)] loop. *)
Fixpoint add_loop (n_tok : nat) (t : bpsp__topic_tree) (cur : positive) (cur_tok : token)
    (sub : positive) : exec (status__err * bpsp__topic_tree) :=
  match n_tok with
  | O => Done (BPSP_OK, t)
  | S n =>
      tok ← tok_str cur_tok;
      let star := token_is tok STAR in
      '(next, t) ← (if star then descend_star t cur
                    else if token_is tok PLUS then descend_plus t cur
                    else descend_literal t cur tok);
      match next with
      | None => Done (BPSP_NO_MEMORY, t)
      | Some cur =>
          cur_tok ← topic__next_token cur_tok;
          (* the token `*` ends the work: n_tok becomes 1, and then 0 *)
          if star || (n =? 0)%nat then topic__node_add_sub t cur sub
          else add_loop n t cur cur_tok sub
      end
  end.

Definition lock_if (lock : bool) (acquire : bpsp__topic_tree → exec bpsp__topic_tree)
    (t : bpsp__topic_tree) : exec bpsp__topic_tree :=
  if lock then acquire t else Done t.
Definition unlock_if (lock : bool) (t : bpsp__topic_tree) : bpsp__topic_tree :=
  if lock then pthread_rwlock_unlock t else t.

Definition topic__add_subscriber (t : bpsp__topic_tree) (sub : option positive) (lock : bool)
  : exec (status__err * bpsp__topic_tree) :=
  match sub with
  | None => Done (BPSP_INVALID_ARG, t)
  | Some sub =>
      s ← get_sub t sub;
      match _id s with
      | None => Done (BPSP_INVALID_ARG, t)
      | Some _ =>
          topic ← subscriber__get_topic s;
          '(st, n_tok, first_tok) ← topic__extract_token topic;
          match st, first_tok with
          | BPSP_OK, Assigned (Some first_tok) =>
              t ← lock_if lock pthread_rwlock_wrlock t;
              '(st, t) ← add_loop (Z.to_nat n_tok) t root first_tok sub;
              mret (st, unlock_if lock t)
          | st, _ => Done (st, t)
          end
      end
  end.

(** ** Removing a subscriber *)

(** The reference of the parent to the node is dropped, then the node is freed; the fuel is
    that of [topic__free_node]. *)
Definition unlink (t : bpsp__topic_tree) (cur : positive) (tok : string)
  : exec bpsp__topic_tree :=
  n ← get_node t cur;
  if token_is tok STAR then Done (put_node t cur (set_ml_node n None))
  else if token_is tok PLUS then Done (put_node t cur (set_sl_node n None))
  else match hash_find tok (nodes n) with
       | Some _ => Done (put_node t cur (set_nodes n (hash_del tok (nodes n))))
       | None => Done t
       end.

(** The loop over [tokens[n_tok-1]], ..., [tokens[0]]: the list is given in that order.  A
    node that has no parent would be a NULL [cur_node]. *)
Fixpoint prune_loop (t : bpsp__topic_tree) (cur : positive) (tokens : list (option token))
  : exec bpsp__topic_tree :=
  match tokens with
  | [] => Done t
  | tok :: tokens =>
      n ← get_node t cur;
      if topic__node_is_empty (Some n) then
        up ← deref (parent n);
        tok ← deref tok;
        tok ← tok_str tok;
        t ← unlink t up tok;
        t ← topic__free_node (tree_fuel t) t cur;
        prune_loop t up tokens
      else Done t
  end.

Definition topic__tree_prune_node (t : bpsp__topic_tree) (leaf : positive)
    (tokens : list (option token)) : exec bpsp__topic_tree :=
  prune_loop t leaf (rev tokens).

Definition topic__del_subscriber (t : bpsp__topic_tree) (sub : positive) (lock : bool)
  : exec (status__err * bpsp__topic_tree) :=
  s ← get_sub t sub;
  match node s with
  | None => Done (BPSP_OK, t)
  | Some l =>
      match _id s with
      | None => Done (BPSP_INVALID_SUBSCRIBER, t)
      | Some i =>
          topic ← subscriber__get_topic s;
          '(st, n_tok, first_tok) ← topic__extract_token topic;
          tokens ← topic__token_to_array first_tok n_tok;
          t ← lock_if lock pthread_rwlock_wrlock t;
          n ← get_node t l;
          t ← (match hash_find i (subs n) with
               | Some _ =>
                   let t := put_node t l (set_subs n (hash_del i (subs n))) in
                   let t := put_sub t sub (set_node s None) in
                   topic__tree_prune_node t l tokens
               | None => Done t
               end);
          let t := unlock_if lock t in
          match first_tok with
          | NotAssigned => Undef           (* mem__free of an indeterminate pointer *)
          | Assigned _ => Done (st, t)
          end
      end
  end.

(** ** Finding the subscribers of a topic *)

(** A [UT_array] holds copies of the subscribers. *)
Fixpoint copy_subs (t : bpsp__topic_tree) (h : list (string * positive))
  : exec (list bpsp__subscriber) :=
  match h with
  | [] => Done []
  | (_, s) :: h =>
      s ← get_sub t s; arr ← copy_subs t h; mret (subscriber__copy s :: arr)
  end.

(** A hash table without an element is a NULL pointer. *)
Definition hash__subscriber_copy_to_array (t : bpsp__topic_tree)
    (arr : list bpsp__subscriber) (h : list (string * positive))
  : exec (status__err * list bpsp__subscriber) :=
  match h with
  | [] => Done (BPSP_INVALID_ARG, arr)
  | _ => more ← copy_subs t h; mret (BPSP_OK, arr ++ more)
  end.

(** The loop of [topic__node_find_subscribers] and, for [sl_node], the function itself, one
    token further on. *)
Fixpoint find_loop (n_tok : nat) (t : bpsp__topic_tree) (cur : positive) (cur_tok : token)
    (found : list bpsp__subscriber) : exec (list bpsp__subscriber) :=
  n ← get_node t cur;
  match n_tok with
  | O =>
      '(_, found) ← hash__subscriber_copy_to_array t found (subs n);
      mret found
  | S n_tok =>
      ml ← (match ml_node n with
            | None => Done None
            | Some l => ml ← get_node t l; mret (Some ml)
            end);
      found ← (match ml with
               | Some ml =>
                   if (topic__node_num_subs (Some ml) =? 0)%nat then Done found else
                   '(_, found) ← hash__subscriber_copy_to_array t found (subs ml); mret found
               | None => Done found
               end);
      tok ← tok_str cur_tok;
      let hsh_node := hash_find tok (nodes n) in
      cur_tok ← topic__next_token cur_tok;
      found ← (match sl_node n with
               | None => Done found
               | Some sl =>
                   if (n_tok =? 0)%nat then
                     sn ← get_node t sl;
                     '(_, more) ← hash__subscriber_copy_to_array t [] (subs sn);
                     mret (found ++ more)
                   else more ← find_loop n_tok t sl cur_tok []; mret (found ++ more)
               end);
      match hsh_node with
      | None => Done found
      | Some next => find_loop n_tok t next cur_tok found
      end
  end.

Definition topic__node_find_subscribers (t : bpsp__topic_tree) (l : positive)
    (first_tok : token) (n_tok : nat) : exec (list bpsp__subscriber) :=
  if (n_tok =? 0)%nat then
    n ← get_node t l;
    '(_, found) ← hash__subscriber_copy_to_array t [] (subs n); mret found
  else find_loop n_tok t l first_tok [].

(** [None] is the NULL that is returned for an invalid topic. *)
Definition topic__tree_find_subscribers (t : bpsp__topic_tree) (topic : option string)
    (lock : bool) : exec (option (list bpsp__subscriber) * bpsp__topic_tree) :=
  match topic with
  | None => Done (None, t)
  | Some topic =>
      '(st, n_tok, first_tok) ← topic__extract_token topic;
      match st, first_tok with
      | BPSP_OK, Assigned (Some first_tok) =>
          t ← lock_if lock pthread_rwlock_rdlock t;
          found ← topic__node_find_subscribers t root first_tok (Z.to_nat n_tok);
          mret (Some found, unlock_if lock t)
      | _, _ => Done (None, t)
      end
  end.
End Topic.
