(* ===== verification/Print.v ===== *)
(** * What the library prints: the topic tree and frames

    The output is the text that goes to the standard output.  A thread that ends prints the whole
    tree ([topic__print_tree]); frames are printed when the option for it is set. *)
From S2P Require Import Prelude Status Uthash Mem Text Frame FrameOp Subscriber Topic.
Local Open Scope Z_scope.

(** A newline and a double quote. *)
Definition NL : string := String "010"%char "".
Definition DQ : string := String "034"%char "".

(** ** The topic tree *)

(** The line of a node: its depth, its token, its number of subscribers. *)
Definition node_line (deep : nat) (token : string) (num_subs : nat) : string :=
  (times deep "   │" +:+ "─ " +:+ token +:+ " (" +:+ int_text (Z.of_nat num_subs) +:+ ")" +:+ NL)%string.

(** The children in the table of a node, in its order. *)
Fixpoint print_children (print : string → positive → exec string) (l : list (string * positive))
  : exec string :=
  match l with
  | [] => mret ""%string
  | (token, c) :: l =>
      x ← print token c; xs ← print_children print l; mret (x +:+ xs)%string
  end.

(** A child that may be NULL. *)
Definition print_child (print : string → positive → exec string) (token : string) (c : option positive)
  : exec string :=
  match c with Some c => print token c | None => mret ""%string end.

Fixpoint print_node (fuel : nat) (t : bpsp__topic_tree) (deep : nat) (token : string) (l : positive)
  : exec string :=
  match fuel with
  | O => NoFuel
  | S fuel =>
      n ← get_node t l;
      ml ← print_child (print_node fuel t (S deep)) "*" (ml_node n);
      sl ← print_child (print_node fuel t (S deep)) "+" (sl_node n);
      hs ← print_children (print_node fuel t (S deep)) (nodes n);
      mret (node_line deep token (topic__node_num_subs (Some n)) +:+ ml +:+ sl +:+ hs)%string
  end.

(** No path of the tree is longer than it has nodes. *)
Definition print_fuel (t : bpsp__topic_tree) : nat := size (heap t).

Definition topic__print_tree (tree : option bpsp__topic_tree) : exec string :=
  match tree with
  | Some t =>
      body ← print_node (print_fuel t) t 0 "#root" root;
      mret ("[TREE]" +:+ NL +:+ body +:+ NL)%string
  | None => mret ("[TREE]" +:+ NL +:+ "NULL" +:+ NL +:+ NL)%string
  end.

(** ** Frames *)

(** [BYTE_TO_BINARY] *)
Definition BYTE_TO_BINARY (b : Z) : string :=
  cat ((fun mask => if Z.land b mask =? 0 then "0"%string else "1"%string)
       <$> [0x80; 0x40; 0x20; 0x10; 0x08; 0x04; 0x02; 0x01]).

(** A header whose value is indeterminate is printed through a bad pointer. *)
Fixpoint print_headers (hs : list (string * header_value)) : exec string :=
  match hs with
  | [] => mret ""%string
  | (_, Indet) :: hs => Undef
  | (k, Str v) :: hs =>
      xs ← print_headers hs;
      mret (DQ +:+ k +:+ DQ +:+ DQ +:+ v +:+ DQ +:+ ";" +:+ NL +:+ xs)%string
  end.

Section Print.
Context `{Malloc}.

(** The payload is copied into a block with a NUL behind it, and printed up to the first NUL; the
    size of the block is computed with 32 bits, and the block is not checked for NULL. *)
Definition print_payload (f : bpsp__frame) : exec string :=
  if 0 <? data_size f then
    data ← mem__memcpy (mem__malloc (u32 (data_size f + 1))) 0 (payload f) (data_size f);
    data ← deref data;
    data ← put_cell data (data_size f) NUL;
    text ← cells_cstr data;
    mret (text +:+ NL)%string
  else mret ""%string.

Definition frame__print (log__frame : bool) (frame : option bpsp__frame) : exec string :=
  if negb log__frame then mret ""%string else
  body ← (match frame with
          | None => mret ("NULL" +:+ NL)%string
          | Some f =>
              op ← frame__get_op_text (opcode f);
              hs ← print_headers (var_headers f);
              data ← print_payload f;
              mret ("(" +:+ int_text (vars_size f) +:+ ", " +:+ op +:+ ", " +:+ BYTE_TO_BINARY (flag f)
                    +:+ ")" +:+ NL +:+ int_text (data_size f) +:+ NL +:+ hs
                    +:+ "######" +:+ NL +:+ data)%string
          end);
  mret ("[FRAME]" +:+ NL +:+ body +:+ NL)%string.
End Print.
