(* ===== verification/Log.v ===== *)
(** * log.c, log.h: the lines of the log

    The options are arguments; [msg] is the message as its format makes it.  The date in front of a
    line is written into a buffer of 20 bytes. *)
From S2P Require Import Prelude Text Clock Print.
Local Open Scope Z_scope.

(** The options of the log, and the time of [gettimeofday]. *)
Record log_options := {
  log__timestamps : bool; log__stack_trace : bool; log__enable : bool;
  tv_sec : Z; tv_usec : Z;
}.

(** ["%6s"] *)
Definition pad_left (w : nat) (s : string) : string :=
  (times (w - String.length s) " " +:+ s)%string.

Definition print_label (o : log_options) (label : string) : exec string :=
  stamp ← (if log__timestamps o then
             date ← deref (in_buffer 20 (strftime (gmtime (tv_sec o))));
             mret (date +:+ "." +:+ digits 3 (tv_usec o / 1000) "" +:+ "Z")%string
           else mret ""%string);
  mret (stamp +:+ pad_left 6 label +:+ "] ")%string.

(** The four functions behind it print whether the log is switched on or not. *)
Definition _log__label (label : string) (o : log_options) (msg : string) : exec string :=
  l ← print_label o label; mret (l +:+ msg +:+ NL)%string.

Definition _log__debug := _log__label "DEBUG".
Definition _log__info := _log__label "INFO".
Definition _log__warn := _log__label "WARN".
Definition _log__error := _log__label "ERROR".

Definition _log__print (o : log_options) (label : option string) (msg : string) : exec string :=
  if log__enable o then _log__label (default "LOG"%string label) o msg else mret ""%string.

(** [log__warn] and [log__error] are two statements: the second one prints where it happened. *)
Definition log_twice (label : string) (o : log_options) (msg stack : string) : exec string :=
  x ← _log__print o (Some label) msg;
  y ← (if log__stack_trace o then _log__print o (Some "Stack"%string) stack else mret ""%string);
  mret (x +:+ y)%string.

Definition log__warn := log_twice "WARN".
Definition log__error := log_twice "ERROR".
Definition log__info o msg := _log__print o (Some "INFO"%string) msg.

(** ** Facts *)

(** Without the log nothing is printed, and the clock is not looked at. *)
Lemma log__print_silent o label msg : log__enable o = false → _log__print o label msg = Done ""%string.
Proof. unfold _log__print. by intros ->. Qed.

(** The date fits, with its NUL, in years of four digits. *)
Lemma strftime_length t : 1000 ≤ tm_year t + 1900 < 10000 → strlen (strftime t) = 19.
Proof.
  intros Hy. unfold strftime, int_text. rewrite (decimal_digits 10 3) by (cbn; lia). reflexivity.
Qed.

Lemma log__print_defined o label msg :
  0 ≤ tv_sec o < 253402300800 → ∃ line, _log__print o label msg = Done line.
Proof.
  intros Ht. unfold _log__print. destruct (log__enable o); [|by eexists].
  unfold _log__label, print_label. destruct (log__timestamps o); [|by eexists].
  unfold in_buffer. rewrite strftime_length by (pose proof (gmtime_year _ Ht); lia).
  by eexists.
Qed.

(** From the year 10000 on the date does not fit and the log prints an indeterminate buffer. *)
Lemma print_label_overflow o label :
  log__timestamps o = true → tv_sec o = 253402300800 → print_label o label = Undef.
Proof. unfold print_label. intros -> ->. by vm_compute. Qed.

Example log_line :
  _log__print {| log__timestamps := true; log__stack_trace := false; log__enable := true;
                 tv_sec := 1634137504; tv_usec := 841000 |} (Some "INFO"%string) "hello"
  = Done ("2021-10-13T15:05:04.841Z  INFO] hello" +:+ NL)%string.
Proof. vm_compute. reflexivity. Qed.
