(* ===== verification/TopicTokens.v ===== *)
(** * The tokens of a topic

    The reference is [topic_tokens]: a topic is valid when it is not empty, does not start or
    end with a slash, and has the level `*` only at its end; its tokens are the parts between
    single slashes, the slashes of an empty level staying in front of the token behind it.
    [topic__extract_token], which cuts a buffer with [strtok_r] and counts, accepts exactly
    the valid topics, and [topic__next_token] walks along exactly these tokens. *)
From S2P Require Import Prelude Status Uthash Mem Subscriber Topic.
Local Open Scope Z_scope.

(** ** The reference *)

(** A level: the slashes in front of it, and its text. *)
Definition level : Type := bytes * bytes.
Definition glue (lv : level) : bytes := lv.1 ++ lv.2.

Fixpoint levels (l : bytes) : list level :=
  match l with
  | [] => [([], [])]
  | c :: l =>
      match levels l with
      | [] => []
      | (sl, core) :: ts =>
          if decide (c = SLASH) then (SLASH :: sl, core) :: ts
          else match sl with
               | [] => ([], c :: core) :: ts
               | _ :: sl => ([], [c]) :: (sl, core) :: ts
               end
      end
  end.

(** No level but the last is a lone star. *)
Fixpoint star_ok (cores : list bytes) : bool :=
  match cores with
  | [] => true
  | c :: cs => match cs with
               | [] => true
               | _ => negb (bool_decide (c = [STAR])) && star_ok cs
               end
  end.

Definition topic_tokens (topic : string) : option (list string) :=
  match chars topic, last (chars topic) with
  | c :: _, Some d =>
      if decide (c = SLASH ∨ d = SLASH) then None
      else if star_ok (snd <$> levels (chars topic))
           then Some (str ∘ glue <$> levels (chars topic)) else None
  | _, _ => None
  end.

(** The levels, with a byte between them. *)
Fixpoint join_with (c : ascii) (T : list bytes) : bytes :=
  match T with
  | [] => []
  | [t] => t
  | t :: T => t ++ c :: join_with c T
  end.

Record level_ok (lv : level) : Prop := {
  lo_slashes : Forall (fun c => c = SLASH) lv.1;
  lo_text : Forall (fun c => c ≠ SLASH ∧ c ≠ NUL) lv.2;
  lo_some : lv.2 ≠ [];
}.

Lemma join_with_cons c t T : T ≠ [] → join_with c (t :: T) = t ++ c :: join_with c T.
Proof. by destruct T. Qed.

Lemma levels_ne l : levels l ≠ [].
Proof.
  induction l as [|c l IH]; [done|]. cbn. destruct (levels l) as [|[sl core] ts]; [done|].
  case_decide; [done|]. by destruct sl.
Qed.

(** *** [levels] is a decomposition of its argument *)

Lemma levels_first_slash l :
  head (default ([], []) (head (levels l))).1 = Some SLASH ↔ head l = Some SLASH.
Proof.
  destruct l as [|c l]; [done|]. cbn. pose proof (levels_ne l).
  destruct (levels l) as [|[sl core] ts]; [done|]. case_decide as E; [by subst|].
  destruct sl; cbn; naive_solver.
Qed.

Lemma levels_slashes l : Forall (fun lv => Forall (fun c => c = SLASH) lv.1) (levels l).
Proof.
  induction l as [|c l IH]; [by repeat constructor|]. cbn.
  destruct (levels l) as [|[sl core] ts]; [done|].
  apply Forall_cons in IH as [Hs IH]. case_decide; [by repeat constructor|].
  destruct sl as [|c0 sl]; [by repeat constructor|]. apply Forall_cons in Hs as [_ Hs].
  by repeat constructor.
Qed.

Lemma levels_join l : join_with SLASH (glue <$> levels l) = l.
Proof.
  induction l as [|c l IH]; [done|]. cbn [levels].
  pose proof (levels_ne l). pose proof (levels_slashes l) as Hs.
  destruct (levels l) as [|[sl core] ts]; [done|].
  apply Forall_cons in Hs as [Hs _]. cbn in Hs. case_decide as E.
  - subst c. cbn in *. rewrite <- IH. by destruct (glue <$> ts).
  - destruct sl as [|c0 sl].
    + cbn in *. rewrite <- IH. by destruct (glue <$> ts).
    + apply Forall_cons in Hs as [-> _]. cbn in *. rewrite <- IH. by destruct (glue <$> ts).
Qed.

Lemma levels_text l :
  no_nul l → Forall (fun lv => Forall (fun c => c ≠ SLASH ∧ c ≠ NUL) lv.2) (levels l).
Proof.
  unfold no_nul. induction l as [|c l IH]; [by repeat constructor|].
  intros [Hc Hl]%not_elem_of_cons. specialize (IH Hl). cbn.
  destruct (levels l) as [|[sl core] ts]; [done|].
  apply Forall_cons in IH as [Ht IH]. case_decide; [by repeat constructor|].
  destruct sl; repeat constructor; naive_solver.
Qed.

Lemma levels_some l d :
  last l = Some d → d ≠ SLASH → Forall (fun lv => lv.2 ≠ []) (levels l).
Proof.
  revert d. induction l as [|c l IH]; intros d Hd Hn; [done|].
  destruct l as [|c1 l].
  - injection Hd as ->. cbn. rewrite decide_False by done. by repeat constructor.
  - rewrite last_cons_cons in Hd. specialize (IH d Hd Hn). cbn [levels] in *.
    destruct (match levels l with [] => _ | _ => _ end) as [|[sl core] ts]; [done|].
    apply Forall_cons in IH as [Ht IH]. case_decide; [by repeat constructor|].
    destruct sl; by repeat constructor.
Qed.

Lemma levels_ok l d :
  no_nul l → last l = Some d → d ≠ SLASH → Forall level_ok (levels l).
Proof.
  intros Hn Hd Hd'. apply Forall_forall. intros lv Hlv.
  pose proof (levels_slashes l) as H1. pose proof (levels_text l Hn) as H2.
  pose proof (levels_some l d Hd Hd') as H3. rewrite !Forall_forall in H1, H2, H3.
  split; auto.
Qed.

(** ** strtok_r *)

Lemma strspn_level sl core r :
  Forall (fun c => c = SLASH) sl → head (core ++ r) ≠ Some SLASH →
  strspn (sl ++ core ++ r) = List.length sl.
Proof.
  intros Hs Hh. induction Hs as [|c sl -> _ IH]; cbn.
  - destruct (core ++ r) as [|c l]; [done|]. cbn in *. rewrite decide_False; [done|congruence].
  - by rewrite decide_True, IH.
Qed.

Lemma strcspn_text core c r :
  Forall (fun c => c ≠ SLASH ∧ c ≠ NUL) core → c = SLASH ∨ c = NUL →
  strcspn (core ++ c :: r) = List.length core.
Proof.
  intros Ht Hc. induction Ht as [|c0 core [? ?] _ IH]; cbn.
  - by rewrite decide_True.
  - rewrite decide_False by naive_solver. by rewrite IH.
Qed.

Lemma level_head lv r : level_ok lv → head (lv.2 ++ r) ≠ Some SLASH.
Proof.
  intros [_ Ht Hne]. destruct lv.2 as [|c l]; [done|]. apply Forall_cons in Ht as [[? ?] _].
  cbn. congruence.
Qed.

Lemma lookup_middle {A} (l1 : list A) x l2 : (l1 ++ x :: l2) !! List.length l1 = Some x.
Proof. by rewrite lookup_app_r, Nat.sub_diag by lia. Qed.

Lemma strtok_level pre lv c r :
  level_ok lv → c = SLASH ∨ c = NUL →
  strtok_r (pre ++ glue lv ++ c :: r) (List.length pre)
  = Done (Some (List.length (pre ++ lv.1)), pre ++ glue lv ++ NUL :: r,
          (List.length (pre ++ glue lv) + if decide (c = NUL) then 0 else 1)%nat).
Proof.
  intros Hl Hc. unfold strtok_r, glue. rewrite drop_app_length.
  rewrite <- (app_assoc lv.1 lv.2), strspn_level by (try apply Hl; by apply level_head).
  assert (pre ++ lv.1 ++ lv.2 ++ c :: r = (pre ++ lv.1) ++ lv.2 ++ c :: r) as Eb
    by (by rewrite <- !app_assoc). rewrite !Eb.
  rewrite <- (length_app pre lv.1).
  assert (∃ c0 l, lv.2 = c0 :: l ∧ c0 ≠ NUL) as (c0 & l & E2 & H0).
  { destruct Hl as [_ Ht Hne]. destruct lv.2 as [|c0 l]; [done|].
    apply Forall_cons in Ht as [[? ?] _]. by exists c0, l. }
  assert (((pre ++ lv.1) ++ lv.2 ++ c :: r) !! List.length (pre ++ lv.1) = Some c0) as ->
    by (rewrite E2; apply lookup_middle).
  cbn [deref mbind exec_bind]. rewrite decide_False by done.
  rewrite drop_app_length, strcspn_text by (done || apply Hl).
  rewrite (app_assoc (pre ++ lv.1)), <- (length_app (pre ++ lv.1)), lookup_middle.
  cbn [deref mbind exec_bind].
  assert (∀ x, ((pre ++ lv.1) ++ lv.2) ++ x :: r = pre ++ (lv.1 ++ lv.2) ++ x :: r) as Ea
    by (intros; by rewrite <- !app_assoc).
  assert (List.length ((pre ++ lv.1) ++ lv.2) = List.length (pre ++ lv.1 ++ lv.2)) as El
    by (by rewrite <- app_assoc).
  case_decide as Ec.
  - subst c. rewrite Nat.add_0_r. by rewrite Ea, El.
  - rewrite insert_app_r_alt, Nat.sub_diag by lia. cbn. rewrite Ea, El. repeat f_equal. lia.
Qed.

Lemma strtok_end pre :
  strtok_r (pre ++ [NUL]) (List.length pre) = Done (None, pre ++ [NUL], List.length pre).
Proof.
  unfold strtok_r. rewrite drop_app_length. cbn. rewrite Nat.add_0_r, lookup_middle. done.
Qed.

(** ** The counting loop *)

(** What follows a token in the buffer, before and after it is cut. *)
Definition behind (c : ascii) (T : list level) : bytes :=
  match T with [] => [NUL] | _ => c :: join_with c (glue <$> T) ++ [NUL] end.

Definition bump (T : list level) : nat := match T with [] => 0 | _ => 1 end.

Lemma text_no_nul (l : bytes) : Forall (fun c => c ≠ SLASH ∧ c ≠ NUL) l → no_nul l.
Proof.
  intros Hf Hin. rewrite Forall_forall in Hf. by apply Hf in Hin as [_ ?].
Qed.

Lemma glue_no_nul lv : level_ok lv → no_nul (glue lv).
Proof.
  intros [Hs Ht _] [Hin|Hin]%elem_of_app.
  - rewrite Forall_forall in Hs. by apply Hs in Hin.
  - by apply (text_no_nul lv.2).
Qed.

Lemma join_behind c lv T : join_with c (glue <$> lv :: T) ++ [NUL] = glue lv ++ behind c T.
Proof.
  destruct T as [|lv' T]; [done|]. cbn [fmap list_fmap behind].
  rewrite join_with_cons by done. by rewrite <- app_assoc.
Qed.

Lemma behind_cons T :
  ∃ c, behind SLASH T = c :: tail (behind SLASH T) ∧ (c = SLASH ∨ c = NUL)
       ∧ (if decide (c = NUL) then 0 else 1)%nat = bump T.
Proof. destruct T; [exists NUL|exists SLASH]; by repeat split; auto. Qed.

Lemma cstr_at_app pre core r :
  no_nul core → cstr_at (pre ++ core ++ NUL :: r) (List.length pre) = Done (str core).
Proof. intros Hn. unfold cstr_at. by rewrite drop_app_length, until_nul_app. Qed.

Lemma str_inj l1 l2 : str l1 = str l2 → l1 = l2.
Proof. intros E. rewrite <- (chars_str l1), <- (chars_str l2). by rewrite E. Qed.

Lemma token_is_str l c : token_is (str l) c = bool_decide (l = [c]).
Proof.
  unfold token_is. apply bool_decide_ext. split; [apply str_inj|by intros ->].
Qed.

Lemma extract_loop_spec T P core fuel n :
  Forall level_ok T → no_nul core → (List.length T < fuel)%nat →
  ∃ m buf, extract_loop fuel (P ++ core ++ NUL :: tail (behind SLASH T))
         (List.length (P ++ core) + bump T) (Some (List.length P)) n
       = Done (if star_ok (core :: (snd <$> T))
               then (true, n + 1 + Z.of_nat (List.length T), P ++ core ++ behind NUL T)
               else (false, n + 1 + Z.of_nat m, buf)).
Proof.
  intros HT. revert P core fuel n. induction HT as [|lv T Hlv HT IH];
    intros P core fuel n Hn Hf; (destruct fuel as [|fuel]; [cbn in Hf; lia|]);
    cbn [extract_loop].
  - exists 0%nat, []. cbn [behind tail bump fmap list_fmap star_ok].
    rewrite Nat.add_0_r, (app_assoc P), strtok_end. cbn [mbind exec_bind].
    rewrite <- (app_assoc P), cstr_at_app by done. cbn [mbind exec_bind].
    rewrite bool_decide_false, andb_false_r by auto.
    destruct fuel; cbn; by rewrite Z.add_0_r.
  - destruct (behind_cons T) as (c & Eb & Hc & Ebump).
    assert (P ++ core ++ NUL :: tail (behind SLASH (lv :: T))
      = (P ++ core ++ [NUL]) ++ glue lv ++ c :: tail (behind SLASH T)) as ->.
    { cbn [behind tail]. rewrite join_behind, Eb. cbn [tail]. by app_norm. }
    assert (List.length (P ++ core) + bump (lv :: T) = List.length (P ++ core ++ [NUL]))%nat as ->
      by (rewrite (app_assoc P), (length_app (P ++ core)); done).
    rewrite strtok_level by done. cbn [mbind exec_bind]. rewrite Ebump.
    assert ((P ++ core ++ [NUL]) ++ glue lv ++ NUL :: tail (behind SLASH T)
      = P ++ core ++ NUL :: glue lv ++ NUL :: tail (behind SLASH T)) as Ea by by app_norm.
    rewrite Ea. rewrite cstr_at_app by done. cbn [mbind exec_bind].
    rewrite token_is_str, (bool_decide_true (Some _ ≠ None)), andb_true_r by done.
    change (star_ok (core :: (lv :: T).*2))
      with (negb (bool_decide (core = [STAR])) && star_ok (lv.2 :: T.*2)).
    destruct (bool_decide (core = [STAR])); [by eexists 0%nat, _; rewrite Z.add_0_r|].
    destruct (IH ((P ++ core ++ [NUL]) ++ lv.1) lv.2 fuel (n + 1)) as (m & buf & E);
      [apply text_no_nul, Hlv|cbn in Hf; lia|].
    exists (S m), buf. unfold glue. app_norm. repeat (progress (rewrite <- ?app_assoc in E; cbn [app] in E)).
    rewrite E. clear E.
    cbn [negb andb]. f_equal. destruct (star_ok _).
    + f_equal; [f_equal; cbn [List.length]; lia|].
      cbn [behind]. rewrite join_behind. unfold glue. by app_norm.
    + f_equal. f_equal. lia.
Qed.

(** ** Walking along the tokens *)

(** [topic__next_token] goes from token to token through these strings. *)
Fixpoint reads (t : token) (toks : list string) : Prop :=
  match toks with
  | [] => True
  | s :: toks => tok_str t = Done s ∧ ∃ t', topic__next_token t = Done t' ∧ reads t' toks
  end.

Lemma reads_join T P :
  Forall level_ok T →
  reads {| tok_buf := P ++ join_with NUL (glue <$> T) ++ [NUL]; tok_off := List.length P |}
        (str ∘ glue <$> T).
Proof.
  intros HT. revert P. induction HT as [|lv T Hlv HT IH]; intros P; [done|].
  change (str ∘ glue <$> lv :: T) with (str (glue lv) :: (str ∘ glue <$> T)).
  rewrite join_behind.
  assert (∃ r, behind NUL T = NUL :: r) as [r Er] by (destruct T; by eexists).
  assert (cstr_at (P ++ glue lv ++ behind NUL T) (List.length P) = Done (str (glue lv))) as E
    by (rewrite Er; apply cstr_at_app; by apply glue_no_nul).
  split; [exact E|]. unfold topic__next_token. cbn [tok_buf tok_off]. rewrite E.
  eexists. split; [done|]. cbn. rewrite <- length_chars, chars_str.
  destruct T as [|lv' T]; [done|].
  specialize (IH (P ++ glue lv ++ [NUL])).
  replace (List.length P + List.length (glue lv) + 1)%nat
    with (List.length (P ++ glue lv ++ [NUL])) by (rewrite !length_app; cbn; lia).
  cbn [behind]. revert IH. app_norm. done.
Qed.

Lemma reads_array t toks n :
  reads t toks → List.length toks = S n →
  ∃ arr, token_to_array_loop (Some t) n = Done arr
    ∧ Forall2 (fun o s => ∃ t, o = Some t ∧ tok_str t = Done s) (Some t :: arr) toks.
Proof.
  revert t toks. induction n as [|n IH]; intros t [|s toks] Hr Hl; try done.
  - destruct toks; [|done]. destruct Hr as [Hs _]. exists []. split; [done|].
    repeat constructor. eauto.
  - destruct Hr as (Hs & t' & Ht' & Hr). injection Hl as Hl.
    destruct (IH t' toks Hr Hl) as (arr & E & Hf). exists (Some t' :: arr). split.
    + cbn. rewrite Ht'. cbn. by rewrite E.
    + constructor; [eauto|done].
Qed.

(** ** topic__extract_token *)

(** A C string has no NUL inside. *)
Lemma levels_cons c l d :
  c ≠ SLASH → last (c :: l) = Some d → d ≠ SLASH → no_nul (c :: l) →
  ∃ core T, levels (c :: l) = ([], core) :: T ∧ Forall level_ok (([], core) :: T).
Proof.
  intros Hc Hd Hd' Hn. pose proof (levels_ok _ _ Hn Hd Hd') as Hok.
  pose proof (levels_first_slash (c :: l)) as Hf. pose proof (levels_ne (c :: l)).
  destruct (levels (c :: l)) as [|[sl core] T]; [done|].
  exists core, T. assert (sl = []) as ->; [|done].
  apply Forall_cons in Hok as [[Hs _ _] _]. cbn in *.
  destruct sl as [|c0 sl]; [done|]. apply Forall_cons in Hs as [-> _].
  destruct Hf as [Hf _]. specialize (Hf eq_refl). congruence.
Qed.

Lemma extract_valid topic core T :
  no_nul (chars topic) → levels (chars topic) = ([], core) :: T →
  Forall level_ok (([], core) :: T) →
  ∃ m buf, ('(tok, buf, save) ← strtok_r (chars topic ++ [NUL]) 0;
        '(ok, n, buf) ← extract_loop (S (String.length topic)) buf save tok 0;
        Done (ok, n, tok, buf))
       = Done (if star_ok (core :: (snd <$> T))
               then (true, 1 + Z.of_nat (List.length T), Some 0%nat, core ++ behind NUL T)
               else (false, 1 + Z.of_nat m, Some 0%nat, buf)).
Proof.
  intros Hn El Hok. apply Forall_cons in Hok as [Hlv HT].
  pose proof (levels_join (chars topic)) as Ej. rewrite El in Ej.
  destruct (behind_cons T) as (c & Eb & Hc & Ebump).
  assert (chars topic ++ [NUL] = [] ++ glue ([], core) ++ c :: tail (behind SLASH T)) as ->
    by (rewrite <- Eb, <- Ej; apply join_behind).
  change 0%nat with (List.length (@nil ascii)) at 1.
  rewrite strtok_level by done. rewrite Ebump. cbn [mbind exec_bind app glue fst snd List.length].
  assert (List.length T < S (String.length topic))%nat as Hf.
  { rewrite <- length_chars, <- Ej.
    assert (∀ lv, List.length T ≤ List.length (join_with SLASH (glue <$> lv :: T)))%nat as Hlen;
      [|specialize (Hlen ([], core)); lia].
    clear. induction T as [|lv' T IH]; intros lv; [cbn; lia|].
    change (glue <$> lv :: lv' :: T) with (glue lv :: (glue <$> lv' :: T)).
    rewrite join_with_cons by done. rewrite length_app. cbn [List.length].
    specialize (IH lv'). lia. }
  destruct (extract_loop_spec T [] core (S (String.length topic)) 0 HT) as (m & buf & E);
    [apply text_no_nul, Hlv|done|].
  cbn [app List.length] in E. rewrite E. exists m, buf.
  by destruct (star_ok _).
Qed.

(** The accepted topics are the valid ones; the tokens are those of the reference. *)
Lemma topic__extract_token_spec topic :
  no_nul (chars topic) →
  match topic_tokens topic with
  | Some toks =>
      ∃ t, topic__extract_token topic
           = Done (BPSP_OK, Z.of_nat (List.length toks), Assigned (Some t))
           ∧ reads t toks ∧ toks ≠ []
  | None => ∃ n ft, topic__extract_token topic = Done (BPSP_INVALID_TOPIC, n, ft)
  end.
Proof.
  intros Hn. unfold topic_tokens, topic__extract_token.
  rewrite strlen_chars. destruct (chars topic) as [|c l] eqn:Ec; [by eexists _, _|].
  rewrite (proj2 (Z.eqb_neq _ 0)) by (cbn; lia).
  replace (Z.to_nat (Z.of_nat (List.length (c :: l)) - 1)) with (pred (List.length (c :: l)))
    by (cbn; lia).
  rewrite <- last_lookup.
  assert (∃ d, last (c :: l) = Some d) as [d Hd]
    by (destruct (last (c :: l)) eqn:E; [by eexists|by apply last_None in E]).
  rewrite Hd. cbn [deref mbind exec_bind lookup list_lookup].
  case_decide as Hsl; [by eexists _, _|]. assert (c ≠ SLASH ∧ d ≠ SLASH) as [Hc Hd'] by tauto.
  destruct (levels_cons c l d Hc Hd Hd' Hn) as (core & T & El & Hok).
  destruct (extract_valid topic core T) as (m & buf & E);
    [by rewrite Ec|by rewrite Ec|done|].
  rewrite Ec in E. rewrite El.
  change (snd <$> ([], core) :: T) with (core :: (snd <$> T)).
  destruct (strtok_r ((c :: l) ++ [NUL]) 0) as [[[tok b] sv]| | |]; [|done..].
  cbn [mbind exec_bind] in *.
  destruct (extract_loop _ b sv tok 0) as [[[ok n] b']| | |]; [|done..].
  cbn [mbind exec_bind] in *. destruct (star_ok (core :: T.*2)).
  - injection E as -> -> -> ->. cbn [negb orb]. rewrite (proj2 (Z.eqb_neq _ 0)) by lia.
    eexists. split_and!; [|  |done].
    + rewrite length_fmap. cbn [List.length]. rewrite Nat2Z.inj_succ, <- Z.add_1_l.
      reflexivity.
    + pose proof (reads_join _ [] Hok) as R. cbn [app List.length] in R.
      by rewrite join_behind in R.
  - injection E as -> -> -> ->. by eexists _, _.
Qed.

(** No token but the last is a lone star. *)
Fixpoint star_last (toks : list string) : Prop :=
  match toks with
  | [] => True
  | t :: ts => match ts with
               | [] => True
               | _ => token_is t STAR = false ∧ star_last ts
               end
  end.

Lemma star_ok_last T :
  Forall level_ok T → star_ok (snd <$> T) = true → star_last (str ∘ glue <$> T).
Proof.
  intros HT. induction HT as [|lv T Hlv HT IH]; [done|].
  destruct T as [|lv' T]; [done|].
  change (star_ok (snd <$> lv :: lv' :: T))
    with (negb (bool_decide (lv.2 = [STAR])) && star_ok (snd <$> lv' :: T)).
  intros [Hs Hok]%andb_prop. split; [|by apply IH].
  change ((str ∘ glue) lv) with (str (glue lv)).
  rewrite token_is_str. apply bool_decide_eq_false. intros E.
  apply negb_true_iff, bool_decide_eq_false in Hs. apply Hs.
  destruct Hlv as [Hsl _ _]. unfold glue in E. destruct lv.1 as [|c sl]; [done|].
  apply Forall_cons in Hsl as [-> _]. done.
Qed.

Lemma topic_tokens_star topic toks :
  no_nul (chars topic) → topic_tokens topic = Some toks → star_last toks.
Proof.
  intros Hn. unfold topic_tokens. destruct (chars topic) as [|c l] eqn:Ec; [done|].
  destruct (last (c :: l)) as [d|] eqn:Ed; [|done]. case_decide as Hd; [done|].
  destruct (star_ok _) eqn:Es; [|done]. intros [= <-].
  apply star_ok_last; [|done]. apply (levels_ok (c :: l) d); [done|done|tauto].
Qed.
