(* ===== verification/TopicShape.v ===== *)
(** * The shape of the topic tree

    A path is the list of edges from the root: a literal token, [+] or [*].  The nodes form a
    tree with parent references; [walk] follows a path.  One lemma, [walk_extend], says what
    a leaf more or less does to [walk]; adding and pruning nodes are its two directions. *)
From S2P Require Import Prelude Status Uthash Mem Subscriber Topic.

Inductive sym := SLit (t : string) | SPlus | SStar.

#[export] Instance sym_eq_dec : EqDecision sym.
Proof. solve_decision. Defined.

Definition sym_of (tok : string) : sym :=
  if token_is tok STAR then SStar else if token_is tok PLUS then SPlus else SLit tok.

(** A topic filter as a path. *)
Notation path := (list sym) (only parsing).

Definition edge (n : topic__node) (s : sym) : option positive :=
  match s with
  | SLit k => hash_find k (nodes n)
  | SPlus => sl_node n
  | SStar => ml_node n
  end.

Definition add_edge (n : topic__node) (s : sym) (c : positive) : topic__node :=
  match s with
  | SLit k => set_nodes n (hash_add k c (nodes n))
  | SPlus => set_sl_node n (Some c)
  | SStar => set_ml_node n (Some c)
  end.

Definition del_edge (n : topic__node) (s : sym) : topic__node :=
  match s with
  | SLit k => set_nodes n (hash_del k (nodes n))
  | SPlus => set_sl_node n None
  | SStar => set_ml_node n None
  end.

Notation node_heap := (gmap positive topic__node) (only parsing).

Definition step (h : node_heap) (l : positive) (s : sym) : option positive :=
  h !! l ≫= fun n => edge n s.

Fixpoint walk (h : node_heap) (l : positive) (p : path) : option positive :=
  match p with
  | [] => Some l
  | s :: p => step h l s ≫= fun c => walk h c p
  end.

Definition parent_of (h : node_heap) (c : positive) : option positive := h !! c ≫= parent.

Record shape (h : node_heap) : Prop := {
  sh_root : is_Some (h !! root);
  sh_child l s c : step h l s = Some c → c ≠ root ∧ parent_of h c = Some l;
  sh_unique l s s' c : step h l s = Some c → step h l s' = Some c → s = s';
  sh_reach l : is_Some (h !! l) → ∃ p, walk h root p = Some l;
  sh_keys l n : h !! l = Some n → NoDup (nodes n).*1 ∧ NoDup (subs n).*1;
  sh_plain l k c : step h l (SLit k) = Some c → sym_of k = SLit k;
}.

(** ** Edges *)

Lemma edge_add_edge n s s' c :
  edge (add_edge n s c) s' = if decide (s = s') then Some c else edge n s'.
Proof.
  destruct s as [k| |], s' as [k'| |]; cbn; try done.
  rewrite hash_find_add. do 2 case_decide; naive_solver.
Qed.

Lemma edge_del_edge n s s' :
  NoDup (nodes n).*1 →
  edge (del_edge n s) s' = if decide (s = s') then None else edge n s'.
Proof.
  intros Hd. destruct s as [k| |], s' as [k'| |]; cbn; try done.
  rewrite hash_find_del by done. do 2 case_decide; naive_solver.
Qed.

Lemma sym_of_inv s tok : sym_of tok = s → (∀ k, s = SLit k → k = tok).
Proof.
  intros <-. unfold sym_of. do 2 (destruct (token_is tok _); [done|]). by intros k [= ->].
Qed.

(** ** Walking *)

Lemma walk_app h l p q : walk h l (p ++ q) = walk h l p ≫= fun c => walk h c q.
Proof.
  revert l. induction p as [|s p IH]; intros l; [done|]. cbn.
  destruct (step h l s); [apply IH|done].
Qed.

Lemma walk_snoc h l p s : walk h l (p ++ [s]) = walk h l p ≫= fun c => step h c s.
Proof.
  rewrite walk_app. destruct (walk h l p) as [c|]; [cbn|done]. by destruct (step h c s).
Qed.

Lemma walk_same h h' l p :
  (∀ l s, step h' l s = step h l s) → walk h' l p = walk h l p.
Proof.
  intros Hs. revert l. induction p as [|s p IH]; intros l; [done|]. cbn. rewrite Hs.
  by destruct (step h l s); [apply IH|].
Qed.

(** Paths to a node are unique already when children have one parent and one edge. *)
Definition tree_like (h : node_heap) : Prop :=
  (∀ l s c, step h l s = Some c → c ≠ root ∧ parent_of h c = Some l)
  ∧ (∀ l s s' c, step h l s = Some c → step h l s' = Some c → s = s').

Lemma shape_tree_like h : shape h → tree_like h.
Proof. intros []. by split. Qed.

Lemma walk_inj h p q l :
  tree_like h → walk h root p = Some l → walk h root q = Some l → p = q.
Proof.
  intros [Hc Hu]. revert q l. induction p as [|s p IH] using rev_ind;
    intros q l Hp Hq; destruct q as [|s' q _] using rev_ind; [done| | |].
  - injection Hp as <-. rewrite walk_snoc in Hq.
    apply bind_Some in Hq as (c & _ & Hs). by apply Hc in Hs as [? _].
  - injection Hq as <-. rewrite walk_snoc in Hp.
    apply bind_Some in Hp as (c & _ & Hs). by apply Hc in Hs as [? _].
  - rewrite walk_snoc in Hp, Hq. apply bind_Some in Hp as (c & Hp & Hs).
    apply bind_Some in Hq as (c' & Hq & Hs').
    pose proof (proj2 (Hc _ _ _ Hs)) as E1. pose proof (proj2 (Hc _ _ _ Hs')) as E2.
    rewrite E1 in E2. injection E2 as <-. rewrite (IH q c Hp Hq). by rewrite (Hu _ _ _ _ Hs Hs').
Qed.

(** [h'] has one leaf [c] more than [h], at the end of the path [pl ++ [s]]. *)
Lemma walk_extend h h' pl l s c p :
  tree_like h → walk h root pl = Some l → step h l s = None →
  (∀ l0 s0, step h l0 s0 ≠ Some c) → c ≠ root → (∀ s0, step h c s0 = None) →
  (∀ l0 s0, step h' l0 s0 = if decide (l0 = l ∧ s0 = s) then Some c else step h l0 s0) →
  walk h' root p = if decide (p = pl ++ [s]) then Some c else walk h root p.
Proof.
  intros Ht Hl Hs Hnc Hcr Hc Hstep.
  induction p as [|s0 p IH] using rev_ind.
  { rewrite decide_False; [done|]. intros E. by apply (f_equal List.length) in E;
      rewrite length_app in E; cbn in E; lia. }
  rewrite !walk_snoc, IH. case_decide as Ep.
  - (* below the new leaf there is nothing *)
    subst p. cbn. rewrite Hstep. rewrite decide_False.
    + rewrite Hc, walk_snoc, Hl. cbn. rewrite Hs. cbn. rewrite decide_False; [done|].
      intros E%(f_equal List.length). rewrite !length_app in E. cbn in E. lia.
    + intros [-> ->]. rewrite (Hc s) in Hs.
      destruct pl as [|s1 pl _] using rev_ind; [by injection Hl as <-|].
      rewrite walk_snoc in Hl. apply bind_Some in Hl as (l1 & _ & E). by apply Hnc in E.
  - destruct (walk h root p) as [l0|] eqn:E0; cbn.
    + rewrite Hstep. destruct (decide (l0 = l ∧ s0 = s)) as [[-> ->]|Hne].
      * rewrite decide_True; [done|]. f_equal. by eapply walk_inj.
      * rewrite decide_False; [done|]. intros [-> [= ->]]%app_inj_tail. apply Hne. split; [|done].
        congruence.
    + rewrite decide_False; [done|]. intros [-> _]%app_inj_tail. congruence.
Qed.

Lemma walk_alloc h p l : shape h → walk h root p = Some l → is_Some (h !! l).
Proof.
  intros Hs. destruct p as [|s p _] using rev_ind; [intros [= <-]; apply Hs|].
  rewrite walk_snoc. intros (c & _ & E)%bind_Some. apply Hs in E as [_ E].
  unfold parent_of in E. destruct (h !! l); [done|discriminate E].
Qed.

(** ** A leaf more *)

Definition leaf (l : positive) : topic__node := set_parent node_zero (Some l).

Definition grow (h : node_heap) (l : positive) (n : topic__node) (s : sym) (c : positive)
  : node_heap := <[c := leaf l]> (<[l := add_edge n s c]> h).

Lemma edge_leaf l s : edge (leaf l) s = None.
Proof. by destruct s. Qed.

Lemma parent_add_edge n s c : parent (add_edge n s c) = parent n.
Proof. by destruct s. Qed.
Lemma subs_add_edge n s c : subs (add_edge n s c) = subs n.
Proof. by destruct s. Qed.

Lemma step_grow h l n s c l0 s0 :
  h !! l = Some n → h !! c = None →
  step (grow h l n s c) l0 s0 = if decide (l0 = l ∧ s0 = s) then Some c else step h l0 s0.
Proof.
  intros Hl Hc. assert (c ≠ l) by congruence. unfold step, grow.
  destruct (decide (l0 = c)) as [->|].
  - rewrite lookup_insert_eq, Hc, decide_False by naive_solver. apply edge_leaf.
  - rewrite lookup_insert_ne by done. destruct (decide (l0 = l)) as [->|].
    + rewrite lookup_insert_eq, Hl. cbn. rewrite edge_add_edge. do 2 case_decide; naive_solver.
    + rewrite lookup_insert_ne by done. rewrite decide_False by naive_solver. done.
Qed.

Lemma parent_grow h l n s c l0 :
  h !! l = Some n → h !! c = None →
  parent_of (grow h l n s c) l0 = if decide (l0 = c) then Some l else parent_of h l0.
Proof.
  intros Hl Hc. unfold parent_of, grow. case_decide as E.
  - subst. by rewrite lookup_insert_eq.
  - rewrite lookup_insert_ne by done. destruct (decide (l0 = l)) as [->|].
    + rewrite lookup_insert_eq, Hl. apply parent_add_edge.
    + by rewrite lookup_insert_ne.
Qed.

Section Grow.
Context (h : node_heap) (pl : path) (l : positive) (n : topic__node) (s : sym) (c : positive).
Context (Hsh : shape h) (Hpl : walk h root pl = Some l) (Hl : h !! l = Some n).
Context (Hc : h !! c = None) (Hs : edge n s = None).
Context (Hplain : ∀ k, s = SLit k → sym_of k = SLit k).

Lemma grow_fresh l0 s0 : step h l0 s0 ≠ Some c.
Proof using Hsh Hc.
  intros E. apply Hsh in E as [_ E]. unfold parent_of in E. by rewrite Hc in E.
Qed.

Lemma grow_not_root : c ≠ root.
Proof using Hsh Hc. intros ->. destruct (sh_root _ Hsh) as [? E]. congruence. Qed.

Lemma walk_grow p :
  walk (grow h l n s c) root p = if decide (p = pl ++ [s]) then Some c else walk h root p.
Proof using Hsh Hpl Hl Hc Hs.
  apply (walk_extend h _ pl l); [by apply shape_tree_like|done| |apply grow_fresh|
    apply grow_not_root| |intros; by apply step_grow].
  - unfold step. by rewrite Hl.
  - intros s0. unfold step. by rewrite Hc.
Qed.

Lemma grow_shape : shape (grow h l n s c).
Proof using Hsh Hpl Hl Hc Hs Hplain.
  pose proof grow_not_root as Hr. assert (c ≠ l) as Hcl by congruence. split.
  - unfold grow. rewrite lookup_insert_ne by done.
    destruct (decide (root = l)) as [<-|]; [by rewrite lookup_insert_eq|].
    rewrite lookup_insert_ne by done. apply Hsh.
  - intros l0 s0 c0. rewrite step_grow, parent_grow by done. case_decide as E.
    + destruct E as [-> ->]. intros [= <-]. by rewrite decide_True.
    + intros E0. rewrite decide_False by (intros ->; by apply grow_fresh in E0).
      by apply Hsh in E0.
  - intros l0 s0 s1 c0. rewrite !step_grow by done.
    do 2 case_decide; [naive_solver| | |apply Hsh].
    + intros [= <-] E. by apply grow_fresh in E.
    + intros E [= <-]. by apply grow_fresh in E.
  - intros l0 Hin. destruct (decide (l0 = c)) as [->|Hne].
    + exists (pl ++ [s]). by rewrite walk_grow, decide_True.
    + assert (is_Some (h !! l0)) as [p Hp]%(sh_reach _ Hsh).
      { unfold grow in Hin. rewrite lookup_insert_ne in Hin by done.
        destruct (decide (l0 = l)) as [->|]; [by rewrite Hl|].
        by rewrite lookup_insert_ne in Hin. }
      exists p. rewrite walk_grow, decide_False; [done|]. intros ->.
      rewrite walk_snoc, Hpl in Hp. cbn in Hp. unfold step in Hp. rewrite Hl in Hp.
      cbn in Hp. congruence.
  - intros l0 n0. unfold grow. intros [[<- <-]|[? [[<- <-]|[? E]]%lookup_insert_Some]]
      %lookup_insert_Some.
    + split; constructor.
    + destruct (sh_keys _ Hsh _ _ Hl) as [Hn1 Hn2]. rewrite subs_add_edge. split; [|done].
      destruct s as [k| |]; cbn; [|done..]. by apply hash_add_NoDup.
    + by eapply Hsh.
  - intros l0 k c0. rewrite step_grow by done. case_decide as E; [|apply (sh_plain _ Hsh)].
    intros _. apply Hplain. by destruct E.
Qed.
End Grow.

(** ** A leaf less *)

Definition prune (h : node_heap) (l : positive) (n : topic__node) (s : sym) (c : positive)
  : node_heap := delete c (<[l := del_edge n s]> h).

Lemma parent_del_edge n s : parent (del_edge n s) = parent n.
Proof. by destruct s. Qed.
Lemma subs_del_edge n s : subs (del_edge n s) = subs n.
Proof. by destruct s. Qed.

Section Prune.
Context (h : node_heap) (pl : path) (l : positive) (n : topic__node) (s : sym) (c : positive).
Context (Hsh : shape h) (Hpl : walk h root pl = Some l) (Hl : h !! l = Some n).
Context (Hs : edge n s = Some c) (Hleaf : ∀ s0, step h c s0 = None).

Lemma prune_ne : c ≠ l.
Proof using Hl Hs Hleaf.
  intros ->. specialize (Hleaf s). unfold step in Hleaf. rewrite Hl in Hleaf. cbn in Hleaf.
  congruence.
Qed.

Lemma step_prune l0 s0 :
  step (prune h l n s c) l0 s0 = if decide (l0 = l ∧ s0 = s) then None else step h l0 s0.
Proof using Hsh Hl Hs Hleaf.
  pose proof prune_ne. unfold step at 1, prune. destruct (decide (l0 = c)) as [->|].
  - rewrite lookup_delete_eq. cbn. rewrite decide_False by naive_solver. by rewrite Hleaf.
  - rewrite lookup_delete_ne by done. destruct (decide (l0 = l)) as [->|].
    + rewrite lookup_insert_eq. cbn. rewrite edge_del_edge by (by eapply Hsh).
      unfold step. rewrite Hl. cbn. do 2 case_decide; naive_solver.
    + rewrite lookup_insert_ne by done. by rewrite decide_False by naive_solver.
Qed.

Lemma parent_prune l0 : l0 ≠ c → parent_of (prune h l n s c) l0 = parent_of h l0.
Proof using Hl.
  intros Hne. unfold parent_of, prune. rewrite lookup_delete_ne by done.
  destruct (decide (l0 = l)) as [->|].
  - rewrite lookup_insert_eq, Hl. apply parent_del_edge.
  - by rewrite lookup_insert_ne.
Qed.

Lemma prune_step_c l0 s0 : step h l0 s0 = Some c → l0 = l ∧ s0 = s.
Proof using Hsh Hl Hs.
  intros E. assert (step h l s = Some c) as E' by (unfold step; by rewrite Hl).
  pose proof (proj2 (sh_child _ Hsh _ _ _ E)) as P.
  rewrite (proj2 (sh_child _ Hsh _ _ _ E')) in P. injection P as <-. split; [done|].
  by apply (sh_unique _ Hsh l _ _ c).
Qed.

Lemma prune_step_inv l0 s0 c0 :
  step (prune h l n s c) l0 s0 = Some c0 → step h l0 s0 = Some c0 ∧ c0 ≠ c.
Proof using Hsh Hl Hs Hleaf.
  rewrite step_prune. case_decide as E; [done|]. intros E0. split; [done|].
  intros ->. by apply E, prune_step_c.
Qed.

Lemma prune_tree_like : tree_like (prune h l n s c).
Proof using Hsh Hl Hs Hleaf.
  split.
  - intros l0 s0 c0 [E ?]%prune_step_inv. rewrite parent_prune by done. by apply Hsh in E.
  - intros l0 s0 s1 c0 [E _]%prune_step_inv [E' _]%prune_step_inv.
    by apply (sh_unique _ Hsh l0 _ _ c0).
Qed.

(** The node itself is reached as before. *)
Lemma walk_prune_to p l0 :
  walk h root p = Some l0 → l0 ≠ c → walk (prune h l n s c) root p = Some l0.
Proof using Hsh Hl Hs Hleaf.
  revert l0. induction p as [|s0 p IH] using rev_ind; intros l0 Hp Hne; [done|].
  rewrite walk_snoc in Hp |- *. apply bind_Some in Hp as (l1 & Hp & E).
  rewrite (IH l1); [|done|].
  - cbn. rewrite step_prune, decide_False; [done|]. intros [-> ->]. unfold step in E.
    rewrite Hl in E. cbn in E. congruence.
  - intros ->. by rewrite Hleaf in E.
Qed.

Lemma walk_prune p :
  walk (prune h l n s c) root p = if decide (p = pl ++ [s]) then None else walk h root p.
Proof using Hsh Hpl Hl Hs Hleaf.
  pose proof prune_ne as Hne.
  assert (walk (prune h l n s c) root pl = Some l) as Hpl' by (by apply walk_prune_to).
  assert (c ≠ root) as Hr by (eapply (sh_child _ Hsh l s); unfold step; by rewrite Hl).
  pose proof (walk_extend (prune h l n s c) h pl l s c p prune_tree_like Hpl') as W.
  rewrite W; clear W.
  - case_decide as E; [|done]. subst p. rewrite walk_snoc, Hpl'. cbn.
    by rewrite step_prune, decide_True.
  - by rewrite step_prune, decide_True.
  - by intros l0 s0 [_ ?]%prune_step_inv.
  - done.
  - intros s0. rewrite step_prune. by case_decide.
  - intros l0 s0. rewrite step_prune. case_decide as E; [|done]. destruct E as [-> ->].
    unfold step. by rewrite Hl.
Qed.

Lemma prune_shape : shape (prune h l n s c).
Proof using Hsh Hpl Hl Hs Hleaf.
  pose proof prune_ne as Hne.
  assert (c ≠ root) as Hr by (eapply (sh_child _ Hsh l s); unfold step; by rewrite Hl).
  destruct prune_tree_like as [T1 T2]. split; [|done|done| | |].
  - unfold prune. rewrite lookup_delete_ne by done.
    destruct (decide (root = l)) as [<-|]; [by rewrite lookup_insert_eq|].
    rewrite lookup_insert_ne by done. apply Hsh.
  - intros l0 Hin. assert (l0 ≠ c) by (intros ->; unfold prune in Hin;
      rewrite lookup_delete_eq in Hin; by destruct Hin).
    assert (is_Some (h !! l0)) as [p Hp]%(sh_reach _ Hsh).
    { unfold prune in Hin. rewrite lookup_delete_ne in Hin by done.
      destruct (decide (l0 = l)) as [->|]; [by rewrite Hl|].
      by rewrite lookup_insert_ne in Hin. }
    exists p. by apply walk_prune_to.
  - intros l0 n0. unfold prune. intros [_ [[<- <-]|[_ E]]%lookup_insert_Some]%lookup_delete_Some.
    + destruct (sh_keys _ Hsh _ _ Hl) as [Hn1 Hn2]. rewrite subs_del_edge. split; [|done].
      destruct s as [k| |]; cbn; [|done..]. by apply hash_del_keys.
    + by eapply Hsh.
  - intros l0 k c0 [E _]%prune_step_inv. by apply (sh_plain _ Hsh) in E.
Qed.
End Prune.

(** ** Other subscribers of a node *)

Lemma step_set_subs h l n hs l0 s0 :
  h !! l = Some n → step (<[l := set_subs n hs]> h) l0 s0 = step h l0 s0.
Proof.
  intros Hl. unfold step. destruct (decide (l0 = l)) as [->|].
  - rewrite lookup_insert_eq, Hl. by destruct s0.
  - by rewrite lookup_insert_ne.
Qed.

Lemma walk_set_subs h l n hs p :
  h !! l = Some n → walk (<[l := set_subs n hs]> h) root p = walk h root p.
Proof. intros Hl. apply walk_same. intros. by apply step_set_subs. Qed.

Lemma set_subs_shape h l n hs :
  shape h → h !! l = Some n → NoDup hs.*1 → shape (<[l := set_subs n hs]> h).
Proof.
  intros Hsh Hl Hd. split.
  - destruct (decide (root = l)) as [<-|]; [by rewrite lookup_insert_eq|].
    rewrite lookup_insert_ne by done. apply Hsh.
  - intros l0 s c. rewrite step_set_subs by done. intros [Hr Hp]%(sh_child _ Hsh).
    split; [done|]. unfold parent_of in *. destruct (decide (c = l)) as [->|].
    + rewrite lookup_insert_eq. by rewrite Hl in Hp.
    + by rewrite lookup_insert_ne.
  - intros l0 s s' c. rewrite !step_set_subs by done. by apply Hsh.
  - intros l0 Hin. destruct (sh_reach _ Hsh l0) as [p Hp].
    + destruct (decide (l0 = l)) as [->|]; [by rewrite Hl|]. by rewrite lookup_insert_ne in Hin.
    + exists p. by rewrite walk_set_subs.
  - intros l0 n0 [[<- <-]|[_ E]]%lookup_insert_Some; [|by eapply Hsh].
    split; [|done]. apply (sh_keys _ Hsh _ _ Hl).
  - intros l0 k c. rewrite step_set_subs by done. by apply (sh_plain _ Hsh).
Qed.

(** ** Empty nodes *)

Lemma is_empty_spec n :
  topic__node_is_empty (Some n) = true ↔ subs n = [] ∧ ∀ s, edge n s = None.
Proof.
  unfold topic__node_is_empty, topic__node_num_subs, topic__node_num_child_nodes, hash_count.
  rewrite andb_true_iff, !Nat.eqb_eq. destruct n as [su sl ml pa no]; cbn. split.
  - intros [Hs Hc]. destruct su; [|done]. destruct no; [|done]. split; [done|].
    destruct ml, sl; cbn in Hc; try done. by intros [].
  - intros [-> He]. split; [done|]. pose proof (He SPlus) as E1. pose proof (He SStar) as E2.
    cbn in E1, E2. subst. destruct no as [|[k c] no]; [done|].
    specialize (He (SLit k)). cbn in He. destruct (hash_find k no); [done|].
    by rewrite decide_True in He.
Qed.

Lemma leaf_empty l : topic__node_is_empty (Some (leaf l)) = true.
Proof. done. Qed.

(** ** Paths are not longer than the tree has nodes *)

(** The node at the first [i] edges of a path. *)
Definition node_at (h : gmap positive topic__node) (p : list sym) (i : nat) : positive :=
  default root (walk h root (take i p)).

Lemma walk_take h p l i : walk h root p = Some l → walk h root (take i p) = Some (node_at h p i).
Proof.
  intros Hp. unfold node_at. rewrite <-(take_drop i p), walk_app in Hp.
  by destruct (walk h root (take i p)).
Qed.

Lemma path_length h p l : shape h → walk h root p = Some l → (List.length p < size h)%nat.
Proof.
  intros Hsh Hp.
  assert (NoDup (node_at h p <$> seq 0 (S (List.length p)))) as Hnd.
  { apply NoDup_fmap_2_strong; [|apply NoDup_seq]. intros i j Hi%elem_of_seq Hj%elem_of_seq E.
    pose proof (walk_take h p l i Hp) as Hwi. rewrite E, <-(walk_take h p l j Hp) in Hwi.
    rewrite (walk_take h p l j Hp) in Hwi.
    pose proof (walk_inj h _ _ _ (shape_tree_like h Hsh) Hwi (walk_take h p l j Hp)) as Ht.
    apply (f_equal List.length) in Ht. rewrite !length_take in Ht. lia. }
  assert ((list_to_set (node_at h p <$> seq 0 (S (List.length p))) : gset positive) ⊆ dom h) as Hsub.
  { intros x Hx. apply elem_of_list_to_set, list_elem_of_fmap in Hx as (i & -> & _).
    apply elem_of_dom, (walk_alloc h (take i p)); [done|by apply (walk_take h p l)]. }
  apply subseteq_size in Hsub. rewrite size_list_to_set, length_fmap, length_seq, size_dom in Hsub by done.
  lia.
Qed.
