(* ===== verification/TopicSpec.v ===== *)
(** * The topic tree as a table of subscriptions

    [subs_at t p] is the table of subscribers whose topic filter is the path [p].  Adding and
    removing a subscriber change this table at the path of its topic and nowhere else, and
    finding collects the tables of the paths that match the published topic. *)
From S2P Require Import Prelude Status Uthash Mem Frame Subscriber Topic TopicTokens.
From S2P Require Import TopicShape.

(** ** Invariant *)

(** The tokens of the topic of a subscriber, and the path where it belongs. *)
Definition sub_tokens (s : bpsp__subscriber) : option (list string) :=
  match subscriber__get_topic s with
  | Done topic => topic_tokens topic
  | _ => None
  end.

Definition sub_path (s : bpsp__subscriber) : option (list sym) :=
  match sub_tokens s with Some toks => Some (sym_of <$> toks) | None => None end.

Record tree_wf (t : bpsp__topic_tree) : Prop := {
  tw_shape : shape (heap t);
  tw_next l : is_Some (heap t !! l) → (l < next t)%positive;
  tw_subs l n i s :
    heap t !! l = Some n → (i, s) ∈ subs n →
    ∃ sub p, sub_heap t !! s = Some sub ∧ _id sub = Some i ∧ node sub = Some l
      ∧ sub_path sub = Some p ∧ walk (heap t) root p = Some l;
}.

Definition node_subs (h : gmap positive topic__node) (l : option positive)
  : list (string * positive) :=
  match l ≫= (h !!.) with Some n => subs n | None => [] end.

Definition subs_at (t : bpsp__topic_tree) (p : list sym) : list (string * positive) :=
  node_subs (heap t) (walk (heap t) root p).

(** No node but the root is empty; [pruned_but l] makes an exception for [l]. *)
Definition pruned_but (t : bpsp__topic_tree) (l : positive) : Prop :=
  ∀ l0 n, heap t !! l0 = Some n → l0 ≠ root → l0 ≠ l → topic__node_is_empty (Some n) = false.
Definition pruned (t : bpsp__topic_tree) : Prop := pruned_but t root.

(** What an operation on the shape alone leaves as it was. *)
Record same_table (t t' : bpsp__topic_tree) : Prop := {
  st_subs p : subs_at t' p = subs_at t p;
  st_heap : sub_heap t' = sub_heap t;
  st_lock : rw_lock t' = rw_lock t;
}.

#[export] Instance same_table_preorder : PreOrder same_table.
Proof.
  split.
  - by intros t.
  - intros t1 t2 t3 [] []. split; [intros p|..]; congruence.
Qed.

(** Nothing but the root, which is a part of the tree itself, and nothing in it. *)
Definition bare (t : bpsp__topic_tree) : Prop :=
  ∃ n, heap t = {[root := n]} ∧ subs n = [] ∧ ml_node n = None ∧ sl_node n = None ∧ nodes n = [].

Lemma bare_wf t : bare t → (root < next t)%positive → tree_wf t.
Proof.
  intros (n0 & Hh & Hs & Hml & Hsl & Hn) Hnx.
  assert (∀ l s, step {[root := n0]} l s = None) as Hst.
  { intros l s. unfold step. destruct (decide (l = root)) as [->|].
    - rewrite lookup_singleton_eq. destruct s; cbn; by rewrite ?Hn, ?Hsl, ?Hml.
    - by rewrite lookup_singleton_ne. }
  split; [split| |]; rewrite Hh.
  - by rewrite lookup_singleton_eq.
  - intros l s c. by rewrite Hst.
  - intros l s s' c. by rewrite Hst.
  - intros l [n [<- <-]%lookup_singleton_Some]. by exists [].
  - intros l n [<- <-]%lookup_singleton_Some. rewrite Hn, Hs. split; constructor.
  - intros l k c. by rewrite Hst.
  - intros l [n [<- <-]%lookup_singleton_Some]. done.
  - intros l n i s [<- <-]%lookup_singleton_Some. rewrite Hs. by intros ?%not_elem_of_nil.
Qed.

Lemma bare_subs t p : bare t → subs_at t p = [].
Proof.
  intros (n0 & Hh & Hs & Hml & Hsl & Hn). unfold subs_at, node_subs. rewrite Hh.
  destruct p as [|s p]; cbn [walk mbind option_bind]; [by rewrite lookup_singleton_eq|].
  unfold step. rewrite lookup_singleton_eq. cbn. destruct s; cbn; by rewrite ?Hn, ?Hsl, ?Hml.
Qed.

Lemma init_tree_wf subscribers : tree_wf (topic__init_tree subscribers).
Proof. apply bare_wf; [|done]. by exists node_zero. Qed.

Lemma get_topic_no_nul s topic : subscriber__get_topic s = Done topic → no_nul (chars topic).
Proof.
  unfold subscriber__get_topic, str_from. intros E. exec_inv. by eapply cstr_at_no_nul.
Qed.

Lemma subs_at_walk t p l n :
  walk (heap t) root p = Some l → heap t !! l = Some n → subs_at t p = subs n.
Proof. intros Hp Hl. unfold subs_at, node_subs. rewrite Hp. cbn. by rewrite Hl. Qed.

(** ** Down one level *)

Definition allocates `{Malloc} : Prop :=
  malloc_ok sizeof_topic__node = true ∧ malloc_ok sizeof_topic__hash_node = true
  ∧ malloc_ok sizeof_subscriber__hash = true.

Section Spec.
Context `{Malloc}.

Definition descend (t : bpsp__topic_tree) (l : positive) (tok : string)
  : exec (option positive * bpsp__topic_tree) :=
  if token_is tok STAR then descend_star t l
  else if token_is tok PLUS then descend_plus t l else descend_literal t l tok.

Definition grown (t : bpsp__topic_tree) (l : positive) (n : topic__node) (s : sym)
  : bpsp__topic_tree :=
  {| heap := grow (heap t) l n s (next t); sub_heap := sub_heap t;
     next := Pos.succ (next t); rw_lock := rw_lock t |}.

Lemma next_fresh t : tree_wf t → heap t !! next t = None.
Proof.
  intros Hw. destruct (heap t !! next t) eqn:E; [|done].
  assert (next t < next t)%positive by (apply (tw_next _ Hw); by rewrite E). lia.
Qed.

Lemma descend_eq t l n tok :
  allocates → tree_wf t → heap t !! l = Some n →
  descend t l tok = Done (match edge n (sym_of tok) with
                          | Some c => (Some c, t)
                          | None => (Some (next t), grown t l n (sym_of tok))
                          end).
Proof.
  intros (M1 & M2 & _) Hw Hl. pose proof (next_fresh _ Hw) as Hf.
  assert (next t ≠ l) as Hne by congruence.
  assert (∀ m, <[next t := set_parent node_zero (Some l)]>
    (<[l := m]> (<[next t := node_zero]> (heap t)))
    = <[next t := leaf l]> (<[l := m]> (heap t))) as Eh.
  { intros m. rewrite (insert_insert_ne _ l) by done. by rewrite insert_insert_eq. }
  unfold descend, sym_of. destruct (token_is tok STAR).
  - unfold descend_star, get_node. rewrite Hl. cbn. destruct (ml_node n); [done|].
    unfold topic__new_node. rewrite M1. unfold put_node, with_heap. cbn.
    rewrite lookup_insert_ne, lookup_insert_eq by done. cbn. unfold grown, grow.
    by rewrite Eh.
  - destruct (token_is tok PLUS).
    + unfold descend_plus, get_node. rewrite Hl. cbn. destruct (sl_node n); [done|].
      unfold topic__new_node. rewrite M1. unfold put_node, with_heap. cbn.
      rewrite lookup_insert_ne, lookup_insert_eq by done. cbn. unfold grown, grow.
      by rewrite Eh.
    + unfold descend_literal, get_node. rewrite Hl. cbn.
      destruct (hash_find tok (nodes n)); [done|].
      unfold topic__new_hash_node, topic__new_node. rewrite M2, M1.
      unfold put_node, with_heap. cbn.
      rewrite lookup_insert_ne, lookup_insert_eq by done. cbn. unfold grown, grow.
      by rewrite Eh.
Qed.

Lemma sym_of_plain tok k : sym_of tok = SLit k → sym_of k = SLit k.
Proof. intros E. pose proof (sym_of_inv _ _ E k eq_refl) as ->. done. Qed.

(** The subscribers of the nodes of the grown heap. *)
Lemma grow_lookup h l n s c l0 n0 :
  grow h l n s c !! l0 = Some n0 → h !! l = Some n →
  (l0 = c ∧ n0 = leaf l) ∨ (l0 ≠ c ∧ ∃ m, h !! l0 = Some m ∧ subs n0 = subs m
                                 ∧ (l0 ≠ l ∧ n0 = m ∨ l0 = l ∧ n0 = add_edge n s c)).
Proof.
  unfold grow. intros [[<- <-]|[Hc [[<- <-]|[Hn E]]%lookup_insert_Some]]%lookup_insert_Some Hl.
  - by left.
  - right. split; [done|]. exists n. rewrite subs_add_edge. split_and!; [done..|by right].
  - right. split; [done|]. exists n0. split_and!; [done..|by left].
Qed.

Section Grown.
Context (t : bpsp__topic_tree) (p : list sym) (l : positive) (n : topic__node) (tok : string).
Context (Hw : tree_wf t) (Hp : walk (heap t) root p = Some l) (Hl : heap t !! l = Some n).
Context (Hs : edge n (sym_of tok) = None).
Let s := sym_of tok.
Let t' := grown t l n s.

Lemma grown_lookup l0 n0 :
  heap t' !! l0 = Some n0 →
  (l0 = next t ∧ n0 = leaf l)
  ∨ (l0 ≠ next t ∧ ∃ m, heap t !! l0 = Some m ∧ subs n0 = subs m
       ∧ (l0 ≠ l ∧ n0 = m ∨ l0 = l ∧ n0 = add_edge n s (next t))).
Proof using Hl. intros E. exact (grow_lookup (heap t) l n s (next t) l0 n0 E Hl). Qed.

Lemma grown_walk q :
  walk (heap t') root q = if decide (q = p ++ [s]) then Some (next t) else walk (heap t) root q.
Proof using Hw Hp Hl Hs. apply walk_grow; [apply Hw|done|done|by apply next_fresh|done]. Qed.

Lemma grown_walk_some q l0 :
  walk (heap t) root q = Some l0 → walk (heap t') root q = Some l0.
Proof using Hw Hp Hl Hs.
  intros Hq. rewrite grown_walk, decide_False; [done|]. intros ->.
  rewrite walk_snoc, Hp in Hq. cbn in Hq. unfold step in Hq. rewrite Hl in Hq. cbn in Hq.
  unfold s in Hq. congruence.
Qed.

Lemma grown_wf : tree_wf t'.
Proof using Hw Hp Hl Hs.
  pose proof (next_fresh _ Hw) as Hf. split.
  - apply (grow_shape (heap t) p); [apply Hw|done|done|done|done|].
    intros k. apply sym_of_plain.
  - intros l0 [n0 E]. apply grown_lookup in E as [[-> _]|(_ & m & E & _)]; [cbn; lia|].
    assert (l0 < next t)%positive by (apply (tw_next _ Hw); by rewrite E). cbn. lia.
  - intros l0 n0 i sl E Hin.
    apply grown_lookup in E as [[-> ->]|(_ & m & E & Es & _)]; [by apply not_elem_of_nil in Hin|].
    rewrite Es in Hin. destruct (tw_subs _ Hw _ _ _ _ E Hin) as (sub & q & ? & ? & ? & ? & Hq).
    exists sub, q. split_and!; try done. by apply grown_walk_some.
Qed.

Lemma grown_table : same_table t t'.
Proof using Hw Hp Hl Hs.
  pose proof (next_fresh _ Hw) as Hf. split; [|done..]. intros q. unfold subs_at.
  rewrite grown_walk. case_decide as Eq.
  - subst q. rewrite walk_snoc, Hp. cbn. unfold step. rewrite Hl. cbn.
    assert (edge n s = None) as -> by done. cbn [mbind option_bind].
    change (heap t') with (grow (heap t) l n s (next t)). unfold grow.
    unfold node_subs. cbn [mbind option_bind]. by rewrite lookup_insert_eq.
  - destruct (walk (heap t) root q) as [l0|] eqn:E; [|done].
    destruct (walk_alloc _ _ _ (tw_shape _ Hw) E) as [m Em]. unfold node_subs. cbn [mbind option_bind].
    rewrite Em. destruct (heap t' !! l0) as [n0|] eqn:E0.
    + apply grown_lookup in E0 as [[-> _]|(_ & m' & E' & -> & _)]; congruence.
    + exfalso. revert E0. change (heap t') with (grow (heap t) l n s (next t)). unfold grow. rewrite lookup_insert_ne by congruence.
      destruct (decide (l0 = l)) as [->|]; [by rewrite lookup_insert_eq|].
      rewrite lookup_insert_ne by done. congruence.
Qed.

Lemma grown_pruned : pruned_but t l → pruned_but t' (next t).
Proof using Hl.
  intros Hpr l0 n0 E Hr Hn.
  apply grown_lookup in E as [[-> _]|(_ & m & E & Es & Hd)]; [done|].
  destruct Hd as [[? ->]|[-> ->]]; [by eapply Hpr|].
  apply not_true_is_false. intros [_ He]%is_empty_spec. specialize (He s).
  by rewrite edge_add_edge, decide_True in He.
Qed.
End Grown.

Lemma descend_spec t p l tok :
  allocates → tree_wf t → walk (heap t) root p = Some l →
  ∃ c t', descend t l tok = Done (Some c, t') ∧ tree_wf t'
    ∧ walk (heap t') root (p ++ [sym_of tok]) = Some c ∧ same_table t t'
    ∧ (pruned_but t l → pruned_but t' c).
Proof.
  intros Hm Hw Hp. destruct (walk_alloc _ _ _ (tw_shape _ Hw) Hp) as [n Hl].
  rewrite (descend_eq t l n tok Hm Hw Hl).
  destruct (edge n (sym_of tok)) as [c|] eqn:Hs.
  - assert (step (heap t) l (sym_of tok) = Some c) as Hstep
      by (unfold step; by rewrite Hl).
    exists c, t. split_and!; [done|done| |done|].
    + rewrite walk_snoc, Hp. exact Hstep.
    + intros Hpr l0 n0 E Hr _. destruct (decide (l0 = l)) as [->|]; [|by eapply Hpr].
      rewrite Hl in E. injection E as <-. apply not_true_is_false.
      intros [_ He]%is_empty_spec. congruence.
  - exists (next t), (grown t l n (sym_of tok)). split_and!.
    + done.
    + by apply (grown_wf t p).
    + by rewrite (grown_walk t p), decide_True.
    + by apply (grown_table t p).
    + by apply grown_pruned.
Qed.

(** ** At the node of the topic *)

(** The table after a change at one path. *)
Record table_change (t t' : bpsp__topic_tree) (p : list sym) (h : list (string * positive))
    (s : positive) (sub : bpsp__subscriber) : Prop := {
  tc_subs q : subs_at t' q = if decide (q = p) then h else subs_at t q;
  tc_heap : sub_heap t' = <[s := sub]> (sub_heap t);
  tc_lock : rw_lock t' = rw_lock t;
}.

Lemma table_change_same t1 t2 t3 p h s sub :
  same_table t1 t2 → table_change t2 t3 p h s sub → table_change t1 t3 p h s sub.
Proof.
  intros [S1 S2 S3] [C1 C2 C3]. split; [intros q|..].
  - rewrite C1. by case_decide.
  - by rewrite C2, S2.
  - by rewrite C3.
Qed.

Lemma change_same_table t1 t2 t3 p h s sub :
  table_change t1 t2 p h s sub → same_table t2 t3 → table_change t1 t3 p h s sub.
Proof.
  intros [C1 C2 C3] [S1 S2 S3]. split; [intros q|..].
  - by rewrite S1.
  - by rewrite S2.
  - by rewrite S3.
Qed.

(** Replacing the table of a node, and the subscriber that enters or leaves it. *)
Lemma put_subs_table t p l n h s sub :
  tree_wf t → walk (heap t) root p = Some l → heap t !! l = Some n →
  table_change t (put_node (put_sub t s sub) l (set_subs n h)) p h s sub.
Proof.
  intros Hw Hp Hl. split; [|done..]. intros q. unfold subs_at, node_subs. cbn.
  rewrite walk_set_subs by done. case_decide as Eq.
  - subst q. rewrite Hp. cbn. by rewrite lookup_insert_eq.
  - destruct (walk (heap t) root q) as [l0|] eqn:E; [cbn|done].
    rewrite lookup_insert_ne; [done|]. intros <-.
    apply Eq. apply (walk_inj (heap t) _ _ l); [|done..]. by apply shape_tree_like, Hw.
Qed.

Lemma put_subs_wf t p l n h s sub :
  tree_wf t → walk (heap t) root p = Some l → heap t !! l = Some n → NoDup h.*1 →
  (∀ i s', (i, s') ∈ h → s' ≠ s → (i, s') ∈ subs n) →
  (∀ i, (i, s) ∈ h → _id sub = Some i ∧ node sub = Some l ∧ sub_path sub = Some p) →
  (∀ l0 n0 i, l0 ≠ l → heap t !! l0 = Some n0 → (i, s) ∉ subs n0) →
  tree_wf (put_node (put_sub t s sub) l (set_subs n h)).
Proof.
  intros Hw Hp Hl Hd Hold Hnew Hother. split; cbn.
  - apply set_subs_shape; [apply Hw|done|done].
  - intros l0 Hin. apply (tw_next _ Hw). destruct (decide (l0 = l)) as [->|]; [by rewrite Hl|].
    by rewrite lookup_insert_ne in Hin.
  - intros l0 n0 i s0 E Hin. apply lookup_insert_Some in E as [[<- <-]|[Hne E]].
    + cbn in Hin. destruct (decide (s0 = s)) as [->|Hs].
      * destruct (Hnew i Hin) as (? & ? & ?). exists sub, p. rewrite lookup_insert_eq.
        rewrite walk_set_subs by done. done.
      * destruct (tw_subs _ Hw l n i s0 Hl (Hold _ _ Hin Hs)) as (sub' & q & ? & ? & ? & ? & ?).
        exists sub', q. rewrite lookup_insert_ne, walk_set_subs by done. done.
    + destruct (tw_subs _ Hw l0 n0 i s0 E Hin) as (sub' & q & ? & ? & ? & ? & ?).
      exists sub', q. rewrite walk_set_subs by done.
      rewrite lookup_insert_ne; [done|]. intros <-. by eapply Hother.
Qed.

(** A subscriber sits in one node only: that of its path. *)
Lemma filed_at t l n i s sub p :
  tree_wf t → heap t !! l = Some n → (i, s) ∈ subs n → sub_heap t !! s = Some sub →
  sub_path sub = Some p → walk (heap t) root p = Some l ∧ _id sub = Some i ∧ node sub = Some l.
Proof.
  intros Hw Hl Hin Hs Hp. destruct (tw_subs _ Hw _ _ _ _ Hl Hin) as (sub' & q & E & ? & ? & ? & ?).
  rewrite Hs in E. injection E as <-. by simplify_eq.
Qed.

Lemma sub_path_set_node s l : sub_path (set_node s l) = sub_path s.
Proof. done. Qed.

Lemma node_add_sub_spec t p l s sub i :
  allocates → tree_wf t → walk (heap t) root p = Some l →
  sub_heap t !! s = Some sub → _id sub = Some i → sub_path sub = Some p →
  hash_find i (subs_at t p) = None →
  ∃ t', topic__node_add_sub t l s = Done (BPSP_OK, t') ∧ tree_wf t'
    ∧ table_change t t' p (hash_add i s (subs_at t p)) s (set_node sub (Some l))
    ∧ (pruned_but t l → pruned t').
Proof.
  intros (_ & _ & Hm) Hw Hp Hs Hi Hsp Hf.
  destruct (walk_alloc _ _ _ (tw_shape _ Hw) Hp) as [n Hl].
  rewrite (subs_at_walk t p l n) in * by done.
  exists (put_node (put_sub t s (set_node sub (Some l))) l (set_subs n (hash_add i s (subs n)))).
  unfold topic__node_add_sub, get_sub, get_node. rewrite Hs. cbn. rewrite Hl. cbn.
  rewrite Hi. cbn. rewrite decide_False by (by rewrite Hf). rewrite Hm.
  split_and!; [done| | |].
  - apply (put_subs_wf t p); try done.
    + apply hash_add_NoDup; [done|]. by eapply (sh_keys _ (tw_shape _ Hw)).
    + intros j s' [?|[= <- <-]%list_elem_of_singleton]%elem_of_app Hne; done.
    + intros j [Hin|[= <-]%list_elem_of_singleton]%elem_of_app.
      * destruct (filed_at t l n j s sub p Hw Hl Hin Hs Hsp) as (_ & ? & _). done.
      * done.
    + intros l0 n0 j Hne E Hin. apply Hne.
      destruct (filed_at t l0 n0 j s sub p Hw E Hin Hs Hsp) as (Hp' & _). congruence.
  - by apply put_subs_table.
  - intros Hpr l0 n0 E Hr _. cbn in E. apply lookup_insert_Some in E as [[<- <-]|[Hne E]].
    + apply not_true_is_false. intros [E _]%is_empty_spec. cbn in E.
      by apply app_nil in E as [_ ?].
    + by eapply Hpr.
Qed.

(** ** topic__add_subscriber *)

Lemma add_loop_spec toks t p l cur_tok s sub i :
  allocates → toks ≠ [] → star_last toks → reads cur_tok toks →
  tree_wf t → walk (heap t) root p = Some l →
  sub_heap t !! s = Some sub → _id sub = Some i →
  let q := p ++ (sym_of <$> toks) in
  sub_path sub = Some q → hash_find i (subs_at t q) = None →
  ∃ c t', add_loop (List.length toks) t l cur_tok s = Done (BPSP_OK, t') ∧ tree_wf t'
    ∧ table_change t t' q (hash_add i s (subs_at t q)) s (set_node sub (Some c))
    ∧ (pruned_but t l → pruned t').
Proof.
  intros Hm. revert t p l cur_tok. induction toks as [|tok toks IH]; [done|].
  intros t p l cur_tok _ Hstar (Htok & next & Hnext & Hr) Hw Hp Hs Hi q Hsp Hf.
  cbn [List.length add_loop]. rewrite Htok. cbn [mbind exec_bind].
  change (if token_is tok STAR then descend_star t l
          else if token_is tok PLUS then descend_plus t l else descend_literal t l tok)
    with (descend t l tok).
  destruct (descend_spec t p l tok Hm Hw Hp) as (c & t1 & -> & Hw1 & Hp1 & Hst & Hpr1).
  cbn [mbind exec_bind]. rewrite Hnext. cbn [mbind exec_bind].
  rewrite <- (st_heap _ _ Hst) in Hs. rewrite <- (st_subs _ _ Hst q) in Hf |- *.
  destruct toks as [|tok' toks].
  - rewrite orb_true_r.
    destruct (node_add_sub_spec t1 (p ++ [sym_of tok]) c s sub i) as (t2 & -> & Hw2 & Hc2 & Hpr2);
      try done.
    exists c, t2. split_and!; [done|done| |auto].
    by eapply table_change_same.
  - destruct Hstar as [-> Hstar]. cbn [orb Nat.eqb List.length].
    destruct (IH t1 (p ++ [sym_of tok]) c next) as (c2 & t2 & E & Hw2 & Hc2 & Hpr2);
      rewrite <- ?app_assoc; try done.
    exists c2, t2. cbn [List.length] in E. rewrite E. rewrite <- app_assoc in Hc2.
    split_and!; [done|done| |auto]. by eapply table_change_same.
Qed.

Lemma with_lock_wf t k : tree_wf t → tree_wf (with_lock t k).
Proof. by intros []. Qed.

Lemma lock_roundtrip (lock : bool) t :
  (lock = true → rw_lock t = Unlocked) →
  lock_if lock pthread_rwlock_wrlock t = Done (if lock then with_lock t WriteLocked else t)
  ∧ lock_if lock pthread_rwlock_rdlock t = Done (if lock then with_lock t ReadLocked else t).
Proof.
  intros Hl. destruct lock; [|done]. unfold lock_if, pthread_rwlock_wrlock, pthread_rwlock_rdlock.
  by rewrite !decide_True by auto.
Qed.

Lemma sub_tokens_topic sub toks :
  sub_tokens sub = Some toks →
  ∃ topic, subscriber__get_topic sub = Done topic ∧ no_nul (chars topic)
    ∧ topic_tokens topic = Some toks.
Proof.
  unfold sub_tokens. destruct (subscriber__get_topic sub) as [topic| | |] eqn:E; try done.
  intros Ht. exists topic. split_and!; [done|by eapply get_topic_no_nul|done].
Qed.

Lemma add_subscriber_spec t s sub i toks (lock : bool) :
  allocates → tree_wf t → (lock = true → rw_lock t = Unlocked) →
  sub_heap t !! s = Some sub → _id sub = Some i → sub_tokens sub = Some toks →
  let p := sym_of <$> toks in
  hash_find i (subs_at t p) = None →
  ∃ c t', topic__add_subscriber t (Some s) lock = Done (BPSP_OK, t') ∧ tree_wf t'
    ∧ table_change t t' p (hash_add i s (subs_at t p)) s (set_node sub (Some c))
    ∧ (pruned t → pruned t').
Proof.
  intros Hm Hw Hlock Hs Hi Ht p Hf.
  destruct (sub_tokens_topic _ _ Ht) as (topic & Hg & Hn & Htt).
  pose proof (topic__extract_token_spec topic Hn) as He. rewrite Htt in He.
  destruct He as (ft & He & Hr & Hne).
  unfold topic__add_subscriber, get_sub. rewrite Hs. cbn [deref mbind exec_bind]. rewrite Hi, Hg.
  cbn [mbind exec_bind]. rewrite He. cbn [mbind exec_bind].
  rewrite (proj1 (lock_roundtrip lock t Hlock)). cbn [mbind exec_bind].
  set (t0 := if lock then with_lock t WriteLocked else t).
  assert (tree_wf t0 ∧ heap t0 = heap t ∧ sub_heap t0 = sub_heap t) as (Hw0 & Eh & Es)
    by (unfold t0; by destruct lock; split_and!; try apply with_lock_wf).
  assert (∀ q, subs_at t0 q = subs_at t q) as Esub by (intros q; unfold subs_at; by rewrite Eh).
  rewrite Nat2Z.id.
  destruct (add_loop_spec toks t0 [] root ft s sub i) as (c & t1 & E & Hw1 & Hc & Hpr); try done.
  - by eapply topic_tokens_star.
  - by rewrite Es.
  - unfold sub_path. by rewrite Ht.
  - by rewrite Esub.
  - rewrite E. cbn [mbind exec_bind mret exec_ret]. exists c, (unlock_if lock t1).
    destruct Hc as [C1 C2 C3]. cbn [app] in *.
    split_and!; [done|by destruct lock; [apply with_lock_wf|]| |].
    + split.
      * intros q. transitivity (subs_at t1 q); [by destruct lock|]. by rewrite C1, !Esub.
      * transitivity (sub_heap t1); [by destruct lock|]. by rewrite C2, Es.
      * unfold unlock_if, t0 in *. destruct lock; cbn; [by rewrite Hlock|done].
    + intros Hpt. unfold pruned, pruned_but in *. rewrite Eh in Hpr.
      destruct lock; cbn; by apply Hpr.
Qed.

(** ** Pruning *)

Lemma free_leaf fuel t c n :
  heap t !! c = Some n → topic__node_is_empty (Some n) = true →
  topic__free_node (S fuel) t c = Done (with_heap t (delete c (heap t))).
Proof.
  intros Hc [_ He]%is_empty_spec. pose proof (He SStar) as E1. pose proof (He SPlus) as E2.
  assert (nodes n = []) as E3.
  { destruct (nodes n) as [|[k x] h] eqn:E; [done|]. specialize (He (SLit k)).
    cbn in He. rewrite E in He. cbn in He. destruct (hash_find k h); [done|].
    by rewrite decide_True in He. }
  cbn [topic__free_node]. unfold dtor_node_with, get_node. rewrite Hc.
  cbn [deref mbind exec_bind]. cbn in E1, E2. rewrite E1. cbn [free_child mbind exec_bind].
  rewrite Hc. cbn [deref mbind exec_bind]. rewrite E2. cbn [free_child mbind exec_bind].
  unfold put_node, with_heap. cbn [heap]. rewrite lookup_insert_eq. cbn [deref mbind exec_bind].
  rewrite lookup_insert_eq. cbn [deref mbind exec_bind set_subs set_sl_node set_ml_node nodes].
  rewrite E3. cbn [free_children mbind exec_bind mret exec_ret heap sub_heap next rw_lock].
  unfold mem__free. rewrite lookup_insert_eq. cbn [deref mbind exec_bind mret exec_ret sub_heap next rw_lock].
  by rewrite !delete_insert_eq.
Qed.

Lemma unlink_eq t up n tok c :
  heap t !! up = Some n → edge n (sym_of tok) = Some c →
  unlink t up tok = Done (put_node t up (del_edge n (sym_of tok))).
Proof.
  intros Hup. unfold unlink, get_node, sym_of. rewrite Hup. cbn [deref mbind exec_bind].
  destruct (token_is tok STAR); [done|]. destruct (token_is tok PLUS); [done|].
  cbn. by intros ->.
Qed.

Section Pruned.
Context (t : bpsp__topic_tree) (p : list sym) (up : positive) (n : topic__node).
Context (s : sym) (c : positive) (cn : topic__node).
Context (Hw : tree_wf t) (Hp : walk (heap t) root p = Some up) (Hup : heap t !! up = Some n).
Context (Hs : edge n s = Some c) (Hc : heap t !! c = Some cn).
Context (Hempty : topic__node_is_empty (Some cn) = true).
Let t' := with_heap t (prune (heap t) up n s c).

Lemma pruned_leaf s0 : step (heap t) c s0 = None.
Proof using Hc Hempty.
  unfold step. rewrite Hc. destruct (proj1 (is_empty_spec cn) Hempty) as [_ He]. apply He.
Qed.

Lemma pruned_lookup l0 n0 :
  heap t' !! l0 = Some n0 →
  l0 ≠ c ∧ ∃ m, heap t !! l0 = Some m ∧ subs n0 = subs m ∧ (l0 ≠ up → n0 = m).
Proof using Hup.
  cbn. unfold prune. intros [Hn E]%lookup_delete_Some. split; [done|].
  apply lookup_insert_Some in E as [[<- <-]|[Hne E]].
  - exists n. rewrite subs_del_edge. naive_solver.
  - exists n0. naive_solver.
Qed.

Lemma pruned_alloc l0 m : l0 ≠ c → heap t !! l0 = Some m →
  ∃ n0, heap t' !! l0 = Some n0 ∧ subs n0 = subs m.
Proof using Hup.
  intros Hne E. cbn. unfold prune. rewrite lookup_delete_ne by done.
  destruct (decide (l0 = up)) as [->|].
  - rewrite lookup_insert_eq. eexists. split; [done|]. rewrite subs_del_edge. congruence.
  - rewrite lookup_insert_ne by done. eauto.
Qed.

Lemma pruned_walk q :
  walk (heap t') root q = if decide (q = p ++ [s]) then None else walk (heap t) root q.
Proof using Hw Hp Hup Hs Hc Hempty.
  apply walk_prune; [apply Hw|done|done|done|apply pruned_leaf].
Qed.

Lemma pruned_wf : tree_wf t'.
Proof using Hw Hp Hup Hs Hc Hempty.
  split.
  - apply (prune_shape (heap t) p); [apply Hw|done|done|done|apply pruned_leaf].
  - intros l0 [n0 E]. apply pruned_lookup in E as (_ & m & E & _).
    apply (tw_next _ Hw). by rewrite E.
  - intros l0 n0 i sl E Hin. apply pruned_lookup in E as (Hne & m & E & Es & _).
    rewrite Es in Hin. destruct (tw_subs _ Hw _ _ _ _ E Hin) as (sub & q & ? & ? & ? & ? & Hq).
    exists sub, q. split_and!; try done.
    apply walk_prune_to; [apply Hw|done|done|apply pruned_leaf|done|done].
Qed.

Lemma pruned_table : same_table t t'.
Proof using Hw Hp Hup Hs Hc Hempty.
  split; [|done..]. intros q. unfold subs_at, node_subs. rewrite pruned_walk.
  case_decide as Eq.
  - subst q. rewrite walk_snoc, Hp. cbn. unfold step. rewrite Hup. cbn. rewrite Hs. cbn.
    rewrite Hc. by destruct (proj1 (is_empty_spec cn) Hempty) as [-> _].
  - destruct (walk (heap t) root q) as [l0|] eqn:E; [|done].
    destruct (walk_alloc _ _ _ (tw_shape _ Hw) E) as [m Em].
    assert (l0 ≠ c) as Hne.
    { intros ->. apply Eq. apply (walk_inj (heap t) _ _ c); [by apply shape_tree_like, Hw|done|].
      rewrite walk_snoc, Hp. cbn. unfold step. by rewrite Hup. }
    destruct (pruned_alloc l0 m Hne Em) as (n0 & E0 & Es). cbn [mbind option_bind].
    by rewrite E0, Em.
Qed.

Lemma pruned_pruned : pruned_but t c → pruned_but t' up.
Proof using Hup.
  intros Hpr l0 n0 E Hr Hn. apply pruned_lookup in E as (Hne & m & E & _ & Hm).
  rewrite (Hm Hn). by eapply Hpr.
Qed.
End Pruned.

(** Tokens of an array, as strings. *)
Notation array_of arr toks :=
  (Forall2 (fun o s => ∃ t, o = Some t ∧ tok_str t = Done s) arr toks).

Lemma prune_loop_spec toks arr t l :
  tree_wf t → walk (heap t) root (sym_of <$> toks) = Some l → array_of arr toks →
  ∃ t', prune_loop t l (rev arr) = Done t' ∧ tree_wf t' ∧ same_table t t'
    ∧ (pruned_but t l → pruned t').
Proof.
  revert arr t l. induction toks as [|tok toks IH] using rev_ind; intros arr t l Hw Hp Ha.
  { apply Forall2_nil_inv_r in Ha as ->. injection Hp as <-. by exists t. }
  apply Forall2_app_inv_r in Ha as (arr1 & arr2 & Ha1 & Ha2 & ->).
  apply Forall2_cons_inv_r in Ha2 as (o & arr3 & (tk & -> & Htk) & Ha3 & ->).
  apply Forall2_nil_inv_r in Ha3 as ->. rewrite rev_app_distr. cbn [rev app prune_loop].
  rewrite fmap_app in Hp. cbn in Hp. rewrite walk_snoc in Hp.
  apply bind_Some in Hp as (up & Hp & Hstep).
  destruct (sh_child _ (tw_shape _ Hw) _ _ _ Hstep) as [Hr Hpar].
  unfold parent_of in Hpar. destruct (heap t !! l) as [n|] eqn:Hl; [cbn in Hpar|done].
  unfold get_node. rewrite Hl. cbn [deref mbind exec_bind].
  destruct (topic__node_is_empty (Some n)) eqn:He.
  2: { exists t. split_and!; [done|done|done|]. intros Hpr l0 n0 E Hr0 _.
       destruct (decide (l0 = l)) as [->|]; [congruence|by eapply Hpr]. }
  rewrite Hpar. cbn [deref mbind exec_bind]. rewrite Htk. cbn [mbind exec_bind].
  destruct (walk_alloc _ _ _ (tw_shape _ Hw) Hp) as [un Hup].
  assert (edge un (sym_of tok) = Some l) as Hedge
    by (unfold step in Hstep; by rewrite Hup in Hstep).
  rewrite (unlink_eq t up un tok l) by done. cbn [mbind exec_bind].
  assert (l ≠ up) as Hne.
  { intros ->. apply is_empty_spec in He as [_ He]. rewrite Hup in Hl. injection Hl as ->.
    by rewrite He in Hedge. }
  unfold tree_fuel. rewrite (free_leaf _ _ l n); [| |done].
  2: { cbn. by rewrite lookup_insert_ne. }
  cbn [mbind exec_bind].
  change (with_heap _ _) with (with_heap t (prune (heap t) up un (sym_of tok) l)).
  destruct (IH arr1 (with_heap t (prune (heap t) up un (sym_of tok) l)) up)
    as (t' & E & Hw' & Hst & Hpr).
  - by eapply (pruned_wf t (sym_of <$> toks)).
  - apply walk_prune_to; [apply Hw|done|done|by eapply pruned_leaf|done|done].
  - done.
  - exists t'. split_and!; [done|done| |].
    + etransitivity; [|done]. by eapply (pruned_table t (sym_of <$> toks)).
    + intros Hpt. apply Hpr. by eapply pruned_pruned.
Qed.

(** ** topic__del_subscriber *)

Lemma token_array toks ft :
  reads ft toks → toks ≠ [] →
  ∃ arr, topic__token_to_array (Assigned (Some ft)) (Z.of_nat (List.length toks)) = Done arr
    ∧ array_of arr toks.
Proof.
  intros Hr Hne. destruct toks as [|tok toks]; [done|]. unfold topic__token_to_array.
  rewrite (proj2 (Z.eqb_neq _ 0)) by (cbn [List.length]; lia).
  replace (Z.to_nat (Z.of_nat (List.length (tok :: toks)) - 1)) with (List.length toks)
    by (cbn [List.length]; lia).
  destruct (reads_array ft (tok :: toks) (List.length toks) Hr eq_refl) as (arr & -> & Ha).
  by exists (Some ft :: arr).
Qed.

(** The subscriber leaves its node. *)
Definition vacate (t : bpsp__topic_tree) (s l : positive) (n : topic__node)
    (sub : bpsp__subscriber) (i : string) : bpsp__topic_tree :=
  put_node (put_sub t s (set_node sub None)) l (set_subs n (hash_del i (subs n))).

Lemma vacate_wf t s l n sub i p :
  tree_wf t → heap t !! l = Some n → sub_heap t !! s = Some sub → (i, s) ∈ subs n →
  sub_path sub = Some p →
  tree_wf (vacate t s l n sub i) ∧ walk (heap t) root p = Some l
  ∧ table_change t (vacate t s l n sub i) p (hash_del i (subs n)) s (set_node sub None)
  ∧ (pruned t → pruned_but (vacate t s l n sub i) l).
Proof.
  intros Hw Hl Hs Hin Hsp.
  destruct (filed_at t l n i s sub p Hw Hl Hin Hs Hsp) as (Hp & Hi & Hnode).
  pose proof (sh_keys _ (tw_shape _ Hw) _ _ Hl) as [_ Hnd].
  split_and!; [|done|by apply put_subs_table|].
  - apply (put_subs_wf t p); try done.
    + by apply hash_del_keys.
    + intros j s' Hj _. by apply hash_del_elem in Hj as [? _].
    + intros j [Hj Hne]%hash_del_elem; [|done].
      destruct (filed_at t l n j s sub p Hw Hl Hj Hs Hsp) as (_ & E & _). congruence.
    + intros l0 n0 j Hne E Hj. apply Hne.
      destruct (filed_at t l0 n0 j s sub p Hw E Hj Hs Hsp) as (Hp' & _). congruence.
  - intros Hpr l0 n0 E Hr Hne. cbn in E. rewrite lookup_insert_ne in E by done.
    by eapply Hpr.
Qed.

Lemma del_subscriber_spec t s sub l n i (lock : bool) :
  tree_wf t → (lock = true → rw_lock t = Unlocked) →
  sub_heap t !! s = Some sub → node sub = Some l → _id sub = Some i →
  heap t !! l = Some n → hash_find i (subs n) = Some s →
  ∃ p t', sub_path sub = Some p
    ∧ topic__del_subscriber t s lock = Done (BPSP_OK, t') ∧ tree_wf t'
    ∧ subs_at t p = subs n
    ∧ table_change t t' p (hash_del i (subs_at t p)) s (set_node sub None)
    ∧ (pruned t → pruned t').
Proof.
  intros Hw Hlock Hs Hnode Hi Hl Hf. pose proof (hash_find_Some_elem _ _ _ Hf) as Hin.
  destruct (tw_subs _ Hw _ _ _ _ Hl Hin) as (sub' & p & E & _ & _ & Hsp & _).
  rewrite Hs in E. injection E as <-. exists p. pose proof Hsp as Hsp0.
  unfold sub_path in Hsp. destruct (sub_tokens sub) as [toks|] eqn:Ht; [|done].
  injection Hsp as <-. destruct (sub_tokens_topic _ _ Ht) as (topic & Hg & Hn & Htt).
  pose proof (topic__extract_token_spec topic Hn) as He. rewrite Htt in He.
  destruct He as (ft & He & Hr & Hne). destruct (token_array toks ft Hr Hne) as (arr & Harr & Ha).
  set (t0 := if lock then with_lock t WriteLocked else t).
  assert (tree_wf t0 ∧ heap t0 = heap t ∧ sub_heap t0 = sub_heap t) as (Hw0 & Eh & Es)
    by (unfold t0; by destruct lock; split_and!; try apply with_lock_wf).
  assert (∀ q, subs_at t0 q = subs_at t q) as Esub by (intros q; unfold subs_at; by rewrite Eh).
  destruct (vacate_wf t0 s l n sub i (sym_of <$> toks)) as (Hw1 & Hp & Hc1 & Hpr1);
    [done|by rewrite Eh|by rewrite Es|done|done|].
  destruct (prune_loop_spec toks arr (vacate t0 s l n sub i) l) as (t2 & E2 & Hw2 & Hst2 & Hpr2);
    [done| |done|].
  { cbn. rewrite walk_set_subs by (by rewrite Eh). done. }
  exists (unlock_if lock t2).
  assert (subs_at t (sym_of <$> toks) = subs n) as Esn
    by (rewrite <- Esub; apply (subs_at_walk t0 _ l); [done|by rewrite Eh]).
  split_and!; [done| |by destruct lock; [apply with_lock_wf|]|done| |].
  - unfold topic__del_subscriber, get_sub. rewrite Hs. cbn [deref mbind exec_bind].
    rewrite Hnode, Hi, Hg. cbn [mbind exec_bind]. rewrite He. cbn [mbind exec_bind].
    rewrite Harr. cbn [mbind exec_bind].
    rewrite (proj1 (lock_roundtrip lock t Hlock)). cbn [mbind exec_bind]. fold t0.
    unfold get_node. rewrite Eh, Hl. cbn [deref mbind exec_bind]. rewrite Hf.
    unfold topic__tree_prune_node.
    assert (put_sub (put_node t0 l (set_subs n (hash_del i (subs n)))) s (set_node sub None)
            = vacate t0 s l n sub i) as -> by done.
    by rewrite E2.
  - destruct (change_same_table _ _ _ _ _ _ _ Hc1 Hst2) as [C1 C2 C3]. split.
    + intros q. transitivity (subs_at t2 q); [by destruct lock|].
      rewrite C1, Esn. by rewrite Esub.
    + transitivity (sub_heap t2); [by destruct lock|]. by rewrite C2, Es.
    + unfold unlock_if, t0 in *. destruct lock; cbn; [by rewrite Hlock|done].
  - intros Hpt. assert (pruned t0) as Hpt0 by (unfold pruned, pruned_but; by rewrite Eh).
    specialize (Hpr2 (Hpr1 Hpt0)). by destruct lock.
Qed.

(** ** Refusals, and what stays well formed *)

Lemma add_invalid_spec t s sub i topic (lock : bool) :
  sub_heap t !! s = Some sub → _id sub = Some i →
  subscriber__get_topic sub = Done topic → topic_tokens topic = None →
  topic__add_subscriber t (Some s) lock = Done (BPSP_INVALID_TOPIC, t).
Proof.
  intros Hs Hi Hg Ht. pose proof (topic__extract_token_spec topic) as He. rewrite Ht in He.
  destruct He as (n & ft & He); [by eapply get_topic_no_nul|].
  unfold topic__add_subscriber, get_sub. rewrite Hs. cbn [deref mbind exec_bind].
  rewrite Hi, Hg. cbn [mbind exec_bind]. by rewrite He.
Qed.

(** Whatever the topic of the subscriber. *)
Lemma add_subscriber_keeps t s sub i st t' :
  allocates → tree_wf t → pruned t → rw_lock t = Unlocked →
  sub_heap t !! s = Some sub → _id sub = Some i → (∀ p, hash_find i (subs_at t p) = None) →
  topic__add_subscriber t (Some s) true = Done (st, t') →
  tree_wf t' ∧ pruned t' ∧ rw_lock t' = Unlocked.
Proof.
  intros Hm Hw Hp Hl Hs Hi Hf E. destruct (subscriber__get_topic sub) as [topic| | |] eqn:Hg.
  2-4: unfold topic__add_subscriber, get_sub in E; rewrite Hs in E; cbn in E;
    rewrite Hi, Hg in E; discriminate E.
  destruct (topic_tokens topic) as [toks|] eqn:Ht.
  - assert (sub_tokens sub = Some toks) as Hst by (unfold sub_tokens; by rewrite Hg).
    destruct (add_subscriber_spec t s sub i toks true Hm Hw (fun _ => Hl) Hs Hi Hst (Hf _))
      as (c & t1 & E1 & Hw1 & [_ _ C3] & Hp1).
    rewrite E in E1. injection E1 as -> ->. split_and!; [done|auto|by rewrite C3].
  - rewrite (add_invalid_spec t s sub i topic) in E by done. by injection E as <- <-.
Qed.

Lemma new_sub_wf t s sub :
  tree_wf t → sub_heap t !! s = None → tree_wf (with_sub_heap t (<[s := sub]> (sub_heap t))).
Proof.
  intros [H1 H2 H3] Hs. split; [done|done|]. intros l n i s' Hl Hin.
  destruct (H3 l n i s' Hl Hin) as (sub' & p & E & ?). exists sub', p. cbn.
  rewrite lookup_insert_ne; [done|]. intros <-. congruence.
Qed.

Lemma free_sub_wf t s :
  tree_wf t → (∀ p i, (i, s) ∉ subs_at t p) →
  tree_wf (with_sub_heap t (delete s (sub_heap t))).
Proof.
  intros Hw Hs. pose proof Hw as [H1 H2 H3]. split; [done|done|]. intros l n i s' Hl Hin.
  destruct (H3 l n i s' Hl Hin) as (sub' & p & E & ? & ? & ? & Hp). exists sub', p. cbn.
  rewrite lookup_delete_ne; [done|]. intros <-. apply (Hs p i).
  by rewrite (subs_at_walk t p l n).
Qed.
End Spec.
