(* ===== verification/TopicFind.v ===== *)
(** * Matching: the subscriptions that a published topic reaches

    [matches] says when a topic filter matches the tokens of a topic; [pats] lists the filters
    that match, in the order in which [topic__node_find_subscribers] visits them.  The loop
    with its recursion on single-level nodes collects the tables at exactly these paths. *)
From S2P Require Import Prelude Status Uthash Mem Frame Subscriber Topic TopicTokens.
From S2P Require Import TopicShape TopicSpec.

Inductive matches : list sym → list string → Prop :=
  | matches_nil : matches [] []
  | matches_lit tok p toks : matches p toks → matches (SLit tok :: p) (tok :: toks)
  | matches_plus tok p toks : matches p toks → matches (SPlus :: p) (tok :: toks)
  | matches_star tok toks : matches [SStar] (tok :: toks).

Fixpoint pats (toks : list string) : list (list sym) :=
  match toks with
  | [] => [[]]
  | tok :: toks => [SStar] :: (cons SPlus <$> pats toks) ++ (cons (SLit tok) <$> pats toks)
  end.

Lemma elem_of_pats p toks : p ∈ pats toks ↔ matches p toks.
Proof.
  revert p. induction toks as [|tok toks IH]; intros p; cbn.
  - rewrite list_elem_of_singleton. split; [intros ->; constructor|by inversion 1].
  - rewrite elem_of_cons, elem_of_app, !list_elem_of_fmap. split.
    + intros [->|[(q & -> & ?%IH)|(q & -> & ?%IH)]]; by constructor.
    + inversion 1; subst; [right; right|right; left|by left]; eexists; (split; [done|by apply IH]).
Qed.

Lemma pats_NoDup toks : NoDup (pats toks).
Proof.
  induction toks as [|tok toks IH]; cbn; [apply NoDup_singleton|].
  apply NoDup_cons. split.
  - rewrite elem_of_app, !list_elem_of_fmap. by intros [(? & ? & _)|(? & ? & _)].
  - apply NoDup_app. split_and!.
    + apply NoDup_fmap_2; [|done]. by intros ? ? [= ->].
    + intros q. rewrite !list_elem_of_fmap. by intros (q1 & -> & _) (q2 & ? & _).
    + apply NoDup_fmap_2; [|done]. by intros ? ? [= ->].
Qed.

(** A filter of a subscriber matches a topic level by level; [*] takes one level or more. *)
Fixpoint matchb (p : list sym) (toks : list string) : bool :=
  match p, toks with
  | [], [] => true
  | [SStar], _ :: _ => true
  | SLit k :: p, tok :: toks => bool_decide (k = tok) && matchb p toks
  | SPlus :: p, _ :: toks => matchb p toks
  | _, _ => false
  end.

Lemma matchb_spec p toks : matchb p toks = true ↔ matches p toks.
Proof.
  split.
  - revert toks. induction p as [|[k| |] p IH]; intros [|tok toks]; cbn; try done.
    + intros _. constructor.
    + intros [->%bool_decide_eq_true Hm]%andb_prop. constructor. by apply IH.
    + intros Hm. constructor. by apply IH.
    + by destruct p.
    + destruct p; [intros _; constructor|done].
  - induction 1; cbn; [done| |done|done]. by rewrite bool_decide_true.
Qed.

(** ** What the copies are *)

Section Find.
Context `{Malloc}.

(** The subscribers of a table, copied in its order. *)
Definition subs_of (t : bpsp__topic_tree) (h : list (string * positive))
  : list bpsp__subscriber := omap (fun e => sub_heap t !! e.2) h.

Definition subs_from (t : bpsp__topic_tree) (l : positive) (p : list sym)
  : list (string * positive) := node_subs (heap t) (walk (heap t) l p).

Definition found_at (t : bpsp__topic_tree) (l : positive) (ps : list (list sym))
  : list bpsp__subscriber := ps ≫= fun p => subs_of t (subs_from t l p).

Lemma copy_subs_spec t l n :
  tree_wf t → heap t !! l = Some n → copy_subs t (subs n) = Done (subs_of t (subs n)).
Proof.
  intros Hw Hl.
  assert (∀ i s, (i, s) ∈ subs n → is_Some (sub_heap t !! s)) as Hlive.
  { intros i s Hin. destruct (tw_subs _ Hw _ _ _ _ Hl Hin) as (sub & _ & -> & _). done. }
  revert Hlive. unfold subs_of. induction (subs n) as [|[i s] h IH]; intros Hlive; [done|].
  cbn. destruct (Hlive i s) as [sub E]; [left|]. unfold get_sub. rewrite E. cbn.
  rewrite IH; [done|]. intros j s' Hin. apply (Hlive j). by right.
Qed.

Lemma copy_to_array_spec t l n arr :
  tree_wf t → heap t !! l = Some n →
  ∃ st, hash__subscriber_copy_to_array t arr (subs n) = Done (st, arr ++ subs_of t (subs n)).
Proof.
  intros Hw Hl. unfold hash__subscriber_copy_to_array.
  pose proof (copy_subs_spec t l n Hw Hl) as E.
  destruct (subs n) as [|e h]; [exists BPSP_INVALID_ARG; by rewrite app_nil_r|].
  exists BPSP_OK. by rewrite E.
Qed.

Lemma subs_from_cons t l n s p :
  heap t !! l = Some n →
  subs_from t l (s :: p) = match edge n s with Some c => subs_from t c p | None => [] end.
Proof. intros Hl. unfold subs_from. cbn. unfold step. rewrite Hl. cbn. by destruct (edge n s). Qed.

Lemma found_at_cons t l n s ps :
  heap t !! l = Some n →
  found_at t l (cons s <$> ps) = match edge n s with Some c => found_at t c ps | None => [] end.
Proof.
  intros Hl. unfold found_at. induction ps as [|p ps IH]; [by destruct (edge n s)|].
  cbn. rewrite (subs_from_cons t l n) by done. rewrite IH. by destruct (edge n s).
Qed.

Lemma found_at_app t l ps qs : found_at t l (ps ++ qs) = found_at t l ps ++ found_at t l qs.
Proof. apply bind_app. Qed.

Lemma found_at_nil t l n :
  heap t !! l = Some n → found_at t l [[]] = subs_of t (subs n).
Proof.
  intros Hl. unfold found_at, subs_from, node_subs. cbn. rewrite Hl. by rewrite app_nil_r.
Qed.

Lemma child_alloc t l n s c :
  tree_wf t → heap t !! l = Some n → edge n s = Some c → is_Some (heap t !! c).
Proof.
  intros Hw Hl Hs. assert (step (heap t) l s = Some c) as [_ E]%(sh_child _ (tw_shape _ Hw))
    by (unfold step; by rewrite Hl).
  unfold parent_of in E. destruct (heap t !! c); [done|discriminate E].
Qed.

Lemma get_node_some t l n : heap t !! l = Some n → get_node t l = Done n.
Proof. unfold get_node. by intros ->. Qed.

(** The subscribers of the multi-level node are those of the filter that ends with a star. *)
Lemma star_subs t l n found :
  tree_wf t → heap t !! l = Some n →
  (ml ← (match ml_node n with
         | None => Done None
         | Some l => ml ← get_node t l; mret (Some ml)
         end);
   match ml with
   | Some ml =>
       if (topic__node_num_subs (Some ml) =? 0)%nat then Done found else
       '(_, found) ← hash__subscriber_copy_to_array t found (subs ml); mret found
   | None => Done found
   end) = Done (found ++ found_at t l [[SStar]]).
Proof.
  intros Hw Hl. change [[SStar]] with (cons SStar <$> [[]]).
  rewrite (found_at_cons t l n) by done. cbn [edge].
  destruct (ml_node n) as [c|] eqn:Hc; [|by rewrite app_nil_r].
  destruct (child_alloc t l n SStar c Hw Hl Hc) as [m Hm].
  rewrite (get_node_some t c m) by done. cbn [mbind exec_bind mret exec_ret].
  rewrite (found_at_nil t c m) by done. unfold topic__node_num_subs, hash_count.
  destruct (copy_to_array_spec t c m found Hw Hm) as [st E].
  destruct (subs m) as [|e h]; [by rewrite app_nil_r|]. cbn [List.length Nat.eqb].
  by rewrite E.
Qed.

Lemma found_at_pats t l n k toks :
  heap t !! l = Some n →
  found_at t l (pats (k :: toks))
  = found_at t l [[SStar]]
    ++ match sl_node n with Some c => found_at t c (pats toks) | None => [] end
    ++ match hash_find k (nodes n) with Some c => found_at t c (pats toks) | None => [] end.
Proof.
  intros Hl. cbn [pats].
  change ([SStar] :: (cons SPlus <$> pats toks) ++ (cons (SLit k) <$> pats toks))
    with ([[SStar]] ++ ((cons SPlus <$> pats toks) ++ (cons (SLit k) <$> pats toks))).
  rewrite (found_at_app t l [[SStar]]), (found_at_app t l (cons SPlus <$> pats toks)).
  by rewrite (found_at_cons t l n SPlus), (found_at_cons t l n (SLit k)).
Qed.

(** The loop collects the tables of all matching paths below the node. *)
Lemma find_loop_spec toks t l tok found :
  tree_wf t → is_Some (heap t !! l) → reads tok toks →
  find_loop (List.length toks) t l tok found = Done (found ++ found_at t l (pats toks)).
Proof.
  intros Hw. revert l tok found.
  induction toks as [|k toks IH]; intros l tok found [n Hl] Hr;
    cbn [List.length find_loop]; rewrite (get_node_some t l n) by done;
    cbn [mbind exec_bind].
  - destruct (copy_to_array_spec t l n found Hw Hl) as [st ->].
    cbn [pats]. by rewrite (found_at_nil t l n).
  - destruct Hr as (Htok & next & Hnext & Hr).
    pose proof (star_subs t l n found Hw Hl) as Hstar.
    destruct (match ml_node n with Some _ => _ | None => _ end) as [ml| | |]; [|done..].
    cbn [mbind exec_bind] in Hstar |- *. rewrite Hstar. cbn [mbind exec_bind].
    rewrite Htok. cbn [mbind exec_bind]. rewrite Hnext. cbn [mbind exec_bind].
    rewrite (found_at_pats t l n) by done.
    set (found1 := found ++ found_at t l [[SStar]]).
    assert (match sl_node n with
            | None => Done found1
            | Some sl =>
                if (List.length toks =? 0)%nat then
                  sn ← get_node t sl;
                  '(_, more) ← hash__subscriber_copy_to_array t [] (subs sn);
                  mret (found1 ++ more)
                else more ← find_loop (List.length toks) t sl next []; mret (found1 ++ more)
            end = Done (found1 ++ match sl_node n with
                                  | Some c => found_at t c (pats toks) | None => [] end)) as ->.
    { destruct (sl_node n) as [c|] eqn:Hc; [|by rewrite app_nil_r].
      destruct (child_alloc t l n SPlus c Hw Hl Hc) as [m Hm].
      destruct toks as [|k' toks].
      - cbn [List.length Nat.eqb pats]. rewrite (get_node_some t c m) by done.
        cbn [mbind exec_bind]. destruct (copy_to_array_spec t c m [] Hw Hm) as [st ->].
        cbn [app mbind exec_bind mret exec_ret]. by rewrite (found_at_nil t c m).
      - rewrite IH by (done || by eexists). done. }
    cbn [mbind exec_bind].
    destruct (hash_find k (nodes n)) as [c|] eqn:Hc.
    + rewrite IH; [|by apply (child_alloc t l n (SLit k) c)|done].
      unfold found1. by rewrite <- !app_assoc.
    + unfold found1. by rewrite <- !app_assoc, app_nil_r.
Qed.

(** ** topic__tree_find_subscribers *)

Lemma find_subscribers_spec t topic (lock : bool) :
  tree_wf t → (lock = true → rw_lock t = Unlocked) → no_nul (chars topic) →
  topic__tree_find_subscribers t (Some topic) lock
  = Done (match topic_tokens topic with
          | Some toks => Some (pats toks ≫= fun p => subs_of t (subs_at t p))
          | None => None
          end, t).
Proof.
  intros Hw Hlock Hn. pose proof (topic__extract_token_spec topic Hn) as He.
  unfold topic__tree_find_subscribers. destruct (topic_tokens topic) as [toks|].
  - destruct He as (ft & -> & Hr & Hne). cbn [mbind exec_bind].
    rewrite (proj2 (lock_roundtrip lock t Hlock)). cbn [mbind exec_bind].
    set (t0 := if lock then with_lock t ReadLocked else t).
    assert (tree_wf t0 ∧ heap t0 = heap t ∧ sub_heap t0 = sub_heap t) as (Hw0 & Eh & Es)
      by (unfold t0; by destruct lock; split_and!; try apply with_lock_wf).
    unfold topic__node_find_subscribers. rewrite Nat2Z.id.
    replace (List.length toks =? 0)%nat with false by (by destruct toks).
    rewrite find_loop_spec; [|done|rewrite Eh; apply (tw_shape _ Hw)|done].
    cbn [mbind exec_bind mret exec_ret app].
    assert (found_at t0 root (pats toks) = pats toks ≫= fun p => subs_of t (subs_at t p)) as ->.
    { unfold found_at, subs_of, subs_from, subs_at. by rewrite Eh, Es. }
    unfold unlock_if, t0. destruct lock; [|done]. f_equal. f_equal.
    destruct t; cbn in *. by rewrite Hlock.
  - destruct He as (n & ft & ->). done.
Qed.

(** ** Each subscriber once *)

(** The addresses of the subscribers found, in the order of the search. *)
Definition found_locs (t : bpsp__topic_tree) (toks : list string) : list positive :=
  pats toks ≫= fun p => snd <$> subs_at t p.

Lemma subs_at_inv t p i s :
  (i, s) ∈ subs_at t p →
  ∃ l n, walk (heap t) root p = Some l ∧ heap t !! l = Some n ∧ subs_at t p = subs n.
Proof.
  unfold subs_at, node_subs. destruct (walk (heap t) root p) as [l|];
    [cbn|by intros ?%not_elem_of_nil].
  destruct (heap t !! l) as [n|] eqn:E; [|by intros ?%not_elem_of_nil]. by exists l, n.
Qed.

(** A subscriber is filed under its own id, at the path of its own topic. *)
Lemma subs_at_filed t p i s :
  tree_wf t → (i, s) ∈ subs_at t p →
  ∃ sub, sub_heap t !! s = Some sub ∧ _id sub = Some i ∧ sub_path sub = Some p.
Proof.
  intros Hw Hin. destruct (subs_at_inv t p i s Hin) as (l & n & Hp & Hl & E). rewrite E in Hin.
  destruct (tw_subs _ Hw _ _ _ _ Hl Hin) as (sub & q & Hs & Hi & _ & Hsp & Hq).
  exists sub. split_and!; [done|done|]. rewrite Hsp. f_equal.
  apply (walk_inj (heap t) _ _ l); [by apply shape_tree_like, Hw|done|done].
Qed.

Lemma subs_at_locs_NoDup t p : tree_wf t → NoDup (snd <$> subs_at t p).
Proof.
  intros Hw. assert (NoDup (subs_at t p).*1) as Hk.
  { unfold subs_at, node_subs. destruct (walk _ _ p) as [l|]; [cbn|constructor].
    destruct (heap t !! l) as [n|] eqn:E; [|constructor]. by eapply (sh_keys _ (tw_shape _ Hw)). }
  assert (∀ i j s, (i, s) ∈ subs_at t p → (j, s) ∈ subs_at t p → i = j) as Hij.
  { intros i j s Hi Hj. destruct (subs_at_filed _ _ _ _ Hw Hi) as (sub & E & Ei & _).
    destruct (subs_at_filed _ _ _ _ Hw Hj) as (sub' & E' & Ej & _). congruence. }
  apply NoDup_fmap_2_strong; [|by eapply NoDup_fmap_1].
  intros [i s] [j s'] Hi Hj. cbn. intros <-. f_equal. by eapply Hij.
Qed.

Lemma found_locs_NoDup t toks : tree_wf t → NoDup (found_locs t toks).
Proof.
  intros Hw. apply NoDup_bind; [| |apply pats_NoDup].
  - intros p q s _ _ ([i1 s1] & -> & Hp)%list_elem_of_fmap ([i2 s2] & E & Hq)%list_elem_of_fmap.
    cbn in E. subst s2. destruct (subs_at_filed _ _ _ _ Hw Hp) as (sub & E & _ & Esp).
    destruct (subs_at_filed _ _ _ _ Hw Hq) as (sub' & E' & _ & Esp'). congruence.
  - intros p _. by apply subs_at_locs_NoDup.
Qed.

Lemma subs_of_locs t p :
  tree_wf t → Some <$> subs_of t (subs_at t p) = (fun s => sub_heap t !! s) <$> (snd <$> subs_at t p).
Proof.
  intros Hw. assert (∀ i s, (i, s) ∈ subs_at t p → is_Some (sub_heap t !! s)) as Hlive.
  { intros i s Hin. destruct (subs_at_filed _ _ _ _ Hw Hin) as (sub & -> & _). done. }
  unfold subs_of. induction (subs_at t p) as [|[i s] h IH]; [done|]. cbn.
  destruct (Hlive i s) as [sub E]; [left|]. rewrite E. cbn. f_equal.
  apply IH. intros j s' Hin. apply (Hlive j). by right.
Qed.

Lemma found_copies t toks :
  tree_wf t →
  Some <$> (pats toks ≫= fun p => subs_of t (subs_at t p))
  = (fun s => sub_heap t !! s) <$> found_locs t toks.
Proof.
  intros Hw. unfold found_locs. induction (pats toks) as [|p ps IH]; [done|].
  cbn. by rewrite !fmap_app, IH, subs_of_locs.
Qed.
Lemma elem_of_found_locs t toks s :
  s ∈ found_locs t toks ↔ ∃ p i, matches p toks ∧ (i, s) ∈ subs_at t p.
Proof.
  unfold found_locs. rewrite list_elem_of_bind. split.
  - intros (p & Hs & Hp%elem_of_pats). apply list_elem_of_fmap in Hs as ([i s'] & -> & Hin).
    by exists p, i.
  - intros (p & i & Hm & Hin). exists p. split; [|by apply elem_of_pats].
    by apply (list_elem_of_fmap_2 snd _ (i, s)).
Qed.

(** The search returns copies of the subscribers that match, each once. *)
Lemma find_subscribers_found t topic (lock : bool) :
  tree_wf t → (lock = true → rw_lock t = Unlocked) → no_nul (chars topic) →
  match topic_tokens topic with
  | None => topic__tree_find_subscribers t (Some topic) lock = Done (None, t)
  | Some toks =>
      ∃ found locs, topic__tree_find_subscribers t (Some topic) lock = Done (Some found, t)
        ∧ Some <$> found = (fun s => sub_heap t !! s) <$> locs ∧ NoDup locs
        ∧ (∀ s, s ∈ locs ↔ ∃ p i, matches p toks ∧ (i, s) ∈ subs_at t p)
  end.
Proof.
  intros Hw Hl Hn. pose proof (find_subscribers_spec t topic lock Hw Hl Hn) as E.
  destruct (topic_tokens topic) as [toks|]; [|done].
  eexists _, (found_locs t toks). split_and!; [done|by apply found_copies
    |by apply found_locs_NoDup|by apply elem_of_found_locs].
Qed.
End Find.
