(* ===== verification/TopicProps.v ===== *)
(** * Properties of the topic tree

    Tokens, adding, removing and finding subscribers, and the invariant of every tree that
    the operations can produce, each with an instance on a small tree. *)
From S2P Require Import Prelude Status Uthash Mem Frame Subscriber Topic TopicTokens.
From S2P Require Import TopicShape TopicSpec TopicFind.

(** ** A small tree for the instances *)

Definition sample_sub (tag topic : string) : bpsp__subscriber :=
  default {| _id := None; client_id := None; sub_tag := None; client := 1%positive; node := None |}
    (@subscriber__new malloc_always (Some topic) (Some tag) (Some (7%positive, "Ab12Cd"%string)) None).

Definition sample_subs : gmap positive bpsp__subscriber :=
  <[1%positive := sample_sub "_0" "home/+"]> (<[2%positive := sample_sub "_0" "home/*"]> ∅).

Definition sample_tree : bpsp__topic_tree := topic__init_tree sample_subs.

(** The tree with the first subscriber in it. *)
Definition sample_tree1 : bpsp__topic_tree :=
  match @topic__add_subscriber malloc_always sample_tree (Some 1%positive) true with
  | Done (_, t) => t
  | _ => sample_tree
  end.

Lemma sample_allocates : @allocates malloc_always.
Proof. done. Qed.

Lemma sample_tree1_wf : tree_wf sample_tree1.
Proof.
  destruct (@add_subscriber_spec malloc_always sample_tree 1 (sample_sub "_0" "home/+")
    "Ab12Cd_0/home/+" ["home"; "+"]%string true) as (c & t' & E & Hw & _);
    [done|apply init_tree_wf|done..|].
  unfold sample_tree1. by rewrite E.
Qed.

(** ** Tokens *)

(** C27: [topic__extract_token] accepts exactly the valid topics (not empty, no slash at either
    end, a lone star only as the last level), counts their tokens, and [topic__next_token]
    walks along exactly the tokens of the reference, which joined by slashes give the topic
    back; for every other string the status is BPSP_INVALID_TOPIC. *)
Theorem topic__extract_token_correct topic :
  no_nul (chars topic) →
  match topic_tokens topic with
  | Some toks =>
      (∃ t, topic__extract_token topic
            = Done (BPSP_OK, Z.of_nat (List.length toks), Assigned (Some t))
            ∧ reads t toks)
      ∧ toks ≠ [] ∧ join_with SLASH (chars <$> toks) = chars topic
  | None => ∃ n ft, topic__extract_token topic = Done (BPSP_INVALID_TOPIC, n, ft)
  end.
Proof.
  intros Hn. pose proof (topic__extract_token_spec topic Hn) as He.
  destruct (topic_tokens topic) as [toks|] eqn:Et; [|done].
  destruct He as (t & E & Hr & Hne). split_and!; [by exists t|done|].
  revert Et. unfold topic_tokens. destruct (chars topic) as [|c l]; [done|].
  destruct (last (c :: l)) as [d|]; [|done]. case_decide; [done|].
  destruct (star_ok _); [|done]. intros [= <-]. etransitivity; [|apply levels_join]. f_equal.
  rewrite <- list_fmap_compose. apply list_fmap_ext. intros i lv _. apply chars_str.
Qed.

Lemma topic__extract_token_correct_witness :
  topic_tokens "a/b" = Some ["a"; "b"]%string
  ∧ (∃ t, topic__extract_token "a/b" = Done (BPSP_OK, 2%Z, Assigned (Some t))
          ∧ reads t ["a"; "b"]%string)
  ∧ ["a"; "b"]%string ≠ [] ∧ join_with SLASH (chars <$> ["a"; "b"]%string) = chars "a/b".
Proof.
  split; [done|].
  apply (topic__extract_token_correct "a/b"). apply (bool_decide_unpack _). by vm_compute.
Defined.

(** ** Adding, removing *)

Section Operations.
Context `{Malloc}.

(** C28: Adding a subscriber with a valid topic succeeds and files it at the path of its
    topic, behind the subscribers that are there; the tables of all other paths stay as they
    were, the tree stays well formed and keeps no empty node, the lock is as before. *)
Theorem topic__add_subscriber_correct t s sub i toks (lock : bool) :
  allocates → tree_wf t → pruned t → (lock = true → rw_lock t = Unlocked) →
  sub_heap t !! s = Some sub → _id sub = Some i → sub_tokens sub = Some toks →
  hash_find i (subs_at t (sym_of <$> toks)) = None →
  ∃ t', topic__add_subscriber t (Some s) lock = Done (BPSP_OK, t')
    ∧ tree_wf t' ∧ pruned t' ∧ rw_lock t' = rw_lock t
    ∧ (∀ p, subs_at t' p = if decide (p = sym_of <$> toks)
                           then subs_at t p ++ [(i, s)] else subs_at t p).
Proof.
  intros Hm Hw Hp Hl Hs Hi Ht Hf.
  destruct (add_subscriber_spec t s sub i toks lock Hm Hw Hl Hs Hi Ht Hf)
    as (c & t' & E & Hw' & [C1 _ C3] & Hp').
  exists t'. split_and!; [done|done|auto|done|]. intros p. rewrite C1.
  case_decide as Ep; [by subst p|done].
Qed.

(** C29: Removing a subscriber that is in the tree succeeds and takes it out of the table of
    its topic, leaves all other tables as they were, frees the nodes that are now empty (and
    no other), follows no dangling pointer, and forgets the node in the subscriber. *)
Theorem topic__del_subscriber_correct t s sub l n i (lock : bool) :
  tree_wf t → pruned t → (lock = true → rw_lock t = Unlocked) →
  sub_heap t !! s = Some sub → node sub = Some l → _id sub = Some i →
  heap t !! l = Some n → hash_find i (subs n) = Some s →
  ∃ p t', sub_path sub = Some p
    ∧ topic__del_subscriber t s lock = Done (BPSP_OK, t')
    ∧ tree_wf t' ∧ pruned t' ∧ rw_lock t' = rw_lock t
    ∧ sub_heap t' = <[s := set_node sub None]> (sub_heap t)
    ∧ (∀ q, subs_at t' q = if decide (q = p)
                           then hash_del i (subs_at t p) else subs_at t q).
Proof.
  intros Hw Hp Hl Hs Hn Hi Hh Hf.
  destruct (del_subscriber_spec t s sub l n i lock Hw Hl Hs Hn Hi Hh Hf)
    as (p & t' & Hsp & E & Hw' & _ & [C1 C2 C3] & Hp').
  exists p, t'. split_and!; auto.
Qed.

(** What was added and is removed again leaves no trace: all tables are as before, and
    the nodes that were made for it are gone. *)
Theorem topic__add_del t s sub i toks :
  allocates → tree_wf t → pruned t → rw_lock t = Unlocked →
  sub_heap t !! s = Some sub → _id sub = Some i → sub_tokens sub = Some toks →
  hash_find i (subs_at t (sym_of <$> toks)) = None →
  ∃ t1 t2, topic__add_subscriber t (Some s) true = Done (BPSP_OK, t1)
    ∧ topic__del_subscriber t1 s true = Done (BPSP_OK, t2)
    ∧ (∀ p, subs_at t2 p = subs_at t p) ∧ tree_wf t2 ∧ pruned t2
    ∧ sub_heap t2 = <[s := set_node sub None]> (sub_heap t).
Proof.
  intros Hm Hw Hp Hl Hs Hi Ht Hf.
  destruct (add_subscriber_spec t s sub i toks true Hm Hw (fun _ => Hl) Hs Hi Ht Hf)
    as (c & t1 & E1 & Hw1 & [C1 C2 C3] & Hp1).
  set (p := sym_of <$> toks) in *.
  assert (sub_heap t1 !! s = Some (set_node sub (Some c))) as Hs1
    by (rewrite C2; apply lookup_insert_eq).
  assert (hash_find i (subs_at t1 p) = Some s) as Hf1
    by (rewrite C1, decide_True, hash_find_add, decide_True; done).
  assert (∃ l n, heap t1 !! l = Some n ∧ subs_at t1 p = subs n) as (l & n & Hln & Esub).
  { unfold subs_at, node_subs in Hf1 |- *. destruct (walk _ _ p) as [l|]; [cbn in *|done].
    destruct (heap t1 !! l) as [n|] eqn:E; [by exists l, n|done]. }
  rewrite Esub in Hf1. pose proof (hash_find_Some_elem _ _ _ Hf1) as Hin.
  assert (sub_path (set_node sub (Some c)) = Some p) as Hsp1
    by (rewrite sub_path_set_node; unfold sub_path; by rewrite Ht).
  destruct (filed_at t1 l n i s _ p Hw1 Hln Hin Hs1 Hsp1) as (Hwalk & _ & [= ->]).
  destruct (del_subscriber_spec t1 s (set_node sub (Some l)) l n i true)
    as (q & t2 & Hsp & E2 & Hw2 & _ & [D1 D2 D3] & Hp2); try done; [by rewrite C3|].
  rewrite Hsp1 in Hsp. injection Hsp as <-.
  exists t1, t2. split_and!; [done|done| |done|by auto|].
  - intros q. rewrite D1. rewrite !C1. case_decide as Eq; [|done]. subst q.
    rewrite decide_True by done. by apply hash_del_add.
  - rewrite D2, C2. by rewrite insert_insert_eq.
Qed.

(** An invalid topic is refused with BPSP_INVALID_TOPIC before the lock is asked for;
    the tree stays as it is. *)
Theorem topic__add_subscriber_invalid t s sub i topic (lock : bool) :
  sub_heap t !! s = Some sub → _id sub = Some i →
  subscriber__get_topic sub = Done topic → topic_tokens topic = None →
  topic__add_subscriber t (Some s) lock = Done (BPSP_INVALID_TOPIC, t).
Proof.
  apply add_invalid_spec.
Qed.

(** The lock of the tree is not recursive: a thread that holds it and asks for it again
    would wait for itself.  This is why [client__unsub_all], which holds it, must (and does)
    remove its subscribers without locking. *)
Theorem topic__del_subscriber_deadlock t s sub l n i :
  tree_wf t → rw_lock t ≠ Unlocked →
  sub_heap t !! s = Some sub → node sub = Some l → _id sub = Some i →
  heap t !! l = Some n → hash_find i (subs n) = Some s →
  topic__del_subscriber t s true = Blocked
  ∧ ∃ t', topic__del_subscriber t s false = Done (BPSP_OK, t').
Proof.
  intros Hw Hk Hs Hn Hi Hl Hf. split.
  - pose proof (hash_find_Some_elem _ _ _ Hf) as Hin.
    destruct (tw_subs _ Hw _ _ _ _ Hl Hin) as (sub' & p & E & _ & _ & Hsp & _).
    rewrite Hs in E. injection E as <-. unfold sub_path in Hsp.
    destruct (sub_tokens sub) as [toks|] eqn:Ht; [|done].
    destruct (sub_tokens_topic _ _ Ht) as (topic & Hg & Hnn & Htt).
    pose proof (topic__extract_token_spec topic Hnn) as He. rewrite Htt in He.
    destruct He as (ft & He & Hr & Hne). destruct (token_array toks ft Hr Hne) as (arr & Harr & _).
    unfold topic__del_subscriber, get_sub. rewrite Hs. cbn [deref mbind exec_bind].
    rewrite Hn, Hi, Hg. cbn [mbind exec_bind]. rewrite He. cbn [mbind exec_bind].
    rewrite Harr. cbn [mbind exec_bind]. unfold lock_if, pthread_rwlock_wrlock.
    by rewrite decide_False.
  - destruct (del_subscriber_spec t s sub l n i false) as (p & t' & _ & E & _); try done.
    by exists t'.
Qed.
End Operations.

(** ** Finding *)

Section Finding.
Context `{Malloc}.

(** C30: For a valid topic, [topic__tree_find_subscribers] returns copies of exactly the
    subscribers whose filter matches it, each once, and leaves the tree and its lock as they
    were; for an invalid topic it returns NULL. *)
Theorem topic__tree_find_subscribers_correct t topic (lock : bool) :
  tree_wf t → (lock = true → rw_lock t = Unlocked) → no_nul (chars topic) →
  match topic_tokens topic with
  | None => topic__tree_find_subscribers t (Some topic) lock = Done (None, t)
  | Some toks =>
      ∃ found locs, topic__tree_find_subscribers t (Some topic) lock = Done (Some found, t)
        ∧ Some <$> found = (fun s => sub_heap t !! s) <$> locs ∧ NoDup locs
        ∧ (∀ s, s ∈ locs ↔ ∃ p i, matches p toks ∧ (i, s) ∈ subs_at t p)
  end.
Proof.
  apply find_subscribers_found.
Qed.

(** Subscribe, then publish: a subscriber that was just added is found by a publication
    exactly when its filter matches the topic, level by level: a literal by itself, [+] by
    one level, a final [*] by one level or more. *)
Theorem topic__add_then_find t s sub i ftoks topic toks :
  allocates → tree_wf t → rw_lock t = Unlocked →
  sub_heap t !! s = Some sub → _id sub = Some i → sub_tokens sub = Some ftoks →
  hash_find i (subs_at t (sym_of <$> ftoks)) = None →
  (∀ p j, (j, s) ∉ subs_at t p) →
  no_nul (chars topic) → topic_tokens topic = Some toks →
  ∃ t' found locs, topic__add_subscriber t (Some s) true = Done (BPSP_OK, t')
    ∧ topic__tree_find_subscribers t' (Some topic) true = Done (Some found, t')
    ∧ Some <$> found = (fun s => sub_heap t' !! s) <$> locs
    ∧ (s ∈ locs ↔ matchb (sym_of <$> ftoks) toks = true).
Proof.
  intros Hm Hw Hl Hs Hi Ht Hf Hnew Hn Htt.
  destruct (add_subscriber_spec t s sub i ftoks true Hm Hw (fun _ => Hl) Hs Hi Ht Hf)
    as (c & t' & E & Hw' & [C1 C2 C3] & _).
  assert (true = true → rw_lock t' = Unlocked) as Hl' by (by rewrite C3).
  pose proof (find_subscribers_spec t' topic true Hw' Hl' Hn) as E'. rewrite Htt in E'.
  eexists t', _, (found_locs t' toks). split_and!; [done|done|by apply found_copies|].
  rewrite matchb_spec. unfold found_locs. rewrite list_elem_of_bind. split.
  - intros (p & ([j s'] & E1 & Hin)%list_elem_of_fmap & Hp%elem_of_pats). cbn in E1. subst s'.
    rewrite C1 in Hin. case_decide as Ep; [by subst p|]. by apply Hnew in Hin.
  - intros Hmt. exists (sym_of <$> ftoks). split; [|by apply elem_of_pats].
    apply (list_elem_of_fmap_2 snd _ (i, s)). rewrite C1, decide_True by done.
    apply elem_of_app. right. left.
Qed.

(** ** All trees that the operations produce *)

Inductive tree_step : bpsp__topic_tree → bpsp__topic_tree → Prop :=
  | step_new_sub t s sub :
      sub_heap t !! s = None → node sub = None →
      tree_step t (with_sub_heap t (<[s := sub]> (sub_heap t)))
  | step_add t s sub i t' st :
      sub_heap t !! s = Some sub → _id sub = Some i →
      (∀ p, hash_find i (subs_at t p) = None) →
      topic__add_subscriber t (Some s) true = Done (st, t') → tree_step t t'
  | step_del t s sub l n i t' st :
      sub_heap t !! s = Some sub → node sub = Some l → _id sub = Some i →
      heap t !! l = Some n → hash_find i (subs n) = Some s →
      topic__del_subscriber t s true = Done (st, t') → tree_step t t'
  | step_free_sub t s :
      (∀ p i, (i, s) ∉ subs_at t p) →
      tree_step t (with_sub_heap t (delete s (sub_heap t)))
  | step_find t topic r t' :
      no_nul (chars topic) →
      topic__tree_find_subscribers t (Some topic) true = Done (r, t') → tree_step t t'.

(** Every tree that is reached from the empty one by creating, adding, removing, freeing
    and looking up subscribers is well formed: one parent and one edge per node, every node
    reachable, distinct keys, every subscriber at the path of its topic with a reference to
    its node, no empty node, and the lock free. *)
Theorem reachable_tree_wf t :
  allocates → rtc tree_step (topic__init_tree ∅) t →
  tree_wf t ∧ pruned t ∧ rw_lock t = Unlocked.
Proof.
  intros Hm Hr.
  assert (tree_wf (topic__init_tree ∅) ∧ pruned (topic__init_tree ∅)
          ∧ rw_lock (topic__init_tree ∅) = Unlocked) as H0.
  { split_and!; [apply init_tree_wf| |done].
    intros l n E Hne. cbn [heap topic__init_tree] in E.
    by apply lookup_singleton_Some in E as [<- _]. }
  revert H0. induction Hr as [|t1 t2 t3 Hst _ IH]; [done|]. intros (Hw & Hp & Hl). apply IH.
  destruct Hst as [t s sub Hs Hn|t s sub i t' st Hs Hi Hf E
    |t s sub l n i t' st Hs Hn Hi Hh Hf E|t s Hs|t topic r t' Hn E].
  - split_and!; [by apply new_sub_wf|done|done].
  - by eapply add_subscriber_keeps.
  - destruct (del_subscriber_spec t s sub l n i true Hw (fun _ => Hl) Hs Hn Hi Hh Hf)
      as (p & t1 & _ & E1 & Hw1 & _ & [_ _ C3] & Hp1).
    rewrite E in E1. injection E1 as -> ->. split_and!; [done|auto|by rewrite C3].
  - split_and!; [by apply free_sub_wf|done|done].
  - rewrite (find_subscribers_spec t topic true Hw (fun _ => Hl) Hn) in E.
    by injection E as _ <-.
Qed.
End Finding.

(** ** Instances *)

Lemma sample_tree_pruned : pruned sample_tree.
Proof.
  intros l n E Hne. cbn [heap sample_tree topic__init_tree] in E.
  by apply lookup_singleton_Some in E as [<- _].
Qed.

Lemma sample_tree1_pruned : pruned sample_tree1.
Proof.
  destruct (@add_subscriber_spec malloc_always sample_tree 1 (sample_sub "_0" "home/+")
    "Ab12Cd_0/home/+" ["home"; "+"]%string true) as (c & t' & E & _ & _ & Hp);
    [done|apply init_tree_wf|done..|].
  unfold sample_tree1. rewrite E. apply Hp, sample_tree_pruned.
Qed.

Definition sample_leaf : topic__node :=
  {| subs := [("Ab12Cd_0/home/+"%string, 1%positive)]; sl_node := None; ml_node := None;
     parent := Some 2%positive; nodes := [] |}.

Lemma topic__add_subscriber_correct_witness :
  ∃ t', @topic__add_subscriber malloc_always sample_tree (Some 1%positive) true = Done (BPSP_OK, t')
    ∧ tree_wf t' ∧ pruned t' ∧ rw_lock t' = rw_lock sample_tree
    ∧ (∀ p, subs_at t' p = if decide (p = sym_of <$> ["home"; "+"]%string)
         then subs_at sample_tree p ++ [("Ab12Cd_0/home/+"%string, 1%positive)]
         else subs_at sample_tree p).
Proof.
  apply (@topic__add_subscriber_correct malloc_always sample_tree 1 (sample_sub "_0" "home/+")
    "Ab12Cd_0/home/+" ["home"; "+"]%string true); try done.
  - apply init_tree_wf.
  - apply sample_tree_pruned.
Defined.

Lemma topic__del_subscriber_correct_witness :
  ∃ p t', sub_path (set_node (sample_sub "_0" "home/+") (Some 3%positive)) = Some p
    ∧ topic__del_subscriber sample_tree1 1 true = Done (BPSP_OK, t')
    ∧ tree_wf t' ∧ pruned t' ∧ rw_lock t' = rw_lock sample_tree1
    ∧ sub_heap t' = <[1%positive := set_node (set_node (sample_sub "_0" "home/+")
                                               (Some 3%positive)) None]> (sub_heap sample_tree1)
    ∧ (∀ q, subs_at t' q = if decide (q = p)
         then hash_del "Ab12Cd_0/home/+"%string (subs_at sample_tree1 p)
         else subs_at sample_tree1 q).
Proof.
  apply (topic__del_subscriber_correct sample_tree1 1
    (set_node (sample_sub "_0" "home/+") (Some 3%positive)) 3 sample_leaf "Ab12Cd_0/home/+" true);
    try (by vm_compute).
  - apply sample_tree1_wf.
  - apply sample_tree1_pruned.
Defined.

Lemma topic__add_del_witness :
  ∃ t1 t2, @topic__add_subscriber malloc_always sample_tree1 (Some 2%positive) true
      = Done (BPSP_OK, t1)
    ∧ topic__del_subscriber t1 2 true = Done (BPSP_OK, t2)
    ∧ (∀ p, subs_at t2 p = subs_at sample_tree1 p) ∧ tree_wf t2 ∧ pruned t2
    ∧ sub_heap t2 = <[2%positive := set_node (sample_sub "_0" "home/*") None]> (sub_heap sample_tree1).
Proof.
  apply (@topic__add_del malloc_always sample_tree1 2 (sample_sub "_0" "home/*")
    "Ab12Cd_0/home/*" ["home"; "*"]%string); try (by vm_compute).
  - apply sample_tree1_wf.
  - apply sample_tree1_pruned.
Defined.

Definition bad_tree : bpsp__topic_tree :=
  topic__init_tree {[1%positive := sample_sub "_0" "home/*/x"]}.

Lemma topic__add_subscriber_invalid_witness :
  @topic__add_subscriber malloc_always bad_tree (Some 1%positive) true
  = Done (BPSP_INVALID_TOPIC, bad_tree).
Proof.
  apply (@topic__add_subscriber_invalid malloc_always bad_tree 1 (sample_sub "_0" "home/*/x")
    "Ab12Cd_0/home/*/x" "home/*/x"); by vm_compute.
Defined.

Lemma topic__del_subscriber_deadlock_witness :
  topic__del_subscriber (with_lock sample_tree1 WriteLocked) 1 true = Blocked
  ∧ ∃ t', topic__del_subscriber (with_lock sample_tree1 WriteLocked) 1 false = Done (BPSP_OK, t').
Proof.
  apply (topic__del_subscriber_deadlock (with_lock sample_tree1 WriteLocked) 1
    (set_node (sample_sub "_0" "home/+") (Some 3%positive)) 3 sample_leaf "Ab12Cd_0/home/+");
    try (by vm_compute).
  apply with_lock_wf, sample_tree1_wf.
Defined.

Lemma topic__tree_find_subscribers_correct_witness :
  topic_tokens "home/hall" = Some ["home"; "hall"]%string
  ∧ ∃ found locs, topic__tree_find_subscribers sample_tree1 (Some "home/hall"%string) true
      = Done (Some found, sample_tree1)
    ∧ Some <$> found = (fun s => sub_heap sample_tree1 !! s) <$> locs ∧ NoDup locs
    ∧ (∀ s, s ∈ locs ↔ ∃ p i, matches p ["home"; "hall"]%string ∧ (i, s) ∈ subs_at sample_tree1 p).
Proof.
  split; [done|].
  apply (topic__tree_find_subscribers_correct sample_tree1 "home/hall" true);
    [apply sample_tree1_wf|by vm_compute|apply (bool_decide_unpack _); by vm_compute].
Defined.

Lemma sample_tree_nobody p j s : (j, s) ∉ subs_at sample_tree p.
Proof.
  intros Hin. destruct (subs_at_inv _ _ _ _ Hin) as (l & n & _ & E & Es).
  rewrite Es in Hin. cbn [heap sample_tree topic__init_tree] in E.
  apply lookup_singleton_Some in E as [_ <-]. by apply not_elem_of_nil in Hin.
Qed.

Lemma topic__add_then_find_witness :
  matchb (sym_of <$> ["home"; "*"]%string) ["home"; "hall"; "temp"]%string = true
  ∧ ∃ t' found locs, @topic__add_subscriber malloc_always sample_tree (Some 2%positive) true
      = Done (BPSP_OK, t')
    ∧ topic__tree_find_subscribers t' (Some "home/hall/temp"%string) true = Done (Some found, t')
    ∧ Some <$> found = (fun s => sub_heap t' !! s) <$> locs
    ∧ (2%positive ∈ locs
       ↔ matchb (sym_of <$> ["home"; "*"]%string) ["home"; "hall"; "temp"]%string = true).
Proof.
  split; [done|].
  apply (@topic__add_then_find malloc_always sample_tree 2 (sample_sub "_0" "home/*")
    "Ab12Cd_0/home/*" ["home"; "*"]%string "home/hall/temp" ["home"; "hall"; "temp"]%string);
    try done.
  - apply init_tree_wf.
  - intros p j. apply sample_tree_nobody.
  - apply (bool_decide_unpack _). by vm_compute.
Defined.

Lemma reachable_tree_wf_witness :
  tree_wf (topic__init_tree {[3%positive := sample_sub "_0" "a"]})
  ∧ pruned (topic__init_tree {[3%positive := sample_sub "_0" "a"]})
  ∧ rw_lock (topic__init_tree {[3%positive := sample_sub "_0" "a"]}) = Unlocked.
Proof.
  apply (@reachable_tree_wf malloc_always); [done|].
  apply rtc_once, (@step_new_sub malloc_always (topic__init_tree ∅)); done.
Defined.
