(* ===== verification/TopicService.v ===== *)
(** * What the topic tree promises to the broker

    [TopicService] is the contract between the topic tree and its clients: a table of
    subscriptions by path, and how the operations of [topic.c] change it.  The broker and the
    handlers are verified against it; [TopicService_tree] shows that the tree keeps it. *)
From S2P Require Import Prelude Status Uthash Mem Frame Subscriber Topic TopicTokens.
From S2P Require Import TopicShape TopicSpec TopicFind.

Class TopicService `{Malloc} := {
  ts_ok : bpsp__topic_tree → Prop;
  ts_at : bpsp__topic_tree → list sym → list (string * positive);

  (** The table: distinct ids, every entry for a subscriber that knows its place. *)
  ts_keys t p : ts_ok t → NoDup (ts_at t p).*1;
  ts_entry t p i s :
    ts_ok t → (i, s) ∈ ts_at t p →
    ∃ sub, sub_heap t !! s = Some sub ∧ _id sub = Some i ∧ sub_path sub = Some p
      ∧ is_Some (node sub);
  ts_filed t s sub :
    ts_ok t → sub_heap t !! s = Some sub → is_Some (node sub) →
    ∃ p i, (i, s) ∈ ts_at t p;

  (** Making and freeing subscribers that are not in the table; the lock. *)
  ts_init : ts_ok (topic__init_tree ∅) ∧ ∀ p, ts_at (topic__init_tree ∅) p = [];
  ts_new_sub t s sub :
    ts_ok t → sub_heap t !! s = None → node sub = None →
    ts_ok (put_sub t s sub) ∧ ∀ p, ts_at (put_sub t s sub) p = ts_at t p;
  ts_free_sub t s :
    ts_ok t → (∀ p i, (i, s) ∉ ts_at t p) →
    let t' := with_sub_heap t (delete s (sub_heap t)) in
    ts_ok t' ∧ ∀ p, ts_at t' p = ts_at t p;
  ts_lock t l : ts_ok t → ts_ok (with_lock t l) ∧ ∀ p, ts_at (with_lock t l) p = ts_at t p;

  (** The operations. *)
  ts_add t s sub i toks (lock : bool) :
    allocates → ts_ok t → (lock = true → rw_lock t = Unlocked) →
    sub_heap t !! s = Some sub → node sub = None → _id sub = Some i →
    sub_tokens sub = Some toks → (∀ p, hash_find i (ts_at t p) = None) →
    ∃ c t', topic__add_subscriber t (Some s) lock = Done (BPSP_OK, t') ∧ ts_ok t'
      ∧ (∀ q, ts_at t' q = if decide (q = sym_of <$> toks) then hash_add i s (ts_at t q)
                           else ts_at t q)
      ∧ sub_heap t' = <[s := set_node sub (Some c)]> (sub_heap t) ∧ rw_lock t' = rw_lock t;
  ts_add_invalid t s sub i (lock : bool) :
    sub_heap t !! s = Some sub → _id sub = Some i →
    defined (subscriber__get_topic sub) → sub_tokens sub = None →
    topic__add_subscriber t (Some s) lock = Done (BPSP_INVALID_TOPIC, t);
  ts_del t s sub p i (lock : bool) :
    ts_ok t → (lock = true → rw_lock t = Unlocked) →
    sub_heap t !! s = Some sub → (i, s) ∈ ts_at t p →
    ∃ t', topic__del_subscriber t s lock = Done (BPSP_OK, t') ∧ ts_ok t'
      ∧ (∀ q, ts_at t' q = if decide (q = p) then hash_del i (ts_at t q) else ts_at t q)
      ∧ sub_heap t' = <[s := set_node sub None]> (sub_heap t) ∧ rw_lock t' = rw_lock t;
  ts_del_unfiled t s sub (lock : bool) :
    sub_heap t !! s = Some sub → node sub = None →
    topic__del_subscriber t s lock = Done (BPSP_OK, t);
  ts_find t topic (lock : bool) :
    ts_ok t → (lock = true → rw_lock t = Unlocked) → no_nul (chars topic) →
    match topic_tokens topic with
    | None => topic__tree_find_subscribers t (Some topic) lock = Done (None, t)
    | Some toks =>
        ∃ found locs, topic__tree_find_subscribers t (Some topic) lock = Done (Some found, t)
          ∧ Some <$> found = (fun s => sub_heap t !! s) <$> locs ∧ NoDup locs
          ∧ (∀ s, s ∈ locs ↔ ∃ p i, matches p toks ∧ (i, s) ∈ ts_at t p)
    end;
}.

(** ** The tree *)

(** A subscriber that refers to a node is in the table of that node. *)
Definition nodes_filed (t : bpsp__topic_tree) : Prop :=
  ∀ s sub l, sub_heap t !! s = Some sub → node sub = Some l →
  ∃ p i, (i, s) ∈ subs_at t p.

Record tree_ok (t : bpsp__topic_tree) : Prop := {
  to_wf : tree_wf t;
  to_pruned : pruned t;
  to_filed : nodes_filed t;
}.

Section Tree.
Context `{Malloc}.

Lemma tree_keys t p : tree_wf t → NoDup (subs_at t p).*1.
Proof.
  intros Hw. unfold subs_at, node_subs. destruct (walk _ _ p) as [l|]; [cbn|constructor].
  destruct (heap t !! l) as [n|] eqn:E; [|constructor]. by eapply (sh_keys _ (tw_shape _ Hw)).
Qed.

Lemma tree_entry t p i s :
  tree_wf t → (i, s) ∈ subs_at t p →
  ∃ sub l n, sub_heap t !! s = Some sub ∧ _id sub = Some i ∧ sub_path sub = Some p
    ∧ node sub = Some l ∧ heap t !! l = Some n ∧ subs_at t p = subs n.
Proof.
  intros Hw Hin. destruct (subs_at_inv t p i s Hin) as (l & n & Hp & Hl & E).
  pose proof Hin as Hin'. rewrite E in Hin'.
  destruct (tw_subs _ Hw _ _ _ _ Hl Hin') as (sub & q & Hs & Hi & Hn & Hsp & Hq).
  exists sub, l, n. split_and!; [done..| |done|done|done]. rewrite Hsp. f_equal.
  by apply (walk_inj (heap t) _ _ l); [apply shape_tree_like, Hw|..].
Qed.

(** The entries of another subscriber stay where they are. *)
Lemma table_filed t t' p h s sub :
  nodes_filed t → table_change t t' p h s sub →
  (∀ j s', s' ≠ s → (j, s') ∈ subs_at t p → (j, s') ∈ h) →
  (is_Some (node sub) → ∃ i, (i, s) ∈ h) → nodes_filed t'.
Proof.
  intros Hf [C1 C2 _] Hh Hs s' sub' l' E Hn. rewrite C2 in E.
  apply lookup_insert_Some in E as [[<- <-]|[Hne E]].
  - destruct Hs as [i Hi]; [by eexists|]. exists p, i. rewrite C1. by rewrite decide_True.
  - destruct (Hf s' sub' l' E Hn) as (q & i & Hin). exists q, i. rewrite C1.
    case_decide; [subst|done]. by apply Hh.
Qed.

#[export] Program Instance TopicService_tree : TopicService := {
  ts_ok := tree_ok;
  ts_at := subs_at;
}.
Next Obligation. intros t p [Hw _ _]. by apply tree_keys. Qed.
Next Obligation.
  intros t p i s [Hw _ _] Hin.
  destruct (tree_entry t p i s Hw Hin) as (sub & l & n & ? & ? & ? & Hn & _).
  exists sub. by split_and!; [..|rewrite Hn].
Qed.
Next Obligation. intros t s sub [_ _ Hf] Hs [l Hl]. by eapply Hf. Qed.
Next Obligation.
  split; [split|].
  - apply init_tree_wf.
  - intros l n E Hne. cbn [heap topic__init_tree] in E.
    apply lookup_singleton_Some in E as [<- _]. done.
  - intros s sub l E. cbn in E. by rewrite lookup_empty in E.
  - intros p. unfold subs_at. destruct (walk _ root p) as [l|] eqn:E; [|done].
    unfold node_subs. cbn [mbind option_bind heap topic__init_tree].
    destruct (_ !! l) as [n|] eqn:E'; [|done].
    by apply lookup_singleton_Some in E' as [_ <-].
Qed.
Next Obligation.
  intros t s sub [Hw Hp Hf] Hs Hn. split; [split|]; try done.
  - by apply new_sub_wf.
  - intros s' sub' l E Hl. cbn in E. apply lookup_insert_Some in E as [[<- <-]|[Hne E]].
    + congruence.
    + by eapply Hf.
Qed.
Next Obligation.
  intros t s [Hw Hp Hf] Hs. cbn. split; [split|]; try done.
  - by apply free_sub_wf.
  - intros s' sub' l E Hl. cbn in E. apply lookup_delete_Some in E as [Hne E]. by eapply Hf.
Qed.
Next Obligation. intros t l [Hw Hp Hf]. split; [split|]; try done. by apply with_lock_wf. Qed.
Next Obligation.
  intros t s sub i toks lock Hm [Hw Hp Hf] Hl Hs Hn Hi Ht Hfree.
  destruct (add_subscriber_spec t s sub i toks lock Hm Hw Hl Hs Hi Ht (Hfree _))
    as (c & t' & E & Hw' & Hc & Hp'). pose proof Hc as [C1 C2 C3].
  exists c, t'. split_and!; [done| | |done|done].
  - split; [done|by apply Hp'|]. eapply table_filed; [done|done| |].
    + intros j s' _ Hj. apply elem_of_app. by left.
    + intros _. exists i. apply elem_of_app. right. by apply list_elem_of_singleton.
  - intros q. rewrite C1. case_decide; by subst.
Qed.
Next Obligation.
  intros t s sub i lock Hs Hi [topic Hg] Ht. unfold sub_tokens in Ht. rewrite Hg in Ht.
  by eapply add_invalid_spec.
Qed.
Next Obligation.
  intros t s sub p i lock [Hw Hp Hf] Hl Hs Hin.
  destruct (tree_entry t p i s Hw Hin) as (sub' & l & n & E & Hi & Hsp & Hn & Hln & Es).
  rewrite Hs in E. injection E as <-. pose proof Hin as Hin'. rewrite Es in Hin'.
  pose proof (sh_keys _ (tw_shape _ Hw) _ _ Hln) as [_ Hnd].
  destruct (del_subscriber_spec t s sub l n i lock Hw Hl Hs Hn Hi Hln)
    as (p' & t' & Hp' & E & Hw' & _ & Hc & Hpr); [by apply hash_find_elem|].
  assert (p' = p) as -> by congruence. pose proof Hc as [C1 C2 C3].
  exists t'. split_and!; [done| | |done|done].
  - split; [done|by apply Hpr|]. eapply table_filed; [done|done| |by intros []].
    intros j s' Hne Hj. apply hash_del_elem; [by apply tree_keys|]. split; [done|].
    intros ->. apply Hne. pose proof (tree_keys t p Hw) as Hk.
    apply (hash_find_elem _ _ _ Hk) in Hin, Hj. congruence.
  - intros q. rewrite C1. case_decide; by subst.
Qed.
Next Obligation.
  intros t s sub lock Hs Hn. unfold topic__del_subscriber, get_sub. rewrite Hs. cbn.
  by rewrite Hn.
Qed.
Next Obligation.
  intros t topic lock [Hw _ _] Hl Hn. by apply find_subscribers_found.
Qed.
End Tree.
