(* ===== verification/Transfer.v ===== *)
(** * What a transfer does to the connection, whatever its outcome *)
From S2P Require Import Prelude Status Datatype Uthash Mem Net Frame FrameFacts HeaderCodec.
From S2P Require Import FrameOp FrameRw.
Local Open Scope Z_scope.

Section Transfer.
Context {Sk : Type} `{SocketLaws Sk} `{Malloc}.
Variable big : bool.
Variable now : string.
Local Notation connection := (bpsp__connection Sk).

(** [o] was accepted for the peer. *)
Definition goes_out (conn conn' : connection) (o : bytes) : Prop :=
  ∃ s', conn' = set_sock conn s' ∧ rx s' = rx (sock conn) ∧ tx s' = tx (sock conn) ++ o
    ∧ (writable (sock conn) → writable s').

(** [got] was taken from the stream. *)
Definition comes_in (conn conn' : connection) (got : bytes) : Prop :=
  ∃ s', conn' = set_sock conn s' ∧ rx (sock conn) = got ++ rx s' ∧ tx s' = tx (sock conn)
    ∧ (writable (sock conn) → writable s').

Lemma set_sock_self (conn : connection) : set_sock conn (sock conn) = conn.
Proof. by destruct conn. Qed.

Lemma goes_out_nil conn : goes_out conn conn [].
Proof. exists (sock conn). rewrite set_sock_self, app_nil_r. by split_and!. Qed.

Lemma goes_out_trans c1 c2 c3 o1 o2 :
  goes_out c1 c2 o1 → goes_out c2 c3 o2 → goes_out c1 c3 (o1 ++ o2).
Proof.
  intros (s & -> & R1 & T1 & W1) (s' & -> & R2 & T2 & W2). exists s'. cbn in *.
  rewrite T2, T1, R2, R1, app_assoc. split_and!; auto.
Qed.

Lemma comes_in_nil conn : comes_in conn conn [].
Proof. exists (sock conn). rewrite set_sock_self. by split_and!. Qed.

Lemma comes_in_trans c1 c2 c3 g1 g2 :
  comes_in c1 c2 g1 → comes_in c2 c3 g2 → comes_in c1 c3 (g1 ++ g2).
Proof.
  intros (s & -> & R1 & T1 & W1) (s' & -> & R2 & T2 & W2). exists s'. cbn in *.
  rewrite T2, T1, R1, R2, app_assoc. split_and!; auto.
Qed.

Lemma goes_out_open conn conn' o : goes_out conn conn' o → sockfd conn' = sockfd conn.
Proof. by intros (s & -> & _). Qed.
Lemma comes_in_open conn conn' g : comes_in conn conn' g → sockfd conn' = sockfd conn.
Proof. by intros (s & -> & _). Qed.

(** ** Writing *)

Lemma write_block_goes conn buf size s n conn' :
  0 < sockfd conn → write_block conn buf size = Done (s, n, conn') →
  ∃ o, goes_out conn conn' o.
Proof.
  intros Ho E. unfold write_block in E.
  assert (size ≤ 0 ∨ buf = None → ∃ o, goes_out conn conn' o) as Hnone.
  { intros Hor. exists []. revert E. unfold net__write. destruct (Z.leb_spec size 0).
    - cbn. intros [= _ _ <-]. apply goes_out_nil.
    - destruct Hor as [| ->]; [lia|]. cbn. intros [= _ _ <-]. apply goes_out_nil. }
  destruct (Z.le_gt_cases size 0); [auto|]. destruct buf as [bs|]; [|auto].
  destruct (Z.ltb_spec (Z.of_nat (List.length bs)) size).
  { unfold net__write in E. destruct (Z.leb_spec size 0); [lia|].
    by rewrite (proj2 (Z.ltb_lt _ _)) in E by done. }
  destruct (net__write_spec conn bs size Ho) as (s1 & m & s' & E' & _ & Hr & Ht & _ & Hw); [lia|].
  rewrite E' in E. injection E as <- <- <-. exists (take (Z.to_nat m) bs), s'.
  split_and!; [done|done|done|]. by intros [_ ?]%Hw.
Qed.

Lemma send_var_headers_goes conn f s conn' :
  0 < sockfd conn → send_var_headers conn f = Done (s, conn') → ∃ o, goes_out conn conn' o.
Proof.
  intros Ho. unfold send_var_headers.
  assert (∀ c, c = conn' → conn = c → ∃ o, goes_out conn conn' o) as Hsame
    by (intros c <- <-; exists []; apply goes_out_nil).
  destruct (0 <? vars_size f); [|intros [= _ E]; eauto].
  destruct (mem__malloc _); [|intros [= _ E]; eauto].
  intros E. exec_inv. case_decide; exec_inv; [eauto|].
  by eapply write_block_goes.
Qed.

Lemma frame__send_goes conn f s f' conn' :
  0 < sockfd conn → frame__send big conn f = Done (s, f', conn') →
  (∃ o, goes_out conn conn' o) ∧ (f' = f ∨ ∃ p, f' = set_pos f p).
Proof.
  intros Ho E. unfold frame__send in E. case_decide.
  { injection E as _ <- <-. split; [exists []; apply goes_out_nil|by left]. }
  exec_inv. match goal with Hx : write_block _ _ _ = _ |- _ =>
    apply write_block_goes in Hx as [o1 G1]; [|done] end.
  pose proof (goes_out_open _ _ _ G1) as Ho1.
  case_decide; [exec_inv; split; eauto|]. exec_inv.
  match goal with Hx : send_var_headers _ _ = _ |- _ =>
    apply send_var_headers_goes in Hx as [o2 G2]; [|lia] end.
  pose proof (goes_out_trans _ _ _ _ _ G1 G2) as G12.
  pose proof (goes_out_open _ _ _ G12) as Ho2.
  case_decide; [exec_inv; split; eauto|].
  case_match; [|exec_inv; split; eauto]. exec_inv.
  match goal with Hx : write_block _ _ _ = _ |- _ =>
    apply write_block_goes in Hx as [o3 G3]; [|lia] end.
  split; [exists ((o1 ++ o2) ++ o3); by eapply goes_out_trans|eauto].
Qed.

(** ** Reading *)

Lemma net__read_comes conn size s n buf conn' :
  0 < sockfd conn → net__read conn size true = Done (s, n, buf, conn') →
  ∃ got, comes_in conn conn' got ∧ (s = BPSP_OK → 0 ≤ size → Z.of_nat (List.length got) = size).
Proof.
  intros Ho E. destruct (Z.le_gt_cases size 0).
  - unfold net__read in E. rewrite (proj2 (Z.leb_le _ _)) in E by done.
    injection E as _ _ _ <-. exists []. split; [apply comes_in_nil|cbn; lia].
  - destruct (net__read_spec conn size Ho) as (s1 & got & s' & E' & Hr & Ht & Hw & Hd); [lia|].
    rewrite E' in E. injection E as <- <- <- <-. exists got. split; [by exists s'|].
    intros -> _. destruct Hd as [[_ ?]|[[?|?] _]]; [done|done..].
Qed.

Lemma recv_var_headers_comes conn f size s f' conn' :
  0 < sockfd conn → recv_var_headers conn f size = Done (s, f', conn') →
  ∃ got, comes_in conn conn' got.
Proof.
  intros Ho. unfold recv_var_headers. destruct (mem__malloc size).
  - intros E. exec_inv. match goal with Hx : net__read _ _ _ = _ |- _ =>
      apply net__read_comes in Hx as (g & Hg & _); [|done] end.
    case_decide; exec_inv; eauto.
  - intros E. exec_inv. exists []. apply comes_in_nil.
Qed.

Lemma recv_payload_comes conn f size s f' conn' :
  0 < sockfd conn → recv_payload conn f size = Done (s, f', conn') →
  ∃ got, comes_in conn conn' got.
Proof.
  intros Ho. unfold recv_payload. destruct (0 <? size); intros E; exec_inv.
  - match goal with Hx : net__read _ _ _ = _ |- _ =>
      apply net__read_comes in Hx as (g & Hg & _); [|done] end. eauto.
  - exists []. apply comes_in_nil.
Qed.

(** A frame that is received has a fixed header of eight bytes, at least. *)
Lemma frame__recv_comes conn f s f' conn' :
  0 < sockfd conn → frame__recv big now conn f = Done (s, f', conn') →
  ∃ got, comes_in conn conn' got ∧ (s = BPSP_OK → 8 ≤ Z.of_nat (List.length got)).
Proof.
  intros Ho E. unfold frame__recv in E. cbn [frame__empty mbind exec_bind] in E.
  case_decide; [done|]. exec_inv.
  match goal with Hx : net__read _ _ _ = _ |- _ =>
    apply net__read_comes in Hx as (g1 & G1 & L1); [|done] end.
  pose proof (comes_in_open _ _ _ G1) as Ho1.
  case_decide as Hs1; [exec_inv; exists g1; split; [done|by intros ->]|].
  specialize (L1 Hs1 ltac:(done)).
  assert (8 ≤ Z.of_nat (List.length g1)) as L8 by (unfold FIXED_HEADER_SIZE in *; lia).
  assert (∀ c g, comes_in conn c g → c = conn' → 8 ≤ Z.of_nat (List.length g) →
    ∃ got, comes_in conn conn' got ∧ (s = BPSP_OK → 8 ≤ Z.of_nat (List.length got))) as Hend
    by (intros c g ? <- ?; by exists g).
  exec_inv. case_decide; [exec_inv; apply (Hend _ _ G1); [done|lia]|]. exec_inv.
  match goal with Hx : recv_var_headers _ _ _ = _ |- _ =>
    apply recv_var_headers_comes in Hx as [g2 G2]; [|lia] end.
  pose proof (comes_in_trans _ _ _ _ _ G1 G2) as G12.
  pose proof (comes_in_open _ _ _ G12) as Ho2.
  assert (8 ≤ Z.of_nat (List.length (g1 ++ g2))) as L2 by (rewrite length_app; lia).
  case_decide; [exec_inv; by apply (Hend _ _ G12)|]. exec_inv.
  case_decide; [exec_inv; by apply (Hend _ _ G12)|]. exec_inv.
  match goal with Hx : recv_payload _ _ _ = _ |- _ =>
    apply recv_payload_comes in Hx as [g3 G3]; [|lia] end.
  pose proof (comes_in_trans _ _ _ _ _ G12 G3) as G123.
  assert (8 ≤ Z.of_nat (List.length ((g1 ++ g2) ++ g3))) as L3
    by (rewrite length_app; lia).
  case_decide; exec_inv; by apply (Hend _ _ G123).
Qed.
End Transfer.
