(* ===== verification/PubHeaders.v ===== *)
(** * Headers that are set again and again

    The frame that is delivered is one object: for each subscriber its four headers are set
    anew.  [set_slots] shows that the result does not depend on the subscribers before, and
    [slack] that it stays within the size of the original and one allowance per header. *)
From S2P Require Import Prelude Status Uthash Mem Frame FrameFacts.
Local Open Scope Z_scope.

Notation hdrs := (list (string * header_value)) (only parsing).

(** ** Sizes *)

Definition drop_keys (ks : list string) (h : hdrs) : hdrs := filter (fun e => e.1 ∉ ks) h.

(** What the header [k] adds to the size. *)
Definition part (k : string) (h : hdrs) : Z :=
  match hash_find k h with Some w => header_size (k, w) | None => 0 end.

Lemma drop_keys_nodup ks h : NoDup h.*1 → NoDup (drop_keys ks h).*1.
Proof. intros Hd. apply (sublist_NoDup _ h.*1); [done|]. apply fmap_sublist, sublist_filter. Qed.

Lemma drop_keys_cons k ks h : drop_keys (k :: ks) h = filter (fun e => e.1 ≠ k) (drop_keys ks h).
Proof.
  unfold drop_keys. induction h as [|e h IH]; [done|]. rewrite !filter_cons, IH.
  destruct (decide (e.1 ∉ ks)).
  - rewrite filter_cons. do 2 case_decide; set_solver.
  - rewrite decide_False; [done|]. set_solver.
Qed.

Lemma drop_keys_find ks k h : k ∉ ks → hash_find k (drop_keys ks h) = hash_find k h.
Proof.
  intros Hk. unfold drop_keys. induction h as [|[k0 v0] h IH]; [done|].
  rewrite filter_cons. cbn. case_decide; cbn; rewrite IH; [done|].
  destruct (hash_find k h); [done|]. rewrite decide_False by set_solver. done.
Qed.

Lemma size_filter k h :
  NoDup h.*1 → headers_size h = headers_size (filter (fun e => e.1 ≠ k) h) + part k h.
Proof.
  unfold part. induction h as [|[k0 v0] h IH]; [done|].
  intros [Hn Hd]%NoDup_cons. rewrite filter_cons. cbn [fst headers_size hash_find].
  specialize (IH Hd). destruct (decide (k0 = k)) as [->|].
  - rewrite decide_False by auto. apply hash_find_None in Hn. cbn in Hn.
    rewrite Hn in *. lia.
  - rewrite decide_True by done. cbn [headers_size]. destruct (hash_find k h); lia.
Qed.

Definition parts (ks : list string) (h : hdrs) : Z := foldr (fun k z => part k h + z) 0 ks.

Lemma size_parts ks h :
  NoDup ks → NoDup h.*1 → headers_size h = headers_size (drop_keys ks h) + parts ks h.
Proof.
  induction ks as [|k ks IH]; intros Hks Hd.
  - unfold drop_keys. rewrite list_filter_all; [cbn; lia|]. intros. apply not_elem_of_nil.
  - change (parts (k :: ks) h) with (part k h + parts ks h). apply NoDup_cons in Hks as [Hk Hks]. rewrite (IH Hks Hd), drop_keys_cons.
    rewrite (size_filter k (drop_keys ks h)) by (by apply drop_keys_nodup).
    unfold part at 1. rewrite drop_keys_find by done. fold (part k h). lia.
Qed.

(** ** Setting a header *)

Lemma headers_after_keys h k v :
  (headers_after h k v).*1 = if decide (k ∈ h.*1) then h.*1 else h.*1 ++ [k].
Proof.
  unfold headers_after. destruct (hash_find k h) eqn:E.
  - rewrite hash_set_keys, decide_True; [done|]. by eapply hash_find_Some_key.
  - rewrite hash_add_keys, decide_False; [done|]. by apply hash_find_None.
Qed.

Lemma headers_after_nodup h k v : NoDup h.*1 → NoDup (headers_after h k v).*1.
Proof.
  intros Hd. rewrite headers_after_keys. case_decide; [done|]. apply NoDup_app.
  split_and!; [done|by intros x Hx ->%list_elem_of_singleton|apply NoDup_singleton].
Qed.

Lemma drop_keys_set ks h k v :
  k ∈ ks → NoDup h.*1 → drop_keys ks (headers_after h k v) = drop_keys ks h.
Proof.
  intros Hk Hd. unfold headers_after. destruct (hash_find k h) as [w|] eqn:E.
  - destruct (hash_set_split k (Str v) w h Hd E) as (h1 & h2 & -> & ->).
    unfold drop_keys. rewrite !filter_app, !filter_cons. cbn. by rewrite !decide_False by auto.
  - unfold drop_keys, hash_add. rewrite filter_app, filter_cons. cbn.
    rewrite decide_False by auto. by rewrite app_nil_r.
Qed.

Lemma part_set h k v k' :
  part k' (headers_after h k v) =
    if decide (k = k')
    then u16 (strlen k) + u16 (strlen v) + 5
    else part k' h.
Proof.
  unfold part. rewrite headers_after_find. destruct (decide (k = k')) as [->|]; [|done].
  unfold header_size. cbn. destruct (Z.eqb_spec (strlen v) 0) as [Hv|]; cbn; [|done].
  case_bool_decide; cbn; rewrite ?Hv; done.
Qed.

(** ** Slack *)

(** [h] is [h0] with some of the headers of [K] set; a header [k] takes at most [a] bytes
    more than before. *)
Record slack (K : list (string * Z)) (h0 h : hdrs) : Prop := {
  sl_nodup : NoDup h.*1;
  sl_rest : drop_keys K.*1 h = drop_keys K.*1 h0;
  sl_part k a : (k, a) ∈ K → part k h ≤ part k h0 + a;
}.

Definition allowance (K : list (string * Z)) : Z := foldr (fun e z => e.2 + z) 0 K.

Lemma slack_refl K h0 : NoDup h0.*1 → (∀ k a, (k, a) ∈ K → 0 ≤ a) → slack K h0 h0.
Proof. intros Hd Ha. split; [done|done|]. intros k a Hk%Ha. lia. Qed.

Lemma slack_size K h0 h :
  NoDup K.*1 → NoDup h0.*1 → slack K h0 h → headers_size h ≤ headers_size h0 + allowance K.
Proof.
  intros HK Hd0 [Hd Hr Hp].
  rewrite (size_parts K.*1 h), (size_parts K.*1 h0), Hr by done.
  assert (parts K.*1 h ≤ parts K.*1 h0 + allowance K); [|lia].
  clear -Hp. induction K as [|[k a] K IH]; [cbn; lia|].
  change (parts ((k, a) :: K).*1 h) with (part k h + parts K.*1 h).
  change (parts ((k, a) :: K).*1 h0) with (part k h0 + parts K.*1 h0).
  change (allowance ((k, a) :: K)) with (a + allowance K).
  specialize (IH (fun k' a' Hin => Hp k' a' (list_elem_of_further _ _ _ Hin))).
  specialize (Hp k a (list_elem_of_here _ _)). lia.
Qed.

Lemma part_nonneg k h : 0 ≤ part k h.
Proof.
  unfold part. destruct (hash_find k h) as [w|]; [|lia].
  pose proof (header_size_bounds (k, w)). lia.
Qed.

Lemma slack_set K h0 h k v a :
  NoDup K.*1 → (k, a) ∈ K → strlen k + strlen v + 5 ≤ a → slack K h0 h →
  slack K h0 (headers_after h k v).
Proof.
  intros HK Hk Ha [Hd Hr Hp]. split.
  - by apply headers_after_nodup.
  - rewrite drop_keys_set; [done| |done]. by apply (list_elem_of_fmap_2 fst _ (k, a)).
  - intros k' a' Hk'. rewrite part_set. destruct (decide (k = k')) as [<-|]; [|by apply Hp].
    assert (a' = a) as ->.
    { apply (hash_find_elem _ _ _ HK) in Hk, Hk'. congruence. }
    pose proof (part_nonneg k h0). pose proof (strlen_nonneg k). pose proof (strlen_nonneg v).
    assert (∀ z, 0 ≤ z → u16 z ≤ z) as Hu by (intros; apply Z.mod_le; lia).
    pose proof (Hu (strlen k)). pose proof (Hu (strlen v)). lia.
Qed.

(** ** Equal tables *)

Lemma hash_ext (h h' : hdrs) :
  NoDup h.*1 → h.*1 = h'.*1 → (∀ k, hash_find k h = hash_find k h') → h = h'.
Proof.
  revert h'. induction h as [|[k v] h IH]; intros [|[k' v'] h'] Hd Hk Hf; try done.
  cbn in Hk. injection Hk as <- Hk. pose proof Hd as Hd0. cbn in Hd.
  apply NoDup_cons in Hd as [Hn Hd]. pose proof Hn as Hn'. rewrite Hk in Hn'.
  apply hash_find_None in Hn, Hn'.
  pose proof (Hf k) as Hfk. cbn in Hfk. rewrite Hn, Hn' in Hfk.
  rewrite !decide_True in Hfk by done. injection Hfk as <-. f_equal. apply IH; [done|done|].
  intros k0. specialize (Hf k0). cbn in Hf. destruct (decide (k = k0)) as [<-|Hne].
  - by rewrite Hn, Hn'.
  - destruct (hash_find k0 h), (hash_find k0 h'); done.
Qed.

(** Headers set one after the other. *)
Definition set_slots (h : hdrs) (l : list (string * string)) : hdrs :=
  foldl (fun h e => headers_after h e.1 e.2) h l.

Lemma set_slots_nodup l h : NoDup h.*1 → NoDup (set_slots h l).*1.
Proof.
  revert h. induction l as [|[k v] l IH]; intros h Hd; [done|].
  by apply IH, headers_after_nodup.
Qed.

Lemma set_slots_keys l h k : k ∈ (set_slots h l).*1 ↔ k ∈ h.*1 ∨ k ∈ l.*1.
Proof.
  revert h. induction l as [|[k' v] l IH]; intros h; cbn; [set_solver|].
  unfold set_slots in *. cbn. rewrite IH, headers_after_keys. case_decide; set_solver.
Qed.

(** Keys that are there already: none is added. *)
Lemma set_slots_keys_same l h : (∀ k, k ∈ l.*1 → k ∈ h.*1) → (set_slots h l).*1 = h.*1.
Proof.
  revert h. induction l as [|[k v] l IH]; intros h Hk; [done|].
  assert ((headers_after h k v).*1 = h.*1) as E.
  { rewrite headers_after_keys, decide_True; [done|]. apply Hk. left. }
  unfold set_slots in *. cbn. rewrite IH; [done|]. rewrite E. intros k' Hk'. apply Hk. by right.
Qed.

Lemma set_slots_key_list l l' h : l.*1 = l'.*1 → (set_slots h l).*1 = (set_slots h l').*1.
Proof.
  assert (∀ h h', h.*1 = h'.*1 → ∀ l l' : list (string * string), l.*1 = l'.*1 →
    (set_slots h l).*1 = (set_slots h' l').*1) as Hgen.
  { intros h1 h2 E l1. revert h1 h2 E.
    induction l1 as [|[k v] l1 IH]; intros h1 h2 E [|[k' v'] l2] El; try done.
    cbn in El. injection El as <- El.
    apply (IH (headers_after h1 k v) (headers_after h2 k v')); [|exact El].
    by rewrite !headers_after_keys, E. }
  by apply Hgen.
Qed.

Lemma set_slots_find l h k :
  NoDup l.*1 → Forall (fun e => strlen e.2 ≠ 0) l →
  hash_find k (set_slots h l) =
    match hash_find k l with Some v => Some (Str v) | None => hash_find k h end.
Proof.
  revert h. induction l as [|[k' v] l IH]; intros h Hd Hv; [done|].
  cbn in Hd. apply NoDup_cons in Hd as [Hn Hd]. apply Forall_cons in Hv as [Hv0 Hv]. cbn in Hv0.
  unfold set_slots in *. cbn. rewrite IH by done.
  apply hash_find_None in Hn. destruct (hash_find k l) eqn:E; [done|].
  rewrite headers_after_find. case_decide; [|done].
  by rewrite (proj2 (Z.eqb_neq _ 0) Hv0).
Qed.

(** Setting the same headers again: only the last values count. *)
Lemma set_slots_again h l l' :
  NoDup h.*1 → l.*1 = l'.*1 → NoDup l.*1 →
  Forall (fun e => strlen e.2 ≠ 0) l → Forall (fun e => strlen e.2 ≠ 0) l' →
  set_slots (set_slots h l) l' = set_slots h l'.
Proof.
  intros Hd El Hl Hv Hv'. pose proof Hl as Hl'. rewrite El in Hl'.
  assert (∀ k, k ∈ l'.*1 → k ∈ (set_slots h l).*1) as Hin
    by (intros k Hk; apply set_slots_keys; right; by rewrite El).
  apply hash_ext.
  - by do 2 apply set_slots_nodup.
  - rewrite set_slots_keys_same by done. by apply set_slots_key_list.
  - intros k. rewrite !set_slots_find by done.
    destruct (hash_find k l') eqn:E'; [done|].
    destruct (hash_find k l) eqn:E; [|done]. exfalso. apply hash_find_None in E'.
    apply E'. rewrite <- El. by eapply hash_find_Some_key.
Qed.

Lemma set_slots_all_str h l :
  all_str h → Forall (fun e => strlen e.2 ≠ 0) l → all_str (set_slots h l).
Proof.
  revert h. induction l as [|[k v] l IH]; intros h Ha Hv; [done|].
  apply Forall_cons in Hv as [Hv0 Hv]. apply IH; [|done]. by apply headers_after_all_str.
Qed.
