(* ===== verification/Broker.v ===== *)
(** * broker.h, client.h: the broker, its clients, and what they share

    One [bpsp__broker] holds the whole state of the server: the table of clients, the client
    objects by address, the topic tree with its subscribers, the locks.  A function of the C
    code that receives a pointer to a client receives its address here.  Freed addresses are
    not used again, so that a dangling pointer shows as [Undef].  The locks are as the calling
    thread sees them: asking for one that it already holds is [Blocked]. *)
From S2P Require Import Prelude Status Uthash Mem Net Frame Subscriber Topic.
Local Open Scope Z_scope.

Definition sizeof_bpsp__client : Z := 256.

(** [c_broker]: the reference to the broker is not NULL. *)
Record bpsp__client {Sk : Type} := {
  c_id : string;
  c_broker : bool;
  c_subs : list (string * positive);    (* subscriber__hash: identifier and subscriber *)
  c_conn : option (bpsp__connection Sk);
  c_is_close : bool;
  c_mutex : bool;
  c_rw_lock : rwlock;
  in_frame : bpsp__frame;
  out_frame : bpsp__frame;
}.
Arguments bpsp__client : clear implicits.

(** [rand_pos] counts the calls of [rand] so far. *)
Record bpsp__broker {Sk : Type} := {
  info_name : string;
  info_version : string;
  listener : option (bpsp__connection Sk);
  b_is_close : bool;
  b_mutex : bool;
  cli_rw_lock : rwlock;
  clients : list (string * positive);
  topic_tree : bpsp__topic_tree;
  client_heap : gmap positive (bpsp__client Sk);
  next_client : positive;
  next_sub : positive;
  rand_pos : nat;
}.
Arguments bpsp__broker : clear implicits.

Section Broker.
Context {Sk : Type} `{Malloc}.
Local Notation client_t := (bpsp__client Sk).
Local Notation broker_t := (bpsp__broker Sk).

(** ** Fields of a client *)

Definition set_c_subs (c : client_t) h : client_t :=
  {| c_id := c_id c; c_broker := c_broker c; c_subs := h; c_conn := c_conn c;
     c_is_close := c_is_close c; c_mutex := c_mutex c; c_rw_lock := c_rw_lock c;
     in_frame := in_frame c; out_frame := out_frame c |}.
Definition set_c_conn (c : client_t) n : client_t :=
  {| c_id := c_id c; c_broker := c_broker c; c_subs := c_subs c; c_conn := n;
     c_is_close := c_is_close c; c_mutex := c_mutex c; c_rw_lock := c_rw_lock c;
     in_frame := in_frame c; out_frame := out_frame c |}.
Definition set_c_is_close (c : client_t) x : client_t :=
  {| c_id := c_id c; c_broker := c_broker c; c_subs := c_subs c; c_conn := c_conn c;
     c_is_close := x; c_mutex := c_mutex c; c_rw_lock := c_rw_lock c;
     in_frame := in_frame c; out_frame := out_frame c |}.
Definition set_c_mutex (c : client_t) m : client_t :=
  {| c_id := c_id c; c_broker := c_broker c; c_subs := c_subs c; c_conn := c_conn c;
     c_is_close := c_is_close c; c_mutex := m; c_rw_lock := c_rw_lock c;
     in_frame := in_frame c; out_frame := out_frame c |}.
Definition set_c_rw_lock (c : client_t) l : client_t :=
  {| c_id := c_id c; c_broker := c_broker c; c_subs := c_subs c; c_conn := c_conn c;
     c_is_close := c_is_close c; c_mutex := c_mutex c; c_rw_lock := l;
     in_frame := in_frame c; out_frame := out_frame c |}.
Definition set_in_frame (c : client_t) f : client_t :=
  {| c_id := c_id c; c_broker := c_broker c; c_subs := c_subs c; c_conn := c_conn c;
     c_is_close := c_is_close c; c_mutex := c_mutex c; c_rw_lock := c_rw_lock c;
     in_frame := f; out_frame := out_frame c |}.
Definition set_out_frame (c : client_t) f : client_t :=
  {| c_id := c_id c; c_broker := c_broker c; c_subs := c_subs c; c_conn := c_conn c;
     c_is_close := c_is_close c; c_mutex := c_mutex c; c_rw_lock := c_rw_lock c;
     in_frame := in_frame c; out_frame := f |}.

(** ** Fields of the broker *)

Definition with_clients (b : broker_t) h : broker_t :=
  {| info_name := info_name b; info_version := info_version b; listener := listener b;
     b_is_close := b_is_close b; b_mutex := b_mutex b; cli_rw_lock := cli_rw_lock b;
     clients := h; topic_tree := topic_tree b; client_heap := client_heap b;
     next_client := next_client b; next_sub := next_sub b; rand_pos := rand_pos b |}.
Definition with_tree (b : broker_t) t : broker_t :=
  {| info_name := info_name b; info_version := info_version b; listener := listener b;
     b_is_close := b_is_close b; b_mutex := b_mutex b; cli_rw_lock := cli_rw_lock b;
     clients := clients b; topic_tree := t; client_heap := client_heap b;
     next_client := next_client b; next_sub := next_sub b; rand_pos := rand_pos b |}.
Definition with_client_heap (b : broker_t) h : broker_t :=
  {| info_name := info_name b; info_version := info_version b; listener := listener b;
     b_is_close := b_is_close b; b_mutex := b_mutex b; cli_rw_lock := cli_rw_lock b;
     clients := clients b; topic_tree := topic_tree b; client_heap := h;
     next_client := next_client b; next_sub := next_sub b; rand_pos := rand_pos b |}.
Definition with_next_client (b : broker_t) n : broker_t :=
  {| info_name := info_name b; info_version := info_version b; listener := listener b;
     b_is_close := b_is_close b; b_mutex := b_mutex b; cli_rw_lock := cli_rw_lock b;
     clients := clients b; topic_tree := topic_tree b; client_heap := client_heap b;
     next_client := n; next_sub := next_sub b; rand_pos := rand_pos b |}.
Definition with_next_sub (b : broker_t) n : broker_t :=
  {| info_name := info_name b; info_version := info_version b; listener := listener b;
     b_is_close := b_is_close b; b_mutex := b_mutex b; cli_rw_lock := cli_rw_lock b;
     clients := clients b; topic_tree := topic_tree b; client_heap := client_heap b;
     next_client := next_client b; next_sub := n; rand_pos := rand_pos b |}.
Definition with_rand_pos (b : broker_t) n : broker_t :=
  {| info_name := info_name b; info_version := info_version b; listener := listener b;
     b_is_close := b_is_close b; b_mutex := b_mutex b; cli_rw_lock := cli_rw_lock b;
     clients := clients b; topic_tree := topic_tree b; client_heap := client_heap b;
     next_client := next_client b; next_sub := next_sub b; rand_pos := n |}.
Definition with_cli_rw_lock (b : broker_t) l : broker_t :=
  {| info_name := info_name b; info_version := info_version b; listener := listener b;
     b_is_close := b_is_close b; b_mutex := b_mutex b; cli_rw_lock := l;
     clients := clients b; topic_tree := topic_tree b; client_heap := client_heap b;
     next_client := next_client b; next_sub := next_sub b; rand_pos := rand_pos b |}.
Definition with_b_mutex (b : broker_t) m : broker_t :=
  {| info_name := info_name b; info_version := info_version b; listener := listener b;
     b_is_close := b_is_close b; b_mutex := m; cli_rw_lock := cli_rw_lock b;
     clients := clients b; topic_tree := topic_tree b; client_heap := client_heap b;
     next_client := next_client b; next_sub := next_sub b; rand_pos := rand_pos b |}.
Definition with_listener (b : broker_t) n closed : broker_t :=
  {| info_name := info_name b; info_version := info_version b; listener := n;
     b_is_close := closed; b_mutex := b_mutex b; cli_rw_lock := cli_rw_lock b;
     clients := clients b; topic_tree := topic_tree b; client_heap := client_heap b;
     next_client := next_client b; next_sub := next_sub b; rand_pos := rand_pos b |}.

(** ** Objects by address *)

Definition get_client (b : broker_t) (c : positive) : exec client_t :=
  deref (client_heap b !! c).
Definition put_client (b : broker_t) (c : positive) (x : client_t) : broker_t :=
  with_client_heap b (<[c := x]> (client_heap b)).

(** A new object for a subscriber. *)
Definition new_sub_at (b : broker_t) (s : bpsp__subscriber) : positive * broker_t :=
  let l := next_sub b in (l, with_next_sub (with_tree b (put_sub (topic_tree b) l s)) (Pos.succ l)).

(** Freeing twice, or an address that was never given out, is undefined. *)
Definition subscriber__free (b : broker_t) (s : positive) : exec broker_t :=
  h ← mem__free (sub_heap (topic_tree b)) s;
  mret (with_tree b (with_sub_heap (topic_tree b) h)).

(** ** Locks *)

Definition wr_acquire (l : rwlock) : exec rwlock :=
  if decide (l = Unlocked) then Done WriteLocked else Blocked.
Definition rd_acquire (l : rwlock) : exec rwlock :=
  if decide (l = Unlocked) then Done ReadLocked else Blocked.

Definition mutex_lock_if (lock : bool) (b : broker_t) (c : positive) : exec broker_t :=
  if lock then
    x ← get_client b c;
    if c_mutex x then Blocked else Done (put_client b c (set_c_mutex x true))
  else Done b.
Definition mutex_unlock_if (lock : bool) (b : broker_t) (c : positive) : exec broker_t :=
  if lock then x ← get_client b c; mret (put_client b c (set_c_mutex x false)) else Done b.

Definition cli_rdlock (b : broker_t) : exec broker_t :=
  l ← rd_acquire (cli_rw_lock b); mret (with_cli_rw_lock b l).
Definition cli_wrlock (b : broker_t) : exec broker_t :=
  l ← wr_acquire (cli_rw_lock b); mret (with_cli_rw_lock b l).
Definition cli_unlock (b : broker_t) : broker_t := with_cli_rw_lock b Unlocked.

(** ** The topic tree of the broker *)

Definition broker__add_sub (b : broker_t) (sub : option positive) (lock : bool)
  : exec (status__err * broker_t) :=
  '(s, t) ← topic__add_subscriber (topic_tree b) sub lock; mret (s, with_tree b t).

Definition broker__del_sub (b : broker_t) (sub : positive) (lock : bool)
  : exec (status__err * broker_t) :=
  '(s, t) ← topic__del_subscriber (topic_tree b) sub lock; mret (s, with_tree b t).

Definition broker__find_subs (b : broker_t) (topic : cstr) (lock : bool)
  : exec (option (list bpsp__subscriber) * broker_t) :=
  '(subs, t) ← topic__tree_find_subscribers (topic_tree b) topic lock;
  mret (subs, with_tree b t).
End Broker.
