(* ===== verification/Client.v ===== *)
(** * client.c: clients and their subscriptions

    The functions of [client.c] that work on a client, in the order of the file.  A pointer
    argument that the code tests for NULL is an [option]. *)
From S2P Require Import Prelude Status Uthash Mem Net Frame FrameOp FrameRw Subscriber Topic.
From S2P Require Import Broker.
Local Open Scope Z_scope.

(** ** util.c: random identifiers *)

Definition charset : bytes :=
  chars "abcdefghijklmnopqrstuvwxyzABCDEFGHIJKLMNOPQRSTUVWXYZ0123456789".

(** The next [n] characters; [rand k] is the [k]-th number that the C library hands out. *)
Fixpoint rand_chars (rand : nat → Z) (pos n : nat) : bytes :=
  match n with
  | O => []
  | S n => nth (Z.to_nat (rand pos mod 62)) charset NUL :: rand_chars rand (S pos) n
  end.

(** The string and the number of calls of [rand]. *)
Definition rand_str (rand : nat → Z) (pos size : nat) : string * nat :=
  (str (rand_chars rand pos (size - 1)), (pos + (size - 1))%nat).

Definition BPSP_CLIENT_ID_LEN : nat := 6.

Section Client.
Context {Sk : Type} `{Socket Sk} `{Malloc}.
Variable big : bool.
Variable now : string.
Variable rand : nat → Z.
Local Notation client_t := (bpsp__client Sk).
Local Notation broker_t := (bpsp__broker Sk).
Local Notation connection := (bpsp__connection Sk).

(** ** Creation *)

(** [assert] stops the process when there is no memory for the frames. *)
Definition client__init (b : broker_t) : exec (client_t * broker_t) :=
  let '(i, pos) := rand_str rand (rand_pos b) BPSP_CLIENT_ID_LEN in
  f_in ← deref frame__new;
  f_out ← deref frame__new;
  mret ({| c_id := i; c_broker := false; c_subs := []; c_conn := None; c_is_close := false;
           c_mutex := false; c_rw_lock := Unlocked; in_frame := f_in; out_frame := f_out |},
        with_rand_pos b pos).

(** [conn] and [broker] are stored as they are. *)
Definition client__new (b : broker_t) (conn : option connection) (has_broker : bool)
  : exec (option positive * broker_t) :=
  if malloc_ok sizeof_bpsp__client then
    '(x, b) ← client__init b;
    let x := {| c_id := c_id x; c_broker := has_broker; c_subs := c_subs x; c_conn := conn;
                c_is_close := c_is_close x; c_mutex := c_mutex x; c_rw_lock := c_rw_lock x;
                in_frame := in_frame x; out_frame := out_frame x |} in
    let c := next_client b in
    mret (Some c, with_next_client (put_client b c x) (Pos.succ c))
  else mret (None, b).

(** The elements of the table are copied one by one, for the same subscribers. *)
Fixpoint copy_subs_table (dst : list (string * positive)) (h : list (string * positive))
  : exec (list (string * positive)) :=
  match h with
  | [] => Done dst
  | (k, s) :: h =>
      e ← deref (subscriber__new_hash_elt (Some k) (Some s));
      copy_subs_table (hash_add e.1 e.2 dst) h
  end.

Definition client__copy (dst src : client_t) : exec client_t :=
  h ← copy_subs_table (c_subs dst) (c_subs src);
  let dst := set_c_subs dst h in
  mret (match c_conn src with
        | Some conn => set_c_conn dst (Some conn)
        | None => dst
        end).

(** ** Ending all subscriptions *)

Fixpoint unsub_all_loop (b : broker_t) (c : positive) (h : list (string * positive))
  : exec broker_t :=
  match h with
  | [] => Done b
  | (k, s) :: h =>
      x ← get_client b c;
      let b := put_client b c (set_c_subs x (hash_del k (c_subs x))) in
      '(_, b) ← broker__del_sub b s false;
      b ← subscriber__free b s;
      unsub_all_loop b c h
  end.

Definition tree_wrlock_if (lock : bool) (b : broker_t) : exec broker_t :=
  t ← lock_if lock pthread_rwlock_wrlock (topic_tree b); mret (with_tree b t).
Definition tree_unlock_if (lock : bool) (b : broker_t) : broker_t :=
  with_tree b (unlock_if lock (topic_tree b)).

Definition client__unsub_all (b : broker_t) (c : option positive) (lock : bool)
  : exec broker_t :=
  match c with
  | None => Done b
  | Some c =>
      x ← get_client b c;
      if (hash_count (c_subs x) =? 0)%nat || negb (c_broker x) then Done b else
      b ← mutex_lock_if lock b c;
      b ← tree_wrlock_if lock b;
      x ← get_client b c;
      b ← unsub_all_loop b c (c_subs x);
      mutex_unlock_if lock (tree_unlock_if lock b) c
  end.

(** ** Closing and freeing *)

(** [net__free] closes the connection and frees it; the frames are freed too. *)
Definition client__dtor (b : broker_t) (c : option positive) : exec broker_t :=
  match c with
  | None => Done b
  | Some l =>
      x ← get_client b l;
      let b := put_client b l (set_c_conn x None) in
      if (hash_count (c_subs x) =? 0)%nat then Done b else client__unsub_all b c false
  end.

Definition client__free (b : broker_t) (c : option positive) : exec broker_t :=
  match c with
  | None => Done b
  | Some l => b ← client__dtor b c; h ← mem__free (client_heap b) l; mret (with_client_heap b h)
  end.

Definition client__close (b : broker_t) (c : option positive)
  : exec (status__err * broker_t) :=
  match c with
  | None => Done (BPSP_OK, b)
  | Some c =>
      x ← get_client b c;
      let '(s, n) := net__close (c_conn x) in mret (s, put_client b c (set_c_conn x n))
  end.

Definition client__is_close (x : option client_t) : bool :=
  match x with
  | None => true
  | Some x => c_is_close x || match c_conn x with None => true | Some _ => false end
  end.

Definition client_wrlock (b : broker_t) (c : positive) : exec broker_t :=
  x ← get_client b c;
  l ← wr_acquire (c_rw_lock x); mret (put_client b c (set_c_rw_lock x l)).
Definition client_rdlock (b : broker_t) (c : positive) : exec broker_t :=
  x ← get_client b c;
  l ← rd_acquire (c_rw_lock x); mret (put_client b c (set_c_rw_lock x l)).
Definition client_unlock (b : broker_t) (c : positive) : exec broker_t :=
  x ← get_client b c; mret (put_client b c (set_c_rw_lock x Unlocked)).

Definition client__destroy (b : broker_t) (c : option positive)
  : exec (status__err * broker_t) :=
  match c with
  | None => Done (BPSP_OK, b)
  | Some l =>
      b ← client__unsub_all b c true;
      b ← client_wrlock b l;
      x ← get_client b l;
      let '(s, n) := net__close (c_conn x) in
      let b := put_client b l (set_c_is_close (set_c_conn x n) true) in
      b ← client_unlock b l;
      if decide (s ≠ BPSP_OK) then mret (s, b) else
      b ← client__free b c;
      mret (s, b)
  end.

(** ** Receiving and sending *)

(** [log__trace] evaluates the text of the opcode, whether logging is on or not. *)
Definition log__trace (f : bpsp__frame) : exec unit :=
  _ ← frame__get_op_text (opcode f); mret tt.

(** With [lock]: whether the client is closed, looked up under its lock. *)
Definition closed_if_locked (b : broker_t) (c : positive) (lock : bool)
  : exec (bool * broker_t) :=
  if lock then
    b ← client_rdlock b c;
    x ← get_client b c;
    b ← client_unlock b c;
    mret (client__is_close (Some x), b)
  else mret (false, b).

(** A NULL connection is used by [net__read]. *)
Definition client__recv (b : broker_t) (c : option positive) (f : bpsp__frame) (lock : bool)
  : exec (status__err * bpsp__frame * broker_t) :=
  match c with
  | None => Done (BPSP_INVALID_ARG, f, b)
  | Some c =>
      '(closed, b) ← closed_if_locked b c lock;
      if (closed : bool) then mret (BPSP_CONNECTION_CLOSED, f, b) else
      x ← get_client b c;
      conn ← deref (c_conn x);
      '(s, f, conn) ← frame__recv big now conn f;
      let b := put_client b c (set_c_conn x (Some conn)) in
      if decide (s ≠ BPSP_OK) then mret (s, f, b) else
      _ ← log__trace f;
      mret (s, f, b)
  end.

(** [frame__send] on a connection that may be NULL: [net__write] refuses it. *)
Definition frame_send_on (conn : option connection) (f : bpsp__frame)
  : exec (status__err * bpsp__frame * option connection) :=
  match conn with
  | Some conn => '(s, f, conn) ← frame__send big conn f; mret (s, f, Some conn)
  | None => mret (match frame__is_completed (Some f) with
                  | BPSP_OK => BPSP_INVALID_ARG
                  | s => s
                  end, f, None)
  end.

Definition client__send (b : broker_t) (c : option positive) (f : bpsp__frame) (lock : bool)
  : exec (status__err * bpsp__frame * broker_t) :=
  match c with
  | None => Done (BPSP_INVALID_ARG, f, b)
  | Some c =>
      '(closed, b) ← closed_if_locked b c lock;
      if (closed : bool) then mret (BPSP_CONNECTION_CLOSED, f, b) else
      b ← mutex_lock_if lock b c;
      x ← get_client b c;
      '(s, f, conn) ← frame_send_on (c_conn x) f;
      let b := put_client b c (set_c_conn x conn) in
      b ← mutex_unlock_if lock b c;
      if decide (s ≠ BPSP_OK) then mret (s, f, b) else
      _ ← log__trace f;
      mret (s, f, b)
  end.

Definition client__read (b : broker_t) (c : positive) : exec (status__err * broker_t) :=
  x ← get_client b c;
  '(s, f, b) ← client__recv b (Some c) (in_frame x) true;
  x ← get_client b c;
  mret (s, put_client b c (set_in_frame x f)).

(** The early return behind [frame__copy] leaves the mutex locked. *)
Definition client__write (b : broker_t) (c : option positive) (f : bpsp__frame)
  : exec (status__err * broker_t) :=
  match c with
  | None => Done (BPSP_INVALID_ARG, b)
  | Some l =>
      '(closed, b) ← closed_if_locked b l true;
      if (closed : bool) then mret (BPSP_CONNECTION_CLOSED, b) else
      b ← mutex_lock_if true b l;
      x ← get_client b l;
      '(s, out) ← frame__copy now (out_frame x) f true;
      let b := put_client b l (set_out_frame x out) in
      if decide (s ≠ BPSP_OK) then mret (s, b) else
      '(s, out, b) ← client__send b c out false;
      x ← get_client b l;
      b ← mutex_unlock_if true (put_client b l (set_out_frame x out)) l;
      mret (s, b)
  end.

(** ** Subscribing *)

(** A new element of the table; adding a NULL element is undefined. *)
Definition register_sub (b : broker_t) (c : positive) (identifier : string) (s : positive)
  : exec broker_t :=
  e ← deref (subscriber__new_hash_elt (Some identifier) (Some s));
  x ← get_client b c;
  mret (put_client b c (set_c_subs x (hash_add e.1 e.2 (c_subs x)))).

Definition client__sub0 (b : broker_t) (c s : option positive) (lock : bool)
  : exec (status__err * broker_t) :=
  match c, s with
  | Some c, Some s =>
      x ← get_client b c;
      if negb (c_broker x) then mret (BPSP_INVALID_ARG, b) else
      b ← mutex_lock_if lock b c;
      sub ← get_sub (topic_tree b) s;
      identifier ← subscriber__get_identifier sub;
      '(st, b) ← (match hash_find identifier (c_subs x) with
                  | None => b ← register_sub b c identifier s; mret (BPSP_OK, b)
                  | Some _ => mret (BPSP_TREE_DUP_SUBSCRIBER, b)
                  end);
      b ← mutex_unlock_if lock b c;
      if decide (st ≠ BPSP_OK) then mret (st, b) else broker__add_sub b (Some s) lock
  | _, _ => Done (BPSP_INVALID_ARG, b)
  end.

(** [subscriber__new]: the object and its address. *)
Definition new_subscriber (b : broker_t) (topic tag : cstr) (c : option positive)
    (n : option positive) : exec (option positive * broker_t) :=
  match c with
  | None => mret (None, b)
  | Some l =>
      x ← get_client b l;
      match subscriber__new topic tag (Some (l, c_id x)) n with
      | None => mret (None, b)
      | Some sub => let '(s, b) := new_sub_at b sub in mret (Some s, b)
      end
  end.

Definition client__sub1 (b : broker_t) (c : option positive) (topic tag : cstr) (lock : bool)
  : exec (status__err * broker_t) :=
  match topic with
  | None => Done (BPSP_INVALID_ARG, b)
  | Some _ =>
      '(s, b) ← new_subscriber b topic tag c None;
      match s with
      | None => mret (BPSP_NO_MEMORY, b)
      | Some l =>
          '(st, b) ← client__sub0 b c s lock;
          if decide (st ≠ BPSP_OK) then b ← subscriber__free b l; mret (st, b)
          else mret (st, b)
      end
  end.

(** The argument [lock] is not used. *)
Definition client__sub (b : broker_t) (c : option positive) (topic : cstr) (lock : bool)
  : exec (status__err * broker_t) := client__sub1 b c topic (Some "_0"%string) true.

Definition client__unsub0 (b : broker_t) (c : option positive) (topic tag : cstr) (lock : bool)
  : exec (status__err * broker_t) :=
  match c, topic, tag with
  | Some c, Some topic, Some tag =>
      x ← get_client b c;
      if negb (c_broker x) then mret (BPSP_INVALID_ARG, b) else
      match subscriber__make_identifier topic tag with
      | None => mret (BPSP_NO_MEMORY, b)
      | Some identifier =>
          b ← mutex_lock_if lock b c;
          x ← get_client b c;
          let found := hash_find identifier (c_subs x) in
          let b := match found with
                   | Some _ => put_client b c (set_c_subs x (hash_del identifier (c_subs x)))
                   | None => b
                   end in
          b ← mutex_unlock_if lock b c;
          match found with
          | Some s =>
              '(st, b) ← broker__del_sub b s lock;
              b ← subscriber__free b s;
              mret (st, b)
          | None => mret (BPSP_INVALID_SUBSCRIBER, b)
          end
      end
  | _, _, _ => Done (BPSP_INVALID_ARG, b)
  end.

Definition client__unsub (b : broker_t) (c : option positive) (topic : cstr) (lock : bool)
  : exec (status__err * broker_t) := client__unsub0 b c topic (Some "_0"%string) lock.
End Client.

#[global] Arguments client__send : simpl never.
#[global] Arguments client__recv : simpl never.
#[global] Arguments client__write : simpl never.
#[global] Arguments client__sub0 : simpl never.
#[global] Arguments client__unsub0 : simpl never.
#[global] Arguments client__unsub_all : simpl never.
#[global] Arguments client__destroy : simpl never.
