(* ===== verification/BrokerOps.v ===== *)
(** * broker.c: accepting, delivering, ending clients

    The system calls are arguments: what [net__listen] and [net__accept] return, whether the
    locks can be initialised, the numbers of [rand]. *)
From S2P Require Import Prelude Text Status Uthash Mem Net Frame FrameRw Subscriber Topic.
From S2P Require Import Broker Client.
Local Open Scope Z_scope.

Definition sizeof_broker__info : Z := 16.
Definition sizeof_bpsp__broker : Z := 136.
Definition sizeof_bpsp__topic_tree : Z := 144.

Definition BROKER_DEFAULT_NAME : string := "BPSP - Basic Publish Subscribe Broker".
Definition BROKER_DEFAULT_VERION : string := "1.0.0".

(** [sprintf("%s:%d", ip, port)]; an [int] has at most ten digits. *)
Definition addr_text (ip : string) (port : Z) : string :=
  (ip +:+ ":" +:+ decimal 10 port "")%string.

Section BrokerOps.
Context {Sk : Type} `{Socket Sk} `{Malloc}.
Variable big : bool.
Variable now : string.
Variable rand : nat → Z.
Local Notation broker_t := (bpsp__broker Sk).
Local Notation connection := (bpsp__connection Sk).

(** ** The broker itself *)

Definition broker__info_new (name version : string) : option (string * string) :=
  if malloc_ok sizeof_broker__info then Some (name, version) else None.

Definition topic__new_tree : option bpsp__topic_tree :=
  if malloc_ok sizeof_bpsp__topic_tree then Some (topic__init_tree ∅) else None.

(** [net__free] of the listener, [topic__free_tree], and the block of the broker: what is left
    of the memory. *)
Definition broker__free (b : broker_t) : exec broker_t :=
  let b := with_listener b None (b_is_close b) in
  t ← topic__dtor_tree (topic_tree b);
  mret (with_tree b t).

(** A broker that cannot be completed is freed. *)
Definition broker__new_with_info (info : string * string) (mutex_ok rwlock_ok : bool)
    (listening : option connection) : option broker_t :=
  if malloc_ok sizeof_bpsp__broker then
    if negb mutex_ok then None
    else if negb rwlock_ok then None
    else match topic__new_tree with
         | None => None
         | Some tree =>
             match listening with
             | None => None
             | Some l =>
                 Some {| info_name := info.1; info_version := info.2; listener := Some l;
                         b_is_close := false; b_mutex := false; cli_rw_lock := Unlocked;
                         clients := []; topic_tree := tree; client_heap := ∅;
                         next_client := 1; next_sub := 1; rand_pos := 0 |}
             end
         end
  else None.

Definition broker__new (mutex_ok rwlock_ok : bool) (listening : option connection)
  : option broker_t :=
  match broker__info_new BROKER_DEFAULT_NAME BROKER_DEFAULT_VERION with
  | None => None
  | Some info => broker__new_with_info info mutex_ok rwlock_ok listening
  end.

Definition b_mutex_lock_if (lock : bool) (b : broker_t) : exec broker_t :=
  if lock then if b_mutex b then Blocked else Done (with_b_mutex b true) else Done b.
Definition b_mutex_unlock_if (lock : bool) (b : broker_t) : broker_t :=
  if lock then with_b_mutex b false else b.

Definition broker__close (b : broker_t) (lock : bool) : exec (status__err * broker_t) :=
  b ← b_mutex_lock_if lock b;
  let '(s, l) := net__close (listener b) in
  let b := with_listener b l true in
  mret (s, b_mutex_unlock_if lock b).

Fixpoint destroy_clients (b : broker_t) (h : list (string * positive)) : exec broker_t :=
  match h with
  | [] => Done b
  | (k, c) :: h =>
      let b := with_clients b (hash_del k (clients b)) in
      '(_, b) ← client__destroy b (Some c);
      destroy_clients b h
  end.

Definition broker__destroy (b : broker_t) : exec broker_t :=
  b ← b_mutex_lock_if true b;
  '(_, b) ← broker__close b false;
  b ← destroy_clients b (clients b);
  broker__free (b_mutex_unlock_if true b).

(** ** Accepting a client *)

(** [while (dup_client_id)]: new identifiers are drawn until one is free. *)
Fixpoint unique_id_loop (fuel : nat) (b : broker_t) (c : positive) : exec broker_t :=
  x ← get_client b c;
  match hash_find (c_id x) (clients b) with
  | None => Done b
  | Some _ =>
      match fuel with
      | O => NoFuel
      | S fuel =>
          let '(i, pos) := rand_str rand (rand_pos b) BPSP_CLIENT_ID_LEN in
          let x := {| c_id := i; c_broker := c_broker x; c_subs := c_subs x;
                      c_conn := c_conn x; c_is_close := c_is_close x; c_mutex := c_mutex x;
                      c_rw_lock := c_rw_lock x; in_frame := in_frame x;
                      out_frame := out_frame x |} in
          unique_id_loop fuel (with_rand_pos (put_client b c x) pos) c
      end
  end.

Definition broker__accept (fuel : nat) (b : broker_t) (c_conn : option connection)
  : exec (option positive * broker_t) :=
  match c_conn with
  | None => mret (None, b)
  | Some conn =>
      '(c, b) ← client__new rand b (Some conn) true;
      match c with
      | None => mret (None, b)
      | Some c =>
          b ← unique_id_loop fuel b c;
          x ← get_client b c;
          mret (Some c, with_clients b (hash_add (c_id x) c (clients b)))
      end
  end.

(** ** Delivering *)

(** The text is written into a block of [strlen(ip) + 10] bytes. *)
Definition set_x_from (b : broker_t) (source : positive) (f : bpsp__frame)
  : exec (status__err * bpsp__frame) :=
  x ← get_client b source;
  conn ← deref (c_conn x);
  let '(ip, port) := addr conn in
  if malloc_ok (strlen ip + 10) then
    let text := addr_text ip port in
    if strlen text <? strlen ip + 10
    then frame__set_var_header f (Some "x-from"%string) (Some text)
    else Undef
  else mret (BPSP_NO_MEMORY, f).

(** The status of [client__send] is dropped. *)
Definition deliver_to_target (b : broker_t) (source : positive) (sub : bpsp__subscriber)
    (f : bpsp__frame) (target : positive) : exec (status__err * bpsp__frame * broker_t) :=
  if decide (target = client sub) then
    '(s, f) ← set_x_from b source f;
    if decide (s ≠ BPSP_OK) then mret (s, f, b) else
    '(_, f, b) ← client__send big b (Some target) f true;
    mret (s, f, b)
  else mret (BPSP_OK, f, b).

Definition broker__deliver_msg (b : broker_t) (source : option positive)
    (sub : bpsp__subscriber) (f : bpsp__frame) : exec (status__err * bpsp__frame * broker_t) :=
  match source with
  | None => mret (BPSP_INVALID_ARG, f, b)
  | Some source =>
      x ← get_client b source;
      if negb (c_broker x) then mret (BPSP_INVALID_ARG, f, b) else
      topic ← subscriber__get_topic sub;
      '(s, f) ← frame__set_var_header f (Some "x-topic"%string) (Some topic);
      if decide (s ≠ BPSP_OK) then mret (s, f, b) else
      b ← cli_rdlock b;
      i ← deref (subscriber__get_client_id sub);
      '(s, f, b) ← (match hash_find i (clients b) with
                    | Some target => deliver_to_target b source sub f target
                    | None => mret (BPSP_OK, f, b)
                    end);
      mret (s, f, cli_unlock b)
  end.

(** ** Ending a client *)

Definition broker__destroy_client (b : broker_t) (c : positive) (lock : bool)
  : exec (status__err * broker_t) :=
  b ← (if lock then cli_wrlock b else Done b);
  x ← get_client b c;
  let b := match hash_find (c_id x) (clients b) with
           | Some _ => with_clients b (hash_del (c_id x) (clients b))
           | None => b
           end in
  let b := if lock then cli_unlock b else b in
  '(_, b) ← client__destroy b (Some c);
  mret (BPSP_OK, b).
End BrokerOps.

#[global] Arguments addr_text : simpl never.
#[global] Arguments broker__deliver_msg : simpl never.
#[global] Arguments broker__destroy_client : simpl never.
