(* ===== verification/Handle.v ===== *)
(** * server/handle.c: the requests of a client

    One thread serves one client: it reads a frame into [in_frame], handles it, and goes on
    until a function reports an error; then the client is destroyed. *)
From S2P Require Import Prelude Status Uthash Mem Net Frame FrameOp FrameRw Subscriber Topic.
From S2P Require Import Broker Client BrokerOps.
Local Open Scope Z_scope.

Section Handle.
Context {Sk : Type} `{Socket Sk} `{Malloc}.
Variable big : bool.
Variable now : string.
Local Notation broker_t := (bpsp__broker Sk).

(** [hdr ? hdr->value : NULL]; the pointer of an empty value is indeterminate. *)
Definition header_text (hdr : option header_value) : exec cstr :=
  match hdr with
  | None => Done None
  | Some (Str v) => Done (Some v)
  | Some Indet => Undef
  end.

(** [client__send(client, client->out_frame, 1)] *)
Definition send_out (b : broker_t) (c : positive) : exec (status__err * broker_t) :=
  x ← get_client b c;
  '(s, f, b) ← client__send big b (Some c) (out_frame x) true;
  x ← get_client b c;
  mret (s, put_client b c (set_out_frame x f)).

(** [in] is the [in_frame] of the client. *)
Definition handle__reply (b : broker_t) (c : positive) (s : status__err) (msg : string)
  : exec (status__err * broker_t) :=
  x ← get_client b c;
  let f_in := in_frame x in
  if flag__is_set (flag f_in) FL_ACK then
    '(s, f) ← (if decide (s ≠ BPSP_OK)
               then frame__ERR now (out_frame x) (Some f_in) s (Some msg)
               else frame__OK now (out_frame x) (Some f_in) (Some msg));
    let b := put_client b c (set_out_frame x f) in
    if decide (s ≠ BPSP_OK) then mret (s, b) else send_out b c
  else mret (BPSP_OK, b).

Definition handle__ECHO (b : broker_t) (c : positive) : exec (status__err * broker_t) :=
  x ← get_client b c;
  '(s, f, b) ← client__send big b (Some c) (in_frame x) true;
  x ← get_client b c;
  mret (s, put_client b c (set_in_frame x f)).

Definition handle__CONNECT (b : broker_t) (c : positive) : exec (status__err * broker_t) :=
  x ← get_client b c;
  '(s, f) ← frame__INFO now (out_frame x) (info_name b) (info_version b);
  let b := put_client b c (set_out_frame x f) in
  if decide (s ≠ BPSP_OK) then mret (s, b) else send_out b c.

(** The loop over the array of subscribers: [f] is the frame that is delivered, with its
    headers set anew for each of them. *)
Fixpoint pub_loop (b : broker_t) (c : positive) (topic : string)
    (subs : list bpsp__subscriber) (f : bpsp__frame) : exec broker_t :=
  match subs with
  | [] => Done b
  | p :: subs =>
      x ← get_client b c;
      if bool_decide (client p = c) && negb (flag__is_set (flag (in_frame x)) FL_PUB_ECHO)
      then pub_loop b c topic subs f
      else
        '(s, f) ← frame__set_var_header f (Some "x-sub-tag"%string) (sub_tag p);
        if decide (s ≠ BPSP_OK) then pub_loop b c topic subs f else
        '(s, f) ← frame__set_var_header f (Some "x-origin-topic"%string) (Some topic);
        if decide (s ≠ BPSP_OK) then pub_loop b c topic subs f else
        '(_, f, b) ← broker__deliver_msg big b (Some c) p f;
        pub_loop b c topic subs f
  end.

(** The frame is copied into a new one; without one [frame__MSG] is given NULL. *)
Definition pub_deliver (b : broker_t) (c : positive) (topic : string)
    (subs : list bpsp__subscriber) : exec (status__err * broker_t) :=
  x ← get_client b c;
  match frame__new with
  | None => mret (BPSP_INVALID_ARG, b)
  | Some f =>
      '(s, f) ← frame__MSG now f (in_frame x);
      if decide (s = BPSP_OK) then b ← pub_loop b c topic subs f; mret (BPSP_OK, b)
      else mret (s, b)
  end.

Definition handle__PUB (b : broker_t) (c : positive) : exec (status__err * broker_t) :=
  x ← get_client b c;
  match frame__get_var_header (in_frame x) (Some "x-topic"%string) with
  | None => mret (BPSP_INVALID_TOPIC, b)
  | Some hv =>
      topic ← header_text (Some hv);
      topic ← deref topic;
      '(subs, b) ← broker__find_subs b (Some topic) true;
      '(s, b) ← (match subs with
                 | Some (p :: ps) => pub_deliver b c topic (p :: ps)
                 | _ => mret (BPSP_OK, b)
                 end);
      if decide (s ≠ BPSP_OK) then mret (s, b)
      else handle__reply b c BPSP_OK "PUB OK."
  end.

(** The status of [client__sub0] goes into a variable of the inner block and is lost: the
    reply is that of success, only its message tells. *)
Definition handle__SUB (b : broker_t) (c : positive) : exec (status__err * broker_t) :=
  x ← get_client b c;
  topic ← header_text (frame__get_var_header (in_frame x) (Some "x-topic"%string));
  tag ← header_text (frame__get_var_header (in_frame x) (Some "x-sub-tag"%string));
  let msg := match tag with
             | None => "SUB OK. WARNING: You need specify sub_tag, default to `_0`."%string
             | Some _ => "SUB OK."%string
             end in
  match topic with
  | Some _ =>
      '(sub, b) ← new_subscriber b topic tag (Some c) None;
      '(s, b) ← (match sub with
                 | None => mret (BPSP_NO_MEMORY, b)
                 | Some _ => client__sub0 b (Some c) sub true
                 end);
      let msg := if decide (s ≠ BPSP_OK) then "Cannot add subsciber into Tree."%string
                 else msg in
      handle__reply b c BPSP_OK msg
  | None => handle__reply b c BPSP_INVALID_TOPIC "Missing header `x-topic`."
  end.

Definition handle__UNSUB (b : broker_t) (c : positive) : exec (status__err * broker_t) :=
  x ← get_client b c;
  topic ← header_text (frame__get_var_header (in_frame x) (Some "x-topic"%string));
  tag ← header_text (frame__get_var_header (in_frame x) (Some "x-sub-tag"%string));
  let msg := match tag with
             | None => "UNSUB OK. WARNING: You need specify sub_tag, default to `_0`."%string
             | Some _ => "UNSUB OK."%string
             end in
  match topic with
  | Some _ =>
      '(s, b) ← client__unsub0 b (Some c) topic tag true;
      let msg := if decide (s ≠ BPSP_OK) then "Cannot remove subsciber from Tree."%string
                 else msg in
      handle__reply b c s msg
  | None => handle__reply b c BPSP_INVALID_TOPIC "Missing header `x-topic`."
  end.

(** The [switch] over the opcode. *)
Definition handle__in_frame (b : broker_t) (c : positive) : exec (status__err * broker_t) :=
  x ← get_client b c;
  let s := frame__is_completed (Some (in_frame x)) in
  if decide (s ≠ BPSP_OK) then mret (s, b) else
  let op := opcode (in_frame x) in
  if op =? opcode_code OP_CONNECT then handle__CONNECT b c
  else if op =? opcode_code OP_PUB then handle__PUB b c
  else if op =? opcode_code OP_SUB then handle__SUB b c
  else if op =? opcode_code OP_UNSUB then handle__UNSUB b c
  else handle__ECHO b c.

(** One round reads at least the eight bytes of a fixed header. *)
Fixpoint handle__client_loop (fuel : nat) (b : broker_t) (c : positive)
  : exec (status__err * broker_t) :=
  match fuel with
  | O => NoFuel
  | S fuel =>
      '(s, b) ← client__read big now b c;
      if decide (s ≠ BPSP_OK) then mret (s, b) else
      '(s, b) ← handle__in_frame b c;
      if decide (s ≠ BPSP_OK) then mret (s, b) else handle__client_loop fuel b c
  end.

Definition server__handle_client (fuel : nat) (b : broker_t) (c : positive) : exec broker_t :=
  '(_, b) ← handle__client_loop fuel b c;
  '(_, b) ← broker__destroy_client b c true;
  mret b.
End Handle.
