(* ===== verification/BrokerSpec.v ===== *)
(** * The registry of subscriptions: the tables of the clients and the topic tree agree

    Every subscriber of a client's table belongs to this client; every subscriber of the topic
    tree is in the table of its client.  The operations of [client.c] keep both in step; the
    proofs use the topic tree through the contract [TopicService]. *)
From S2P Require Import Prelude Status Uthash Mem Net Frame Subscriber Topic TopicTokens.
From S2P Require Import TopicShape TopicSpec TopicService Broker Client.
Local Open Scope Z_scope.

Lemma hash_del_head {V} k (v : V) h : NoDup ((k, v) :: h).*1 → hash_del k ((k, v) :: h) = h.
Proof.
  cbn. intros [Hn _]%NoDup_cons. apply hash_find_None in Hn. rewrite Hn.
  by rewrite decide_True.
Qed.

Lemma append_inj_r (a s s' : string) : (a +:+ s = a +:+ s')%string → s = s'.
Proof.
  intros E%(f_equal chars). rewrite !chars_app in E. apply app_inv_head in E.
  by apply chars_inj.
Qed.

Lemma append_inj (a a' s s' : string) :
  String.length a = String.length a' → (a +:+ s = a' +:+ s')%string → a = a' ∧ s = s'.
Proof.
  intros Hl E%(f_equal chars). rewrite !chars_app in E.
  apply app_inj_1 in E as [E1 E2]; [|by rewrite !length_chars].
  by split; apply chars_inj.
Qed.

Section Registry.
Context {Sk : Type} `{Malloc} `{!TopicService}.
Local Notation client_t := (bpsp__client Sk).
Local Notation broker_t := (bpsp__broker Sk).
Implicit Types (b : broker_t) (x : client_t).

(** The subscriber that client [c] has under the identifier [k]. *)
Record sub_of (c : positive) (i k : string) (sub : bpsp__subscriber) : Prop := {
  so_client : client sub = c;
  so_cid : client_id sub = Some i;
  so_id : _id sub = Some (i +:+ k)%string;
  so_key : subscriber__get_identifier sub = Done k;
  so_text : ∃ tag topic, sub_tag sub = Some tag ∧ subscriber__get_topic sub = Done topic
    ∧ k = identifier tag topic;
}.

Lemma sub_of_set_node c i k sub n : sub_of c i k sub → sub_of c i k (set_node sub n).
Proof. intros []. by split. Qed.

Record registry b : Prop := {
  rg_tree : ts_ok (topic_tree b);
  rg_keys c x : client_heap b !! c = Some x → NoDup (c_subs x).*1;
  rg_owned c x k s :
    client_heap b !! c = Some x → (k, s) ∈ c_subs x →
    ∃ sub, sub_heap (topic_tree b) !! s = Some sub ∧ sub_of c (c_id x) k sub;
  rg_filed p i s :
    (i, s) ∈ ts_at (topic_tree b) p →
    ∃ c x k, client_heap b !! c = Some x ∧ (k, s) ∈ c_subs x;
  rg_sub_fresh s : is_Some (sub_heap (topic_tree b) !! s) → (s < next_sub b)%positive;
  rg_client_fresh c : is_Some (client_heap b !! c) → (c < next_client b)%positive;
}.

(** A subscriber is in one table, under one identifier. *)
Lemma owner_unique b c c' x x' k k' s :
  registry b → client_heap b !! c = Some x → client_heap b !! c' = Some x' →
  (k, s) ∈ c_subs x → (k', s) ∈ c_subs x' → c = c' ∧ k = k'.
Proof.
  intros Hr Hc Hc' Hk Hk'.
  destruct (rg_owned _ Hr _ _ _ _ Hc Hk) as (sub & Hs & [E1 _ E2 _ _]).
  destruct (rg_owned _ Hr _ _ _ _ Hc' Hk') as (sub' & Hs' & [E1' _ E2' _ _]).
  assert (c = c') as <- by congruence. split; [done|].
  assert (x = x') as <- by congruence.
  apply (append_inj_r (c_id x)). congruence.
Qed.

(** A subscriber is in the tree at one place only. *)
Lemma place_unique t p q i j s :
  ts_ok t → (i, s) ∈ ts_at t p → (j, s) ∈ ts_at t q → i = j ∧ p = q.
Proof.
  intros Ht Hi Hj. destruct (ts_entry _ _ _ _ Ht Hi) as (sub & E & Ei & Ep & _).
  destruct (ts_entry _ _ _ _ Ht Hj) as (sub' & E' & Ej & Eq & _). split; congruence.
Qed.

Definition without (s : positive) : list (string * positive) → list (string * positive) :=
  filter (fun e => e.2 ≠ s).

Lemma without_notin s h : (∀ i, (i, s) ∉ h) → without s h = h.
Proof.
  intros Hs. apply list_filter_all. intros [i s'] Hin. cbn. intros ->. by apply (Hs i).
Qed.

Lemma hash_del_without t p i s :
  ts_ok t → (i, s) ∈ ts_at t p → hash_del i (ts_at t p) = without s (ts_at t p).
Proof.
  intros Ht Hi. pose proof (ts_keys t p Ht) as Hk. rewrite hash_del_filter by done.
  unfold without. apply list_filter_ext. intros [j s'] Hj. cbn. split.
  - intros Hne ->. apply Hne. by apply (place_unique t p p j i s).
  - intros Hne ->. apply Hne. apply (hash_find_elem _ _ _ Hk) in Hi, Hj. congruence.
Qed.

(** ** New subscribers *)

Lemma new_sub_registry b sub :
  registry b → node sub = None →
  let s := next_sub b in
  let b' := (new_sub_at b sub).2 in
  registry b' ∧ sub_heap (topic_tree b) !! s = None
  ∧ sub_heap (topic_tree b') !! s = Some sub
  ∧ (∀ p, ts_at (topic_tree b') p = ts_at (topic_tree b) p).
Proof.
  intros Hr Hn s b'. assert (sub_heap (topic_tree b) !! s = None) as Hs.
  { destruct (sub_heap (topic_tree b) !! s) eqn:E; [|done].
    assert (s < next_sub b)%positive by (apply (rg_sub_fresh _ Hr); by rewrite E).
    unfold s in *. lia. }
  destruct (ts_new_sub _ s sub (rg_tree _ Hr) Hs Hn) as [Ht Hat]. pose proof Hr as [].
  split_and!; [|done|by apply lookup_insert_eq|done]. split; cbn; [done|done| | | |done].
  - intros c x k s' Hc Hk. destruct (rg_owned0 c x k s' Hc Hk) as (sub' & Hs' & ?).
    exists sub'. rewrite lookup_insert_ne; [done|]. intros <-. fold s in Hs'. congruence.
  - intros p i s'. rewrite Hat. apply rg_filed0.
  - intros s' [sub' E]. fold s in E. apply lookup_insert_Some in E as [[<- _]|[_ E]]; [lia|].
    assert (s' < next_sub b)%positive by (apply rg_sub_fresh0; by eexists). unfold s. lia.
Qed.

(** ** An entry in the table of a client *)

Lemma put_client_subs b c x x' :
  registry b → client_heap b !! c = Some x → c_id x' = c_id x → NoDup (c_subs x').*1 →
  (∀ k s, (k, s) ∈ c_subs x' → (k, s) ∈ c_subs x
     ∨ ∃ sub, sub_heap (topic_tree b) !! s = Some sub ∧ sub_of c (c_id x) k sub) →
  (∀ k s p i, (k, s) ∈ c_subs x → (i, s) ∈ ts_at (topic_tree b) p → (k, s) ∈ c_subs x') →
  registry (put_client b c x').
Proof.
  intros Hr Hc Hi Hnd Hnew Hold. pose proof Hr as []. split; cbn; [done| | | |done|].
  - intros c' y Hy. apply lookup_insert_Some in Hy as [[<- <-]|[_ Hy]]; [done|by eapply rg_keys0].
  - intros c' y k s Hy Hk. apply lookup_insert_Some in Hy as [[<- <-]|[_ Hy]];
      [|by eapply rg_owned0].
    rewrite Hi. destruct (Hnew k s Hk) as [Hk'|]; [by eapply rg_owned0|done].
  - intros p i s Hs. destruct (rg_filed0 p i s Hs) as (c' & y & k & Hy & Hk).
    destruct (decide (c' = c)) as [->|Hne].
    + rewrite Hc in Hy. injection Hy as <-. exists c, x', k.
      rewrite lookup_insert_eq. split; [done|by eapply Hold].
    + exists c', y, k. by rewrite lookup_insert_ne.
  - intros c' [y Hy]. apply lookup_insert_Some in Hy as [[<- _]|[_ Hy]];
      apply rg_client_fresh0; by eexists.
Qed.

Lemma register_registry b c x k s sub :
  registry b → client_heap b !! c = Some x → hash_find k (c_subs x) = None →
  sub_heap (topic_tree b) !! s = Some sub → sub_of c (c_id x) k sub →
  registry (put_client b c (set_c_subs x (hash_add k s (c_subs x)))).
Proof.
  intros Hr Hc Hk Hs Hsub. apply (put_client_subs b c x); [done|done|done| | |]; cbn.
  - apply hash_add_NoDup; [done|by eapply rg_keys].
  - intros k' s' [?|[= -> ->]%list_elem_of_singleton]%elem_of_app; [by left|].
    right. by exists sub.
  - intros k' s' p i ? _. apply elem_of_app. by left.
Qed.

(** ** An entry in the tree *)

(** The tree changes, and the subscriber [s], of client [c], with it. *)
Lemma with_tree_registry b t s sub n :
  registry b → ts_ok t → sub_heap (topic_tree b) !! s = Some sub →
  sub_heap t = <[s := set_node sub n]> (sub_heap (topic_tree b)) →
  (∀ p i s', (i, s') ∈ ts_at t p →
     (i, s') ∈ ts_at (topic_tree b) p
     ∨ s' = s ∧ ∃ c x k, client_heap b !! c = Some x ∧ (k, s) ∈ c_subs x) →
  registry (with_tree b t).
Proof.
  intros Hr Ht Hs Hh Hat. pose proof Hr as []. split; cbn; [done|done| | | |done].
  - intros c x k s' Hc Hk. rewrite Hh. destruct (rg_owned0 c x k s' Hc Hk) as (sub' & E & Hsub).
    destruct (decide (s' = s)) as [->|].
    + exists (set_node sub n). rewrite lookup_insert_eq. split; [done|].
      apply sub_of_set_node. congruence.
    + exists sub'. by rewrite lookup_insert_ne.
  - intros p i s' Hin. destruct (Hat p i s' Hin) as [|[-> ?]]; [by eapply rg_filed0|done].
  - intros s' Hs'. apply rg_sub_fresh0. rewrite Hh in Hs'.
    destruct (decide (s' = s)) as [->|]; [by eexists|by rewrite lookup_insert_ne in Hs'].
Qed.

(** Identifiers of clients are distinct and equally long: the ids of two subscribers differ
    when their clients or their identifiers do. *)
Record ids_ok b : Prop := {
  id_len c x : client_heap b !! c = Some x → String.length (c_id x) = 5%nat;
  id_inj c c' x x' :
    client_heap b !! c = Some x → client_heap b !! c' = Some x' → c_id x = c_id x' → c = c';
}.

Lemma not_filed b c x k s :
  registry b → ids_ok b → client_heap b !! c = Some x → (k, s) ∈ c_subs x →
  (∀ p i, (i, s) ∉ ts_at (topic_tree b) p) →
  ∀ p, hash_find (c_id x +:+ k)%string (ts_at (topic_tree b) p) = None.
Proof.
  intros Hr [Hl Hi] Hc Hk Hs p. destruct (hash_find _ _) as [s'|] eqn:E; [|done]. exfalso.
  apply hash_find_Some_elem in E. destruct (rg_filed _ Hr _ _ _ E) as (c' & x' & k' & Hc' & Hk').
  destruct (ts_entry _ _ _ _ (rg_tree _ Hr) E) as (sub & Hsub & Hid & _).
  destruct (rg_owned _ Hr _ _ _ _ Hc' Hk') as (sub' & Hsub' & [_ _ Hid' _ _]).
  assert (sub' = sub) as -> by congruence. rewrite Hid in Hid'. injection Hid' as Hid'.
  apply append_inj in Hid' as [Ei ->]; [|by rewrite (Hl _ _ Hc), (Hl _ _ Hc')].
  assert (c' = c) as -> by (by apply (Hi _ _ x' x)). assert (x' = x) as -> by congruence.
  pose proof (rg_keys _ Hr _ _ Hc) as Hnd. apply (hash_find_elem _ _ _ Hnd) in Hk, Hk'.
  rewrite Hk in Hk'. injection Hk' as <-. by apply (Hs p _ E).
Qed.

Lemma add_sub_registry b c x k s sub toks (lock : bool) :
  allocates → registry b → ids_ok b → (lock = true → rw_lock (topic_tree b) = Unlocked) →
  client_heap b !! c = Some x → (k, s) ∈ c_subs x →
  sub_heap (topic_tree b) !! s = Some sub → node sub = None → sub_tokens sub = Some toks →
  ∃ t, broker__add_sub b (Some s) lock = Done (BPSP_OK, with_tree b t)
    ∧ registry (with_tree b t) ∧ rw_lock t = rw_lock (topic_tree b)
    ∧ (∀ q, ts_at t q = if decide (q = sym_of <$> toks)
                        then ts_at (topic_tree b) q ++ [((c_id x +:+ k)%string, s)]
                        else ts_at (topic_tree b) q)
    ∧ (∀ s', s' ≠ s → sub_heap t !! s' = sub_heap (topic_tree b) !! s')
    ∧ (∃ n, sub_heap t !! s = Some (set_node sub (Some n))).
Proof.
  intros Hm Hr Hi Hl Hc Hk Hs Hn Ht.
  destruct (rg_owned _ Hr _ _ _ _ Hc Hk) as (sub' & E & Hsub).
  rewrite Hs in E. injection E as <-. pose proof (rg_tree _ Hr) as Hok.
  assert (∀ p i, (i, s) ∉ ts_at (topic_tree b) p) as Hnot.
  { intros p i Hin. destruct (ts_entry _ _ _ _ Hok Hin) as (sub' & E & _ & _ & []). congruence. }
  destruct (ts_add (topic_tree b) s sub _ toks lock Hm Hok Hl Hs Hn (so_id _ _ _ _ Hsub) Ht)
    as (n & t & E & Hok' & Hat & Hh & Hlk); [by eapply not_filed|].
  exists t. split_and!; [| |done|done| |].
  - unfold broker__add_sub. by rewrite E.
  - apply (with_tree_registry b t s sub (Some n)); [done..|].
    intros p i s'. rewrite Hat. case_decide; [|by left].
    intros [?|[= -> ->]%list_elem_of_singleton]%elem_of_app; [by left|]. right. split; [done|]. by exists c, x, k.
  - intros s' Hne. by rewrite Hh, lookup_insert_ne.
  - exists n. by rewrite Hh, lookup_insert_eq.
Qed.

(** ** Removing and freeing a subscriber *)

Definition drop_sub (b : broker_t) (s : positive) (lock : bool)
  : exec (status__err * broker_t) :=
  '(st, b) ← broker__del_sub b s lock; b ← subscriber__free b s; mret (st, b).

Lemma without_table t t' p i s :
  ts_ok t → (i, s) ∈ ts_at t p →
  (∀ q, ts_at t' q = if decide (q = p) then hash_del i (ts_at t q) else ts_at t q) →
  ∀ q, ts_at t' q = without s (ts_at t q).
Proof.
  intros Ht Hi Hat q. rewrite Hat. case_decide as Hq.
  - subst. by apply hash_del_without.
  - symmetry. apply without_notin. intros j Hj.
    destruct (place_unique t p q i j s) as [_ ->]; done.
Qed.

(** The tree after [s] was removed from it. *)
Lemma del_sub_tree t s sub (lock : bool) :
  ts_ok t → (lock = true → rw_lock t = Unlocked) → sub_heap t !! s = Some sub →
  ∃ t', topic__del_subscriber t s lock = Done (BPSP_OK, t') ∧ ts_ok t'
    ∧ (∀ q, ts_at t' q = without s (ts_at t q))
    ∧ sub_heap t' = <[s := set_node sub None]> (sub_heap t) ∧ rw_lock t' = rw_lock t.
Proof.
  intros Ht Hl Hs. destruct (node sub) as [n|] eqn:Hn.
  - destruct (ts_filed t s sub Ht Hs) as (p & i & Hin); [by rewrite Hn|].
    destruct (ts_del t s sub p i lock Ht Hl Hs Hin) as (t' & E & Ht' & Hat & Hh & Hlk).
    exists t'. split_and!; [done|done|by eapply without_table|done|done].
  - exists t. split_and!; [by eapply ts_del_unfiled|done| | |done].
    + intros q. symmetry. apply without_notin. intros i Hin.
      destruct (ts_entry _ _ _ _ Ht Hin) as (sub' & E & _ & _ & []). congruence.
    + symmetry. apply insert_id. rewrite Hs. f_equal. destruct sub; cbn in *. by rewrite Hn.
Qed.

(** A client forgets a subscription, and its subscriber is taken out of the tree and freed. *)
Lemma drop_sub_spec b c x x' k s (lock : bool) :
  registry b → client_heap b !! c = Some x → (k, s) ∈ c_subs x →
  c_id x' = c_id x → c_subs x' = hash_del k (c_subs x) →
  (lock = true → rw_lock (topic_tree b) = Unlocked) →
  ∃ t, drop_sub (put_client b c x') s lock = Done (BPSP_OK, with_tree (put_client b c x') t)
    ∧ registry (with_tree (put_client b c x') t) ∧ rw_lock t = rw_lock (topic_tree b)
    ∧ (∀ q, ts_at t q = without s (ts_at (topic_tree b) q))
    ∧ sub_heap t = delete s (sub_heap (topic_tree b)).
Proof.
  intros Hr Hc Hk Hi Hx Hl. pose proof Hr as [].
  destruct (rg_owned0 _ _ _ _ Hc Hk) as (sub & Hs & Hsub).
  destruct (del_sub_tree (topic_tree b) s sub lock rg_tree0 Hl Hs)
    as (t & E & Ht & Hat & Hh & Hlk).
  assert (∀ p i, (i, s) ∉ ts_at t p) as Hnot.
  { intros p i. rewrite Hat. by intros [Hne _]%list_elem_of_filter. }
  destruct (ts_free_sub t s Ht Hnot) as [Ht' Hat'].
  set (t' := with_sub_heap t (delete s (sub_heap t))) in *.
  assert (sub_heap t' = delete s (sub_heap (topic_tree b))) as Hh'.
  { unfold t'. cbn. rewrite Hh. apply delete_insert_eq. }
  assert (∀ c' y k', client_heap b !! c' = Some y → (k', s) ∈ c_subs y → c' = c ∧ k' = k) as Hown
    by (intros; by eapply owner_unique).
  pose proof (rg_keys0 _ _ Hc) as Hnd.
  exists t'. split_and!; [| |done|intros q; by rewrite Hat'|done].
  - unfold drop_sub, broker__del_sub. cbn [topic_tree put_client with_client_heap].
    rewrite E. cbn [mbind exec_bind mret exec_ret]. unfold subscriber__free, mem__free.
    cbn [topic_tree with_tree]. by rewrite Hh, lookup_insert_eq, <- Hh.
  - split; cbn [topic_tree with_tree client_heap put_client with_client_heap next_sub
      next_client]; [done| | | | |].
    + intros c' y Hy. apply lookup_insert_Some in Hy as [[<- <-]|[_ Hy]]; [|by eapply rg_keys0].
      rewrite Hx. by apply hash_del_keys.
    + intros c' y k' s' Hy Hk'. rewrite Hh'.
      assert (∃ y0, client_heap b !! c' = Some y0 ∧ c_id y0 = c_id y ∧ (k', s') ∈ c_subs y0
                ∧ s' ≠ s) as (y0 & Hy0 & <- & Hk0 & Hne).
      { apply lookup_insert_Some in Hy as [[<- <-]|[Hcc Hy]].
        - exists x. rewrite Hx in Hk'. apply hash_del_elem in Hk' as [Hk' Hne]; [|done].
          split_and!; [done|done|done|]. intros ->. by destruct (Hown c x k' Hc Hk').
        - exists y. split_and!; [done|done|done|]. intros ->.
          destruct (Hown c' y k' Hy Hk') as [-> _]. done. }
      destruct (rg_owned0 _ _ _ _ Hy0 Hk0) as (sub' & ? & ?). exists sub'.
      by rewrite lookup_delete_ne.
    + intros p i s'. rewrite Hat', Hat. intros [Hne Hin]%list_elem_of_filter. cbn in Hne.
      destruct (rg_filed0 _ _ _ Hin) as (c' & y & k' & Hy & Hk').
      destruct (decide (c' = c)) as [->|].
      * exists c, x', k'. rewrite lookup_insert_eq. split; [done|]. rewrite Hx.
        assert (y = x) as -> by congruence. apply hash_del_elem; [done|]. split; [done|].
        intros ->. apply Hne. apply (hash_find_elem _ _ _ Hnd) in Hk, Hk'. congruence.
      * exists c', y, k'. by rewrite lookup_insert_ne.
    + intros s'. rewrite Hh'. intros [sub' E']. apply lookup_delete_Some in E' as [_ E'].
      apply rg_sub_fresh0. by eexists.
    + intros c' [y Hy]. apply lookup_insert_Some in Hy as [[<- _]|[_ Hy]];
        apply rg_client_fresh0; by eexists.
Qed.
End Registry.
