(* ===== verification/ClientSpec.v ===== *)
(** * What the operations on subscriptions do to the registry

    [client__sub0], [client__unsub0], [client__unsub_all] and [client__destroy], with their
    locks, against the contract [TopicService]; and the invariant [broker_ok] of the broker
    between two requests. *)
From S2P Require Import Prelude Status Uthash Mem Net Frame Subscriber Topic TopicTokens.
From S2P Require Import TopicShape TopicSpec TopicService Broker Client BrokerOps BrokerSpec.
Local Open Scope Z_scope.

Section State.
Context {Sk : Type}.
Local Notation client_t := (bpsp__client Sk).
Local Notation broker_t := (bpsp__broker Sk).
Implicit Types (b : broker_t) (x : client_t).

(** ** Bookkeeping of the state *)

Lemma put_put b c x y : put_client (put_client b c x) c y = put_client b c y.
Proof. unfold put_client. cbn. by rewrite insert_insert_eq. Qed.

Lemma put_same b c x : client_heap b !! c = Some x → put_client b c x = b.
Proof. intros E. unfold put_client. rewrite insert_id by done. by destruct b. Qed.

Lemma get_client_eq b c x : client_heap b !! c = Some x → get_client b c = Done x.
Proof. intros E. unfold get_client. by rewrite E. Qed.

Lemma get_put b c x : get_client (put_client b c x) c = Done x.
Proof. apply get_client_eq. apply lookup_insert_eq. Qed.

Lemma mutex_roundtrip x : c_mutex x = false → set_c_mutex (set_c_mutex x true) false = x.
Proof. intros E. destruct x. cbn in *. by subst. Qed.

Lemma mutex_roundtrip_subs x h :
  c_mutex x = false →
  set_c_mutex (set_c_subs (set_c_mutex x true) h) false = set_c_subs x h.
Proof. intros E. destruct x. cbn in *. by subst. Qed.

Lemma mutex_lock_eq b c x :
  client_heap b !! c = Some x → c_mutex x = false →
  mutex_lock_if true b c = Done (put_client b c (set_c_mutex x true)).
Proof. intros E Hm. unfold mutex_lock_if. rewrite (get_client_eq _ _ _ E). cbn. by rewrite Hm. Qed.

Lemma mutex_unlock_put b c x :
  mutex_unlock_if true (put_client b c x) c = Done (put_client b c (set_c_mutex x false)).
Proof. unfold mutex_unlock_if. rewrite get_put. cbn. by rewrite put_put. Qed.

(** ** The invariant between requests *)

Record locks_free b : Prop := {
  lf_tree : rw_lock (topic_tree b) = Unlocked;
  lf_clients : cli_rw_lock b = Unlocked;
  lf_mutex c x : client_heap b !! c = Some x → c_mutex x = false;
  lf_rw c x : client_heap b !! c = Some x → c_rw_lock x = Unlocked;
}.

(** The table of the broker holds exactly the clients that are alive. *)
Record table_ok b : Prop := {
  tb_keys : NoDup (clients b).*1;
  tb_entry k c : (k, c) ∈ clients b ↔ ∃ x, client_heap b !! c = Some x ∧ c_id x = k;
}.

(** An open connection; the port of the peer has 16 bits. *)
Record open_conn (n : bpsp__connection Sk) : Prop := {
  oc_fd : 0 < sockfd n;
  oc_port : 0 ≤ (addr n).2 < 65536;
}.

Record live x : Prop := {
  lv_broker : c_broker x = true;
  lv_open : c_is_close x = false;
  lv_conn : ∃ n, c_conn x = Some n ∧ open_conn n;
}.

Definition all_live b : Prop := ∀ c x, client_heap b !! c = Some x → live x.

Lemma table_ids b c c' x x' :
  table_ok b → client_heap b !! c = Some x → client_heap b !! c' = Some x' →
  c_id x = c_id x' → c = c'.
Proof.
  intros [Hk He] Hc Hc' Ei.
  assert ((c_id x, c) ∈ clients b) as H1 by (apply He; eauto).
  assert ((c_id x, c') ∈ clients b) as H2 by (apply He; eauto).
  apply (hash_find_elem _ _ _ Hk) in H1, H2. congruence.
Qed.

Lemma table_find b c x :
  table_ok b → client_heap b !! c = Some x → hash_find (c_id x) (clients b) = Some c.
Proof. intros [Hk He] Hc. apply hash_find_elem; [done|]. apply He. eauto. Qed.
End State.

Section ClientSpec.
Context {Sk : Type} `{Malloc} `{!TopicService}.
Local Notation client_t := (bpsp__client Sk).
Local Notation broker_t := (bpsp__broker Sk).
Implicit Types (b : broker_t) (x : client_t).

Record broker_ok b : Prop := {
  bo_registry : registry b;
  bo_ids : ids_ok b;
  bo_locks : locks_free b;
  bo_table : table_ok b;
  bo_live : all_live b;
}.

(** A client changes without its id, its table, its locks and its connection being lost. *)
Lemma put_client_ok b c x x' :
  broker_ok b → client_heap b !! c = Some x → c_id x' = c_id x → live x' →
  c_mutex x' = false → c_rw_lock x' = Unlocked →
  registry (put_client b c x') → broker_ok (put_client b c x').
Proof.
  intros [_ [I1 I2] [L1 L2 L3 L4] [T1 T2] Hlive] Hc Hi Hl Hm Hrw Hr.
  assert (∀ d y, client_heap (put_client b c x') !! d = Some y →
            ∃ z, client_heap b !! d = Some z ∧ c_id y = c_id z) as Hold.
  { intros d y Hy. cbn in Hy. apply lookup_insert_Some in Hy as [[<- <-]|[_ Hy]]; eauto. }
  split; [done| | | |].
  - split.
    + intros d y Hy. destruct (Hold d y Hy) as (z & Hz & ->). by eapply I1.
    + intros d d' y y' Hy Hy' E. destruct (Hold d y Hy) as (z & Hz & Ez).
      destruct (Hold d' y' Hy') as (z' & Hz' & Ez'). apply (I2 d d' z z'); congruence.
  - split; [done|done| |]; intros d y Hy; cbn in Hy;
      apply lookup_insert_Some in Hy as [[<- <-]|[_ Hy]]; eauto.
  - split; [done|]. intros k d. cbn. rewrite T2. split; intros (y & Hy & Ey).
    + destruct (decide (d = c)) as [->|].
      * exists x'. rewrite lookup_insert_eq. split; [done|]. congruence.
      * exists y. by rewrite lookup_insert_ne.
    + destruct (Hold d y Hy) as (z & Hz & Ez). exists z. split; [done|]. congruence.
  - intros d y Hy. cbn in Hy. apply lookup_insert_Some in Hy as [[_ <-]|[_ Hy]]; [done|].
    by eapply Hlive.
Qed.

(** The tree changes, its lock being free again. *)
Lemma with_tree_ok b t :
  broker_ok b → registry (with_tree b t) → rw_lock t = Unlocked → broker_ok (with_tree b t).
Proof. intros [_ [] [] [] Hl] Hr Ht. split; [done|done|done|done|done]. Qed.

(** Both at once: a client loses a subscription. *)
Lemma unsub_ok b c x k t :
  broker_ok b → client_heap b !! c = Some x → rw_lock t = rw_lock (topic_tree b) →
  let b1 := put_client b c (set_c_subs x (hash_del k (c_subs x))) in
  registry (with_tree b1 t) → broker_ok (with_tree b1 t).
Proof.
  intros [_ [I1 I2] [L1 L2 L3 L4] [T1 T2] Hl] Hc Hlk b1 Hr.
  assert (∀ d y, client_heap b1 !! d = Some y → ∃ z, client_heap b !! d = Some z
            ∧ c_id y = c_id z ∧ c_mutex y = c_mutex z ∧ c_rw_lock y = c_rw_lock z
            ∧ (live z → live y)) as Hold.
  { intros d y Hy. unfold b1 in Hy. cbn in Hy.
    apply lookup_insert_Some in Hy as [[<- <-]|[_ Hy]]; [|by exists y].
    exists x. split_and!; [done..|]. intros []. by split. }
  split; [done| | | |].
  - split.
    + intros d y (z & Hz & -> & _)%Hold. by eapply I1.
    + intros d d' y y' (z & Hz & -> & _)%Hold (z' & Hz' & -> & _)%Hold. by apply I2.
  - split; [by rewrite <- L1|done| |].
    + intros d y (z & Hz & _ & -> & _)%Hold. by eapply L3.
    + intros d y (z & Hz & _ & _ & -> & _)%Hold. by eapply L4.
  - split; [done|]. intros i d. cbn [clients with_tree b1 put_client with_client_heap].
    rewrite T2. split.
    + intros (z & Hz & <-). destruct (decide (d = c)) as [->|].
      * exists (set_c_subs x (hash_del k (c_subs x))). split; [apply lookup_insert_eq|].
        cbn. congruence.
      * exists z. split; [by apply lookup_insert_Some; right|done].
    + intros (y & (z & Hz & -> & _)%Hold & <-). eauto.
  - intros d y (z & Hz & _ & _ & _ & Hy)%Hold. apply Hy. by eapply Hl.
Qed.

(** ** Subscribing *)

Lemma sub0_new b c x k s sub :
  malloc_ok sizeof_subscriber__hash = true →
  client_heap b !! c = Some x → c_broker x = true → c_mutex x = false →
  sub_heap (topic_tree b) !! s = Some sub → subscriber__get_identifier sub = Done k →
  hash_find k (c_subs x) = None →
  client__sub0 b (Some c) (Some s) true
  = broker__add_sub (put_client b c (set_c_subs x (hash_add k s (c_subs x)))) (Some s) true.
Proof.
  intros Hm Hc Hb Hmu Hs Hk Hf. unfold client__sub0. rewrite (get_client_eq _ _ _ Hc).
  cbn [mbind exec_bind]. rewrite Hb. cbn [negb]. rewrite (mutex_lock_eq _ _ _ Hc Hmu).
  cbn [mbind exec_bind topic_tree put_client with_client_heap]. unfold get_sub. rewrite Hs.
  cbn [deref mbind exec_bind]. rewrite Hk. cbn [mbind exec_bind]. rewrite Hf.
  unfold register_sub, subscriber__new_hash_elt. rewrite Hm. cbn [deref mbind exec_bind].
  rewrite get_put. cbn [mbind exec_bind mret exec_ret fst snd]. rewrite put_put.
  rewrite mutex_unlock_put. cbn [mbind exec_bind]. rewrite decide_False by auto.
  by rewrite mutex_roundtrip_subs.
Qed.

Lemma sub0_dup b c x k s sub s' :
  client_heap b !! c = Some x → c_broker x = true → c_mutex x = false →
  sub_heap (topic_tree b) !! s = Some sub → subscriber__get_identifier sub = Done k →
  hash_find k (c_subs x) = Some s' →
  client__sub0 b (Some c) (Some s) true = Done (BPSP_TREE_DUP_SUBSCRIBER, b).
Proof.
  intros Hc Hb Hmu Hs Hk Hf. unfold client__sub0. rewrite (get_client_eq _ _ _ Hc).
  cbn [mbind exec_bind]. rewrite Hb. cbn [negb]. rewrite (mutex_lock_eq _ _ _ Hc Hmu).
  cbn [mbind exec_bind topic_tree put_client with_client_heap]. unfold get_sub. rewrite Hs.
  cbn [deref mbind exec_bind]. rewrite Hk. cbn [mbind exec_bind]. rewrite Hf.
  cbn [mbind exec_bind mret exec_ret]. rewrite mutex_unlock_put. cbn [mbind exec_bind].
  rewrite decide_True by done. rewrite mutex_roundtrip by done. by rewrite put_same.
Qed.

(** What [client__sub0] does with a subscriber that was just made: it files it, or leaves
    the topic tree alone; the registry stays consistent in every case. *)
Lemma sub0_outcome b c x k s sub :
  allocates → broker_ok b → client_heap b !! c = Some x →
  sub_heap (topic_tree b) !! s = Some sub → sub_of c (c_id x) k sub → node sub = None →
  let b1 := put_client b c (set_c_subs x (hash_add k s (c_subs x))) in
  match hash_find k (c_subs x), sub_tokens sub with
  | Some _, _ => client__sub0 b (Some c) (Some s) true = Done (BPSP_TREE_DUP_SUBSCRIBER, b)
  | None, None =>
      client__sub0 b (Some c) (Some s) true = Done (BPSP_INVALID_TOPIC, b1) ∧ broker_ok b1
  | None, Some toks =>
      ∃ t, client__sub0 b (Some c) (Some s) true = Done (BPSP_OK, with_tree b1 t)
        ∧ broker_ok (with_tree b1 t)
        ∧ (∀ q, ts_at t q = if decide (q = sym_of <$> toks)
                            then ts_at (topic_tree b) q ++ [((c_id x +:+ k)%string, s)]
                            else ts_at (topic_tree b) q)
        ∧ (∀ s', s' ≠ s → sub_heap t !! s' = sub_heap (topic_tree b) !! s')
        ∧ (∃ n, sub_heap t !! s = Some (set_node sub (Some n)))
  end.
Proof.
  intros Hm Hok Hc Hs Hsub Hn b1. pose proof Hok as [Hr Hi [L1 L2 L3 L4] Ht Hl].
  pose proof (L3 _ _ Hc) as Hmu. destruct (Hl _ _ Hc) as [Hb _ _].
  destruct (hash_find k (c_subs x)) as [s'|] eqn:Hf.
  { eapply sub0_dup; [done..|apply Hsub|done]. }
  assert (broker_ok b1) as Hok1.
  { apply (put_client_ok b c x); [done|done|done| |done|exact (L4 _ _ Hc)|].
    - destruct (Hl _ _ Hc). by split.
    - by apply (register_registry b c x k s sub). }
  pose proof (sub0_new b c x k s sub (proj2 (proj2 Hm)) Hc Hb Hmu Hs (so_key _ _ _ _ Hsub) Hf)
    as E. fold b1 in E. pose proof Hok1 as [Hr1 Hi1 _ _ _].
  destruct (sub_tokens sub) as [toks|] eqn:Htok.
  - destruct (add_sub_registry b1 c (set_c_subs x (hash_add k s (c_subs x))) k s sub toks true)
      as (t & E' & Hr' & Hlk & Hat & Hh); try done.
    { apply lookup_insert_eq. }
    { apply elem_of_app. right. by apply list_elem_of_singleton. }
    exists t. split_and!; [by rewrite E| |done|apply Hh|apply Hh].
    apply with_tree_ok; [done|done|]. by rewrite Hlk.
  - split; [|done]. rewrite E. unfold broker__add_sub.
    rewrite (ts_add_invalid _ s sub _ true Hs (so_id _ _ _ _ Hsub)); [|destruct (so_text _ _ _ _ Hsub)
      as (tag & topic & _ & Hg & _); by eexists|done]. done.
Qed.

(** ** Unsubscribing *)

Lemma unsub0_found b c x topic tag k s (lock : bool) :
  malloc_ok (strlen tag + strlen topic + 2) = true →
  client_heap b !! c = Some x → c_broker x = true → (lock = true → c_mutex x = false) →
  k = identifier tag topic → hash_find k (c_subs x) = Some s →
  client__unsub0 b (Some c) (Some topic) (Some tag) lock
  = drop_sub (put_client b c (set_c_subs x (hash_del k (c_subs x)))) s lock.
Proof.
  intros Hm Hc Hb Hmu Hk Hf. unfold client__unsub0. rewrite (get_client_eq _ _ _ Hc).
  cbn [mbind exec_bind]. rewrite Hb. cbn [negb]. unfold subscriber__make_identifier.
  rewrite Hm. change (tag +:+ "/" +:+ topic)%string with (identifier tag topic).
  rewrite <- Hk. destruct lock.
  - rewrite (mutex_lock_eq _ _ _ Hc) by auto. cbn [mbind exec_bind]. rewrite get_put.
    cbn [mbind exec_bind]. change (c_subs (set_c_mutex x true)) with (c_subs x). rewrite Hf.
    rewrite put_put, mutex_unlock_put. cbn [mbind exec_bind].
    by rewrite mutex_roundtrip_subs by auto.
  - unfold mutex_lock_if, mutex_unlock_if. cbn [mbind exec_bind].
    rewrite (get_client_eq _ _ _ Hc). cbn [mbind exec_bind]. by rewrite Hf.
Qed.

Lemma unsub0_unknown b c x topic tag :
  malloc_ok (strlen tag + strlen topic + 2) = true →
  client_heap b !! c = Some x → c_broker x = true → c_mutex x = false →
  hash_find (identifier tag topic) (c_subs x) = None →
  client__unsub0 b (Some c) (Some topic) (Some tag) true = Done (BPSP_INVALID_SUBSCRIBER, b).
Proof.
  intros Hm Hc Hb Hmu Hf. unfold client__unsub0. rewrite (get_client_eq _ _ _ Hc).
  cbn [mbind exec_bind]. rewrite Hb. cbn [negb]. unfold subscriber__make_identifier.
  rewrite Hm. change (tag +:+ "/" +:+ topic)%string with (identifier tag topic).
  rewrite (mutex_lock_eq _ _ _ Hc Hmu). cbn [mbind exec_bind]. rewrite get_put.
  cbn [mbind exec_bind]. change (c_subs (set_c_mutex x true)) with (c_subs x). rewrite Hf.
  rewrite mutex_unlock_put. cbn [mbind exec_bind mret exec_ret].
  rewrite mutex_roundtrip by done. by rewrite put_same.
Qed.

(** ** Ending all subscriptions *)

Definition without_all (l : list positive) : list (string * positive) → list (string * positive) :=
  filter (fun e => e.2 ∉ l).

Lemma without_without s l h : without_all l (without s h) = without_all (s :: l) h.
Proof.
  unfold without_all, without. induction h as [|[i s'] h IH]; [done|].
  rewrite !filter_cons. cbn. destruct (decide (s' = s)) as [->|Hne].
  - rewrite decide_False by auto. rewrite decide_False by (rewrite not_elem_of_cons; tauto).
    done.
  - rewrite decide_True by done. rewrite filter_cons. cbn. rewrite IH.
    destruct (decide (s' ∉ l)) as [Hl|Hl].
    + by rewrite decide_True by (rewrite not_elem_of_cons; tauto).
    + by rewrite decide_False by (rewrite not_elem_of_cons; tauto).
Qed.

(** What is left of the subscribers, and of the tree, when those of [l] are gone. *)
Record subs_gone (t t' : bpsp__topic_tree) (l : list positive) : Prop := {
  sg_at q : ts_at t' q = without_all l (ts_at t q);
  sg_heap s : sub_heap t' !! s = if decide (s ∈ l) then None else sub_heap t !! s;
}.

Lemma unsub_all_loop_spec h b c x :
  registry b → client_heap b !! c = Some x → c_subs x = h →
  ∃ t, unsub_all_loop b c h = Done (with_tree (put_client b c (set_c_subs x [])) t)
    ∧ registry (with_tree (put_client b c (set_c_subs x [])) t)
    ∧ subs_gone (topic_tree b) t h.*2 ∧ rw_lock t = rw_lock (topic_tree b).
Proof.
  revert b x. induction h as [|[k s] h IH]; intros b x Hr Hc Hx.
  - exists (topic_tree b). assert (set_c_subs x [] = x) as -> by (destruct x; cbn in *; by subst).
    rewrite put_same by done. assert (with_tree b (topic_tree b) = b) as -> by (by destruct b).
    split_and!; [done|done| |done].
    split; [|intros s; by rewrite decide_False by (by intros ?%not_elem_of_nil)].
    intros q. symmetry. apply list_filter_all. intros e _. apply not_elem_of_nil.
  - cbn [unsub_all_loop]. rewrite (get_client_eq _ _ _ Hc). cbn [mbind exec_bind].
    assert ((k, s) ∈ c_subs x) as Hin by (rewrite Hx; left).
    pose proof (rg_keys _ Hr _ _ Hc) as Hnd.
    assert (hash_del k (c_subs x) = h) as Hdel by (rewrite Hx in *; by apply hash_del_head).
    destruct (drop_sub_spec b c x (set_c_subs x (hash_del k (c_subs x))) k s false)
      as (t1 & E & Hr1 & Hlk & Hat & Hh); [done..|].
    set (b1 := put_client b c (set_c_subs x (hash_del k (c_subs x)))) in *.
    assert (∀ A (K : broker_t → exec A), ('(_, b') ← broker__del_sub b1 s false;
              b' ← subscriber__free b' s; K b') = K (with_tree b1 t1)) as ->.
    { intros A K. unfold drop_sub in E.
      destruct (broker__del_sub b1 s false) as [[st b']| | |]; [cbn in *|done..].
      destruct (subscriber__free b' s) as [b''| | |]; [cbn in *|done..]. by injection E as _ ->. }
    destruct (IH (with_tree b1 t1) (set_c_subs x (hash_del k (c_subs x))))
      as (t & E' & Hr' & [G1 G2] & G3); [done|apply lookup_insert_eq|done|].
    assert (with_tree (put_client (with_tree b1 t1) c
              (set_c_subs (set_c_subs x (hash_del k (c_subs x))) [])) t
            = with_tree (put_client b c (set_c_subs x [])) t) as Eb.
    { unfold b1, put_client, with_tree, with_client_heap. cbn. by rewrite insert_insert_eq. }
    rewrite Eb in *. exists t. split_and!; [done|done| |by rewrite G3]. split.
    + intros q. rewrite G1. cbn [topic_tree with_tree]. rewrite Hat. apply without_without.
    + intros s'. rewrite G2. cbn [topic_tree with_tree fmap list_fmap snd]. rewrite Hh.
      destruct (decide (s' = s)) as [->|].
      * rewrite lookup_delete_eq. rewrite (decide_True _ _ (list_elem_of_here _ _)).
        by case_decide.
      * rewrite lookup_delete_ne by done. do 2 case_decide; set_solver.
Qed.

Lemma registry_lock b l :
  registry b → registry (with_tree b (with_lock (topic_tree b) l)).
Proof.
  intros []. destruct (ts_lock (topic_tree b) l rg_tree) as [Ht Hat].
  split; cbn; try done. intros p i s. rewrite Hat. apply rg_filed.
Qed.

Lemma registry_put_same b c x x' :
  registry b → client_heap b !! c = Some x → c_id x' = c_id x → c_subs x' = c_subs x →
  registry (put_client b c x').
Proof.
  intros Hr Hc Hi Hx. apply (put_client_subs b c x); [done|done|done| | |]; rewrite Hx.
  - by eapply rg_keys.
  - intros k s ?. by left.
  - done.
Qed.

Lemma subs_gone_lock t t' l lk lk' :
  ts_ok t → ts_ok t' → subs_gone (with_lock t lk) t' l → subs_gone t (with_lock t' lk') l.
Proof.
  intros Ht Ht' [G1 G2]. destruct (ts_lock t lk Ht) as [_ Hat].
  destruct (ts_lock t' lk' Ht') as [_ Hat'].
  split; [intros q; by rewrite Hat', G1, Hat|done].
Qed.

Lemma unsub_all_spec b c x :
  registry b → client_heap b !! c = Some x → c_broker x = true → c_mutex x = false →
  rw_lock (topic_tree b) = Unlocked →
  ∃ t, client__unsub_all b (Some c) true = Done (with_tree (put_client b c (set_c_subs x [])) t)
    ∧ registry (with_tree (put_client b c (set_c_subs x [])) t)
    ∧ subs_gone (topic_tree b) t (c_subs x).*2 ∧ rw_lock t = Unlocked.
Proof.
  intros Hr Hc Hb Hmu Hlk. unfold client__unsub_all. rewrite (get_client_eq _ _ _ Hc).
  cbn [mbind exec_bind]. rewrite Hb. cbn [negb]. rewrite orb_false_r.
  destruct (c_subs x) as [|e h] eqn:Hx.
  { cbn. destruct (unsub_all_loop_spec [] b c x Hr Hc Hx) as (t & E & Hr' & Hg).
    cbn in E. exists t. rewrite <- Hlk. by rewrite <- E. }
  cbn [hash_count List.length Nat.eqb]. rewrite (mutex_lock_eq _ _ _ Hc Hmu).
  cbn [mbind exec_bind]. unfold tree_wrlock_if, lock_if, pthread_rwlock_wrlock.
  cbn [topic_tree put_client with_client_heap]. rewrite decide_True by done.
  cbn [mbind exec_bind mret exec_ret].
  set (x1 := set_c_mutex x true).
  set (b1 := with_tree (put_client b c x1) (with_lock (topic_tree b) WriteLocked)).
  assert (client_heap b1 !! c = Some x1) as Hc1 by apply lookup_insert_eq.
  assert (registry b1) as Hr1.
  { apply (registry_lock (put_client b c x1)). by apply (registry_put_same b c x). }
  rewrite (get_client_eq _ _ _ Hc1). cbn [mbind exec_bind].
  destruct (unsub_all_loop_spec (c_subs x1) b1 c x1 Hr1 Hc1 eq_refl) as (t & -> & Hr2 & Hg & _).
  cbn [mbind exec_bind]. unfold tree_unlock_if, unlock_if, pthread_rwlock_unlock.
  cbn [topic_tree with_tree]. exists (with_lock t Unlocked).
  assert (put_client (with_tree (with_tree (put_client b1 c (set_c_subs x1 [])) t)
            (with_lock t Unlocked)) c (set_c_subs x [])
          = with_tree (put_client b c (set_c_subs x [])) (with_lock t Unlocked)) as Eb.
  { unfold b1, put_client, with_tree, with_client_heap. cbn. by rewrite !insert_insert_eq. }
  split_and!; [| | |done].
  - unfold mutex_unlock_if.
    rewrite (get_client_eq _ c (set_c_subs x1 [])) by apply lookup_insert_eq.
    cbn [mbind exec_bind mret exec_ret]. f_equal. rewrite <- Eb. unfold x1.
    by rewrite mutex_roundtrip_subs.
  - rewrite <- Eb.
    apply (registry_put_same _ c (set_c_subs x1 [])); [|apply lookup_insert_eq|done|done].
    by apply (registry_lock (with_tree (put_client b1 c (set_c_subs x1 [])) t)).
  - rewrite <- Hx. apply (subs_gone_lock _ _ _ WriteLocked); [apply Hr|apply Hr2|exact Hg].
Qed.

(** ** Ending a client *)

Lemma registry_forget b c x :
  registry b → client_heap b !! c = Some x → c_subs x = [] →
  registry (with_client_heap b (delete c (client_heap b))).
Proof.
  intros [] Hc Hx. split; cbn; [done| | | |done|].
  - intros d y [_ Hy]%lookup_delete_Some. by eapply rg_keys.
  - intros d y k s [_ Hy]%lookup_delete_Some. by eapply rg_owned.
  - intros p i s Hs. destruct (rg_filed p i s Hs) as (d & y & k & Hy & Hk).
    exists d, y, k. rewrite lookup_delete_ne; [done|]. intros <-.
    assert (y = x) as -> by congruence. rewrite Hx in Hk. by apply not_elem_of_nil in Hk.
  - intros d [y [_ Hy]%lookup_delete_Some]. apply rg_client_fresh. by eexists.
Qed.

(** The state without the client [c]. *)
Definition client_gone (b : broker_t) (c : positive) (t : bpsp__topic_tree) : broker_t :=
  with_client_heap (with_tree b t) (delete c (client_heap b)).

Lemma client__destroy_spec b c x :
  registry b → client_heap b !! c = Some x → c_broker x = true → c_mutex x = false →
  c_rw_lock x = Unlocked → rw_lock (topic_tree b) = Unlocked →
  ∃ t, client__destroy b (Some c) = Done (BPSP_OK, client_gone b c t)
    ∧ registry (client_gone b c t) ∧ subs_gone (topic_tree b) t (c_subs x).*2
    ∧ rw_lock t = Unlocked.
Proof.
  intros Hr Hc Hb Hmu Hrw Hlk. unfold client__destroy.
  destruct (unsub_all_spec b c x Hr Hc Hb Hmu Hlk) as (t & -> & Hr' & Hg & Hl).
  cbn [mbind exec_bind]. set (b1 := with_tree _ t) in *.
  assert (client_heap b1 !! c = Some (set_c_subs x [])) as Hc1 by apply lookup_insert_eq.
  unfold client_wrlock. rewrite (get_client_eq _ _ _ Hc1). cbn [mbind exec_bind].
  unfold wr_acquire. cbn [c_rw_lock set_c_subs]. rewrite decide_True by done.
  cbn [mbind exec_bind mret exec_ret]. rewrite get_put. cbn [mbind exec_bind].
  assert ((net__close (c_conn (set_c_rw_lock (set_c_subs x []) WriteLocked))).1 = BPSP_OK)
    as Hok by (cbn; by destruct (c_conn x)).
  destruct (net__close _) as [st n]. cbn in Hok. subst st.
  unfold client_unlock. rewrite put_put, get_put. cbn [mbind exec_bind mret exec_ret].
  rewrite decide_False by auto. rewrite put_put.
  unfold client__free, client__dtor. rewrite get_put. cbn [mbind exec_bind c_subs set_c_rw_lock
    set_c_is_close set_c_conn set_c_subs hash_count List.length Nat.eqb mret exec_ret].
  rewrite put_put. unfold mem__free. cbn [client_heap put_client with_client_heap].
  rewrite lookup_insert_eq. cbn [deref mbind exec_bind]. exists t. split_and!; [| |done|done].
  - unfold client_gone, b1, put_client, with_tree, with_client_heap. cbn.
    by rewrite !delete_insert_eq.
  - pose proof (registry_forget b1 c _ Hr' Hc1 eq_refl) as Hf.
    unfold client_gone, b1, put_client, with_tree, with_client_heap in *. cbn in *.
    by rewrite delete_insert_eq in Hf.
Qed.

(** The broker without the client is in order. *)
Lemma client_gone_ok b c x t :
  broker_ok b → client_heap b !! c = Some x →
  registry (with_clients (client_gone b c t) (hash_del (c_id x) (clients b))) → rw_lock t = Unlocked →
  broker_ok (with_clients (client_gone b c t) (hash_del (c_id x) (clients b))).
Proof.
  intros [Hr [I1 I2] [L1 L2 L3 L4] [T1 T2] Hl] Hc Hr2 Hlk.
  set (b2 := with_clients (client_gone b c t) (hash_del (c_id x) (clients b))) in *.
  assert (∀ d y, client_heap b2 !! d = Some y ↔ d ≠ c ∧ client_heap b !! d = Some y) as Hold.
  { intros d y. change (client_heap b2) with (delete c (client_heap b)).
    rewrite lookup_delete_Some. naive_solver. }
  split; [done| | | |].
  - split.
    + intros d y [_ Hy]%Hold. by eapply I1.
    + intros d d' y y' [_ Hy]%Hold [_ Hy']%Hold. by apply I2.
  - split; [done|done| |]; intros d y [_ Hy]%Hold; [by eapply L3|by eapply L4].
  - split; [by apply hash_del_keys|]. intros k d. unfold b2 at 1. cbn [clients with_clients].
    rewrite hash_del_elem, T2 by done. split.
    + intros ((y & Hy & <-) & Hne). exists y. rewrite Hold. split; [|done]. split; [|done].
      intros ->. apply Hne. congruence.
    + intros (y & [Hne Hy]%Hold & <-). split; [by exists y|].
      intros Ei. apply Hne. by apply (I2 d c y x).
  - intros d y [_ Hy]%Hold. by eapply Hl.
Qed.

(** [broker__destroy_client] takes the client out of the table, its subscribers out of the
    tree, and frees all of them. *)
Lemma broker__destroy_client_spec b c x :
  broker_ok b → client_heap b !! c = Some x →
  ∃ t, broker__destroy_client b c true
       = Done (BPSP_OK, with_clients (client_gone b c t) (hash_del (c_id x) (clients b)))
    ∧ broker_ok (with_clients (client_gone b c t) (hash_del (c_id x) (clients b)))
    ∧ subs_gone (topic_tree b) t (c_subs x).*2.
Proof.
  intros Hok Hc. pose proof Hok as [Hr _ [L1 L2 L3 L4] Ht Hl].
  destruct (Hl _ _ Hc) as [Hb _ _].
  unfold broker__destroy_client, cli_wrlock, wr_acquire. rewrite decide_True by done.
  cbn [mbind exec_bind mret exec_ret]. rewrite (get_client_eq _ c x) by done.
  cbn [mbind exec_bind clients with_cli_rw_lock]. rewrite (table_find b c x Ht Hc).
  set (b1 := cli_unlock _).
  assert (registry b1) as Hr1 by (destruct Hr; by split).
  destruct (client__destroy_spec b1 c x) as (t & E & Hr2 & Hg & Hlk); [done|done|done|
    by eapply L3|by eapply L4|done|].
  rewrite E. clear E. exists t.
  assert (client_gone b1 c t = with_clients (client_gone b c t) (hash_del (c_id x) (clients b)))
    as Eb by (unfold b1, cli_unlock, with_cli_rw_lock; cbn; by rewrite <- L2).
  rewrite Eb in *. split_and!; [done|by apply client_gone_ok|done].
Qed.
End ClientSpec.
