(* ===== verification/Delivery.v ===== *)
(** * What is sent to whom

    [emits b b' out]: from [b] to [b'] nothing changes but the connections of the clients and
    their output frames, and [out c] are the bytes accepted for the client [c]. *)
From S2P Require Import Prelude Status Uthash Mem Net Frame FrameFacts FrameOp FrameRw.
From S2P Require Import Transfer Subscriber Topic TopicTokens TopicShape TopicSpec TopicFind.
From S2P Require Import TopicService Broker Client BrokerOps Handle BrokerSpec ClientSpec.
Local Open Scope Z_scope.

(** Bytes for one client. *)
Definition to_client (c : positive) (o : bytes) : positive → bytes :=
  fun d => if decide (d = c) then o else [].
Definition to_nobody : positive → bytes := fun _ => [].

Section Delivery.
Context {Sk : Type} `{SocketLaws Sk} `{Malloc} `{!TopicService}.
Variable big : bool.
Variable now : string.
Local Notation client_t := (bpsp__client Sk).
Local Notation broker_t := (bpsp__broker Sk).
Implicit Types (b : broker_t) (x : client_t).

Record heard x x' (o : bytes) : Prop := {
  hd_id : c_id x' = c_id x;
  hd_broker : c_broker x' = c_broker x;
  hd_subs : c_subs x' = c_subs x;
  hd_close : c_is_close x' = c_is_close x;
  hd_mutex : c_mutex x' = c_mutex x;
  hd_rw : c_rw_lock x' = c_rw_lock x;
  hd_in : in_frame x' = in_frame x;
  hd_conn : ∃ n n', c_conn x = Some n ∧ c_conn x' = Some n' ∧ goes_out n n' o;
}.

Record emits b b' (out : positive → bytes) : Prop := {
  em_rest : b' = with_client_heap b (client_heap b');
  em_client c : match client_heap b !! c, client_heap b' !! c with
                | Some x, Some x' => heard x x' (out c)
                | None, None => True
                | _, _ => False
                end;
}.

Lemma heard_nil x : live x → heard x x [].
Proof. intros [_ _ (n & Hn & _)]. split; try done. exists n, n. split_and!; try done. apply goes_out_nil. Qed.

Lemma heard_trans x x' x'' o o' : heard x x' o → heard x' x'' o' → heard x x'' (o ++ o').
Proof.
  intros [] []. split; try congruence.
  destruct hd_conn0 as (n & n' & E & E' & G), hd_conn1 as (m & m' & E2 & E2' & G').
  exists n, m'. split_and!; [done|done|]. eapply goes_out_trans; [done|]. congruence.
Qed.

Lemma heard_live x x' o : live x → heard x x' o → live x'.
Proof.
  intros [L1 L2 (n & En & [O1 O2])] []. split; [congruence|congruence|].
  destruct hd_conn0 as (m & m' & E & E' & (s & Es & _)). exists m'. split; [done|].
  assert (m = n) as -> by congruence. by subst m'.
Qed.

Lemma emits_refl b : all_live b → emits b b to_nobody.
Proof.
  intros Hl. split; [by destruct b|]. intros c. destruct (client_heap b !! c) eqn:E; [|done].
  apply heard_nil. by eapply Hl.
Qed.

Lemma emits_trans b b' b'' o o' :
  emits b b' o → emits b' b'' o' → emits b b'' (fun c => o c ++ o' c).
Proof.
  intros [R1 C1] [R2 C2]. split; [rewrite R2; rewrite R1 at 1; done|]. intros c.
  specialize (C1 c). specialize (C2 c). destruct (client_heap b !! c), (client_heap b' !! c),
    (client_heap b'' !! c); try done. by eapply heard_trans.
Qed.

Lemma emits_ext b b' o o' : (∀ c, o c = o' c) → emits b b' o → emits b b' o'.
Proof.
  intros Ho [R C]. split; [done|]. intros c. specialize (C c). rewrite <- Ho. done.
Qed.

(** Through [emits], the clients are those of before, with the same subscriptions. *)
Lemma emits_fwd b b' o c x :
  emits b b' o → client_heap b !! c = Some x →
  ∃ x', client_heap b' !! c = Some x' ∧ heard x x' (o c).
Proof.
  intros [_ C] E. specialize (C c). rewrite E in C.
  destruct (client_heap b' !! c) as [x'|]; [by exists x'|done].
Qed.

Lemma emits_bwd b b' o c x' :
  emits b b' o → client_heap b' !! c = Some x' →
  ∃ x, client_heap b !! c = Some x ∧ heard x x' (o c).
Proof.
  intros [_ C] E. specialize (C c). rewrite E in C.
  destruct (client_heap b !! c) as [x|]; [by exists x|done].
Qed.

Lemma emits_ok b b' o : broker_ok b → emits b b' o → broker_ok b'.
Proof.
  intros [[] [I1 I2] [L1 L2 L3 L4] [T1 T2] Hl] He. pose proof (em_rest _ _ _ He) as R.
  assert (topic_tree b' = topic_tree b ∧ clients b' = clients b ∧ next_sub b' = next_sub b
          ∧ next_client b' = next_client b ∧ cli_rw_lock b' = cli_rw_lock b)
    as (Et & Ec & Es & En & El) by (by rewrite R).
  assert (∀ c x', client_heap b' !! c = Some x' →
    ∃ x, client_heap b !! c = Some x ∧ heard x x' (o c)) as Hb by (intros; by eapply emits_bwd).
  split; [split|split|split|split|].
  - by rewrite Et.
  - intros c x' (x & E & Hh)%Hb. rewrite (hd_subs _ _ _ Hh). by eapply rg_keys.
  - intros c x' k s (x & E & Hh)%Hb. rewrite (hd_subs _ _ _ Hh), (hd_id _ _ _ Hh), Et.
    by apply rg_owned.
  - rewrite Et. intros p i s Hs. destruct (rg_filed p i s Hs) as (c & x & k & E & Hk).
    destruct (emits_fwd _ _ _ _ _ He E) as (x' & E' & Hh). exists c, x', k.
    by rewrite (hd_subs _ _ _ Hh).
  - by rewrite Et, Es.
  - rewrite En. intros c [x' E']. destruct (Hb c x' E') as (x & E & _).
    apply rg_client_fresh. by eexists.
  - intros c x' (x & E & Hh)%Hb. rewrite (hd_id _ _ _ Hh). by eapply I1.
  - intros c d x' y' (x & E & Hh)%Hb (y & E' & Hh')%Hb.
    rewrite (hd_id _ _ _ Hh), (hd_id _ _ _ Hh'). by apply I2.
  - by rewrite Et.
  - by rewrite El.
  - intros c x' (x & E & Hh)%Hb. rewrite (hd_mutex _ _ _ Hh). by eapply L3.
  - intros c x' (x & E & Hh)%Hb. rewrite (hd_rw _ _ _ Hh). by eapply L4.
  - by rewrite Ec.
  - intros k c. rewrite Ec, T2. split.
    + intros (x & E & <-). destruct (emits_fwd _ _ _ _ _ He E) as (x' & E' & Hh).
      exists x'. by rewrite (hd_id _ _ _ Hh).
    + intros (x' & (x & E & Hh)%Hb & <-). exists x. by rewrite (hd_id _ _ _ Hh).
  - intros c x' (x & E & Hh)%Hb. eapply heard_live; [by eapply Hl|done].
Qed.

(** What the transfers rely on: no client is locked, all are connected. *)
Definition ready b : Prop := ∀ c x,
  client_heap b !! c = Some x → c_mutex x = false ∧ c_rw_lock x = Unlocked ∧ live x.

Lemma broker_ok_ready b : broker_ok b → ready b.
Proof. intros [_ _ [] _ Hl] c x Hc. split_and!; eauto. Qed.

Lemma ready_live b : ready b → all_live b.
Proof. intros Hr c x Hc. by apply (Hr c x). Qed.

Lemma emits_ready b b' o : ready b → emits b b' o → ready b'.
Proof.
  intros Hr He c x' E. destruct (emits_bwd _ _ _ _ _ He E) as (x & E' & Hh).
  destruct (Hr c x E') as (? & ? & ?). rewrite (hd_mutex _ _ _ Hh), (hd_rw _ _ _ Hh).
  split_and!; [done|done|by eapply heard_live].
Qed.

(** One client is changed. *)
Lemma emits_put b c x x' o :
  all_live b → client_heap b !! c = Some x → heard x x' o →
  emits b (put_client b c x') (to_client c o).
Proof.
  intros Hl Hc Hh. split; [done|]. intros d. unfold to_client. cbn.
  destruct (decide (d = c)) as [->|].
  - by rewrite Hc, lookup_insert_eq.
  - rewrite lookup_insert_ne by done. destruct (client_heap b !! d) eqn:E; [|done].
    apply heard_nil. by eapply Hl.
Qed.

Lemma to_client_nil c d : to_client c [] d = to_nobody d.
Proof. unfold to_client. by case_decide. Qed.

Lemma emits_out_frame b c x f :
  all_live b → client_heap b !! c = Some x →
  emits b (put_client b c (set_out_frame x f)) to_nobody.
Proof.
  intros Hl Hc. eapply emits_ext; [apply (to_client_nil c)|]. eapply emits_put; [done|done|].
  destruct (heard_nil x) as []; [by eapply Hl|]. by split.
Qed.

(** ** client__send *)

Lemma closed_if_locked_eq b c x :
  client_heap b !! c = Some x → live x → c_rw_lock x = Unlocked →
  closed_if_locked b c true = Done (false, b).
Proof.
  intros Hc [_ Ho (n & En & _)] Hrw. unfold closed_if_locked, client_rdlock, client_unlock.
  rewrite (get_client_eq _ _ _ Hc). cbn [mbind exec_bind]. unfold rd_acquire.
  rewrite decide_True by done. cbn [mbind exec_bind mret exec_ret].
  rewrite get_put. cbn [mbind exec_bind]. rewrite put_put.
  unfold client__is_close. cbn [c_is_close c_conn set_c_rw_lock]. rewrite Ho, En. cbn [orb].
  assert (set_c_rw_lock (set_c_rw_lock x ReadLocked) Unlocked = x) as ->
    by (destruct x; cbn in *; by subst).
  by rewrite put_same.
Qed.

(** Between requests, [client__send] is [frame__send] on the connection of the client. *)
Lemma client__send_eq b c x n f :
  ready b → client_heap b !! c = Some x → c_conn x = Some n →
  client__send big b (Some c) f true
  = '(s, f, n') ← frame__send big n f;
    let b := put_client b c (set_c_conn x (Some n')) in
    if decide (s ≠ BPSP_OK) then mret (s, f, b) else _ ← log__trace f; mret (s, f, b).
Proof.
  intros Hr Hc Hn. destruct (Hr c x Hc) as (Hmu & Hrw & Hx).
  unfold client__send. rewrite (closed_if_locked_eq b c x) by done.
  cbn [mbind exec_bind]. rewrite (mutex_lock_eq b c x) by done.
  cbn [mbind exec_bind]. rewrite get_put. cbn [mbind exec_bind].
  change (c_conn (set_c_mutex x true)) with (c_conn x). rewrite Hn. unfold frame_send_on.
  destruct (frame__send big n f) as [[[s f'] n']| | |]; try done.
  cbn [mbind exec_bind mret exec_ret]. rewrite put_put, mutex_unlock_put.
  cbn [mbind exec_bind].
  assert (set_c_mutex (set_c_conn (set_c_mutex x true) (Some n')) false
          = set_c_conn x (Some n')) as ->
    by (destruct x; cbn in *; by subst).
  done.
Qed.

Lemma heard_conn x n n' o :
  live x → c_conn x = Some n → goes_out n n' o → heard x (set_c_conn x (Some n')) o.
Proof. intros Hl En G. split; try done. by exists n, n'. Qed.

Lemma log__trace_ok f : 0 ≤ opcode f < 9 → log__trace f = Done tt.
Proof.
  intros Ho. unfold log__trace, frame__get_op_text.
  destruct (lookup_lt_is_Some_2 op_text (Z.to_nat (opcode f))) as [t ->]; [cbn; lia|done].
Qed.

(** Whatever the outcome, only bytes for this client go out. *)
Lemma client__send_emits b c x f s f' b' :
  ready b → client_heap b !! c = Some x →
  client__send big b (Some c) f true = Done (s, f', b') →
  (∃ o, emits b b' (to_client c o)) ∧ (f' = f ∨ ∃ p, f' = set_pos f p).
Proof.
  intros Hok Hc E. destruct (Hok c x Hc) as (_ & _ & Hl).
  destruct (lv_conn _ Hl) as (n & En & [Hfd _]).
  rewrite (client__send_eq _ _ _ _ _ Hok Hc En) in E.
  destruct (frame__send big n f) as [[[s1 f1] n']| | |] eqn:Es; try done.
  apply frame__send_goes in Es as [[o G] Hf]; [|done].
  cbn [mbind exec_bind] in E. cbv zeta in E.
  assert (f1 = f' ∧ put_client b c (set_c_conn x (Some n')) = b') as [<- <-].
  { case_decide; [by injection E|]. destruct (log__trace f1); [|done..]. by injection E. }
  split; [|done]. exists o. eapply emits_put; [by apply ready_live|done|by apply (heard_conn x n)].
Qed.

(** A completed frame reaches the peer of an open connection whole. *)
Lemma client__send_exact b c x n f data :
  ready b → client_heap b !! c = Some x → c_conn x = Some n → writable (sock n) →
  malloc_ok (vars_size f) = true → sendable f data → opcode f < 9 →
  ∃ f' b', client__send big b (Some c) f true = Done (BPSP_OK, f', b')
    ∧ (∃ p, f' = set_pos f p) ∧ emits b b' (to_client c (wire_frame f data)).
Proof.
  intros Hok Hc En Hw Hm Hs Ho. destruct (Hok c x Hc) as (_ & _ & Hl).
  destruct (lv_conn _ Hl) as (m & Em & [Hfd _]). assert (m = n) as -> by congruence.
  destruct (frame__send_spec big n f data) as (s' & Es & Hr & Ht & Hw'); [by intros ? ->|done..|].
  rewrite (client__send_eq _ _ _ _ _ Hok Hc En), Es. cbn [mbind exec_bind]. cbv zeta.
  rewrite decide_False by auto. pose proof (fw_opcode _ (sn_wf _ _ Hs)).
  rewrite log__trace_ok by (cbn; lia). cbn [mbind exec_bind mret exec_ret].
  eexists _, _. split_and!; [done|by eexists|].
  eapply emits_put; [by apply ready_live|done|]. apply (heard_conn x n); [done|done|].
  exists s'. by split_and!.
Qed.

(** ** Replies *)

Definition all_writable b : Prop := ∀ c x n,
  client_heap b !! c = Some x → c_conn x = Some n → writable (sock n).

Lemma emits_writable b b' o : all_writable b → emits b b' o → all_writable b'.
Proof.
  intros Hw He c x' n' E En. destruct (emits_bwd _ _ _ _ _ He E) as (x & E' & Hh).
  destruct (hd_conn _ _ _ Hh) as (n & m & Ex & Ex' & (s & Es & _ & _ & Hws)).
  assert (m = n') as -> by congruence. subst n'. cbn. apply Hws. by eapply Hw.
Qed.

Lemma send_out_emits b c x s b' :
  ready b → client_heap b !! c = Some x → send_out big b c = Done (s, b') →
  ∃ o, emits b b' (to_client c o).
Proof.
  intros Hr Hc. unfold send_out. rewrite (get_client_eq _ _ _ Hc). cbn [mbind exec_bind].
  intros E. exec_inv. match goal with Hx : client__send _ _ _ _ _ = _ |- _ =>
    destruct (client__send_emits _ _ _ _ _ _ _ Hr Hc Hx) as [[o Ho] _] end.
  match goal with Hx : get_client _ _ = _ |- _ =>
    unfold get_client in Hx; apply deref_done in Hx; rename Hx into Hg end.
  exists o. eapply emits_ext; [|eapply emits_trans; [exact Ho|eapply emits_out_frame]].
  - intros d. apply app_nil_r.
  - by eapply ready_live, emits_ready.
  - done.
Qed.

Lemma send_out_exact b c x data :
  ready b → all_writable b → client_heap b !! c = Some x →
  malloc_ok (vars_size (out_frame x)) = true → sendable (out_frame x) data →
  opcode (out_frame x) < 9 →
  ∃ b', send_out big b c = Done (BPSP_OK, b')
    ∧ emits b b' (to_client c (wire_frame (out_frame x) data)).
Proof.
  intros Hr Hw Hc Hm Hs Ho. destruct (Hr c x Hc) as (_ & _ & Hl).
  destruct (lv_conn _ Hl) as (n & En & _).
  destruct (client__send_exact b c x n (out_frame x) data) as (f' & b1 & E & _ & He);
    [done|done|done|by eapply Hw|done|done|done|].
  destruct (emits_fwd _ _ _ _ _ He Hc) as (x1 & Hc1 & _).
  unfold send_out. rewrite (get_client_eq _ _ _ Hc). cbn [mbind exec_bind]. rewrite E.
  cbn [mbind exec_bind]. rewrite (get_client_eq _ _ _ Hc1). cbn [mbind exec_bind mret exec_ret].
  eexists. split; [done|].
  eapply emits_ext; [|eapply emits_trans; [exact He|eapply emits_out_frame]].
  - intros d. apply app_nil_r.
  - by eapply ready_live, emits_ready.
  - done.
Qed.

(** The bytes of the reply to a request. *)
Definition reply_bytes (src : bpsp__frame) (s : status__err) (msg : string) : bytes :=
  let data := reply_data s msg in
  wire_frame (reply_frame now (opcode_code (reply_opcode s)) (reply_code s) src data) data.

Lemma reply_data_eq s t msg :
  status__get_text s = Done t →
  reply_data s msg = if decide (s = BPSP_OK) then chars (default_msg msg) else err_payload t msg.
Proof. destruct s; by intros [= <-]. Qed.

Lemma reply_data_ok s msg :
  strlen msg < 4294967200 →
  reply_data s msg ≠ [] ∧ Z.of_nat (List.length (reply_data s msg)) < 4294967296.
Proof.
  intros Hm. destruct (status__get_text_total s) as (t & Et & _).
  pose proof (strlen_nonneg msg). pose proof (err_text_short _ _ Et).
  assert (0 < strlen (default_msg msg) < 4294967200) as Hd.
  { unfold default_msg. destruct (Z.eqb_spec (strlen msg) 0); [by vm_compute|lia]. }
  assert (∀ l : bytes, 0 < Z.of_nat (List.length l) → l ≠ []) as Hne
    by (intros l Hlen ->; cbn in Hlen; lia).
  assert (Z.of_nat (List.length (err_payload t msg)) = strlen t + strlen (default_msg msg) + 3)
    as Hlen.
  { unfold err_payload. rewrite !length_app, !strlen_chars.
    change (List.length (chars "(")) with 1%nat. change (List.length (chars ") ")) with 2%nat.
    lia. }
  rewrite (reply_data_eq s t) by done. case_decide; (split; [apply Hne|]);
    rewrite <- ?strlen_chars, ?Hlen; lia.
Qed.

Lemma handle__reply_quiet b c x s msg :
  client_heap b !! c = Some x → flag__is_set (flag (in_frame x)) FL_ACK = false →
  handle__reply big now b c s msg = Done (BPSP_OK, b).
Proof.
  intros Hc Hf. unfold handle__reply. rewrite (get_client_eq _ _ _ Hc). cbn [mbind exec_bind].
  by rewrite Hf.
Qed.

Lemma handle__reply_emits b c x s msg s' b' :
  ready b → client_heap b !! c = Some x →
  handle__reply big now b c s msg = Done (s', b') → ∃ o, emits b b' (to_client c o).
Proof.
  intros Hr Hc. unfold handle__reply. rewrite (get_client_eq _ _ _ Hc). cbn [mbind exec_bind].
  destruct (flag__is_set _ _).
  2: { intros [= _ <-]. exists []. eapply emits_ext; [intros d; symmetry; apply to_client_nil|].
       by apply emits_refl, ready_live. }
  intros E. exec_inv. match goal with f : bpsp__frame |- _ =>
    pose proof (emits_out_frame b c x f (ready_live _ Hr) Hc) as He end.
  case_decide; exec_inv.
  - exists []. eapply emits_ext; [intros d; symmetry; apply to_client_nil|done].
  - match goal with Hx : send_out _ _ _ = _ |- _ =>
      apply (send_out_emits _ _ _ _ _ (emits_ready _ _ _ Hr He) (lookup_insert_eq _ _ _)) in Hx
        as [o Ho] end.
    exists o. eapply emits_ext; [|by eapply emits_trans]. done.
Qed.

(** A request with the flag ACK is answered. *)
Lemma handle__reply_exact b c x s msg :
  (∀ n, malloc_ok n = true) → now ≠ ""%string → ready b → all_writable b →
  client_heap b !! c = Some x → flag__is_set (flag (in_frame x)) FL_ACK = true →
  answerable now (in_frame x) (reply_code s) → strlen msg < 4294967200 →
  ∃ b', handle__reply big now b c s msg = Done (BPSP_OK, b')
    ∧ emits b b' (to_client c (reply_bytes (in_frame x) s msg)).
Proof.
  intros Hm Hn Hr Hw Hc Hf Han Hmsg. unfold handle__reply. rewrite (get_client_eq _ _ _ Hc).
  cbn [mbind exec_bind]. rewrite Hf. destruct (reply_data_ok s msg Hmsg) as [Hd Hlen].
  set (g := reply_frame now (opcode_code (reply_opcode s)) (reply_code s) (in_frame x)
              (reply_data s msg)).
  assert ((if decide (s ≠ BPSP_OK)
           then frame__ERR now (out_frame x) (Some (in_frame x)) s (Some msg)
           else frame__OK now (out_frame x) (Some (in_frame x)) (Some msg))
          = Done (BPSP_OK, g)) as ->.
  { destruct (status__get_text_total s) as (t & Et & _). unfold g. rewrite (reply_data_eq s t) by done.
    destruct (decide (s = BPSP_OK)) as [->|Hs].
    - rewrite decide_False by auto. by rewrite frame__OK_spec by (done || lia).
    - rewrite decide_True by done.
      rewrite (frame__ERR_reply_spec now _ _ _ t) by (done || by destruct s).
      by destruct s. }
  cbn [mbind exec_bind]. rewrite decide_False by auto.
  pose proof (emits_out_frame b c x g (ready_live _ Hr) Hc) as He.
  destruct (send_out_exact (put_client b c (set_out_frame x g)) c (set_out_frame x g)
    (reply_data s msg)) as (b' & -> & He'); [by eapply emits_ready|by eapply emits_writable
    |apply lookup_insert_eq|done| |by destruct s|].
  { apply reply_sendable; try done; destruct s; done. }
  exists b'. split; [done|]. eapply emits_ext; [|by eapply emits_trans]. done.
Qed.
End Delivery.
