(* ===== verification/Publish.v ===== *)
(** * Publishing: the frames that the subscribers of a topic receive *)
From S2P Require Import Prelude Text Status Uthash Mem Net Frame FrameFacts FrameOp FrameRw.
From S2P Require Import PubHeaders Transfer Subscriber Topic TopicTokens TopicShape TopicSpec.
From S2P Require Import TopicFind TopicService Broker Client BrokerOps Handle BrokerSpec.
From S2P Require Import ClientSpec Delivery.
Local Open Scope Z_scope.

(** ** The text of an address *)

Lemma decimal_length fuel n acc k :
  0 ≤ n < 10 ^ Z.of_nat (S k) → strlen (decimal fuel n acc) ≤ strlen acc + Z.of_nat (S k).
Proof.
  revert n acc k. induction fuel as [|fuel IH]; intros n acc k Hn; cbn [decimal]; [lia|].
  set (acc' := String _ acc). assert (strlen acc' = strlen acc + 1) as Hacc
    by (unfold strlen, acc'; cbn; lia).
  destruct (Z.ltb_spec n 10); [lia|]. destruct k as [|k]; [cbn in Hn; lia|].
  specialize (IH (n / 10) acc' k). rewrite Hacc in IH.
  assert (0 ≤ n / 10 < 10 ^ Z.of_nat (S k)); [|lia]. split; [dlia|].
  apply Z.div_lt_upper_bound; [lia|]. rewrite (Nat2Z.inj_succ (S k)), Z.pow_succ_r in Hn by lia.
  lia.
Qed.

Lemma addr_text_length ip port :
  0 ≤ port < 65536 → strlen ip < strlen (addr_text ip port) < strlen ip + 10.
Proof.
  intros Hp. unfold addr_text. rewrite !strlen_app. change (strlen ":") with 1.
  pose proof (decimal_length 10 port "" 4 ltac:(cbn; lia)) as Hd. change (strlen "") with 0 in Hd.
  pose proof (strlen_nonneg (decimal 10 port "")). lia.
Qed.

(** ** The frame for a subscriber *)

Definition slots (tag topic filter from : string) : list (string * string) :=
  [("x-sub-tag", tag); ("x-origin-topic", topic); ("x-topic", filter); ("x-from", from)]%string.

(** What the four headers may take when tags and filters have at most [L] bytes. *)
Definition slot_room (L : Z) (topic from : string) : list (string * Z) :=
  [("x-sub-tag", 14 + L); ("x-origin-topic", 19 + strlen topic); ("x-topic", 12 + L);
   ("x-from", 11 + strlen from)]%string.

Lemma slot_room_nodup L topic from : NoDup (slot_room L topic from).*1.
Proof. apply (bool_decide_unpack _). by vm_compute. Qed.

Lemma slots_nodup tag topic filter from : NoDup (slots tag topic filter from).*1.
Proof. apply (bool_decide_unpack _). by vm_compute. Qed.

Lemma slot_room_allowance L topic from :
  allowance (slot_room L topic from) = 56 + 2 * L + strlen topic + strlen from.
Proof. unfold allowance, slot_room. cbn. lia. Qed.

(** The topic filter and the tag of a subscriber. *)
Definition filter_of (p : bpsp__subscriber) : string :=
  match subscriber__get_topic p with Done t => t | _ => ""%string end.
Definition tag_of (p : bpsp__subscriber) : string := default ""%string (sub_tag p).

Section Frames.
Context `{Malloc}.
Variable now : string.

(** The copy of the published frame, with the headers [h]. *)
Definition msg_with (src : bpsp__frame) (h : list (string * header_value)) : bpsp__frame :=
  {| vars_size := headers_size h; opcode := opcode_code OP_MSG; flag := flag src;
     data_size := payload_size src; var_headers := h;
     payload := payload src; payload_size := payload_size src;
     pos := payload_size src; _is_completed := 1 |}.

Definition msg_base (src : bpsp__frame) : list (string * header_value) :=
  headers_after (var_headers src) "x-time" now.

(** The frame that a subscriber with this tag and filter receives. *)
Definition msg_frame (src : bpsp__frame) (topic from tag filter : string) : bpsp__frame :=
  msg_with src (set_slots (msg_base src) (slots tag topic filter from)).

(** A state of the frame during the deliveries. *)
Record slot_frame (K : list (string * Z)) (src : bpsp__frame) (f : bpsp__frame)
    (h : list (string * header_value)) : Prop := {
  sf_frame : ∃ p, f = set_pos (msg_with src h) p;
  sf_slack : slack K (msg_base src) h;
  sf_str : all_str h;
  sf_keys k v : (k, v) ∈ h → strlen k ≠ 0;
}.

(** The room suffices. *)
Record roomy (K : list (string * Z)) (src : bpsp__frame) : Prop := {
  ro_wf : frame_wf src;
  ro_keys : NoDup K.*1;
  ro_size : headers_size (msg_base src) + allowance K < 65536;
}.

Lemma msg_base_nodup src : frame_wf src → NoDup (msg_base src).*1.
Proof. intros [[] _ _ _]. by apply headers_after_nodup. Qed.

Lemma msg_base_key src k v :
  (∀ v', (k, v') ∉ var_headers src) → k ≠ "x-time"%string → (k, v) ∉ msg_base src.
Proof.
  intros Hk Hne. unfold msg_base, headers_after. destruct (hash_find _ _).
  - intros [w ?]%hash_set_elem. by eapply Hk.
  - intros [?|[= -> ->]%list_elem_of_singleton]%elem_of_app; [by eapply Hk|done].
Qed.

Lemma slot_headers_wf K src f h : roomy K src → slot_frame K src f h → headers_wf f.
Proof.
  intros [Hw HK Hs] [(p & ->) Hsl Ha Hk].
  pose proof (slack_size _ _ _ HK (msg_base_nodup _ Hw) Hsl).
  split; cbn; [done|lia|apply Hsl|done].
Qed.

Lemma slot_set K src f h k v a :
  malloc_ok sizeof_bpsp__var_header = true → roomy K src → slot_frame K src f h →
  (k, a) ∈ K → k ≠ ""%string → strlen v ≠ 0 → strlen k + strlen v + 5 ≤ a →
  ∃ f', frame__set_var_header f (Some k) (Some v) = Done (BPSP_OK, f')
    ∧ slot_frame K src f' (headers_after h k v).
Proof.
  intros Hm Hro Hsf Hk Hne Hv Ha. pose proof (slot_headers_wf _ _ _ _ Hro Hsf) as Hwf.
  pose proof Hro as [Hw HK Hs]. pose proof Hsf as [(p & Ef) Hsl Hstr Hkeys].
  assert (slack K (msg_base src) (headers_after h k v)) as Hsl' by by eapply slack_set.
  pose proof (slack_size _ _ _ HK (msg_base_nodup _ Hw) Hsl').
  assert (var_headers f = h) as Eh by by rewrite Ef.
  eexists. split; [apply set_var_header_ok; rewrite ?Eh; done || lia|]. rewrite Eh.
  split; [exists p; by rewrite Ef|done|by apply headers_after_all_str|].
  intros k' w. unfold headers_after. destruct (hash_find k h).
  - intros [w' ?]%hash_set_elem. by eapply Hkeys.
  - intros [?|[= -> ->]%list_elem_of_singleton]%elem_of_app; [by eapply Hkeys|].
    by rewrite strlen_zero.
Qed.

(** Such a frame can be sent, and where its cursor stands makes no difference. *)
Lemma slot_sendable K src f h data :
  roomy K src → slot_frame K src f h → payload_is src data → sendable f data.
Proof.
  intros Hro Hsf Hd. pose proof (slot_headers_wf _ _ _ _ Hro Hsf) as Hwf.
  pose proof Hsf as [(p & ->) _ Hstr _]. destruct Hro as [[_ [Hp1 Hp2 Hp3] _ Hfl] _ _].
  split; [split|done|done|done]; cbn; [done|by split|done|done].
Qed.

Lemma slot_wire K src f h data :
  slot_frame K src f h → wire_frame f data = wire_frame (msg_with src h) data.
Proof. by intros [(p & ->) _ _ _]. Qed.
End Frames.

(** The subscribers of one client, and where they are. *)
Lemma found_of (h : positive → option bpsp__subscriber) (d : positive)
    (found : list bpsp__subscriber) (locs : list positive) :
  Some <$> found = h <$> locs →
  Some <$> filter (fun p => client p = d) found
  = h <$> filter (fun s => client <$> h s = Some d) locs.
Proof.
  revert locs. induction found as [|p found IH]; intros [|s locs] E; try done.
  cbn [fmap list_fmap] in E. injection E as Ep E. rewrite !filter_cons, <- Ep. cbn [fmap option_fmap option_map].
  specialize (IH _ E). destruct (decide (client p = d)) as [Hp|Hp].
  - rewrite decide_True by (by rewrite Hp). cbn [fmap list_fmap]. by rewrite IH, <- Ep.
  - by rewrite decide_False by congruence.
Qed.

Section Publish.
Context {Sk : Type} `{SocketLaws Sk} `{Malloc} `{!TopicService}.
Variable big : bool.
Variable now : string.
Local Notation client_t := (bpsp__client Sk).
Local Notation broker_t := (bpsp__broker Sk).
Implicit Types (b : broker_t) (x : client_t).

(** ** One delivery *)

Lemma emits_locked b b' l o :
  cli_rw_lock b = Unlocked → emits (with_cli_rw_lock b l) b' o → emits b (cli_unlock b') o.
Proof.
  intros Hl [R C]. split; [|exact C]. rewrite R. unfold cli_unlock. cbn. by destruct b; cbn in *; subst.
Qed.

(** [p] is a subscriber of a client in the table of the broker. *)
Record deliverable b (p : bpsp__subscriber) : Prop := {
  dl_topic : subscriber__get_topic p = Done (filter_of p);
  dl_filter : filter_of p ≠ ""%string;
  dl_tag : sub_tag p = Some (tag_of p);
  dl_target : ∃ i y, client_id p = Some i ∧ hash_find i (clients b) = Some (client p)
    ∧ client_heap b !! client p = Some y;
}.

Lemma emits_deliverable b b' o p : emits b b' o → deliverable b p → deliverable b' p.
Proof.
  intros He [D1 D2 D3 (i & y & Hi & Hf & Hy)]. split; [done|done|done|].
  destruct (emits_fwd _ _ _ _ _ He Hy) as (y' & Hy' & _). exists i, y'.
  split_and!; [done| |done]. by rewrite (em_rest _ _ _ He).
Qed.

Lemma set_x_from_eq b c x n ip port f :
  client_heap b !! c = Some x → c_conn x = Some n → addr n = (ip, port) →
  0 ≤ port < 65536 → malloc_ok (strlen ip + 10) = true →
  set_x_from b c f = frame__set_var_header f (Some "x-from"%string) (Some (addr_text ip port)).
Proof.
  intros Hc Hn Ha Hp Hm. unfold set_x_from. rewrite (get_client_eq _ _ _ Hc).
  cbn [mbind exec_bind]. rewrite Hn. cbn [deref mbind exec_bind]. rewrite Ha, Hm. cbv zeta.
  rewrite (proj2 (Z.ltb_lt _ _)); [done|]. by apply addr_text_length.
Qed.

Lemma deliver_exact b c x n ip port p K src f h data (L : Z) topic :
  (∀ k, malloc_ok k = true) → ready b → all_writable b → cli_rw_lock b = Unlocked →
  client_heap b !! c = Some x → c_conn x = Some n → addr n = (ip, port) →
  K = slot_room L topic (addr_text ip port) → roomy now K src → payload_is src data →
  deliverable b p → strlen (filter_of p) ≤ L → slot_frame now K src f h →
  let h' := headers_after (headers_after h "x-topic" (filter_of p)) "x-from" (addr_text ip port) in
  ∃ f' b', broker__deliver_msg big b (Some c) p f = Done (BPSP_OK, f', b')
    ∧ slot_frame now K src f' h'
    ∧ emits b b' (to_client (client p) (wire_frame (msg_with src h') data)).
Proof.
  intros Hm Hr Hw Hlk Hc Hn Ha HK Hro Hd [Hp1 Hp2 Hp3 (i & y & Hi & Hf & Hy)] HL Hsf h'.
  destruct (Hr c x Hc) as (_ & _ & Hl). destruct (lv_conn _ Hl) as (n' & Hn' & [_ Hport]).
  assert (n' = n) as -> by congruence. rewrite Ha in Hport. cbn in Hport.
  pose proof (addr_text_length ip port Hport) as [Hat _]. pose proof (strlen_nonneg ip).
  unfold broker__deliver_msg. rewrite (get_client_eq _ _ _ Hc). cbn [mbind exec_bind].
  rewrite (lv_broker _ Hl). cbn [negb]. rewrite Hp1. cbn [mbind exec_bind].
  destruct (slot_set now K src f h "x-topic" (filter_of p) (12 + L)) as (f1 & E1 & Hsf1);
    [done|done|done|subst K; right; right; left|done|by rewrite strlen_zero|
    change (strlen "x-topic") with 7; lia|].
  rewrite E1. cbn [mbind exec_bind]. rewrite decide_False by auto.
  unfold cli_rdlock, rd_acquire. rewrite decide_True by done.
  cbn [mbind exec_bind mret exec_ret]. unfold subscriber__get_client_id. rewrite Hi.
  cbn [deref mbind exec_bind clients with_cli_rw_lock]. rewrite Hf.
  set (b1 := with_cli_rw_lock b ReadLocked). unfold deliver_to_target.
  rewrite decide_True by done. rewrite (set_x_from_eq b1 c x n ip port) by done.
  destruct (slot_set now K src f1 (headers_after h "x-topic" (filter_of p)) "x-from"
    (addr_text ip port) (11 + strlen (addr_text ip port)))
    as (f2 & E2 & Hsf2); [done|done|exact Hsf1|subst K; do 3 right; left|done|lia|
    change (strlen "x-from") with 6; lia|].
  rewrite E2. cbn [mbind exec_bind]. rewrite decide_False by auto.
  destruct (Hr _ _ Hy) as (_ & _ & Hly). destruct (lv_conn _ Hly) as (m & Em & _).
  destruct (client__send_exact big b1 (client p) y m f2 data) as (f3 & b2 & E3 & (q & Eq) & He);
    [done|done|done|by eapply (Hw (client p) y)|done|by eapply slot_sendable| |].
  { destruct (sf_frame _ _ _ _ _ Hsf2) as (q & ->). cbn. lia. }
  rewrite E3. cbn [mbind exec_bind mret exec_ret]. exists f3, (cli_unlock b2).
  split_and!; [done| |].
  - destruct Hsf2 as [(q' & Ef2) ? ? ?]. split; [|done|done|done]. exists q. by rewrite Eq, Ef2.
  - rewrite <- (slot_wire now K src f2 _ data) by exact Hsf2. by eapply emits_locked.
Qed.

(** ** All deliveries of a frame *)

(** What the client [d] receives when [c] publishes: one frame for each of its subscribers,
    unless it is the publisher and has not asked for an echo. *)
Definition deliveries (src : bpsp__frame) (topic from : string) (data : bytes)
    (c : positive) (echo : bool) (found : list bpsp__subscriber) (d : positive) : bytes :=
  found ≫= fun p =>
    if bool_decide (client p = d) && (echo || negb (bool_decide (d = c)))
    then wire_frame (msg_frame now src topic from (tag_of p) (filter_of p)) data
    else [].

Lemma deliveries_cons src topic from data c echo p found d :
  deliveries src topic from data c echo (p :: found) d
  = to_client (client p)
      (if echo || negb (bool_decide (client p = c))
       then wire_frame (msg_frame now src topic from (tag_of p) (filter_of p)) data else []) d
    ++ deliveries src topic from data c echo found d.
Proof.
  unfold deliveries, to_client. cbn. f_equal. case_bool_decide as Hd; cbn.
  - subst d. by rewrite decide_True.
  - by rewrite decide_False by congruence.
Qed.

(** The headers of the frame before a delivery do not show in it. *)
Definition fresh_slots (src : bpsp__frame) (h : list (string * header_value)) : Prop :=
  ∀ tag topic filter from,
    strlen tag ≠ 0 → strlen topic ≠ 0 → strlen filter ≠ 0 → strlen from ≠ 0 →
    set_slots h (slots tag topic filter from)
    = set_slots (msg_base now src) (slots tag topic filter from).

Lemma slots_nonempty tag topic filter from :
  strlen tag ≠ 0 → strlen topic ≠ 0 → strlen filter ≠ 0 → strlen from ≠ 0 →
  Forall (fun e => strlen e.2 ≠ 0) (slots tag topic filter from).
Proof. intros. by repeat constructor. Qed.

Lemma fresh_slots_set src tag topic filter from :
  frame_wf src →
  strlen tag ≠ 0 → strlen topic ≠ 0 → strlen filter ≠ 0 → strlen from ≠ 0 →
  fresh_slots src (set_slots (msg_base now src) (slots tag topic filter from)).
Proof.
  intros Hw ???? tag' topic' filter' from' ????. apply set_slots_again.
  - by apply msg_base_nodup.
  - done.
  - apply slots_nodup.
  - by apply slots_nonempty.
  - by apply slots_nonempty.
Qed.

Lemma pub_loop_exact b c x n ip port topic src data (L : Z) found f h :
  let from := addr_text ip port in
  let K := slot_room L topic from in
  let echo := flag__is_set (flag src) FL_PUB_ECHO in
  (∀ k, malloc_ok k = true) → ready b → all_writable b → cli_rw_lock b = Unlocked →
  client_heap b !! c = Some x → in_frame x = src → c_conn x = Some n → addr n = (ip, port) →
  roomy now K src → payload_is src data → strlen topic ≠ 0 →
  (∀ p, p ∈ found → deliverable b p ∧ strlen (filter_of p) ≤ L ∧ 0 < strlen (tag_of p) ≤ L) →
  slot_frame now K src f h → fresh_slots src h →
  ∃ b', pub_loop big b c topic found f = Done b'
    ∧ emits b b' (deliveries src topic from data c echo found).
Proof.
  intros from K echo Hm Hr Hw Hlk Hc Hin Hn Ha Hro Hd Htopic. revert b x n f h Hr Hw Hlk Hc Hin Hn Ha.
  induction found as [|p found IH]; intros b x n f h Hr Hw Hlk Hc Hin Hn Ha Hp Hsf Hfr.
  { exists b. split; [done|]. by apply emits_refl, ready_live. }
  destruct (Hp p) as (Hdl & HL & Ht); [left|].
  assert (∀ q, q ∈ found → deliverable b q ∧ strlen (filter_of q) ≤ L ∧ 0 < strlen (tag_of q) ≤ L)
    as Hp' by (intros q Hq; apply Hp; by right).
  cbn [pub_loop]. rewrite (get_client_eq _ _ _ Hc). cbn [mbind exec_bind]. rewrite Hin.
  fold echo.
  destruct (bool_decide (client p = c) && negb echo) eqn:Hskip.
  { destruct (IH b x n f h) as (b' & E & He); try done. exists b'. split; [done|].
    eapply emits_ext; [|exact He]. intros d. rewrite deliveries_cons.
    apply andb_prop in Hskip as [Hpc Hecho]. rewrite Hpc. destruct echo; [done|]. cbn.
    by rewrite to_client_nil. }
  destruct (slot_set now K src f h "x-sub-tag" (tag_of p) (14 + L)) as (f1 & E1 & Hsf1);
    [done|done|done|left|done|lia|change (strlen "x-sub-tag") with 9; lia|].
  rewrite (dl_tag _ _ Hdl), E1. cbn [mbind exec_bind]. rewrite decide_False by auto.
  destruct (slot_set now K src f1 (headers_after h "x-sub-tag" (tag_of p)) "x-origin-topic" topic (19 + strlen topic))
    as (f2 & E2 & Hsf2); [done|done|exact Hsf1|right; left|done|done
    |change (strlen "x-origin-topic") with 14; lia|].
  rewrite E2. cbn [mbind exec_bind]. rewrite decide_False by auto.
  destruct (deliver_exact b c x n ip port p K src f2 _ data L topic Hm Hr Hw Hlk Hc Hn Ha eq_refl
    Hro Hd Hdl HL Hsf2) as (f3 & b1 & -> & Hsf3 & He1). cbn [mbind exec_bind].
  destruct (emits_fwd _ _ _ _ _ He1 Hc) as (x1 & Hc1 & Hh1).
  destruct (hd_conn _ _ _ Hh1) as (m & n1 & Em & En1 & (s & Es & _)).
  assert (m = n) as -> by congruence.
  set (h3 := headers_after (headers_after (headers_after (headers_after h "x-sub-tag" (tag_of p))
    "x-origin-topic" topic) "x-topic" (filter_of p)) "x-from" from) in *.
  destruct (Hr c x Hc) as (_ & _ & Hl). destruct (lv_conn _ Hl) as (n' & Hn' & [_ Hport]).
  assert (n' = n) as -> by congruence. rewrite Ha in Hport. cbn in Hport.
  pose proof (addr_text_length ip port Hport) as [Hat _]. pose proof (strlen_nonneg ip).
  assert (strlen (filter_of p) ≠ 0) as Hfil by (rewrite strlen_zero; apply Hdl).
  assert (h3 = set_slots (msg_base now src) (slots (tag_of p) topic (filter_of p) from)) as Eh3.
  { rewrite <- Hfr; [done|lia|done|done|unfold from; lia]. }
  destruct (IH b1 x1 n1 f3 h3) as (b' & E & He).
  - by eapply emits_ready.
  - by eapply emits_writable.
  - by rewrite (em_rest _ _ _ He1).
  - done.
  - by rewrite (hd_in _ _ _ Hh1).
  - done.
  - by subst n1.
  - intros q Hq. destruct (Hp' q Hq) as (? & ?). split; [by eapply emits_deliverable|done].
  - exact Hsf3.
  - rewrite Eh3. apply fresh_slots_set; [apply Hro|lia|done|done|unfold from; lia].
  - exists b'. split; [done|]. eapply emits_ext; [|by eapply emits_trans]. intros d. cbn beta.
    rewrite deliveries_cons. f_equal. f_equal. fold from. fold h3. rewrite Eh3.
    destruct echo; [done|]. cbn in Hskip. rewrite andb_true_r in Hskip. by rewrite Hskip.
Qed.

(** ** The request *)

(** Tags are not empty; tags and filters have at most [L] bytes. *)
Definition subs_bounded (L : Z) b : Prop := ∀ s sub,
  sub_heap (topic_tree b) !! s = Some sub →
  strlen (filter_of sub) ≤ L ∧ 0 < strlen (tag_of sub) ≤ L.

(** [src] is a complete request with a topic, and the headers of the deliveries have room. *)
Record publishable (L : Z) (src : bpsp__frame) (topic from : string) (data : bytes) : Prop := {
  pb_bound : 0 ≤ L;
  pb_wf : frame_wf src;
  pb_full : Forall full_header (var_headers src);
  pb_opcode : 0 < opcode src;
  pb_done : _is_completed src ≠ 0;
  pb_data : payload_is src data;
  pb_topic : frame__get_var_header src (Some "x-topic"%string) = Some (Str topic);
  pb_nul : no_nul (chars topic);
  pb_size : headers_size (msg_base now src) + (56 + 2 * L + strlen topic + strlen from) < 65536;
}.

(** The subscribers under a filter that matches. *)
Definition subscribed b (toks : list string) (s : positive) : Prop :=
  ∃ p i, matches p toks ∧ (i, s) ∈ ts_at (topic_tree b) p.

Lemma filed_deliverable b p i s sub :
  broker_ok b → (i, s) ∈ ts_at (topic_tree b) p → sub_heap (topic_tree b) !! s = Some sub →
  deliverable b sub.
Proof.
  intros [Hr _ _ Ht _] Hin Hs. destruct (rg_filed _ Hr _ _ _ Hin) as (d & y & k & Hd & Hk).
  destruct (rg_owned _ Hr _ _ _ _ Hd Hk) as (sub' & E & [Hc Hi _ _ (tag & topic & Etag & Et & _)]).
  assert (sub' = sub) as -> by congruence.
  destruct (ts_entry _ _ _ _ (rg_tree _ Hr) Hin) as (sub' & E' & _ & Hp & _).
  assert (sub' = sub) as -> by congruence.
  split.
  - unfold filter_of. by rewrite Et.
  - unfold filter_of. rewrite Et. intros ->. unfold sub_path, sub_tokens in Hp.
    by rewrite Et in Hp.
  - unfold tag_of. by rewrite Etag.
  - exists (c_id y), y. rewrite Hc. split_and!; [done|by apply table_find|done].
Qed.

Lemma pub_deliver_exact b c x n ip port topic src data (L : Z) found :
  let from := addr_text ip port in
  let echo := flag__is_set (flag src) FL_PUB_ECHO in
  (∀ k, malloc_ok k = true) → now ≠ ""%string → ready b → all_writable b →
  cli_rw_lock b = Unlocked →
  client_heap b !! c = Some x → in_frame x = src → c_conn x = Some n → addr n = (ip, port) →
  publishable L src topic from data → topic ≠ ""%string →
  (∀ p, p ∈ found → deliverable b p ∧ strlen (filter_of p) ≤ L ∧ 0 < strlen (tag_of p) ≤ L) →
  ∃ b', pub_deliver big now b c topic found = Done (BPSP_OK, b')
    ∧ emits b b' (deliveries src topic from data c echo found).
Proof.
  intros from echo Hm Hnow Hr Hw Hlk Hc Hin Hn Ha [HL Hwf Hfull Hop Hdone Hd _ _ Hs] Htop Hp.
  unfold pub_deliver. rewrite (get_client_eq _ _ _ Hc). cbn [mbind exec_bind].
  unfold frame__new, frame__alloc. rewrite Hm, Hin. cbv iota.
  pose proof (strlen_nonneg topic). pose proof (strlen_nonneg from).
  pose proof (headers_size_nonneg (msg_base now src)).
  rewrite (frame__MSG_spec now frame_zero src) by (done || (by split) || (fold (msg_base now src); lia)).
  fold (msg_base now src). cbn [mbind exec_bind]. rewrite decide_True by done.
  pose proof (slot_room_allowance L topic from) as Hallow.
  assert (roomy now (slot_room L topic from) src) as Hro
    by (split; [done|apply slot_room_nodup|lia]).
  assert (strlen now ≠ 0) as Hnow' by (by rewrite strlen_zero).
  destruct (pub_loop_exact b c x n ip port topic src data L found
    (set_pos (msg_with src (msg_base now src)) (payload_size src)) (msg_base now src))
    as (b' & E & He); try done.
  - by rewrite strlen_zero.
  - split; [by eexists| | |].
    + apply slack_refl; [by apply msg_base_nodup|]. intros k a.
      unfold slot_room. rewrite !elem_of_cons, elem_of_nil. intros Hk.
      destruct_or! Hk; try done; injection Hk as -> ->; fold from; lia.
    + apply headers_after_all_str; [done|]. by apply full_headers_all_str.
    + intros k v Hk. rewrite strlen_zero. intros ->. revert Hk. apply msg_base_key; [|done].
      intros v' Hv'. by apply (hw_nonempty _ (fw_headers _ Hwf) ""%string v' Hv').
  - exists b'. split; [|exact He]. by setoid_rewrite E.
Qed.

(** What [handle__PUB] answers. *)
Definition pub_reply (src : bpsp__frame) (c : positive) : positive → bytes :=
  if flag__is_set (flag src) FL_ACK then to_client c (reply_bytes now src BPSP_OK "PUB OK.")
  else to_nobody.

Lemma handle__PUB_exact b c x n ip port topic toks src data (L : Z) :
  let from := addr_text ip port in
  let echo := flag__is_set (flag src) FL_PUB_ECHO in
  (∀ k, malloc_ok k = true) → now ≠ ""%string → broker_ok b → all_writable b →
  client_heap b !! c = Some x → in_frame x = src → c_conn x = Some n → addr n = (ip, port) →
  publishable L src topic from data → subs_bounded L b →
  (flag__is_set (flag src) FL_ACK = true → answerable now src "200") →
  topic_tokens topic = Some toks →
  ∃ found locs b', handle__PUB big now b c = Done (BPSP_OK, b')
    ∧ Some <$> found = (fun s => sub_heap (topic_tree b) !! s) <$> locs ∧ NoDup locs
    ∧ (∀ s, s ∈ locs ↔ subscribed b toks s)
    ∧ emits b b' (fun d => deliveries src topic from data c echo found d ++ pub_reply src c d).
Proof.
  intros from echo Hm Hnow Hok Hw Hc Hin Hn Ha Hpb HL Hack Htok.
  pose proof Hpb as [_ _ _ _ _ _ Htop Hnul _].
  pose proof (broker_ok_ready _ Hok) as Hr. pose proof Hok as [Hreg _ [Hlt Hlc _ _] _ _].
  unfold handle__PUB. rewrite (get_client_eq _ _ _ Hc). cbn [mbind exec_bind].
  rewrite Hin, Htop. cbn [header_text deref mbind exec_bind].
  pose proof (ts_find (topic_tree b) topic true (rg_tree _ Hreg) (fun _ => Hlt) Hnul) as Hf.
  rewrite Htok in Hf. destruct Hf as (found & locs & Ef & Efl & Hnd & Hl).
  exists found, locs.
  unfold broker__find_subs. rewrite Ef. cbn [mbind exec_bind mret exec_ret].
  assert (with_tree b (topic_tree b) = b) as -> by (by destruct b).
  assert (∀ p, p ∈ found → deliverable b p ∧ strlen (filter_of p) ≤ L
            ∧ 0 < strlen (tag_of p) ≤ L) as Hp.
  { intros p Hpf. apply (list_elem_of_fmap_2 Some) in Hpf. rewrite Efl in Hpf.
    apply list_elem_of_fmap in Hpf as (s & Es & Hs). apply Hl in Hs as (q & i & _ & Hin').
    split; [by eapply filed_deliverable|by eapply HL]. }
  assert (topic ≠ ""%string) as Hne by (intros ->; done).
  assert (∃ b1, (match found with
                 | p :: ps => pub_deliver big now b c topic (p :: ps)
                 | [] => mret (BPSP_OK, b)
                 end) = Done (BPSP_OK, b1)
            ∧ emits b b1 (deliveries src topic from data c echo found)) as (b1 & E1 & He1).
  { destruct found as [|p found].
    - exists b. split; [done|]. by apply emits_refl, ready_live.
    - by apply (pub_deliver_exact b c x n ip port topic src data L (p :: found)). }
  rewrite E1. cbn [mbind exec_bind]. rewrite decide_False by auto.
  destruct (emits_fwd _ _ _ _ _ He1 Hc) as (x1 & Hc1 & Hh1).
  pose proof (hd_in _ _ _ Hh1) as Hin1. rewrite Hin in Hin1. unfold pub_reply.
  destruct (flag__is_set (flag src) FL_ACK) eqn:Hflag.
  - destruct (handle__reply_exact big now b1 c x1 BPSP_OK "PUB OK.") as (b' & -> & He');
      [done|done|by eapply emits_ready|by eapply emits_writable|done|by rewrite Hin1
      |rewrite Hin1; by apply Hack|by vm_compute|].
    exists b'. split_and!; [done|done|done|done|]. rewrite Hin1 in He'. by eapply emits_trans.
  - rewrite (handle__reply_quiet big now b1 c x1) by (done || by rewrite Hin1).
    exists b1. split_and!; [done|done|done|done|]. eapply emits_ext; [|exact He1].
    intros d. cbn. unfold to_nobody. by rewrite app_nil_r.
Qed.
End Publish.
