(* ===== verification/Safe.v ===== *)
(** * Safe executions: no deadlock with oneself, no endless loop

    [safe P m]: when [m] ends, its result satisfies [P]; it neither waits for a lock that the
    thread holds nor exhausts the fuel of a loop.  It may be undefined: what the peers send
    decides that (a header with an empty value, an opcode without a text). *)
From S2P Require Import Prelude Status Datatype Uthash Mem Net Frame FrameFacts HeaderCodec.
From S2P Require Import FrameOp FrameRw Transfer.
Local Open Scope Z_scope.

Definition safe {A} (P : A → Prop) (m : exec A) : Prop :=
  match m with Done a => P a | Undef => True | _ => False end.

Definition halts {A} : exec A → Prop := safe (fun _ => True).

Lemma safe_mono {A} (P Q : A → Prop) m : safe P m → (∀ a, P a → Q a) → safe Q m.
Proof. destruct m; cbn; auto. Qed.

Lemma safe_bind {A B} (P : A → Prop) (Q : B → Prop) m k :
  safe P m → (∀ a, P a → safe Q (k a)) → safe Q (m ≫= k).
Proof. destruct m; cbn; auto. Qed.

Lemma safe_split {A} (P : A → Prop) m : halts m → (∀ a, m = Done a → P a) → safe P m.
Proof. destruct m; cbn; auto. Qed.

Lemma safe_done {A} (P : A → Prop) m a : safe P m → m = Done a → P a.
Proof. by intros Hs ->. Qed.

Lemma halts_bind {A B} (m : exec A) (k : A → exec B) :
  halts m → (∀ a, halts (k a)) → halts (m ≫= k).
Proof. intros Hm Hk. eapply safe_bind; [exact Hm|]. intros a _. apply Hk. Qed.

Lemma safe_deref {A} (P : A → Prop) (o : option A) : (∀ a, o = Some a → P a) → safe P (deref o).
Proof. destruct o; cbn; auto. Qed.

Create HintDb halts discriminated.

(** Follow the structure of the program. *)
Ltac halts :=
  repeat first
    [ exact I
    | assumption
    | progress (auto with halts nocore)
    | match goal with
      | |- safe (fun _ => True) ?m => change (halts m)
      | |- halts (_ ≫= _) => apply halts_bind; [|intros ?]
      | |- halts (bind_ok _ _) => unfold bind_ok
      | |- halts (let _ := _ in _) => cbv zeta
      | |- halts (deref ?o) => destruct o
      | |- halts (match ?x with _ => _ end) => destruct x
      end ].

Section Frames.
Context `{Malloc}.
Variable now : string.

Lemma set_var_header_halts f k v : halts (frame__set_var_header f k v).
Proof. unfold frame__set_var_header, value_strlen. halts. Qed.
#[local] Hint Resolve set_var_header_halts : halts.

Lemma copy_var_headers_halts f hs : halts (frame__copy_var_headers f hs).
Proof. revert f. induction hs as [|[k [|v]] hs IH]; intros f; cbn [frame__copy_var_headers]; halts. Qed.

Lemma build_halts f : halts (frame__build now f).
Proof. unfold frame__build. halts. Qed.

Lemma memcpy_halts d o s n : halts (mem__memcpy d o s n).
Proof. unfold mem__memcpy. halts. Qed.
#[local] Hint Resolve copy_var_headers_halts build_halts memcpy_halts : halts.

Lemma malloc_payload_halts f n : halts (frame__malloc_payload f n).
Proof. unfold frame__malloc_payload. halts. Qed.
#[local] Hint Resolve malloc_payload_halts : halts.

Lemma put_payload_halts f p n app : halts (frame__put_payload f p n app).
Proof. unfold frame__put_payload. halts. Qed.

Lemma set_opcode_halts f op : halts (frame__set_opcode f op).
Proof. unfold frame__set_opcode. halts. Qed.
#[local] Hint Resolve put_payload_halts set_opcode_halts : halts.

Lemma copy_header_halts f src : halts (frame__copy_header f src).
Proof. unfold frame__copy_header, frame__set_frame_control, frame__set_flag. halts. Qed.
#[local] Hint Resolve copy_header_halts : halts.

Lemma copy_halts f src b : halts (frame__copy now f src b).
Proof. unfold frame__copy, frame__empty. halts. Qed.
#[local] Hint Resolve copy_halts : halts.

Lemma frame__MSG_halts f src : halts (frame__MSG now f src).
Proof. unfold frame__MSG. halts. Qed.

Lemma frame__INFO_halts f name version : halts (frame__INFO now f name version).
Proof.
  unfold frame__INFO, frame__empty, frame__set_frame_control, frame__set_flag. halts.
Qed.

Lemma frame__OK_halts f src msg : halts (frame__OK now f src msg).
Proof. unfold frame__OK, frame__empty, copy_header_if_given. halts. Qed.

Lemma status_text_halts s : halts (status__get_text s).
Proof. destruct (status__get_text_total s) as (t & -> & _). exact I. Qed.
#[local] Hint Resolve status_text_halts : halts.

Lemma frame__ERR_halts f src s msg : halts (frame__ERR now f src s msg).
Proof. unfold frame__ERR, frame__empty, copy_header_if_given, frame__replace_payload. halts. Qed.
End Frames.

#[export] Hint Resolve set_var_header_halts frame__MSG_halts frame__INFO_halts frame__OK_halts
  frame__ERR_halts build_halts malloc_payload_halts : halts.

(** ** Texts in the headers *)

(** Keys and values are C strings: no NUL inside. *)
Definition texts (hs : list (string * header_value)) : Prop :=
  Forall (fun e => match e.2 with Str v => no_nul (chars v) | Indet => True end) hs.

Lemma texts_found hs k v : texts hs → hash_find k hs = Some (Str v) → no_nul (chars v).
Proof.
  intros Ht Hf. apply hash_find_Some_elem in Hf. unfold texts in Ht.
  rewrite Forall_forall in Ht. by apply (Ht _ Hf).
Qed.

Section Texts.
Context `{Malloc}.
Variable now : string.

Lemma set_var_header_texts f k v s f' :
  (∀ t, v = Some t → no_nul (chars t)) → texts (var_headers f) →
  frame__set_var_header f k v = Done (s, f') → texts (var_headers f').
Proof.
  unfold frame__set_var_header. intros Hv Ht.
  destruct k as [k|]; [|by intros [= _ <-]].
  destruct (strlen k =? 0); [by intros [= _ <-]|].
  destruct v as [v|]; [cbn|done]. specialize (Hv v eq_refl).
  destruct (hash_find k (var_headers f)) as [[|w]|]; [done| |]; cbn.
  - assert (texts (hash_set k (Str v) (var_headers f))) as Hset.
    { clear -Hv Ht. induction (var_headers f) as [|[k' w'] hs IH]; [done|].
      apply Forall_cons in Ht as [Hh Ht]. cbn. specialize (IH Ht).
      destruct (hash_find k hs); [by apply Forall_cons|].
      case_decide; by apply Forall_cons. }
    destruct (_ <? 65536); by intros [= _ <-].
  - destruct (malloc_ok _); cbn; [|by intros [= _ <-]].
    destruct (_ <? 65536); intros [= _ <-]; [|done]. apply Forall_app. split; [done|].
    apply Forall_cons. split; [|done]. cbn. by destruct (strlen v =? 0).
Qed.

Lemma parse_close_texts st st' :
  texts (var_headers (p_frame st)) → parse_close st = Done st' →
  texts (var_headers (p_frame st')).
Proof.
  intros Ht E. unfold parse_close in E. cbv zeta in E. exec_inv. cbn.
  eapply set_var_header_texts; [|exact Ht|eassumption].
  intros t [= <-]. by eapply cstr_at_no_nul.
Qed.

Lemma parse_loop_texts fuel size st st' :
  texts (var_headers (p_frame st)) → parse_loop fuel size st = Done st' →
  texts (var_headers (p_frame st')).
Proof.
  revert st. induction fuel as [|fuel IH]; intros st Ht; cbn [parse_loop];
    destruct (p_n st <? size); try by intros [= <-].
  intros E. apply exec_bind_done in E as (skips & _ & E).
  destruct skips; [by apply IH in E|]. destruct (start_key st =? 0); [by apply IH in E|].
  destruct (end_key st =? 0); [by apply IH in E|].
  destruct (start_value st =? 0); [by apply IH in E|].
  apply exec_bind_done in E as (st1 & Hc & E). apply IH in E; [done|].
  by eapply parse_close_texts.
Qed.

Lemma parse_texts f buf size s f' :
  texts (var_headers f) → frame__parse_var_header f buf size = Done (s, f') →
  texts (var_headers f').
Proof.
  intros Ht. unfold frame__parse_var_header. destruct (size =? 0); [by intros [= _ <-]|].
  intros E. apply exec_bind_done in E as (st & Hl & E).
  apply parse_loop_texts in Hl; [|done]. destruct (_ =? 0); by injection E as _ <-.
Qed.

Lemma build_texts f s f' :
  no_nul (chars now) → texts (var_headers f) → frame__build now f = Done (s, f') →
  texts (var_headers f').
Proof.
  intros Hn Ht E. unfold frame__build, bind_ok in E. exec_inv.
  match goal with Hx : frame__set_var_header _ _ _ = _ |- _ =>
    apply set_var_header_texts in Hx; [|by intros t [= <-]|done] end.
  case_match; exec_inv; try done. case_match; by exec_inv.
Qed.

Lemma set_frame_control_headers f op fl s f' :
  frame__set_frame_control f op fl = Done (s, f') → var_headers f' = var_headers f.
Proof.
  unfold frame__set_frame_control, frame__set_opcode. intros E.
  destruct (frame__validate_opcode op); by injection E as _ <-.
Qed.

Lemma malloc_payload_headers f n s f' :
  frame__malloc_payload f n = Done (s, f') → var_headers f' = var_headers f.
Proof. unfold frame__malloc_payload. intros E. repeat case_match; by exec_inv. Qed.
End Texts.

(** ** Transfers *)

Section Transfers.
Context {Sk : Type} `{SocketLaws Sk} `{Malloc}.
Variables (big : bool) (now : string).
Local Notation connection := (bpsp__connection Sk).

Lemma write_block_halts (conn : connection) buf size :
  0 < sockfd conn → halts (write_block conn buf size).
Proof.
  intros Ho. unfold write_block. apply halts_bind; [|intros [[? ?] ?]; halts].
  destruct buf as [bs|].
  - destruct (Z.le_gt_cases size 0).
    { unfold net__write. rewrite (proj2 (Z.leb_le _ _)) by done. exact I. }
    destruct (Z.ltb_spec (Z.of_nat (List.length bs)) size).
    { unfold net__write. rewrite (proj2 (Z.leb_gt _ _)), (proj2 (Z.ltb_lt _ _)) by done.
      exact I. }
    destruct (net__write_spec conn bs size Ho) as (s & m & s' & -> & _); [lia|exact I].
  - unfold net__write. destruct (size <=? 0); exact I.
Qed.
#[local] Hint Resolve write_block_halts : halts.

Lemma cells_defined_halts l : halts (cells_defined l).
Proof. induction l as [|[c|] l IH]; cbn [cells_defined]; halts. Qed.
#[local] Hint Resolve cells_defined_halts : halts.

Lemma block_bytes_halts p : halts (block_bytes p).
Proof. unfold block_bytes. halts. Qed.
#[local] Hint Resolve block_bytes_halts : halts.

Lemma put_bytes_halts d n bs len : halts (put_bytes d n bs len).
Proof. unfold put_bytes. apply halts_bind; [apply memcpy_halts|intros ?; halts]. Qed.

Lemma to_bytes_loop_halts hs d n : halts (to_bytes_loop hs d n).
Proof.
  revert d n. induction hs as [|[k v] hs IH]; intros d n; cbn [to_bytes_loop]; [exact I|].
  repeat (apply halts_bind; [apply put_bytes_halts|intros [? ?]]).
  destruct v; [exact I|].
  repeat (apply halts_bind; [apply put_bytes_halts|intros [? ?]]). apply IH.
Qed.

Lemma send_var_headers_halts (conn : connection) f :
  0 < sockfd conn → halts (send_var_headers conn f).
Proof.
  intros Ho. unfold send_var_headers, var_header__to_bytes.
  pose proof to_bytes_loop_halts. halts.
Qed.

Lemma frame__send_halts (conn : connection) f : 0 < sockfd conn → halts (frame__send big conn f).
Proof.
  intros Ho. unfold frame__send. cbv zeta. case_decide; [exact I|].
  apply halts_bind; [apply block_bytes_halts|intros bs].
  eapply safe_bind with (P := fun r => 0 < sockfd r.2).
  { apply safe_split; [by apply write_block_halts|]. intros [[s n] c] E. cbn.
    apply write_block_goes in E as [o G]; [|done]. by rewrite (goes_out_open _ _ _ G). }
  intros [[s n] c] Ho1. cbn in Ho1. case_decide; [exact I|].
  eapply safe_bind with (P := fun r => 0 < sockfd r.2).
  { apply safe_split; [by apply send_var_headers_halts|]. intros [s2 c2] E. cbn.
    apply send_var_headers_goes in E as [o G]; [|done]. by rewrite (goes_out_open _ _ _ G). }
  intros [s2 c2] Ho2. cbn in Ho2. case_decide; [exact I|].
  halts.
Qed.

(** What [frame__recv] leaves of the connection and of the frame. *)
Record received (conn : connection) (s : status__err) (f : bpsp__frame) (conn' : connection)
  : Prop := {
  rc_texts : texts (var_headers f);
  rc_conn : ∃ got, comes_in conn conn' got
              ∧ (s = BPSP_OK → 8 ≤ Z.of_nat (List.length got));
}.

Lemma net__read_halts (conn : connection) size :
  0 < sockfd conn →
  safe (fun r => 0 < sockfd r.2 ∧ (r.1.1.1 = BPSP_OK → 0 ≤ size →
                                     Z.of_nat (List.length r.1.2) = size))
       (net__read conn size true).
Proof.
  intros Ho. destruct (Z.le_gt_cases size 0).
  { unfold net__read. rewrite (proj2 (Z.leb_le _ _)) by done. cbn. split; [done|lia]. }
  destruct (net__read_spec conn size Ho) as (s & got & s' & -> & _ & _ & _ & Hd); [lia|].
  cbn. split; [done|]. intros -> _. by destruct Hd as [[_ ?]|[[?|?] _]].
Qed.

Lemma parse_halts f buf :
  Z.of_nat (List.length buf) < 65536 →
  halts (frame__parse_var_header f buf (Z.of_nat (List.length buf))).
Proof.
  intros Hl. destruct (parse_var_header_total buf Hl) as (hs & closed & ->).
  destruct (store_headers_outcome f hs) as [-> |[f' ->]]; exact I.
Qed.

Lemma d16_range bs : 0 ≤ datatype__d16 big bs < 65536.
Proof.
  unfold datatype__d16. destruct (is_bigendian big); [|apply u16_range].
  assert (∀ l : bytes, (List.length l ≤ 2)%nat → 0 ≤ le_value l < 65536) as Hl2.
  { intros l Hlen. pose proof (le_value_range l).
    pose proof (Z.pow_le_mono_r 2 (8 * Z.of_nat (List.length l)) 16).
    change (2 ^ 16) with 65536 in *. lia. }
  unfold unrepr. destruct big; apply Hl2; rewrite ?length_rev, length_take; lia.
Qed.

Lemma frame__recv_halts (conn : connection) f :
  0 < sockfd conn → halts (frame__recv big now conn f).
Proof.
  intros Ho. unfold frame__recv, frame__empty. cbn [mbind exec_bind].
  rewrite decide_False by auto.
  eapply safe_bind; [by apply net__read_halts|]. intros [[[s n] buf] c] [Hc _]. cbn in Hc.
  case_decide; [exact I|]. cbv zeta.
  pose proof (d16_range (drop OFFSET_VARS_SIZE buf)) as Hr.
  set (vs := datatype__d16 big (drop OFFSET_VARS_SIZE buf)) in *. clearbody vs.
  apply halts_bind; [unfold frame__set_frame_control, frame__set_flag, frame__set_opcode; halts|].
  intros [s1 f1]. case_decide; [exact I|].
  eapply safe_bind with (P := fun r => 0 < sockfd r.2).
  { apply safe_split.
    - unfold recv_var_headers. destruct (mem__malloc _); [|exact I].
      eapply safe_bind; [by apply net__read_halts|]. intros [[[s2 n2] buf2] c2] [_ Hl].
      cbn in Hl. case_decide as Hs; [exact I|].
      rewrite <- (Hl Hs) by lia. apply halts_bind; [|intros [? ?]; exact I].
      apply parse_halts. rewrite Hl by (done || lia). lia.
    - intros [[s2 f2] c2] E. apply recv_var_headers_comes in E as [got G]; [|done].
      cbn. by rewrite (comes_in_open _ _ _ G). }
  intros [[s2 f2] c2] Hc2. cbn in Hc2. case_decide; [exact I|].
  apply halts_bind; [halts|]. intros [s3 f3]. case_decide; [exact I|].
  apply halts_bind; [|intros [[s4 f4] c4]; case_decide; [exact I|]; apply halts_bind;
    [halts|intros [? ?]; exact I]].
  unfold recv_payload. destruct (0 <? _); [|exact I].
  eapply safe_bind; [by apply net__read_halts|]. intros [[[s4 n4] buf4] c4] _. halts.
Qed.

Lemma recv_var_headers_texts (conn : connection) f size s f' conn' :
  texts (var_headers f) → recv_var_headers conn f size = Done (s, f', conn') →
  texts (var_headers f').
Proof.
  intros Ht. unfold recv_var_headers. destruct (mem__malloc _); [|by intros [= _ <- _]].
  intros E. apply exec_bind_done in E as ([[[s4 n4] buf4] c4] & _ & E).
  case_decide; [by exec_inv|]. apply exec_bind_done in E as ([s5 f5] & E5 & E).
  injection E as _ <- _. by eapply parse_texts.
Qed.

Lemma frame__recv_texts (conn : connection) f s f' conn' :
  no_nul (chars now) → frame__recv big now conn f = Done (s, f', conn') →
  texts (var_headers f').
Proof.
  intros Hn E. unfold frame__recv, frame__empty in E. cbn [mbind exec_bind] in E. cbv zeta in E.
  rewrite decide_False in E by auto. apply exec_bind_done in E as ([[[s1 n1] buf] c] & _ & E).
  case_decide; [exec_inv; exact (Forall_nil_2 _)|].
  apply exec_bind_done in E as ([s2 f2] & E2 & E).
  assert (texts (var_headers f2)) as T2.
  { rewrite (set_frame_control_headers _ _ _ _ _ E2). exact (Forall_nil_2 _). }
  case_decide; [by exec_inv|]. apply exec_bind_done in E as ([[s3 f3] c3] & E3 & E).
  assert (texts (var_headers f3)) as T3.
  { by eapply recv_var_headers_texts. }
  case_decide; [by exec_inv|]. apply exec_bind_done in E as ([s4 f4] & E4 & E).
  apply malloc_payload_headers in E4.
  case_decide; [exec_inv; by rewrite E4|]. apply exec_bind_done in E as ([[s5 f5] c5] & E5 & E).
  assert (texts (var_headers f5)) as T5.
  { unfold recv_payload in E5. destruct (0 <? _); exec_inv; cbn; by rewrite E4. }
  case_decide; [by exec_inv|]. apply exec_bind_done in E as ([s6 f6] & E6 & E).
  injection E as _ <- _. by eapply build_texts.
Qed.

Lemma frame__recv_safe (conn : connection) f :
  no_nul (chars now) → 0 < sockfd conn →
  safe (fun r => received conn r.1.1 r.1.2 r.2) (frame__recv big now conn f).
Proof.
  intros Hn Ho. apply safe_split; [by apply frame__recv_halts|].
  intros [[s f'] c] E. cbn. split; [by eapply frame__recv_texts|].
  by eapply frame__recv_comes.
Qed.
End Transfers.
