(* ===== verification/Serve.v ===== *)
(** * The handlers on any input

    Whatever frames the clients send, a request is handled without a deadlock and leaves the
    broker in a state that is in order again ([broker_ok]); no client is lost, none is mixed up
    with another, and the streams that are still to be read are untouched. *)
From S2P Require Import Prelude Status Uthash Mem Net Frame FrameFacts FrameOp FrameRw Transfer.
From S2P Require Import Safe Subscriber Topic TopicTokens TopicShape TopicSpec TopicFind.
From S2P Require Import TopicService Broker Client BrokerOps Handle BrokerSpec ClientSpec.
From S2P Require Import Delivery Publish.
Local Open Scope Z_scope.

#[local] Hint Resolve set_var_header_halts frame__MSG_halts frame__INFO_halts frame__OK_halts
  frame__ERR_halts : halts.

Section Serve.
Context {Sk : Type} `{SocketLaws Sk} `{Malloc} `{!TopicService}.
Variable big : bool.
Variable now : string.
Local Notation client_t := (bpsp__client Sk).
Local Notation broker_t := (bpsp__broker Sk).
Implicit Types (b : broker_t) (x : client_t).

(** ** What a request leaves of the clients *)

Record kept x x' : Prop := {
  kp_id : c_id x' = c_id x;
  kp_in : var_headers (in_frame x') = var_headers (in_frame x);
  kp_conn : ∃ n n' o, c_conn x = Some n ∧ c_conn x' = Some n' ∧ goes_out n n' o;
}.

Record serves b b' : Prop := {
  sv_fwd c x : client_heap b !! c = Some x → ∃ x', client_heap b' !! c = Some x' ∧ kept x x';
  sv_bwd c x' : client_heap b' !! c = Some x' → ∃ x, client_heap b !! c = Some x ∧ kept x x';
}.

Lemma heard_kept x x' o : heard x x' o → kept x x'.
Proof.
  intros []. split; [done|congruence|]. destruct hd_conn as (n & n' & ? & ? & ?).
  by exists n, n', o.
Qed.

Lemma emits_serves b b' o : emits b b' o → serves b b'.
Proof.
  intros He. split.
  - intros c x Hc. destruct (emits_fwd _ _ _ _ _ He Hc) as (x' & ? & ?).
    exists x'. eauto using heard_kept.
  - intros c x' Hc. destruct (emits_bwd _ _ _ _ _ He Hc) as (x & ? & ?).
    exists x. eauto using heard_kept.
Qed.

Lemma kept_trans x x' x'' : kept x x' → kept x' x'' → kept x x''.
Proof.
  intros [I1 F1 (n & m & o & E1 & E2 & G1)] [I2 F2 (m' & p & o' & E3 & E4 & G2)].
  split; [congruence|congruence|]. exists n, p, (o ++ o'). split_and!; [done|done|].
  eapply goes_out_trans; [done|]. congruence.
Qed.

Lemma serves_trans b b' b'' : serves b b' → serves b' b'' → serves b b''.
Proof.
  intros [F1 B1] [F2 B2]. split.
  - intros c x (x1 & E1 & K1)%F1. destruct (F2 c x1 E1) as (x2 & E2 & K2).
    exists x2. eauto using kept_trans.
  - intros c x (x1 & E1 & K1)%B2. destruct (B1 c x1 E1) as (x2 & E2 & K2).
    exists x2. eauto using kept_trans.
Qed.

Lemma kept_self x : live x → kept x x.
Proof. intros. eapply heard_kept. by apply heard_nil. Qed.

(** One client is changed. *)
Lemma serves_put b c x x' :
  all_live b → client_heap b !! c = Some x → kept x x' → serves b (put_client b c x').
Proof.
  intros Hl Hc Hk. split; intros d y Hy; cbn in *.
  - destruct (decide (d = c)) as [->|].
    + rewrite lookup_insert_eq. assert (y = x) as -> by congruence. eauto.
    + rewrite lookup_insert_ne by done. eauto using kept_self.
  - apply lookup_insert_Some in Hy as [[<- <-]|[? Hy]]; eauto using kept_self.
Qed.

Lemma serves_tree b t : all_live b → serves b (with_tree b t).
Proof. intros Hl. split; cbn; eauto using kept_self. Qed.

(** [b'] is in order, and the same clients are served. *)
Definition in_order b b' : Prop := broker_ok b' ∧ serves b b'.

Lemma in_order_refl b : broker_ok b → in_order b b.
Proof.
  intros Hok. split; [done|]. eapply emits_serves. by apply emits_refl, Hok.
Qed.

Lemma in_order_emits b b' o : broker_ok b → emits b b' o → in_order b b'.
Proof. intros. split; [by eapply emits_ok|by eapply emits_serves]. Qed.

Lemma in_order_trans b b' b'' : in_order b b' → in_order b' b'' → in_order b b''.
Proof. intros [_ S1] [? S2]. split; [done|by eapply serves_trans]. Qed.

Lemma in_order_alive b b' c x :
  in_order b b' → client_heap b !! c = Some x → ∃ x', client_heap b' !! c = Some x' ∧ kept x x'.
Proof. intros [_ Hs] Hc. by apply (sv_fwd _ _ Hs). Qed.

(** ** Sending *)

Lemma client__send_halts b c x f :
  ready b → client_heap b !! c = Some x → halts (client__send big b (Some c) f true).
Proof.
  intros Hr Hc. destruct (Hr c x Hc) as (_ & _ & Hl).
  destruct (lv_conn _ Hl) as (n & Hn & [Ho _]).
  rewrite (client__send_eq big b c x n f Hr Hc Hn).
  apply halts_bind; [by apply frame__send_halts|]. intros [[s f'] n'].
  cbv zeta. case_decide; [exact I|]. unfold log__trace, frame__get_op_text. halts.
Qed.

Lemma client__send_safe b c x f :
  ready b → client_heap b !! c = Some x →
  safe (fun r => (∃ o, emits b r.2 o) ∧ (r.1.2 = f ∨ ∃ p, r.1.2 = set_pos f p))
       (client__send big b (Some c) f true).
Proof.
  intros Hr Hc. apply safe_split; [by eapply client__send_halts|].
  intros [[s f'] b'] E. cbn.
  destruct (client__send_emits _ _ _ _ _ _ _ _ Hr Hc E) as [[o He] Hf]. eauto.
Qed.

Lemma send_out_safe b c x :
  ready b → client_heap b !! c = Some x →
  safe (fun r => ∃ o, emits b r.2 o) (send_out big b c).
Proof.
  intros Hr Hc. apply safe_split.
  - unfold send_out. rewrite (get_client_eq _ _ _ Hc). cbn [mbind exec_bind].
    apply halts_bind; [by eapply client__send_halts|]. intros [[s f] b'].
    unfold get_client. halts.
  - intros [s b'] E. cbn. destruct (send_out_emits _ _ _ _ _ _ Hr Hc E) as [o Ho]. eauto.
Qed.

Lemma handle__reply_safe b c x s msg :
  ready b → client_heap b !! c = Some x →
  safe (fun r => ∃ o, emits b r.2 o) (handle__reply big now b c s msg).
Proof.
  intros Hr Hc. apply safe_split.
  - unfold handle__reply. rewrite (get_client_eq _ _ _ Hc). cbn [mbind exec_bind]. cbv zeta.
    destruct (flag__is_set _ _); [|exact I].
    apply halts_bind; [case_decide; halts|]. intros [s1 f]. case_decide; [exact I|].
    eapply safe_mono; [|done]. eapply send_out_safe; [|apply lookup_insert_eq].
    eapply emits_ready; [exact Hr|]. by apply emits_out_frame; [apply ready_live|].
  - intros [s1 b'] E. cbn. destruct (handle__reply_emits _ _ _ _ _ _ _ _ _ Hr Hc E) as [o Ho].
    eauto.
Qed.

Lemma handle__CONNECT_safe b c x :
  broker_ok b → client_heap b !! c = Some x →
  safe (fun r => in_order b r.2) (handle__CONNECT big now b c).
Proof.
  intros Hok Hc. pose proof (broker_ok_ready _ Hok) as Hr. unfold handle__CONNECT.
  rewrite (get_client_eq _ _ _ Hc). cbn [mbind exec_bind].
  eapply safe_bind; [apply frame__INFO_halts|]. intros [s f] _. cbv zeta.
  pose proof (emits_out_frame b c x f (ready_live _ Hr) Hc) as He.
  case_decide; [by eapply in_order_emits|].
  eapply safe_mono; [eapply send_out_safe; [by eapply emits_ready|apply lookup_insert_eq]|].
  intros [s' b'] [o Ho]. cbn in *. eapply in_order_emits; [done|]. by eapply emits_trans.
Qed.

(** The frame that is echoed stays, but for its cursor. *)
Lemma handle__ECHO_safe b c x :
  broker_ok b → client_heap b !! c = Some x →
  safe (fun r => in_order b r.2) (handle__ECHO big b c).
Proof.
  intros Hok Hc. pose proof (broker_ok_ready _ Hok) as Hr. unfold handle__ECHO.
  rewrite (get_client_eq _ _ _ Hc). cbn [mbind exec_bind].
  eapply safe_bind; [by eapply client__send_safe|]. intros [[s f] b'] [[o He] Hf]. cbn in He, Hf.
  destruct (emits_fwd _ _ _ _ _ He Hc) as (x' & Hc' & Hh).
  rewrite (get_client_eq _ _ _ Hc'). cbn.
  pose proof (in_order_emits _ _ _ Hok He) as Hio.
  eapply in_order_trans; [exact Hio|].
  destruct Hio as [Hok' _]. pose proof Hok' as [Hreg _ [_ _ L3 L4] _ Hl].
  assert (live (set_in_frame x' f)) as Hlv by (destruct (Hl _ _ Hc'); by split).
  assert (var_headers f = var_headers (in_frame x')) as Hv.
  { rewrite (hd_in _ _ _ Hh). by destruct Hf as [-> |[p ->]]. }
  split.
  - apply (put_client_ok b' c x'); [done|done|done|done|exact (L3 _ _ Hc')|exact (L4 _ _ Hc')|].
    by apply (registry_put_same b' c x').
  - apply (serves_put b' c x'); [done|done|].
    destruct (kept_self x') as [_ _ Hk]; [by eapply Hl|]. by split.
Qed.

(** ** Publishing *)

Lemma set_x_from_halts b c f : halts (set_x_from b c f).
Proof. unfold set_x_from, get_client. halts. Qed.

Lemma broker__deliver_msg_safe b c x p f :
  broker_ok b → client_heap b !! c = Some x →
  safe (fun r => ∃ o, emits b r.2 o) (broker__deliver_msg big b (Some c) p f).
Proof.
  intros Hok Hc. pose proof (broker_ok_ready _ Hok) as Hr. pose proof Hok as [_ _ [_ Hl _ _] [_ T2] Hlv].
  assert (∃ o, emits b b o) as Hid by (eexists; by apply emits_refl).
  unfold broker__deliver_msg. rewrite (get_client_eq _ _ _ Hc). cbn [mbind exec_bind].
  destruct (negb _); [done|].
  eapply safe_bind with (P := fun _ => True).
  { unfold subscriber__get_topic, str_from, cstr_at. halts. }
  intros topic _. eapply safe_bind; [apply set_var_header_halts|]. intros [s f1] _.
  case_decide; [done|]. unfold cli_rdlock, rd_acquire. rewrite decide_True by done.
  cbn [mbind exec_bind mret exec_ret]. set (b1 := with_cli_rw_lock b ReadLocked).
  assert (∃ o, emits b (cli_unlock b1) o) as Hself.
  { eexists. eapply emits_locked; [done|]. by apply emits_refl. }
  eapply safe_bind; [by apply safe_deref with (P := fun _ => True)|]. intros i _.
  cbn [clients with_cli_rw_lock b1].
  eapply safe_bind with (P := fun r => ∃ o, emits b1 r.2 o).
  2: { intros [[s2 f2] b2] [o He]. cbn in *. exists o. by eapply emits_locked. }
  change (clients b1) with (clients b).
  assert (∃ o, emits b1 b1 o) as Hid1 by (eexists; by apply emits_refl).
  destruct (hash_find i (clients b)) as [d|] eqn:Hf; [|done].
  apply hash_find_Some_elem, T2 in Hf as (y & Hd & _).
  unfold deliver_to_target. case_decide; [|done].
  eapply safe_bind; [apply set_x_from_halts|]. intros [s2 f2] _. case_decide; [done|].
  eapply safe_bind; [by apply (client__send_safe b1 d y)|]. intros [[s3 f3] b3] [Ho _]. done.
Qed.

Lemma pub_loop_safe b c x topic subs f :
  broker_ok b → client_heap b !! c = Some x →
  safe (fun b' => ∃ o, emits b b' o) (pub_loop big b c topic subs f).
Proof.
  revert b x f. induction subs as [|p subs IH]; intros b x f Hok Hc; cbn [pub_loop].
  { eexists. by apply emits_refl, Hok. }
  rewrite (get_client_eq _ _ _ Hc). cbn [mbind exec_bind].
  destruct (_ && _); [by eapply IH|].
  eapply safe_bind; [apply set_var_header_halts|]. intros [s1 f1] _.
  case_decide; [by eapply IH|].
  eapply safe_bind; [apply set_var_header_halts|]. intros [s2 f2] _.
  case_decide; [by eapply IH|].
  eapply safe_bind; [by eapply broker__deliver_msg_safe|]. intros [[s3 f3] b3] [o He]. cbn in He.
  destruct (emits_fwd _ _ _ _ _ He Hc) as (x' & Hc' & _).
  eapply safe_mono; [eapply IH; [by eapply emits_ok|done]|]. intros b4 [o' He'].
  eexists. by eapply emits_trans.
Qed.

Lemma broker__find_subs_eq b topic :
  broker_ok b → no_nul (chars topic) →
  ∃ found, broker__find_subs b (Some topic) true = Done (found, b).
Proof.
  intros [Hreg _ [Hlt _ _ _] _ _] Hn. unfold broker__find_subs.
  pose proof (ts_find (topic_tree b) topic true (rg_tree _ Hreg) (fun _ => Hlt) Hn) as Hf.
  assert (with_tree b (topic_tree b) = b) as Eb by (by destruct b).
  destruct (topic_tokens topic) as [toks|].
  - destruct Hf as (found & locs & -> & _). cbn. rewrite Eb. by eexists.
  - rewrite Hf. cbn. rewrite Eb. by eexists.
Qed.

Lemma handle__PUB_safe b c x :
  broker_ok b → client_heap b !! c = Some x → texts (var_headers (in_frame x)) →
  safe (fun r => in_order b r.2) (handle__PUB big now b c).
Proof.
  intros Hok Hc Ht. pose proof (in_order_refl _ Hok) as Hid. unfold handle__PUB.
  rewrite (get_client_eq _ _ _ Hc). cbn [mbind exec_bind].
  destruct (frame__get_var_header _ _) as [[|topic]|] eqn:Hg; [done| |done].
  cbn [header_text deref mbind exec_bind].
  destruct (broker__find_subs_eq b topic Hok) as [found ->]; [by eapply texts_found|].
  cbn [mbind exec_bind].
  eapply safe_bind with (P := fun r => ∃ o, emits b r.2 o).
  - assert (∃ o, emits b b o) as Hself by (eexists; by apply emits_refl, Hok).
    destruct found as [[|p ps]|]; [done| |done].
    unfold pub_deliver. rewrite (get_client_eq _ _ _ Hc). cbn [mbind exec_bind].
    destruct frame__new as [f|]; [|done].
    eapply safe_bind; [apply frame__MSG_halts|]. intros [s f'] _. case_decide; [|done].
    eapply safe_bind; [by eapply pub_loop_safe|]. done.
  - intros [s b1] [o He]. cbn in He. case_decide; [by eapply in_order_emits|].
    destruct (emits_fwd _ _ _ _ _ He Hc) as (x1 & Hc1 & _).
    eapply safe_mono;
      [eapply handle__reply_safe; [by eapply broker_ok_ready, emits_ok|done]|].
    intros [s' b2] [o' He']. eapply in_order_emits; [done|]. by eapply emits_trans.
Qed.

(** ** Subscribing *)

Lemma new_sub_ok b sub :
  broker_ok b → node sub = None →
  let s := next_sub b in
  let b' := (new_sub_at b sub).2 in
  broker_ok b' ∧ sub_heap (topic_tree b') !! s = Some sub
  ∧ (∀ p, ts_at (topic_tree b') p = ts_at (topic_tree b) p).
Proof.
  intros [Hr [I1 I2] [L1 L2 L3 L4] [T1 T2] Hl] Hn s b'.
  destruct (new_sub_registry b sub Hr Hn) as (Hr' & _ & Hs & Hat).
  split_and!; [|done|done]. by split.
Qed.

(** A subscriber that was made for the client [c] belongs to it. *)
Lemma new_subscriber_of c i topic tag sub :
  no_nul (chars topic) → no_nul (chars (default "_0"%string tag)) →
  subscriber__new (Some topic) tag (Some (c, i)) None = Some sub →
  sub_of c i (identifier (default "_0"%string tag) topic) sub ∧ node sub = None
  ∧ subscriber__get_topic sub = Done topic.
Proof.
  intros Hn Ht E. destruct (subscriber__new_parts _ _ _ _ _ _ Hn Ht E)
    as (E1 & E2 & E3 & E4 & E5 & E6 & E7).
  split_and!; [|done|done]. split; [done|done|done|done|]. by exists (default "_0"%string tag), topic.
Qed.

Lemma kept_subs x h : live x → kept x (set_c_subs x h).
Proof. intros Hl. destruct (kept_self x Hl) as [_ _ Hk]. by split. Qed.

Lemma client__sub0_safe b c x k s sub :
  allocates → broker_ok b → client_heap b !! c = Some x →
  sub_heap (topic_tree b) !! s = Some sub → sub_of c (c_id x) k sub → node sub = None →
  safe (fun r => in_order b r.2) (client__sub0 b (Some c) (Some s) true).
Proof.
  intros Hm Hok Hc Hs Hsub Hn.
  pose proof (sub0_outcome b c x k s sub Hm Hok Hc Hs Hsub Hn) as Ho. cbv zeta in Ho.
  pose proof Hok as [_ _ _ _ Hl].
  assert (serves b (put_client b c (set_c_subs x (hash_add k s (c_subs x))))) as Hsv
    by (apply (serves_put b c x); [done|done|apply kept_subs; by eapply Hl]).
  destruct (hash_find k (c_subs x)).
  { rewrite Ho. by apply in_order_refl. }
  destruct (sub_tokens sub).
  - destruct Ho as (t & -> & Hok' & _). split; [done|]. eapply serves_trans; [exact Hsv|].
    apply serves_tree. apply Hok'.
  - destruct Ho as [-> Hok']. by split.
Qed.

Lemma header_text_safe hs k :
  texts hs →
  safe (fun t => ∀ v, t = Some v → no_nul (chars v)) (header_text (hash_find k hs)).
Proof.
  intros Ht. destruct (hash_find k hs) as [[|v]|] eqn:E; [done| |done].
  cbn. intros v' [= <-]. by eapply texts_found.
Qed.

Lemma reply_in_order b b1 c x s msg :
  in_order b b1 → client_heap b !! c = Some x →
  safe (fun r => in_order b r.2) (handle__reply big now b1 c s msg).
Proof.
  intros Hio Hc. destruct (in_order_alive _ _ _ _ Hio Hc) as (x1 & Hc1 & _).
  pose proof Hio as [Hok1 _].
  eapply safe_mono; [eapply handle__reply_safe; [by apply broker_ok_ready|done]|].
  intros [s' b2] [o He]. eapply in_order_trans; [done|]. by eapply in_order_emits.
Qed.

Lemma handle__SUB_safe b c x :
  allocates → broker_ok b → client_heap b !! c = Some x → texts (var_headers (in_frame x)) →
  safe (fun r => in_order b r.2) (handle__SUB big now b c).
Proof.
  intros Hm Hok Hc Ht. unfold handle__SUB. rewrite (get_client_eq _ _ _ Hc).
  cbn [mbind exec_bind frame__get_var_header].
  eapply safe_bind; [by apply header_text_safe|]. intros topic Htopic.
  eapply safe_bind; [by apply header_text_safe|]. intros tag Htag. cbv zeta.
  destruct topic as [topic|]; [|by eapply reply_in_order; [apply in_order_refl|]].
  specialize (Htopic _ eq_refl).
  assert (no_nul (chars (default "_0"%string tag))) as Htag'.
  { destruct tag as [t|]; [by apply Htag|]. apply (bool_decide_unpack _). by vm_compute. }
  unfold new_subscriber. rewrite (get_client_eq _ _ _ Hc). cbn [mbind exec_bind].
  destruct (subscriber__new _ _ _ _) as [sub|] eqn:En; cbn [mbind exec_bind mret exec_ret].
  2: { eapply reply_in_order; [by apply in_order_refl|done]. }
  apply new_subscriber_of in En as (Hsub & Hnode & _); [|done|done].
  destruct (new_sub_ok b sub Hok Hnode) as (Hok1 & Hs & _).
  unfold new_sub_at in *. cbn [mbind exec_bind mret exec_ret snd] in *.
  set (b1 := with_next_sub _ _) in *.
  assert (in_order b b1) as Hio.
  { split; [done|]. destruct (in_order_refl b Hok) as [_ [F B]]. by split. }
  eapply safe_bind; [by eapply (client__sub0_safe b1 c x)|]. intros [s2 b2] Hio2. cbn in Hio2.
  eapply reply_in_order; [by eapply in_order_trans|done].
Qed.

(** ** Unsubscribing *)

Lemma client__unsub0_safe b c x topic tag :
  broker_ok b → client_heap b !! c = Some x →
  safe (fun r => in_order b r.2) (client__unsub0 b (Some c) (Some topic) tag true).
Proof.
  intros Hok Hc. pose proof (in_order_refl _ Hok) as Hid.
  destruct tag as [tag|]; [|done].
  pose proof Hok as [Hr _ [L1 L2 L3 L4] _ Hl]. pose proof (Hl _ _ Hc) as Hlx.
  pose proof (lv_broker _ Hlx) as Hb. pose proof (L3 _ _ Hc) as Hmu.
  destruct (malloc_ok (strlen tag + strlen topic + 2)) eqn:Hm.
  2: { unfold client__unsub0. rewrite (get_client_eq _ _ _ Hc). cbn [mbind exec_bind].
       rewrite Hb. unfold subscriber__make_identifier. by rewrite Hm. }
  destruct (hash_find (identifier tag topic) (c_subs x)) as [s|] eqn:Hf.
  - set (k := identifier tag topic) in *.
    rewrite (unsub0_found b c x topic tag k s true) by done.
    pose proof (hash_find_Some_elem _ _ _ Hf) as Hin.
    destruct (drop_sub_spec b c x (set_c_subs x (hash_del k (c_subs x))) k s true)
      as (t & -> & Hreg & Hlk & _); [done..|]. cbn [safe snd].
    set (b1 := put_client b c (set_c_subs x (hash_del k (c_subs x)))) in *.
    assert (serves b b1) as Hsv by (apply (serves_put b c x); [done|done|by apply kept_subs]).
    assert (all_live b1) as Hl1.
    { intros d y Hy. unfold b1 in Hy. cbn in Hy.
      apply lookup_insert_Some in Hy as [[_ <-]|[_ Hy]]; [by destruct Hlx|by eapply Hl]. }
    split; [|eapply serves_trans; [exact Hsv|by apply serves_tree]].
    by apply (unsub_ok b c x).
  - by rewrite (unsub0_unknown b c x topic tag).
Qed.

Lemma handle__UNSUB_safe b c x :
  broker_ok b → client_heap b !! c = Some x → texts (var_headers (in_frame x)) →
  safe (fun r => in_order b r.2) (handle__UNSUB big now b c).
Proof.
  intros Hok Hc Ht. unfold handle__UNSUB. rewrite (get_client_eq _ _ _ Hc).
  cbn [mbind exec_bind frame__get_var_header].
  eapply safe_bind; [by apply header_text_safe|]. intros topic _.
  eapply safe_bind; [by apply header_text_safe|]. intros tag _. cbv zeta.
  destruct topic as [topic|]; [|by eapply reply_in_order; [apply in_order_refl|]].
  eapply safe_bind; [by eapply client__unsub0_safe|]. intros [s b1] Hio. cbn in Hio.
  by eapply reply_in_order.
Qed.

(** Every request. *)
Lemma handle__in_frame_safe b c x :
  allocates → broker_ok b → client_heap b !! c = Some x → texts (var_headers (in_frame x)) →
  safe (fun r => in_order b r.2) (handle__in_frame big now b c).
Proof.
  intros Hm Hok Hc Ht. unfold handle__in_frame. rewrite (get_client_eq _ _ _ Hc).
  cbn [mbind exec_bind]. cbv zeta. case_decide; [by apply in_order_refl|].
  repeat (case_match; [eauto using handle__CONNECT_safe, handle__PUB_safe, handle__SUB_safe,
    handle__UNSUB_safe|]).
  by eapply handle__ECHO_safe.
Qed.
End Serve.
