(* ===== verification/Loop.v ===== *)
(** * The life of a client: accepted, served, ended

    [client__read] and the loop of the handler on any stream of bytes, and the end of the
    client. *)
From S2P Require Import Prelude Status Uthash Mem Net Frame FrameFacts FrameOp FrameRw Transfer.
From S2P Require Import Safe Subscriber Topic TopicTokens TopicShape TopicSpec TopicFind.
From S2P Require Import TopicService Broker Client BrokerOps Handle BrokerSpec ClientSpec.
From S2P Require Import Delivery Publish Serve.
Local Open Scope Z_scope.

Section Loop.
Context {Sk : Type} `{SocketLaws Sk} `{Malloc} `{!TopicService}.
Variable big : bool.
Variable now : string.
Hypothesis now_text : no_nul (chars now).
Local Notation client_t := (bpsp__client Sk).
Local Notation broker_t := (bpsp__broker Sk).
Implicit Types (b : broker_t) (x : client_t).

(** ** The invariant of the broker, with the frames of the clients *)

Definition all_texts b : Prop := ∀ c x,
  client_heap b !! c = Some x → texts (var_headers (in_frame x)).

Definition broker_inv b : Prop := broker_ok b ∧ all_texts b.

Lemma in_order_inv b b' : broker_inv b → in_order b b' → broker_inv b'.
Proof.
  intros [_ Ht] [Hok Hs]. split; [done|]. intros c x' Hc.
  destruct (sv_bwd _ _ Hs _ _ Hc) as (x & Hx & Hk). rewrite (kp_in _ _ Hk). by eapply Ht.
Qed.

(** The same clients, under the same identifiers. *)
Definition same_clients b b' : Prop := ∀ d, c_id <$> client_heap b' !! d = c_id <$> client_heap b !! d.

Lemma serves_same b b' : serves b b' → same_clients b b'.
Proof.
  intros [F B] d. destruct (client_heap b !! d) as [x|] eqn:E.
  - destruct (F d x E) as (x' & -> & Hk). cbn. by rewrite (kp_id _ _ Hk).
  - destruct (client_heap b' !! d) as [x'|] eqn:E'; [|done].
    destruct (B d x' E') as (x & Hx & _). congruence.
Qed.

Lemma same_clients_trans b b' b'' : same_clients b b' → same_clients b' b'' → same_clients b b''.
Proof. intros S1 S2 d. by rewrite S2. Qed.

Lemma same_clients_alive b b' c x :
  same_clients b b' → client_heap b !! c = Some x →
  ∃ x', client_heap b' !! c = Some x' ∧ c_id x' = c_id x.
Proof.
  intros Hs Hc. specialize (Hs c). rewrite Hc in Hs.
  destruct (client_heap b' !! c) as [x'|]; [|done]. injection Hs as Hs. by exists x'.
Qed.

(** ** Reading a frame *)

(** The stream that the peer of the client still sends. *)
Definition to_read x : bytes := match c_conn x with Some n => rx (sock n) | None => [] end.

Record read_by b c x (s : status__err) b' : Prop := {
  rb_inv : broker_inv b';
  rb_same : same_clients b b';
  rb_client : ∃ x', client_heap b' !! c = Some x'
    ∧ (List.length (to_read x') ≤ List.length (to_read x))%nat
    ∧ (s = BPSP_OK → (List.length (to_read x') < List.length (to_read x))%nat);
}.

Lemma put_frame_ok b c x x' :
  broker_inv b → client_heap b !! c = Some x → c_id x' = c_id x → c_subs x' = c_subs x →
  c_broker x' = c_broker x → c_is_close x' = c_is_close x → c_mutex x' = c_mutex x →
  c_rw_lock x' = c_rw_lock x → (∃ n, c_conn x' = Some n ∧ open_conn n) →
  texts (var_headers (in_frame x')) →
  broker_inv (put_client b c x') ∧ same_clients b (put_client b c x').
Proof.
  intros [Hok Ht] Hc Ei Es Eb Ecl Em Erw Hn Htx. pose proof Hok as [Hr _ [_ _ L3 L4] _ Hl].
  pose proof (Hl _ _ Hc) as [B1 B2 _]. split; [split|].
  - apply (put_client_ok b c x); [done|done|done| | | |].
    + split; [congruence|congruence|done].
    + rewrite Em. by eapply L3.
    + rewrite Erw. by eapply L4.
    + by apply (registry_put_same b c x).
  - intros d y Hy. cbn in Hy. apply lookup_insert_Some in Hy as [[_ <-]|[_ Hy]]; [done|by eapply Ht].
  - intros d. cbn. destruct (decide (d = c)) as [->|].
    + rewrite lookup_insert_eq, Hc. cbn. by rewrite Ei.
    + by rewrite lookup_insert_ne.
Qed.

Lemma client__recv_eq b c x n f :
  ready b → client_heap b !! c = Some x → c_conn x = Some n →
  client__recv big now b (Some c) f true
  = '(s, f, n') ← frame__recv big now n f;
    let b := put_client b c (set_c_conn x (Some n')) in
    if decide (s ≠ BPSP_OK) then mret (s, f, b) else _ ← log__trace f; mret (s, f, b).
Proof.
  intros Hr Hc Hn. destruct (Hr c x Hc) as (_ & Hrw & Hx).
  unfold client__recv. rewrite (closed_if_locked_eq b c x) by done.
  cbn [mbind exec_bind]. rewrite (get_client_eq _ _ _ Hc). cbn [mbind exec_bind].
  rewrite Hn. done.
Qed.

Lemma client__read_safe b c x :
  broker_inv b → client_heap b !! c = Some x →
  safe (fun r => read_by b c x r.1 r.2) (client__read big now b c).
Proof.
  intros Hinv Hc. pose proof Hinv as [Hok _]. pose proof (broker_ok_ready _ Hok) as Hr.
  destruct (Hr _ _ Hc) as (_ & _ & Hl). pose proof Hl as [B1 B2 (n & Hn & [Ho Hport])].
  unfold client__read. rewrite (get_client_eq _ _ _ Hc). cbn [mbind exec_bind].
  rewrite (client__recv_eq b c x n) by done.
  apply safe_bind with (P := fun r => ∃ f n', r.1.2 = f
    ∧ r.2 = put_client b c (set_c_conn x (Some n')) ∧ received n r.1.1 f n').
  - eapply safe_bind; [by apply frame__recv_safe|]. intros [[s f] n'] Hrc. cbn in Hrc. cbv zeta.
    assert (∃ f0 n0, f = f0 ∧ put_client b c (set_c_conn x (Some n'))
              = put_client b c (set_c_conn x (Some n0)) ∧ received n s f0 n0) as Hpost
      by (by exists f, n').
    case_decide; [done|]. unfold log__trace, frame__get_op_text.
    by destruct (op_text !! _).
  - intros [[s f] b1] (f' & n' & Ef & Eb & Hrc). cbn in *. subst f' b1.
    rewrite get_put. cbn. rewrite put_put.
    destruct Hrc as [Htx (got & (s' & -> & Hrx & _) & Hlen)].
    destruct (put_frame_ok b c x (set_in_frame (set_c_conn x (Some (set_sock n s'))) f))
      as [Hinv' Hsame]; try done.
    { exists (set_sock n s'). split; [done|]. by split. }
    split; [done|done|]. eexists. split; [apply lookup_insert_eq|].
    unfold to_read. cbn. rewrite Hn, Hrx, length_app. split; [lia|].
    intros Hs. specialize (Hlen Hs). lia.
Qed.

(** ** The loop *)

(** Every round takes at least the fixed header from the stream: one more round than the
    stream has bytes is enough, and the loop ends, with an error. *)
Lemma client_loop_safe fuel b c x :
  allocates → broker_inv b → client_heap b !! c = Some x →
  (List.length (to_read x) < fuel)%nat →
  safe (fun r => r.1 ≠ BPSP_OK ∧ broker_inv r.2 ∧ same_clients b r.2)
       (handle__client_loop big now fuel b c).
Proof.
  intros Hm. revert b x. induction fuel as [|fuel IH]; intros b x Hinv Hc Hf; [lia|].
  cbn [handle__client_loop]. eapply safe_bind; [by eapply client__read_safe|].
  intros [s b1] [Hinv1 Hsame1 (x1 & Hc1 & _ & Hlt)]. cbn [fst snd] in *.
  case_decide as Hs; [done|]. specialize (Hlt Hs). pose proof Hinv1 as [Hok1 Ht1].
  eapply safe_bind; [by eapply handle__in_frame_safe; eauto|].
  intros [s2 b2] Hio. cbn [fst snd] in Hio.
  pose proof (in_order_inv _ _ Hinv1 Hio) as Hinv2.
  assert (same_clients b b2) as Hsame2
    by (eapply same_clients_trans; [done|]; apply serves_same, Hio).
  case_decide as Hs2; [done|].
  destruct (in_order_alive _ _ _ _ Hio Hc1) as (x2 & Hc2 & Hk).
  destruct (kp_conn _ _ Hk) as (m & m' & o & Em & Em' & (s' & -> & Hrx & _)).
  assert (to_read x2 = to_read x1) as Er.
  { unfold to_read. rewrite Em, Em'. cbn. exact Hrx. }
  eapply safe_mono; [eapply IH; [done|done|rewrite Er; lia]|].
  intros [s3 b3] (? & ? & ?). split_and!; [done|done|by eapply same_clients_trans].
Qed.

(** What is left when the thread of a client has ended: the broker in order, all other
    clients, and nothing of this one. *)
Record client_ended b c b' : Prop := {
  ce_inv : broker_inv b';
  ce_gone : client_heap b' !! c = None;
  ce_table k : (k, c) ∉ clients b';
  ce_others d : d ≠ c → c_id <$> client_heap b' !! d = c_id <$> client_heap b !! d;
  ce_subs p i s : (i, s) ∈ ts_at (topic_tree b') p →
    ∃ sub, sub_heap (topic_tree b') !! s = Some sub ∧ client sub ≠ c;
}.

Lemma destroy_client_ended b c x :
  broker_inv b → client_heap b !! c = Some x →
  ∃ b', broker__destroy_client b c true = Done (BPSP_OK, b') ∧ client_ended b c b'.
Proof.
  intros [Hok Ht] Hc. destruct (broker__destroy_client_spec b c x Hok Hc) as (t & -> & Hok' & _).
  set (b' := with_clients _ _) in *. exists b'. split; [done|].
  assert (client_heap b' !! c = None) as Hgone by apply lookup_delete_eq.
  pose proof Hok' as [Hr _ _ Htb _].
  split; [split; [done|]|done| | |].
  - intros d y Hy. cbn in Hy. apply lookup_delete_Some in Hy as [_ Hy]. by eapply Ht.
  - intros k Hk. apply (tb_entry _ Htb) in Hk as (y & Hy & _). congruence.
  - intros d Hd. unfold b'. cbn. by rewrite lookup_delete_ne.
  - intros p i s Hs. destruct (rg_filed _ Hr _ _ _ Hs) as (d & y & k & Hd & Hk).
    destruct (rg_owned _ Hr _ _ _ _ Hd Hk) as (sub & Hsub & [Hcl _ _ _ _]).
    exists sub. split; [done|]. rewrite Hcl. intros ->. congruence.
Qed.

Lemma server__handle_client_safe fuel b c x :
  allocates → broker_inv b → client_heap b !! c = Some x →
  (List.length (to_read x) < fuel)%nat →
  safe (client_ended b c) (server__handle_client big now fuel b c).
Proof.
  intros Hm Hinv Hc Hf. unfold server__handle_client.
  eapply safe_bind; [by eapply client_loop_safe|]. intros [s b1] (_ & Hinv1 & Hsame). cbn in Hsame.
  destruct (same_clients_alive _ _ _ _ Hsame Hc) as (x1 & Hc1 & _).
  destruct (destroy_client_ended b1 c x1 Hinv1 Hc1) as (b2 & -> & []). cbn.
  split; try done. intros d Hd. by rewrite ce_others0, Hsame.
Qed.
End Loop.
