(* ===== verification/Accept.v ===== *)
(** * Accepting clients, and the states that the broker can reach

    [broker__accept] gives every client an identifier that no other one has; the invariant
    [broker_inv] holds in every state that the broker reaches by accepting clients, reading
    and handling their frames in any order, and ending them. *)
From S2P Require Import Prelude Status Uthash Mem Net Frame FrameFacts FrameOp FrameRw Transfer.
From S2P Require Import Safe Subscriber Topic TopicTokens TopicShape TopicSpec TopicFind.
From S2P Require Import TopicService Broker Client BrokerOps Handle BrokerSpec ClientSpec.
From S2P Require Import Delivery Publish Serve Loop.
Local Open Scope Z_scope.

(** ** Identifiers *)

Lemma rand_str_length rand pos size :
  String.length (rand_str rand pos size).1 = (size - 1)%nat.
Proof.
  unfold rand_str. cbn. rewrite <- length_chars, chars_str. generalize (size - 1)%nat as n.
  intros n. revert pos. induction n as [|n IH]; intros pos; cbn; [done|]. by rewrite IH.
Qed.

(** The [j]-th identifier that is drawn, counted from a position of the generator. *)
Definition drawn (rand : nat → Z) (pos j : nat) : string :=
  (rand_str rand (pos + j * (BPSP_CLIENT_ID_LEN - 1)) BPSP_CLIENT_ID_LEN).1.

Lemma drawn_S rand pos j : drawn rand pos (S j) = drawn rand (pos + (BPSP_CLIENT_ID_LEN - 1)) j.
Proof. unfold drawn. do 2 f_equal. lia. Qed.

Section Accept.
Context {Sk : Type} `{SocketLaws Sk} `{Malloc} `{!TopicService}.
Variable rand : nat → Z.
Local Notation client_t := (bpsp__client Sk).
Local Notation broker_t := (bpsp__broker Sk).
Local Notation connection := (bpsp__connection Sk).
Implicit Types (b : broker_t) (x : client_t).

Definition set_c_id x i : client_t :=
  {| c_id := i; c_broker := c_broker x; c_subs := c_subs x; c_conn := c_conn x;
     c_is_close := c_is_close x; c_mutex := c_mutex x; c_rw_lock := c_rw_lock x;
     in_frame := in_frame x; out_frame := out_frame x |}.

(** The loop changes the identifier only, and stops at one that is free. *)
Lemma unique_id_loop_inv fuel b c x b' :
  client_heap b !! c = Some x → String.length (c_id x) = 5%nat →
  unique_id_loop rand fuel b c = Done b' →
  ∃ i pos, b' = with_rand_pos (put_client b c (set_c_id x i)) pos
    ∧ hash_find i (clients b) = None ∧ String.length i = 5%nat.
Proof.
  revert b x. induction fuel as [|fuel IH]; intros b x Hc Hl; cbn [unique_id_loop];
    rewrite (get_client_eq _ _ _ Hc); cbn [mbind exec_bind];
    destruct (hash_find (c_id x) (clients b)) as [d|] eqn:Hf; try done.
  1, 3: intros [= <-]; exists (c_id x), (rand_pos b); split_and!; [|done|done];
    assert (set_c_id x (c_id x) = x) as -> by (by destruct x);
    rewrite put_same by done; by destruct b.
  destruct (rand_str rand (rand_pos b) BPSP_CLIENT_ID_LEN) as [i pos] eqn:Er.
  intros E. fold (set_c_id x i) in E.
  assert (String.length i = 5%nat) as Hi.
  { change i with (i, pos).1. rewrite <- Er. apply rand_str_length. }
  destruct (IH (with_rand_pos (put_client b c (set_c_id x i)) pos) (set_c_id x i)
    (lookup_insert_eq _ _ _) Hi E) as (i' & pos' & -> & Hfree & Hi').
  exists i', pos'. split_and!; [|exact Hfree|done]. unfold put_client, with_rand_pos,
    with_client_heap. cbn. by rewrite insert_insert_eq.
Qed.

(** One of the next [fuel] identifiers is free: the loop ends. *)
Lemma unique_id_loop_ends fuel b c x j :
  client_heap b !! c = Some x → (j < fuel)%nat →
  hash_find (drawn rand (rand_pos b) j) (clients b) = None →
  ∃ b', unique_id_loop rand fuel b c = Done b'.
Proof.
  revert b x j. induction fuel as [|fuel IH]; intros b x j Hc Hj Hf; [lia|].
  cbn [unique_id_loop]. rewrite (get_client_eq _ _ _ Hc). cbn [mbind exec_bind].
  destruct (hash_find (c_id x) (clients b)); [|by eexists].
  destruct (rand_str rand (rand_pos b) BPSP_CLIENT_ID_LEN) as [i pos] eqn:Er.
  fold (set_c_id x i).
  assert (pos = rand_pos b + (BPSP_CLIENT_ID_LEN - 1))%nat as -> by (by injection Er).
  set (b1 := with_rand_pos (put_client b c (set_c_id x i)) _).
  assert (client_heap b1 !! c = Some (set_c_id x i)) as Hc1 by apply lookup_insert_eq.
  destruct j as [|j].
  - assert (drawn rand (rand_pos b) 0 = i) as Ei.
    { unfold drawn. cbn [Nat.mul]. by rewrite Nat.add_0_r, Er. }
    exists b1. rewrite Ei in Hf.
    destruct fuel as [|fuel]; cbn [unique_id_loop]; rewrite (get_client_eq _ _ _ Hc1);
      cbn [mbind exec_bind c_id set_c_id]; change (clients b1) with (clients b); by rewrite Hf.
  - rewrite drawn_S in Hf. apply (IH b1 (set_c_id x i) j Hc1); [lia|done].
Qed.

(** ** The new client *)

Definition new_client (i : string) (n : connection) : client_t :=
  {| c_id := i; c_broker := true; c_subs := []; c_conn := Some n; c_is_close := false;
     c_mutex := false; c_rw_lock := Unlocked; in_frame := frame_zero; out_frame := frame_zero |}.

(** The broker with one client more. *)
Definition with_client b (i : string) (n : connection) (pos : nat) : broker_t :=
  let c := next_client b in
  with_clients (with_rand_pos (with_next_client (put_client b c (new_client i n)) (Pos.succ c)) pos)
    (hash_add i c (clients b)).

Lemma client__new_eq b n c b' :
  client__new rand b (Some n) true = Done (Some c, b') →
  ∃ i pos, rand_str rand (rand_pos b) BPSP_CLIENT_ID_LEN = (i, pos) ∧ c = next_client b
    ∧ b' = with_next_client (put_client (with_rand_pos b pos) c (new_client i n)) (Pos.succ c).
Proof.
  unfold client__new, client__init. destruct (malloc_ok _); [|done].
  destruct (rand_str rand (rand_pos b) BPSP_CLIENT_ID_LEN) as [i pos].
  unfold frame__new, frame__alloc. destruct (malloc_ok _); [|done]. cbn.
  intros [= <- <-]. by exists i, pos.
Qed.

Lemma client__new_ok b n i pos :
  (∀ k, malloc_ok k = true) → rand_str rand (rand_pos b) BPSP_CLIENT_ID_LEN = (i, pos) →
  let c := next_client b in
  client__new rand b (Some n) true
  = Done (Some c, with_next_client (put_client (with_rand_pos b pos) c (new_client i n))
                                   (Pos.succ c)).
Proof.
  intros Hm Er. unfold client__new, client__init, frame__new, frame__alloc.
  rewrite !Hm, Er. reflexivity.
Qed.

Lemma accept_inv fuel b n c b' :
  broker__accept rand fuel b (Some n) = Done (Some c, b') →
  ∃ i pos, c = next_client b ∧ b' = with_client b i n pos
    ∧ hash_find i (clients b) = None ∧ String.length i = 5%nat.
Proof.
  unfold broker__accept. intros E. apply exec_bind_done in E as ([[d|] b1] & E1 & E); [|done].
  apply client__new_eq in E1 as (i & pos & Er & -> & ->).
  apply exec_bind_done in E as (b2 & E2 & E).
  assert (String.length i = 5%nat) as Hi.
  { change i with (i, pos).1. rewrite <- Er. apply rand_str_length. }
  apply (unique_id_loop_inv _ _ _ (new_client i n)) in E2 as (i' & pos' & -> & Hf & Hi');
    [|apply lookup_insert_eq|done].
  rewrite (get_client_eq _ _ (new_client i' n)) in E by apply lookup_insert_eq.
  injection E as <- <-. exists i', pos'. split_and!; [done| |done|done].
  unfold with_client, put_client, with_clients, with_rand_pos, with_next_client,
    with_client_heap. cbn. by rewrite insert_insert_eq.
Qed.

Lemma with_client_registry b i n pos : registry b → registry (with_client b i n pos).
Proof.
  intros []. unfold with_client. set (c := next_client b).
  assert (client_heap b !! c = None) as Hnew.
  { destruct (client_heap b !! c) eqn:E; [|done]. exfalso.
    assert (c < next_client b)%positive by (apply rg_client_fresh; by rewrite E). lia. }
  split; cbn; [done| | | |done|].
  - intros d y [[<- <-]|[_ Hy]]%lookup_insert_Some; [constructor|by eapply rg_keys].
  - intros d y k s [[<- <-]|[_ Hy]]%lookup_insert_Some; [by intros ?%not_elem_of_nil|].
    by apply rg_owned.
  - intros p j s Hs. destruct (rg_filed p j s Hs) as (d & y & k & Hy & Hk).
    exists d, y, k. rewrite lookup_insert_ne; [done|]. intros <-. congruence.
  - intros d [y [[<- _]|[_ Hy]]%lookup_insert_Some]; [lia|].
    assert (d < next_client b)%positive by (apply rg_client_fresh; by eexists). lia.
Qed.

Lemma with_client_ok b i n pos :
  broker_ok b → open_conn n → hash_find i (clients b) = None → String.length i = 5%nat →
  broker_ok (with_client b i n pos).
Proof.
  intros Hok Hn Hf Hi. pose proof Hok as [Hr [I1 I2] [L1 L2 L3 L4] [T1 T2] Hl].
  pose proof (with_client_registry b i n pos Hr) as Hr'.
  assert (∀ d y, client_heap (with_client b i n pos) !! d = Some y →
    d = next_client b ∧ y = new_client i n ∨ d ≠ next_client b ∧ client_heap b !! d = Some y)
    as Hold.
  { intros d y Hy. unfold with_client in Hy. cbn in Hy.
    apply lookup_insert_Some in Hy as [[<- <-]|[? ?]]; [left|right]; split; congruence. }
  assert (client_heap b !! next_client b = None) as Hnew.
  { destruct (client_heap b !! next_client b) eqn:E; [|done]. exfalso.
    pose proof (rg_client_fresh _ Hr (next_client b) ltac:(by rewrite E)). lia. }
  assert (∀ d y, client_heap b !! d = Some y → c_id y ≠ i) as Hfree.
  { intros d y Hy <-. apply hash_find_None in Hf. apply Hf.
    apply (list_elem_of_fmap_2 fst _ (c_id y, d)). apply T2. eauto. }
  split; [done| | | |].
  - split.
    + intros d y [(-> & ->)|(_ & Hy)]%Hold; [done|by eapply I1].
    + intros d d' y y' [(-> & ->)|(_ & Hy)]%Hold [(-> & ->)|(_ & Hy')]%Hold; cbn; [done| | |].
      * intros E. by destruct (Hfree _ _ Hy').
      * intros E. by destruct (Hfree _ _ Hy).
      * by apply I2.
  - split; [done|done| |]; intros d y [(-> & ->)|(_ & Hy)]%Hold; eauto.
  - split; [by apply hash_add_NoDup|]. intros k d. unfold with_client. cbn.
    unfold hash_add. rewrite elem_of_app, list_elem_of_singleton, T2. split.
    + intros [(y & Hy & <-)|[= -> ->]].
      * exists y. split; [|done]. rewrite lookup_insert_ne; [done|]. intros <-. congruence.
      * exists (new_client i n). by rewrite lookup_insert_eq.
    + intros (y & [[<- <-]|[_ Hy]]%lookup_insert_Some & <-); [by right|left; eauto].
  - intros d y [(-> & ->)|(_ & Hy)]%Hold; [|by eapply Hl]. split; [done|done|]. by exists n.
Qed.

Lemma with_client_inv b i n pos :
  broker_inv b → open_conn n → hash_find i (clients b) = None → String.length i = 5%nat →
  broker_inv (with_client b i n pos).
Proof.
  intros [Hok Ht] Hn Hf Hi. split; [by apply with_client_ok|]. intros d y Hy.
  unfold with_client in Hy. cbn in Hy. apply lookup_insert_Some in Hy as [[_ <-]|[_ Hy]];
    [exact (Forall_nil_2 _)|by eapply Ht].
Qed.

Lemma broker__accept_inv fuel b conn r b' :
  broker_inv b → (∀ n, conn = Some n → open_conn n) →
  broker__accept rand fuel b conn = Done (r, b') → broker_inv b'.
Proof.
  intros Hinv Hn E. destruct conn as [n|]; [|by injection E as _ <-].
  destruct r as [c|].
  - apply accept_inv in E as (i & pos & _ & -> & Hf & Hi). apply with_client_inv; eauto.
  - unfold broker__accept in E. apply exec_bind_done in E as ([[d|] b1] & E1 & E).
    + exec_inv.
    + injection E as <-. unfold client__new in E1. destruct (malloc_ok _); [|by injection E1 as <-].
      exec_inv.
Qed.

(** When one of the next identifiers is free, the client is accepted under it. *)
Lemma broker__accept_ends fuel b n j :
  (∀ k, malloc_ok k = true) → (j ≤ fuel)%nat →
  hash_find (drawn rand (rand_pos b) j) (clients b) = None →
  ∃ b', broker__accept rand fuel b (Some n) = Done (Some (next_client b), b').
Proof.
  intros Hm Hj Hf. unfold broker__accept.
  destruct (rand_str rand (rand_pos b) BPSP_CLIENT_ID_LEN) as [i pos] eqn:Er.
  rewrite (client__new_ok b n i pos Hm Er). cbn [mbind exec_bind]. set (c := next_client b).
  set (b1 := with_next_client (put_client (with_rand_pos b pos) c (new_client i n)) (Pos.succ c)).
  assert (client_heap b1 !! c = Some (new_client i n)) as Hc by apply lookup_insert_eq.
  assert (∃ b2, unique_id_loop rand fuel b1 c = Done b2) as [b2 E].
  { destruct j as [|j].
    - assert (drawn rand (rand_pos b) 0 = i) as Ei.
      { unfold drawn. cbn [Nat.mul]. by rewrite Nat.add_0_r, Er. }
      exists b1. rewrite Ei in Hf.
      destruct fuel as [|fuel]; cbn [unique_id_loop]; rewrite (get_client_eq _ _ _ Hc);
        cbn [mbind exec_bind c_id new_client]; change (clients b1) with (clients b);
        by rewrite Hf.
    - apply (unique_id_loop_ends fuel b1 c (new_client i n) j Hc); [lia|].
      rewrite drawn_S in Hf.
      assert (pos = rand_pos b + (BPSP_CLIENT_ID_LEN - 1))%nat as Ep by (by injection Er).
      change (rand_pos b1) with pos. by rewrite Ep. }
  rewrite E. cbn [mbind exec_bind].
  assert (String.length i = 5%nat) as Hi.
  { change i with (i, pos).1. rewrite <- Er. apply rand_str_length. }
  apply (unique_id_loop_inv _ _ _ (new_client i n)) in E as (i' & pos' & -> & _);
    [|done|done].
  rewrite (get_client_eq _ _ (set_c_id (new_client i n) i')) by apply lookup_insert_eq.
  by eexists.
Qed.
End Accept.

(** ** Reachable states *)

Section Reachable.
Context {Sk : Type} `{SocketLaws Sk} `{Malloc} `{!TopicService}.
Variable big : bool.
Variable rand : nat → Z.
Local Notation broker_t := (bpsp__broker Sk).
Implicit Types (b : broker_t).

(** A connection is accepted; a frame of a client is read; the frame of a client is handled;
    a client is ended.  [now] is what the clock says at that step. *)
Inductive broker_step : broker_t → broker_t → Prop :=
  | step_accept b fuel conn r b' :
      (∀ n, conn = Some n → open_conn n) →
      broker__accept rand fuel b conn = Done (r, b') → broker_step b b'
  | step_read b now c s b' :
      no_nul (chars now) → is_Some (client_heap b !! c) →
      client__read big now b c = Done (s, b') → broker_step b b'
  | step_handle b now c s b' :
      is_Some (client_heap b !! c) →
      handle__in_frame big now b c = Done (s, b') → broker_step b b'
  | step_end b c s b' :
      is_Some (client_heap b !! c) →
      broker__destroy_client b c true = Done (s, b') → broker_step b b'.

Definition reachable b : Prop :=
  ∃ mutex_ok rwlock_ok listening b0,
    broker__new mutex_ok rwlock_ok listening = Some b0 ∧ rtc broker_step b0 b.

Lemma broker__new_inv mutex_ok rwlock_ok listening b :
  broker__new mutex_ok rwlock_ok listening = Some b → broker_inv b.
Proof.
  unfold broker__new, broker__new_with_info. intros E.
  destruct (broker__info_new _ _); [|done]. destruct (malloc_ok _); [|done].
  destruct mutex_ok; [|done]. destruct rwlock_ok; [|done]. cbn in E.
  unfold topic__new_tree in E. destruct (malloc_ok _); [|done].
  destruct listening; [|done]. injection E as <-.
  destruct ts_init as [Hok Hat].
  assert (∀ (A : Type) (m : gmap positive A) k, m = ∅ → ¬ is_Some (m !! k)) as Hno.
  { intros A m k ->. rewrite lookup_empty. by intros [? ?]. }
  split; [split|]; cbn.
  - split; cbn; [done|by intros ? ? ?|by intros ? ? ? ? ?| | |].
    + intros q i s. rewrite Hat. by intros ?%not_elem_of_nil.
    + intros s Hs. by apply Hno in Hs.
    + intros c Hc. by apply Hno in Hc.
  - by split; intros.
  - by split.
  - split; [constructor|]. intros k c. cbn. split; [by intros ?%not_elem_of_nil|].
    by intros (? & ? & _).
  - by intros ? ? ?.
  - by intros ? ? ?.
Qed.

Lemma broker_step_inv b b' : allocates → broker_step b b' → broker_inv b → broker_inv b'.
Proof.
  intros Hm Hs Hinv. pose proof Hinv as [Hok Ht]. destruct Hs as [b fuel conn r b' Hn E
    |b now c s b' Hnow [x Hc] E|b now c s b' [x Hc] E|b c s b' [x Hc] E].
  - by eapply broker__accept_inv.
  - pose proof (client__read_safe big now Hnow b c x Hinv Hc) as Hs. rewrite E in Hs. apply Hs.
  - pose proof (handle__in_frame_safe big now b c x Hm Hok Hc (Ht _ _ Hc)) as Hs.
    rewrite E in Hs. by eapply in_order_inv.
  - destruct (destroy_client_ended b c x Hinv Hc) as (b2 & E2 & []). congruence.
Qed.

Lemma reachable_inv b : allocates → reachable b → broker_inv b.
Proof.
  intros Hm (m & r & l & b0 & E & Hs). apply broker__new_inv in E.
  induction Hs as [|b1 b2 b3 Hs _ IH]; [done|]. apply IH. by eapply broker_step_inv.
Qed.
End Reachable.
