(* ===== verification/Samples.v ===== *)
(** * A small broker for the instances of the theorems

    Two clients are accepted; the second one subscribes; the first one publishes.  The states
    are computed by the model itself. *)
From S2P Require Import Prelude Status Datatype Uthash Mem Net Frame FrameFacts HeaderCodec.
From S2P Require Import FrameOp FrameRw FrameProps Transfer Safe Subscriber Topic TopicTokens.
From S2P Require Import TopicShape TopicSpec TopicFind TopicProps TopicService Broker Client.
From S2P Require Import BrokerOps Handle BrokerSpec ClientSpec Delivery Publish Serve Loop Accept.
Local Open Scope Z_scope.

#[local] Existing Instance malloc_always.

Notation sample_broker_t := (bpsp__broker script_socket) (only parsing).

(** Numbers for the identifiers of clients. *)
Definition sample_rand (k : nat) : Z := Z.of_nat (17 * k + 3).

(** A connection over which the peer sends [bs], then closes. *)
Definition sample_conn (ip : string) (port : Z) (bs : bytes) : bpsp__connection script_socket :=
  connection__create 7 (ip, port) NET_S_CONNECTED NET_T_PASSIVE
    {| s_rx := bs; rx_cuts := [1%nat; 4%nat]; closing := true; s_tx := []; tx_cuts := [];
       gone := false |}.

Definition state_of {A} (d : sample_broker_t) (m : exec (A * sample_broker_t)) : sample_broker_t :=
  match m with Done (_, b) => b | _ => d end.

Definition frame_of (m : exec (status__err * bpsp__frame)) : bpsp__frame :=
  match m with Done (BPSP_OK, f) => f | _ => frame_zero end.

(** Requests. *)
Definition sub_frame (topic tag : string) : bpsp__frame :=
  frame_of (frame__SUB sample_now frame_zero (Some topic) (Some tag) FL_ACK None 0).
Definition pub_frame (topic : string) (data : string) : bpsp__frame :=
  frame_of (frame__PUB sample_now frame_zero (Some topic) FL_ACK None 0
              (string_cells data) (strlen data)).
Definition unsub_frame (topic : string) : bpsp__frame :=
  frame_of (frame__UNSUB sample_now frame_zero (Some topic) FL_ACK).

Definition request (f : bpsp__frame) (data : string) : bytes := wire_frame f (chars data).

(** The broker listens; a publisher and a subscriber are accepted. *)
Definition sample_new : sample_broker_t :=
  match broker__new true true (Some (sample_conn "0.0.0.0" 29010 [])) with
  | Some b => b
  | None => {| info_name := ""; info_version := ""; listener := None; b_is_close := true;
               b_mutex := true; cli_rw_lock := WriteLocked; clients := [];
               topic_tree := topic__init_tree ∅; client_heap := ∅; next_client := 1;
               next_sub := 1; rand_pos := 0 |}
  end.

Definition sample_pub_conn : bpsp__connection script_socket :=
  sample_conn "10.0.0.1" 4000 (request (pub_frame "home/hall/temp" "21.5") "21.5").
Definition sample_sub_conn : bpsp__connection script_socket :=
  sample_conn "10.0.0.2" 4001
    (request (sub_frame "home/+/temp" "t1") "" ++ request (sub_frame "home//" "t2") "").

Definition accept_on (b : sample_broker_t) (n : bpsp__connection script_socket) :=
  state_of b (broker__accept sample_rand 8 b (Some n)).
Definition read_by_client (b : sample_broker_t) (c : positive) :=
  state_of b (client__read false sample_now b c).
Definition handle_for (b : sample_broker_t) (c : positive) :=
  state_of b (handle__in_frame false sample_now b c).

(** Accepted; subscribed; the publication read. *)
Definition sample_accepted : sample_broker_t :=
  accept_on (accept_on sample_new sample_pub_conn) sample_sub_conn.
Definition sample_sub_read : sample_broker_t := read_by_client sample_accepted 2.
Definition sample_subscribed : sample_broker_t := handle_for sample_sub_read 2.
Definition sample_pub_read : sample_broker_t := read_by_client sample_subscribed 1.
Definition sample_published : sample_broker_t := handle_for sample_pub_read 1.
(** The second request of the subscriber has a topic that is not valid. *)
Definition sample_bad_sub_read : sample_broker_t := read_by_client sample_subscribed 2.

Example sample_delivers :
  (s_tx ∘ sock) <$> (client_heap sample_published !! 2%positive ≫= c_conn)
  = Some (
      (match (s_tx ∘ sock) <$> (client_heap sample_subscribed !! 2%positive ≫= c_conn) with
       | Some bs => bs | None => [] end)
      ++ match client_heap sample_pub_read !! 1%positive with
         | Some x => wire_frame (msg_frame sample_now (in_frame x) "home/hall/temp"
                       "10.0.0.1:4000" "t1" "home/+/temp") (chars "21.5")
         | None => [] end).
Proof. vm_compute. reflexivity. Qed.

(** ** These states are reachable *)

Local Notation reached := (reachable false sample_rand).

Lemma sample_allocates_all : allocates.
Proof. done. Qed.

Lemma sample_new_reached : reached sample_new.
Proof.
  eexists true, true, (Some (sample_conn "0.0.0.0" 29010 [])), sample_new. by split.
Qed.

Lemma reached_step b b' : reached b → broker_step false sample_rand b b' → reached b'.
Proof.
  intros (m & r & l & b0 & E & Hs) Hb. exists m, r, l, b0. split; [done|].
  by eapply rtc_r.
Qed.

Lemma accept_on_reached b n : reached b → open_conn n → reached (accept_on b n).
Proof.
  intros Hb Hn. unfold accept_on, state_of. destruct (broker__accept _ _ _ _) as [[r b']| | |] eqn:E;
    try done.
  eapply reached_step; [done|]. eapply step_accept; [|exact E]. by intros ? [= <-].
Qed.

Lemma read_by_client_reached b c :
  reached b → is_Some (client_heap b !! c) → reached (read_by_client b c).
Proof.
  intros Hb Hc. unfold read_by_client, state_of.
  destruct (client__read _ _ _ _) as [[s b']| | |] eqn:E; try done.
  eapply reached_step; [done|]. eapply step_read; [|done|exact E].
  apply (bool_decide_unpack _). by vm_compute.
Qed.

Lemma handle_for_reached b c :
  reached b → is_Some (client_heap b !! c) → reached (handle_for b c).
Proof.
  intros Hb Hc. unfold handle_for, state_of.
  destruct (handle__in_frame _ _ _ _) as [[s b']| | |] eqn:E; try done.
  eapply reached_step; [done|]. by eapply step_handle.
Qed.

Lemma sample_accepted_reached : reached sample_accepted.
Proof. do 2 (apply accept_on_reached; [|by split]). apply sample_new_reached. Qed.

Lemma sample_sub_read_reached : reached sample_sub_read.
Proof. apply read_by_client_reached; [apply sample_accepted_reached|]. by vm_compute; eexists. Qed.

Lemma sample_subscribed_reached : reached sample_subscribed.
Proof. apply handle_for_reached; [apply sample_sub_read_reached|]. by vm_compute; eexists. Qed.

Lemma sample_pub_read_reached : reached sample_pub_read.
Proof. apply read_by_client_reached; [apply sample_subscribed_reached|]. by vm_compute; eexists. Qed.

Lemma sample_bad_sub_read_reached : reached sample_bad_sub_read.
Proof. apply read_by_client_reached; [apply sample_subscribed_reached|]. by vm_compute; eexists. Qed.

Lemma reached_inv b : reached b → broker_inv b.
Proof. by apply reachable_inv. Qed.
Lemma reached_ok b : reached b → broker_ok b.
Proof. intros Hb. by apply reached_inv. Qed.

(** ** A client of a computed state *)

Definition client_of (b : sample_broker_t) (c : positive) : bpsp__client script_socket :=
  match client_heap b !! c with
  | Some x => x
  | None => new_client "" (sample_conn "" 0 [])
  end.

Lemma client_of_eq b c : is_Some (client_heap b !! c) → client_heap b !! c = Some (client_of b c).
Proof. intros [x E]. unfold client_of. by rewrite E. Qed.

(** The sockets of all clients take data. *)
Definition writable_b (b : sample_broker_t) : bool :=
  forallb (fun e => match c_conn e.2 with Some n => negb (gone (sock n)) | None => true end)
          (map_to_list (client_heap b)).

Lemma writable_b_ok b : writable_b b = true → all_writable b.
Proof.
  unfold writable_b. rewrite forallb_forall. intros Hb c x n Hc Hn.
  apply elem_of_map_to_list in Hc. specialize (Hb (c, x) (proj1 (list_elem_of_In _ _) Hc)).
  cbn in Hb. rewrite Hn in Hb. cbn. by destruct (gone (sock n)).
Qed.

(** The invariants of a computed frame, decided. *)
Definition frame_wf_b (f : bpsp__frame) : bool :=
  bool_decide (vars_size f = headers_size (var_headers f)) && (vars_size f <? 65536)
  && bool_decide (NoDup (var_headers f).*1)
  && forallb (fun e => negb (strlen e.1 =? 0)) (var_headers f)
  && (data_size f =? payload_size f) && (0 <=? payload_size f) && (payload_size f <? 4294967296)
  && match payload f with
     | None => payload_size f =? 0
     | Some l => (payload_size f =? Z.of_nat (List.length l)) && negb (payload_size f =? 0)
     end
  && (0 <=? opcode f) && (opcode f <? 256) && (0 <=? flag f) && (flag f <? 256).

Ltac bool_facts :=
  repeat match goal with
  | Hx : _ && _ = true |- _ => apply andb_true_iff in Hx as [? ?]
  | Hx : bool_decide _ = true |- _ => apply bool_decide_eq_true in Hx
  | Hx : (_ <? _) = true |- _ => apply Z.ltb_lt in Hx
  | Hx : (_ <=? _) = true |- _ => apply Z.leb_le in Hx
  | Hx : (_ =? _) = true |- _ => apply Z.eqb_eq in Hx
  end.

Lemma frame_wf_b_ok f : frame_wf_b f = true → frame_wf f.
Proof.
  unfold frame_wf_b. intros H. bool_facts.
  split; [split|split| |]; try done.
  - intros k v Hin.
    match goal with Hx : forallb _ _ = true |- _ => rewrite forallb_forall in Hx;
      specialize (Hx (k, v) (proj1 (list_elem_of_In _ _) Hin)); cbn in Hx end.
    intros E. by rewrite E in *.
  - destruct (payload f); [|by apply Z.eqb_eq].
    match goal with Hx : _ && _ = true |- _ => apply andb_true_iff in Hx as [E1 E2] end.
    apply Z.eqb_eq in E1. split; [done|]. intros E. by rewrite E in E2.
Qed.

(** The headers of the replies of a request have room. *)
Definition answerable_b (src : bpsp__frame) (code : string) : bool :=
  frame_wf_b src && bool_decide (Forall full_header (var_headers src)) && (0 <? opcode src)
  && (headers_size (headers_after (var_headers src) "x-status-code" code) <? 65536)
  && (headers_size (reply_headers sample_now src code) <? 65536).

Lemma answerable_b_ok src code : answerable_b src code = true → answerable sample_now src code.
Proof.
  unfold answerable_b. intros H. bool_facts. by split; [apply frame_wf_b_ok|..].
Qed.

#[export] Instance payload_is_dec f data : Decision (payload_is f data).
Proof. unfold payload_is. apply _. Defined.

Definition publishable_b (L : Z) (src : bpsp__frame) (topic from : string) (data : bytes) : bool :=
  (0 <=? L) && frame_wf_b src && bool_decide (Forall full_header (var_headers src))
  && (0 <? opcode src) && negb (_is_completed src =? 0)
  && bool_decide (payload_is src data)
  && bool_decide (frame__get_var_header src (Some "x-topic"%string) = Some (Str topic))
  && bool_decide (no_nul (chars topic))
  && (headers_size (msg_base sample_now src) + (56 + 2 * L + strlen topic + strlen from) <? 65536).

Lemma publishable_b_ok L src topic from data :
  publishable_b L src topic from data = true → publishable sample_now L src topic from data.
Proof.
  unfold publishable_b. intros H. bool_facts. split; try done; [by apply frame_wf_b_ok|].
  by apply Z.eqb_neq, negb_true_iff.
Qed.

Definition subs_bounded_b (L : Z) (b : sample_broker_t) : bool :=
  forallb (fun e => (strlen (filter_of e.2) <=? L) && (0 <? strlen (tag_of e.2))
                    && (strlen (tag_of e.2) <=? L)) (map_to_list (sub_heap (topic_tree b))).

Lemma subs_bounded_b_ok L b : subs_bounded_b L b = true → subs_bounded L b.
Proof.
  unfold subs_bounded_b. rewrite forallb_forall. intros Hb s sub Hs%elem_of_map_to_list.
  specialize (Hb _ (proj1 (list_elem_of_In _ _) Hs)). cbn in Hb.
  bool_facts. by split.
Qed.
