(* ===== verification/Requests.v ===== *)
(** * Subscribing and unsubscribing: what the requests do and answer *)
From S2P Require Import Prelude Status Uthash Mem Net Frame FrameFacts FrameOp FrameRw Transfer.
From S2P Require Import Safe Subscriber Topic TopicTokens TopicShape TopicSpec TopicFind.
From S2P Require Import TopicService Broker Client BrokerOps Handle BrokerSpec ClientSpec.
From S2P Require Import Delivery Publish Serve.
Local Open Scope Z_scope.

Section Requests.
Context {Sk : Type} `{SocketLaws Sk} `{Malloc} `{!TopicService}.
Variable big : bool.
Variable now : string.
Local Notation client_t := (bpsp__client Sk).
Local Notation broker_t := (bpsp__broker Sk).
Implicit Types (b : broker_t) (x : client_t).

(** ** Replies *)

(** The answer to the request of the client [c]: none without the flag ACK. *)
Definition answer (src : bpsp__frame) (c : positive) (s : status__err) (msg : string)
  : positive → bytes :=
  if flag__is_set (flag src) FL_ACK then to_client c (reply_bytes now src s msg) else to_nobody.

(** The request is in the [in_frame] of a client, and it can be answered if it asks for it. *)
Record asked b c x (src : bpsp__frame) (s : status__err) : Prop := {
  as_client : client_heap b !! c = Some x;
  as_frame : in_frame x = src;
  as_answer : flag__is_set (flag src) FL_ACK = true → answerable now src (reply_code s);
}.

Lemma handle__reply_answer b c x src s msg :
  (∀ n, malloc_ok n = true) → now ≠ ""%string → ready b → all_writable b →
  asked b c x src s → strlen msg < 4294967200 →
  ∃ b', handle__reply big now b c s msg = Done (BPSP_OK, b') ∧ emits b b' (answer src c s msg).
Proof.
  intros Hm Hn Hr Hw [Hc Hf Ha] Hmsg. unfold answer. rewrite <- Hf in *.
  destruct (flag__is_set (flag (in_frame x)) FL_ACK) eqn:Hflag.
  - apply handle__reply_exact; auto.
  - exists b. rewrite (handle__reply_quiet big now b c x) by done. split; [done|].
    by apply emits_refl, ready_live.
Qed.

(** What the clients have been sent, from one state to another. *)
Definition sends b b' (out : positive → bytes) : Prop := ∀ d y,
  client_heap b !! d = Some y →
  ∃ y' n n', client_heap b' !! d = Some y' ∧ c_conn y = Some n ∧ c_conn y' = Some n'
    ∧ goes_out n n' (out d).

Lemma emits_sends b b' out : emits b b' out → sends b b' out.
Proof.
  intros He d y Hy. destruct (emits_fwd _ _ _ _ _ He Hy) as (y' & Hy' & Hh).
  destruct (hd_conn _ _ _ Hh) as (n & n' & ? & ? & ?). by exists y', n, n'.
Qed.

(** A step that leaves the connections alone comes before. *)
Definition same_conns b b' : Prop := ∀ d y,
  client_heap b !! d = Some y → ∃ y', client_heap b' !! d = Some y' ∧ c_conn y' = c_conn y.

Lemma same_conns_sends b b1 b' out : same_conns b b1 → sends b1 b' out → sends b b' out.
Proof.
  intros Hs Ho d y Hy. destruct (Hs d y Hy) as (y1 & Hy1 & Ec).
  destruct (Ho d y1 Hy1) as (y' & n & n' & ? & ? & ? & ?). exists y', n, n'.
  split_and!; [done|congruence|done|done].
Qed.

Lemma same_conns_writable b b' :
  (∀ d y', client_heap b' !! d = Some y' → ∃ y, client_heap b !! d = Some y ∧ c_conn y' = c_conn y) →
  all_writable b → all_writable b'.
Proof. intros Hs Hw d y' n Hy Hn. destruct (Hs d y' Hy) as (y & Hy' & Ec). eapply Hw; [done|congruence]. Qed.

Lemma put_subs_conns b c x h :
  client_heap b !! c = Some x →
  same_conns b (put_client b c (set_c_subs x h))
  ∧ (all_writable b → all_writable (put_client b c (set_c_subs x h))).
Proof.
  intros Hc. split.
  - intros d y Hy. cbn. destruct (decide (d = c)) as [->|].
    + rewrite lookup_insert_eq. assert (y = x) as -> by congruence. by eexists.
    + rewrite lookup_insert_ne by done. by exists y.
  - apply same_conns_writable. intros d y Hy. cbn in Hy.
    apply lookup_insert_Some in Hy as [[<- <-]|[_ Hy]]; eauto.
Qed.

(** ** SUB *)

(** The texts that a request carries. *)
Record names (src : bpsp__frame) (topic tag : string) : Prop := {
  nm_topic : frame__get_var_header src (Some "x-topic"%string) = Some (Str topic);
  nm_tag : frame__get_var_header src (Some "x-sub-tag"%string) = Some (Str tag);
  nm_topic_text : no_nul (chars topic);
  nm_tag_text : no_nul (chars tag);
}.

Lemma sub_of_tokens c i topic tag sub :
  subscriber__get_topic sub = Done topic → sub_of c i (identifier tag topic) sub →
  sub_tokens sub = topic_tokens topic.
Proof. intros Hg _. unfold sub_tokens. by rewrite Hg. Qed.

(** The identifier and the topic of a subscriber give its tag. *)
Lemma sub_of_texts c i topic tag sub :
  subscriber__get_topic sub = Done topic → sub_of c i (identifier tag topic) sub →
  filter_of sub = topic ∧ tag_of sub = tag.
Proof.
  intros Hg [_ _ _ _ (tag' & topic' & Ht & Hg' & Ek)]. unfold filter_of, tag_of.
  rewrite Hg, Ht. split; [done|]. assert (topic' = topic) as -> by congruence. cbn.
  unfold identifier in Ek. apply (f_equal chars) in Ek. rewrite !chars_app in Ek.
  rewrite !app_assoc in Ek. do 2 apply app_inv_tail in Ek. by apply chars_inj.
Qed.

(** The subscriber that [subscriber__new] makes. *)
Lemma new_subscriber_eq b c x topic tag :
  (∀ n, malloc_ok n = true) → client_heap b !! c = Some x →
  no_nul (chars topic) → no_nul (chars tag) →
  ∃ sub, new_subscriber b (Some topic) (Some tag) (Some c) None
         = Done (Some (next_sub b), (new_sub_at b sub).2)
    ∧ sub_of c (c_id x) (identifier tag topic) sub ∧ node sub = None
    ∧ sub_tokens sub = topic_tokens topic ∧ filter_of sub = topic ∧ tag_of sub = tag.
Proof.
  intros Hm Hc Hn Ht. unfold new_subscriber. rewrite (get_client_eq _ _ _ Hc).
  cbn [mbind exec_bind].
  destruct (subscriber__new (Some topic) (Some tag) (Some (c, c_id x)) None) as [sub|] eqn:E.
  - exists sub. apply new_subscriber_of in E as (Hsub & Hnode & Hg); [|done|done].
    split_and!; [done|done|done|by eapply sub_of_tokens|by eapply sub_of_texts..].
  - exfalso. revert E. unfold subscriber__new, subscriber__gen_id, mem__strdup.
    by rewrite !Hm.
Qed.

(** The outcome of a subscription. *)
Definition sub_status (topic tag : string) x : status__err :=
  match hash_find (identifier tag topic) (c_subs x), topic_tokens topic with
  | Some _, _ => BPSP_TREE_DUP_SUBSCRIBER
  | None, None => BPSP_INVALID_TOPIC
  | None, Some _ => BPSP_OK
  end.

(** The registry after it. *)
Record sub_effect b c x topic tag (s : positive) b' : Prop := {
  se_ok : broker_ok b';
  se_client : ∃ x', client_heap b' !! c = Some x' ∧ in_frame x' = in_frame x
    ∧ c_subs x' = match hash_find (identifier tag topic) (c_subs x) with
                  | Some _ => c_subs x
                  | None => c_subs x ++ [(identifier tag topic, s)]
                  end;
  se_at q : ts_at (topic_tree b') q
    = if decide (sub_status topic tag x = BPSP_OK ∧ Some q = (fmap sym_of <$> topic_tokens topic))
      then ts_at (topic_tree b) q ++ [((c_id x +:+ identifier tag topic)%string, s)]
      else ts_at (topic_tree b) q;
  se_conns : same_conns b b' ∧ (all_writable b → all_writable b');
  se_heap : ∃ sub, sub_heap (topic_tree b') !! s = Some sub
    ∧ sub_of c (c_id x) (identifier tag topic) sub ∧ sub_tokens sub = topic_tokens topic
    ∧ filter_of sub = topic ∧ tag_of sub = tag;
  se_others s' : s' ≠ s → sub_heap (topic_tree b') !! s' = sub_heap (topic_tree b) !! s';
  se_clients : ∃ h, client_heap b' = <[c := set_c_subs x h]> (client_heap b)
                    ∧ next_client b' = next_client b;
}.

Lemma client__sub0_effect b c x topic tag :
  (∀ n, malloc_ok n = true) → broker_ok b → client_heap b !! c = Some x →
  no_nul (chars topic) → no_nul (chars tag) →
  ∃ b1 b', new_subscriber b (Some topic) (Some tag) (Some c) None
           = Done (Some (next_sub b), b1)
    ∧ client__sub0 b1 (Some c) (Some (next_sub b)) true = Done (sub_status topic tag x, b')
    ∧ sub_effect b c x topic tag (next_sub b) b'.
Proof.
  intros Hm Hok Hc Hn Ht.
  destruct (new_subscriber_eq b c x topic tag Hm Hc Hn Ht) as (sub & E & Hsub & Hnode & Htok & Htexts).
  destruct (new_sub_ok b sub Hok Hnode) as (Hok1 & Hs & Hat).
  set (b1 := (new_sub_at b sub).2) in *. set (s := next_sub b) in *.
  assert (client_heap b1 !! c = Some x) as Hc1 by done.
  assert (allocates) as Hall by done.
  set (k := identifier tag topic) in *.
  pose proof (sub0_outcome b1 c x k s sub Hall Hok1 Hc1 Hs Hsub Hnode) as Ho. cbv zeta in Ho.
  assert (same_conns b b1 ∧ (all_writable b → all_writable b1)) as Hself
    by (split; [intros d y Hy; by exists y|done]).
  pose proof (put_subs_conns b1 c x (hash_add k s (c_subs x)) Hc1) as [Hcn1 Hcn2].
  assert (∀ s', s' ≠ s → sub_heap (topic_tree b1) !! s' = sub_heap (topic_tree b) !! s') as Hoth
    by (intros s' Hne; cbn; by rewrite lookup_insert_ne).
  exists b1. unfold sub_status. fold k. rewrite Htok in Ho.
  destruct (hash_find k (c_subs x)) as [s'|] eqn:Hf.
  - exists b1. rewrite Ho. split_and!; [done|done|]. split; [done| | |done|by exists sub|done|].
    3: { exists (c_subs x). split; [|done]. cbn. rewrite insert_id; [done|]. rewrite Hc. by destruct x. }
    + exists x. fold k. by rewrite Hf.
    + intros q. unfold sub_status. fold k. rewrite Hf. rewrite decide_False by (by intros [? _]).
      apply Hat.
  - destruct (topic_tokens topic) as [toks|] eqn:Etoks.
    + destruct Ho as (t & Eo & Hok2 & Hat2 & Hh & (n & Hsn)). eexists. rewrite Eo.
      split_and!; [done|done|]. split; [done| | |done| | |by eexists].
      * eexists. cbn. rewrite lookup_insert_eq. split; [done|]. fold k. rewrite Hf. by split.
      * intros q. unfold sub_status. fold k. rewrite Hf, Etoks. cbn [topic_tree with_tree].
        rewrite Hat2, Hat. cbn [fmap option_fmap option_map].
        destruct (decide (q = sym_of <$> toks)) as [->|Hq].
        -- rewrite decide_True by done. done.
        -- rewrite decide_False; [done|]. intros [_ [= ->]]. done.
      * exists (set_node sub (Some n)). cbn [topic_tree with_tree].
        rewrite Etoks. split_and!; [done|by apply sub_of_set_node|exact Htok|apply Htexts..].
      * intros s' Hne. cbn [topic_tree with_tree]. rewrite <- Hoth by done. by apply Hh.
    + destruct Ho as [Eo Hok2]. eexists. rewrite Eo. split_and!; [done|done|].
      split; [done| | |done|by exists sub; rewrite Etoks|done|by eexists].
      * eexists. cbn. rewrite lookup_insert_eq. split; [done|]. fold k. rewrite Hf. by split.
      * intros q. unfold sub_status. fold k. rewrite Hf, Etoks.
        rewrite decide_False by (by intros [? _]). apply Hat.
Qed.

Definition sub_msg (s : status__err) : string :=
  if decide (s ≠ BPSP_OK) then "Cannot add subsciber into Tree." else "SUB OK.".

(** The answer is that of success in every case. *)
Lemma handle__SUB_exact b c x src topic tag :
  (∀ n, malloc_ok n = true) → now ≠ ""%string → broker_ok b → all_writable b →
  asked b c x src BPSP_OK → names src topic tag →
  ∃ b1 b', handle__SUB big now b c = Done (BPSP_OK, b')
    ∧ sub_effect b c x topic tag (next_sub b) b1
    ∧ emits b1 b' (answer src c BPSP_OK (sub_msg (sub_status topic tag x))).
Proof.
  intros Hm Hn Hok Hw [Hc Hf Ha] [Ht1 Ht2 Hn1 Hn2].
  destruct (client__sub0_effect b c x topic tag Hm Hok Hc Hn1 Hn2) as (b0 & b1 & E0 & E1 & He).
  pose proof He as [Hok1 (x1 & Hc1 & Hf1 & _) _ [_ Hw1] _ _ _].
  unfold handle__SUB. rewrite (get_client_eq _ _ _ Hc). cbn [mbind exec_bind].
  rewrite Hf, Ht1, Ht2. cbn [header_text mbind exec_bind]. cbv zeta.
  rewrite E0. cbn [mbind exec_bind]. rewrite E1. cbn [mbind exec_bind].
  fold (sub_msg (sub_status topic tag x)).
  destruct (handle__reply_answer b1 c x1 src BPSP_OK (sub_msg (sub_status topic tag x)))
    as (b' & -> & Hem); [done|done|by apply broker_ok_ready|by apply Hw1| | |by eauto].
  - split; [done|congruence|done].
  - unfold sub_msg. by case_decide.
Qed.

(** ** UNSUB *)

Definition unsub_status (topic tag : string) x : status__err :=
  match hash_find (identifier tag topic) (c_subs x) with
  | Some _ => BPSP_OK
  | None => BPSP_INVALID_SUBSCRIBER
  end.

Record unsub_effect b c x topic tag b' : Prop := {
  ue_ok : broker_ok b';
  ue_client : ∃ x', client_heap b' !! c = Some x' ∧ in_frame x' = in_frame x
    ∧ c_subs x' = hash_del (identifier tag topic) (c_subs x);
  ue_at q : ts_at (topic_tree b') q
    = match hash_find (identifier tag topic) (c_subs x) with
      | Some s => without s (ts_at (topic_tree b) q)
      | None => ts_at (topic_tree b) q
      end;
  ue_heap : sub_heap (topic_tree b')
    = match hash_find (identifier tag topic) (c_subs x) with
      | Some s => delete s (sub_heap (topic_tree b))
      | None => sub_heap (topic_tree b)
      end;
  ue_conns : same_conns b b' ∧ (all_writable b → all_writable b');
  ue_clients : ∃ h, client_heap b' = <[c := set_c_subs x h]> (client_heap b)
                    ∧ next_client b' = next_client b;
}.

Lemma client__unsub0_effect b c x topic tag :
  (∀ n, malloc_ok n = true) → broker_ok b → client_heap b !! c = Some x →
  ∃ b', client__unsub0 b (Some c) (Some topic) (Some tag) true
        = Done (unsub_status topic tag x, b') ∧ unsub_effect b c x topic tag b'.
Proof.
  intros Hm Hok Hc. pose proof Hok as [Hr _ [L1 L2 L3 L4] _ Hl].
  pose proof (lv_broker _ (Hl _ _ Hc)) as Hb. pose proof (L3 _ _ Hc) as Hmu.
  set (k := identifier tag topic). unfold unsub_status. fold k.
  destruct (hash_find k (c_subs x)) as [s|] eqn:Hf.
  - rewrite (unsub0_found b c x topic tag k s true) by done.
    destruct (drop_sub_spec b c x (set_c_subs x (hash_del k (c_subs x))) k s true)
      as (t & -> & Hreg & Hlk & Hat & Hh); [done|done|by apply hash_find_Some_elem|done..|].
    eexists. split; [done|]. split.
    + by apply (unsub_ok b c x).
    + eexists. cbn. rewrite lookup_insert_eq. by split.
    + intros q. fold k. rewrite Hf. apply Hat.
    + fold k. rewrite Hf. apply Hh.
    + by apply (put_subs_conns b c x (hash_del k (c_subs x))).
    + by eexists.
  - exists b. rewrite (unsub0_unknown b c x topic tag) by done. split; [done|].
    split; fold k; rewrite ?Hf; [done| |done|done| |].
    3: { exists (c_subs x). split; [|done]. rewrite insert_id; [done|]. rewrite Hc. by destruct x. }
    + exists x. split_and!; [done|done|]. symmetry. by apply hash_del_notin.
    + split; [intros d y Hy; by exists y|done].
Qed.

Definition unsub_msg (s : status__err) : string :=
  if decide (s ≠ BPSP_OK) then "Cannot remove subsciber from Tree." else "UNSUB OK.".

Lemma handle__UNSUB_exact b c x src topic tag :
  (∀ n, malloc_ok n = true) → now ≠ ""%string → broker_ok b → all_writable b →
  let s := unsub_status topic tag x in
  asked b c x src s → names src topic tag →
  ∃ b1 b', handle__UNSUB big now b c = Done (BPSP_OK, b')
    ∧ unsub_effect b c x topic tag b1 ∧ emits b1 b' (answer src c s (unsub_msg s)).
Proof.
  intros Hm Hn Hok Hw s [Hc Hf Ha] [Ht1 Ht2 Hn1 Hn2].
  destruct (client__unsub0_effect b c x topic tag Hm Hok Hc) as (b1 & E1 & He). fold s in E1.
  pose proof He as [Hok1 (x1 & Hc1 & Hf1 & _) _ _ [_ Hw1] _].
  unfold handle__UNSUB. rewrite (get_client_eq _ _ _ Hc). cbn [mbind exec_bind].
  rewrite Hf, Ht1, Ht2. cbn [header_text mbind exec_bind]. cbv zeta.
  rewrite E1. cbn [mbind exec_bind]. fold (unsub_msg s).
  destruct (handle__reply_answer b1 c x1 src s (unsub_msg s)) as (b' & -> & Hem);
    [done|done|by apply broker_ok_ready|by apply Hw1| | |by eauto].
  - split; [done|congruence|done].
  - unfold unsub_msg. by case_decide.
Qed.

(** A subscriber that was new is taken out again. *)
Lemma without_added b q s h :
  registry b → s = next_sub b →
  h = ts_at (topic_tree b) q ∨ (∃ i, h = ts_at (topic_tree b) q ++ [(i, s)]) →
  without s h = ts_at (topic_tree b) q.
Proof.
  intros Hr -> Hh.
  assert (without (next_sub b) (ts_at (topic_tree b) q) = ts_at (topic_tree b) q) as Hold.
  { apply without_notin. intros i Hin.
    destruct (ts_entry _ _ _ _ (rg_tree _ Hr) Hin) as (sub & Hsub & _).
    assert (next_sub b < next_sub b)%positive; [|lia]. apply (rg_sub_fresh _ Hr). by eexists. }
  destruct Hh as [-> |[i ->]]; [done|]. unfold without in *. rewrite filter_app, Hold.
  rewrite filter_cons_False by (cbn; auto). apply app_nil_r.
Qed.

(** Ending a client whose table has a pointer to a freed subscriber. *)
Lemma destroy_dangling b c x k s :
  client_heap b !! c = Some x → c_broker x = true → c_mutex x = false →
  rw_lock (topic_tree b) = Unlocked → c_subs x = [(k, s)] → sub_heap (topic_tree b) !! s = None →
  client__destroy b (Some c) = Undef.
Proof.
  intros Hc Hb Hmu Hlk Hs Hgone. unfold client__destroy, client__unsub_all.
  rewrite (get_client_eq _ _ _ Hc). cbn [mbind exec_bind]. rewrite Hs, Hb.
  cbn [hash_count List.length Nat.eqb negb orb].
  rewrite (mutex_lock_eq _ _ _ Hc Hmu). cbn [mbind exec_bind].
  unfold tree_wrlock_if, lock_if, pthread_rwlock_wrlock.
  cbn [topic_tree put_client with_client_heap]. rewrite decide_True by done.
  cbn [mbind exec_bind mret exec_ret].
  rewrite (get_client_eq _ c (set_c_mutex x true)) by apply lookup_insert_eq.
  cbn [mbind exec_bind c_subs set_c_mutex]. rewrite Hs. cbn [unsub_all_loop].
  rewrite (get_client_eq _ c (set_c_mutex x true)) by apply lookup_insert_eq.
  cbn [mbind exec_bind]. unfold broker__del_sub, topic__del_subscriber, get_sub.
  cbn [topic_tree put_client with_client_heap with_tree sub_heap with_lock]. by rewrite Hgone.
Qed.
End Requests.
