(* ===== verification/PubSub.v ===== *)
(** * The service: what the broker promises to its clients

    [service] is the broker without frames on the way, tables, trees, heaps and locks: for each
    client its address, its subscriptions as pairs of a tag and a filter, and the bytes that it
    still sends.  [next] says how a client that joins, a request and a client that leaves change
    it, and [told] which bytes each client is sent for it.  [take_turn] runs the code for the
    same turn. *)
From S2P Require Import Prelude Status Uthash Mem Net Frame FrameFacts HeaderCodec FrameOp FrameRw.
From S2P Require Import Transfer Subscriber Topic TopicTokens TopicShape TopicSpec TopicFind.
From S2P Require Import TopicService Broker Client BrokerOps Handle BrokerSpec ClientSpec.
From S2P Require Import Delivery Publish Serve Loop Accept Requests.
Local Open Scope Z_scope.

(** ** Requests *)

Inductive request :=
  | Subscribe (tag filter : string)
  | Unsubscribe (tag filter : string)
  | Publish (topic : string).

(** What a frame asks for: its opcode, and the texts of its headers. *)
Definition request_of (src : bpsp__frame) : option request :=
  match frame__get_var_header src (Some "x-topic"%string) with
  | Some (Str topic) =>
      if opcode src =? opcode_code OP_PUB then Some (Publish topic)
      else match frame__get_var_header src (Some "x-sub-tag"%string) with
           | Some (Str tag) =>
               if opcode src =? opcode_code OP_SUB then Some (Subscribe tag topic)
               else if opcode src =? opcode_code OP_UNSUB then Some (Unsubscribe tag topic)
               else None
           | _ => None
           end
  | _ => None
  end.

(** ** The state of the service *)

Record account := {
  ac_addr : string * Z;
  ac_subs : list (string * string);
  ac_in : bytes;
}.

Record service := {
  next_account : positive;
  accounts : gmap positive account;
}.

Definition ident (e : string * string) : string := identifier e.1 e.2.

(** A subscription that is taken, by the text of its tag and filter. *)
Definition taken (k : string) (l : list (string * string)) : bool :=
  bool_decide (k ∈ ident <$> l).

Definition valid_filter (filter : string) : bool := bool_decide (is_Some (topic_tokens filter)).

(** A filter that is not valid is kept, although nothing matches it. *)
Definition subs_next (r : request) (l : list (string * string)) : list (string * string) :=
  match r with
  | Subscribe tag filter =>
      if taken (identifier tag filter) l then l else l ++ [(tag, filter)]
  | Unsubscribe tag filter => base.filter (fun e => ident e ≠ identifier tag filter) l
  | Publish _ => l
  end.

(** The status and the text of the answer. *)
Definition verdict (r : request) (l : list (string * string)) : status__err * string :=
  match r with
  | Subscribe tag filter =>
      (BPSP_OK, if taken (identifier tag filter) l || negb (valid_filter filter)
                then "Cannot add subsciber into Tree."%string else "SUB OK."%string)
  | Unsubscribe tag filter =>
      if taken (identifier tag filter) l then (BPSP_OK, "UNSUB OK."%string)
      else (BPSP_INVALID_SUBSCRIBER, "Cannot remove subsciber from Tree."%string)
  | Publish _ => (BPSP_OK, "PUB OK."%string)
  end.

(** [filter] is a filter for [topic]. *)
Definition covers (topic filter : string) : bool :=
  match topic_tokens topic, topic_tokens filter with
  | Some toks, Some ftoks => matchb (sym_of <$> ftoks) toks
  | _, _ => false
  end.

Definition sender (a : account) : string := addr_text (ac_addr a).1 (ac_addr a).2.

(** What the client [d] is sent for the publication [src] of the client [c]: one frame for each
    of its subscriptions that cover the topic, none for the publisher without an echo. *)
Definition messages (now : string) (st : service) (c : positive) (a : account)
    (src : bpsp__frame) (data : bytes) (topic : string) (d : positive) : list bytes :=
  match accounts st !! d with
  | Some e =>
      if flag__is_set (flag src) FL_PUB_ECHO || negb (bool_decide (d = c))
      then (fun s => wire_frame (msg_frame now src topic (sender a) s.1 s.2) data)
             <$> base.filter (fun s => covers topic s.2 = true) (ac_subs e)
      else []
  | None => []
  end.

Section PubSub.
Context {Sk : Type} `{SocketLaws Sk} `{Malloc} `{!TopicService}.
Variable big : bool.
Variable rand : nat → Z.
Local Notation broker_t := (bpsp__broker Sk).
Local Notation connection := (bpsp__connection Sk).
Implicit Types (b : broker_t) (st : service).

(** A client joins over a connection; a client has sent a frame with its payload, at the time
    [now]; a client leaves. *)
Inductive turn :=
  | Join (n : connection)
  | Request (now : string) (c : positive) (f : bpsp__frame) (data : bytes)
  | Leave (c : positive).

(** ** The service *)

Definition new_account (n : connection) : account :=
  {| ac_addr := addr n; ac_subs := []; ac_in := rx (sock n) |}.

Definition next st (t : turn) : service :=
  match t with
  | Join n => {| next_account := Pos.succ (next_account st);
                 accounts := <[next_account st := new_account n]> (accounts st) |}
  | Request now c f data =>
      match accounts st !! c, request_of (received now f data) with
      | Some a, Some r =>
          {| next_account := next_account st;
             accounts := <[c := {| ac_addr := ac_addr a; ac_subs := subs_next r (ac_subs a);
                                   ac_in := drop (List.length (wire_frame f data)) (ac_in a) |}]>
                           (accounts st) |}
      | _, _ => st
      end
  | Leave c => {| next_account := next_account st; accounts := delete c (accounts st) |}
  end.

(** The bytes sent to each client, before and after a turn.  The frames of a publication come in
    some order, the answer behind them. *)
Definition told st (t : turn) (l l' : gmap positive bytes) : Prop :=
  match t with
  | Join n => l' = <[next_account st := tx (sock n)]> l
  | Request now c f data =>
      let src := received now f data in
      ∃ a r, accounts st !! c = Some a ∧ request_of src = Some r ∧ ∀ d,
        match l !! d with
        | None => l' !! d = None
        | Some o => ∃ ms,
            ms ≡ₚ (match r with Publish topic => messages now st c a src data topic d | _ => [] end)
            ∧ l' !! d = Some (o ++ mjoin ms ++ answer now src c (verdict r (ac_subs a)).1
                                                              (verdict r (ac_subs a)).2 d)
        end
  | Leave c => l' = delete c l
  end.

Inductive conforms : service → list turn → gmap positive bytes → gmap positive bytes → Prop :=
  | conforms_nil st l : conforms st [] l l
  | conforms_cons st t ts l l1 l2 :
      told st t l l1 → conforms (next st t) ts l1 l2 → conforms st (t :: ts) l l2.

(** ** The turns that the clients may take *)

(** A complete frame in the stream of the client, whose headers and the headers of what is sent
    for it have room; tags and filters have at most [L] bytes. *)
Record valid_request (L : Z) st (now : string) (c : positive) (f : bpsp__frame) (data : bytes)
    (a : account) (r : request) : Prop := {
  vr_account : accounts st !! c = Some a;
  vr_in : ∃ rest, ac_in a = wire_frame f data ++ rest;
  vr_now : now ≠ ""%string;
  vr_headers : headers_valid (var_headers f);
  vr_size : vars_size f = headers_size (var_headers f);
  vr_flag : 0 ≤ flag f < 256;
  vr_data : data_size f = Z.of_nat (List.length data) ∧ data_size f < 4294967296;
  vr_room : headers_size (headers_after (var_headers f) "x-time" now) < 65536;
  vr_request : request_of (received now f data) = Some r;
  vr_answer : flag__is_set (flag f) FL_ACK = true →
              answerable now (received now f data) (reply_code (verdict r (ac_subs a)).1);
  vr_texts : match r with
             | Subscribe tag filter =>
                 no_nul (chars tag) ∧ no_nul (chars filter) ∧ strlen filter ≤ L ∧ 0 < strlen tag ≤ L
             | Unsubscribe tag filter => no_nul (chars tag) ∧ no_nul (chars filter)
             | Publish topic =>
                 publishable now L (received now f data) topic (sender a) data
                 ∧ is_Some (topic_tokens topic)
             end;
}.

Definition valid_turn (L : Z) st (t : turn) : Prop :=
  match t with
  | Join n => open_conn n ∧ writable (sock n)
  | Request now c f data => ∃ a r, valid_request L st now c f data a r
  | Leave c => is_Some (accounts st !! c)
  end.

Fixpoint valid_turns (L : Z) st (ts : list turn) : Prop :=
  match ts with
  | [] => True
  | t :: ts => valid_turn L st t ∧ valid_turns L (next st t) ts
  end.

(** ** The code *)

(** [broker__accept]; one round of the loop of a client's thread; the end of that thread. *)
Definition take_turn (fuel : nat) b (t : turn) : exec broker_t :=
  match t with
  | Join n => '(_, b) ← broker__accept rand fuel b (Some n); mret b
  | Request now c _ _ =>
      '(s, b) ← client__read big now b c;
      if decide (s ≠ BPSP_OK) then mret b else
      '(_, b) ← handle__in_frame big now b c; mret b
  | Leave c => '(_, b) ← broker__destroy_client b c true; mret b
  end.

Fixpoint take_turns (fuel : nat) b (ts : list turn) : exec broker_t :=
  match ts with
  | [] => Done b
  | t :: ts => b ← take_turn fuel b t; take_turns fuel b ts
  end.

(** One of the next [fuel] identifiers that the generator draws is free. *)
Definition name_free (fuel : nat) b : bool :=
  existsb (fun j => bool_decide (hash_find (drawn rand (rand_pos b) j) (clients b) = None))
          (seq 0 (S fuel)).

(** This is so whenever a client joins. *)
Fixpoint names_free (fuel : nat) b (ts : list turn) : bool :=
  match ts with
  | [] => true
  | t :: ts =>
      (match t with Join _ => name_free fuel b | _ => true end)
      && match take_turn fuel b t with Done b => names_free fuel b ts | _ => true end
  end.

(** ** What the code implements *)

Definition sub_texts b (s : positive) : string * string :=
  match sub_heap (topic_tree b) !! s with
  | Some sub => (tag_of sub, filter_of sub)
  | None => (""%string, ""%string)
  end.

Definition account_of b (x : bpsp__client Sk) : account :=
  {| ac_addr := match c_conn x with Some n => addr n | None => (""%string, 0) end;
     ac_subs := (fun e => sub_texts b e.2) <$> c_subs x;
     ac_in := to_read x |}.

Definition service_of b : service :=
  {| next_account := next_client b; accounts := account_of b <$> client_heap b |}.

(** The bytes accepted for each client. *)
Definition sent b : gmap positive bytes :=
  (fun x => match c_conn x with Some n => tx (sock n) | None => [] end) <$> client_heap b.

(** A subscription with a valid filter is in the tree, at its place. *)
Definition all_filed b : Prop := ∀ c x k s sub toks,
  client_heap b !! c = Some x → (k, s) ∈ c_subs x → sub_heap (topic_tree b) !! s = Some sub →
  sub_tokens sub = Some toks → ∃ i, (i, s) ∈ ts_at (topic_tree b) (sym_of <$> toks).

Record serving (L : Z) b : Prop := {
  sg_ok : broker_ok b;
  sg_writable : all_writable b;
  sg_filed : all_filed b;
  sg_bounded : subs_bounded L b;
}.
End PubSub.
