(* ===== verification/PubSubFacts.v ===== *)
(** * The broker as an implementation of the service

    How reading a frame, sending, subscribing, unsubscribing, accepting and ending a client
    change what [service_of] shows of the broker, and that they keep it [serving]. *)
From S2P Require Import Prelude Status Uthash Mem Net Frame FrameFacts HeaderCodec FrameOp FrameRw.
From S2P Require Import Transfer Subscriber Topic TopicTokens TopicShape TopicSpec TopicFind.
From S2P Require Import TopicService Broker Client BrokerOps Handle BrokerSpec ClientSpec.
From S2P Require Import Delivery Publish Serve Loop Accept Requests PubSub.
Local Open Scope Z_scope.

Lemma filter_fmap_key {A B} (f : A → B) (key : A → string) (key' : B → string) k (l : list A) :
  (∀ e, e ∈ l → key' (f e) = key e) →
  f <$> filter (fun e => key e ≠ k) l = filter (fun e => key' e ≠ k) (f <$> l).
Proof.
  induction l as [|e l IH]; intros Hl; [done|]. cbn [fmap list_fmap].
  rewrite !filter_cons, (Hl e) by left. rewrite <- IH by (intros; apply Hl; by right).
  by case_decide.
Qed.

Section Facts.
Context {Sk : Type} `{SocketLaws Sk} `{Malloc} `{!TopicService}.
Local Notation client_t := (bpsp__client Sk).
Local Notation broker_t := (bpsp__broker Sk).
Implicit Types (b : broker_t) (x : client_t).

(** ** The subscriptions of a client *)

Lemma sub_texts_ident b c x k s :
  registry b → client_heap b !! c = Some x → (k, s) ∈ c_subs x → ident (sub_texts b s) = k.
Proof.
  intros Hr Hc Hk. destruct (rg_owned _ Hr _ _ _ _ Hc Hk) as (sub & Hs & Hsub).
  destruct (so_text _ _ _ _ Hsub) as (tag & topic & Ht & Hg & ->).
  unfold sub_texts, ident. rewrite Hs. unfold tag_of, filter_of. by rewrite Ht, Hg.
Qed.

Lemma account_idents b c x :
  registry b → client_heap b !! c = Some x →
  ident <$> ac_subs (account_of b x) = (c_subs x).*1.
Proof.
  intros Hr Hc. cbn. rewrite <- list_fmap_compose. apply list_fmap_ext.
  intros i [k s] Hi%list_elem_of_lookup_2. by eapply sub_texts_ident.
Qed.

Lemma account_taken b c x k :
  registry b → client_heap b !! c = Some x →
  taken k (ac_subs (account_of b x)) = match hash_find k (c_subs x) with Some _ => true | None => false end.
Proof.
  intros Hr Hc. unfold taken. rewrite (account_idents b c) by done.
  destruct (hash_find k (c_subs x)) as [s|] eqn:E.
  - apply bool_decide_eq_true_2. apply hash_find_Some_elem in E.
    by apply (list_elem_of_fmap_2 fst _ (k, s)).
  - apply bool_decide_eq_false_2. by apply hash_find_None.
Qed.

(** Other states show the same texts where the subscribers are the same. *)
Lemma account_same b b' x x' :
  (∀ k s, (k, s) ∈ c_subs x → sub_heap (topic_tree b') !! s = sub_heap (topic_tree b) !! s) →
  c_subs x' = c_subs x → c_conn x' = c_conn x → account_of b' x' = account_of b x.
Proof.
  intros Hs Es Ec. unfold account_of, to_read. rewrite Es, Ec. f_equal.
  apply list_fmap_ext. intros i [k s] Hi%list_elem_of_lookup_2. unfold sub_texts. cbn.
  by rewrite (Hs k s Hi).
Qed.

(** One client is changed; the subscribers of the others are the same. *)
Lemma accounts_put b b' c x x' a :
  client_heap b !! c = Some x → client_heap b' = <[c := x']> (client_heap b) →
  (∀ d y k s, d ≠ c → client_heap b !! d = Some y → (k, s) ∈ c_subs y →
     sub_heap (topic_tree b') !! s = sub_heap (topic_tree b) !! s) →
  account_of b' x' = a →
  accounts (service_of b') = <[c := a]> (accounts (service_of b)).
Proof.
  intros Hc Hh Hs <-. cbn. rewrite Hh. apply map_eq. intros d. rewrite lookup_fmap.
  destruct (decide (d = c)) as [->|Hne]; [by rewrite !lookup_insert_eq|].
  rewrite !lookup_insert_ne, lookup_fmap by done.
  destruct (client_heap b !! d) as [y|] eqn:Hy; [|done]. cbn. f_equal.
  apply account_same; [|done|done]. intros k s Hk. by eapply Hs.
Qed.

Lemma sent_put b b' c x x' :
  client_heap b !! c = Some x → client_heap b' = <[c := x']> (client_heap b) →
  c_conn x' = c_conn x → sent b' = sent b.
Proof.
  intros Hc Hh Ec. unfold sent. rewrite Hh, fmap_insert, Ec.
  rewrite insert_id; [done|]. by rewrite lookup_fmap, Hc.
Qed.

(** ** Sending *)

Lemma emits_tree b b' o : emits b b' o → topic_tree b' = topic_tree b ∧ next_client b' = next_client b.
Proof. intros He. by rewrite (em_rest _ _ _ He). Qed.

Lemma emits_service b b' o : emits b b' o → service_of b' = service_of b.
Proof.
  intros He. destruct (emits_tree _ _ _ He) as [Et En]. unfold service_of. rewrite En. f_equal.
  apply map_eq. intros d. rewrite !lookup_fmap.
  pose proof (em_client _ _ _ He d) as Hd.
  destruct (client_heap b !! d) as [x|], (client_heap b' !! d) as [x'|]; try done.
  destruct Hd as [_ _ Es _ _ _ _ (n & n' & En1 & En2 & (s' & -> & Hrx & _))].
  unfold account_of, to_read, sub_texts. cbn. rewrite Es, En1, En2, Et. cbn. by rewrite Hrx.
Qed.

Lemma emits_sent b b' o d : emits b b' o → sent b' !! d = (fun l => l ++ o d) <$> sent b !! d.
Proof.
  intros He. unfold sent. rewrite !lookup_fmap. pose proof (em_client _ _ _ He d) as Hd.
  destruct (client_heap b !! d) as [x|], (client_heap b' !! d) as [x'|]; try done.
  destruct Hd as [_ _ _ _ _ _ _ (n & n' & E1 & E2 & (s' & -> & _ & Et & _))]. cbn.
  by rewrite E1, E2, <- Et.
Qed.

Lemma emits_serving (L : Z) b b' o : serving L b → emits b b' o → serving L b'.
Proof.
  intros [Hok Hw Hf HL] He. destruct (emits_tree _ _ _ He) as [Et _]. split.
  - by eapply emits_ok.
  - by eapply emits_writable.
  - intros c x' k s sub toks Hc Hk. destruct (emits_bwd _ _ _ _ _ He Hc) as (x & Hx & Hh).
    rewrite Et. rewrite (hd_subs _ _ _ Hh) in Hk. by eapply Hf.
  - unfold subs_bounded. by rewrite Et.
Qed.

(** ** Subscribing *)

Lemma sub_fresh b c x k s : registry b → client_heap b !! c = Some x → (k, s) ∈ c_subs x → s ≠ next_sub b.
Proof.
  intros Hr Hc Hk ->. destruct (rg_owned _ Hr _ _ _ _ Hc Hk) as (sub & Hs & _).
  assert (next_sub b < next_sub b)%positive by (apply (rg_sub_fresh _ Hr); by eexists). lia.
Qed.

Lemma sub_effect_next_subs b c x tag topic b' :
  registry b → client_heap b !! c = Some x → sub_effect b c x topic tag (next_sub b) b' →
  ∃ h, client_heap b' = <[c := set_c_subs x h]> (client_heap b)
    ∧ h = (match hash_find (identifier tag topic) (c_subs x) with
           | Some _ => c_subs x
           | None => c_subs x ++ [(identifier tag topic, next_sub b)]
           end)
    ∧ next_client b' = next_client b.
Proof.
  intros Hr Hc [_ (x' & Hc' & _ & Es) _ _ _ _ (h & Hh & Hn)]. exists h. split_and!; [done| |done].
  rewrite Hh, lookup_insert_eq in Hc'. injection Hc' as <-. exact Es.
Qed.

Lemma sub_service b c x tag topic b' :
  broker_ok b → client_heap b !! c = Some x → sub_effect b c x topic tag (next_sub b) b' →
  let a := account_of b x in
  service_of b'
  = {| next_account := next_account (service_of b);
       accounts := <[c := {| ac_addr := ac_addr a; ac_subs := subs_next (Subscribe tag topic) (ac_subs a);
                             ac_in := ac_in a |}]> (accounts (service_of b)) |}
  ∧ sent b' = sent b.
Proof.
  intros [Hr _ _ _ _] Hc He a.
  destruct (sub_effect_next_subs _ _ _ _ _ _ Hr Hc He) as (h & Hh & Eh & En).
  destruct He as [_ _ _ _ (sub & Hs & _ & _ & Efi & Eta) Hoth _].
  split; [|by eapply sent_put]. unfold service_of at 1. rewrite En. f_equal.
  eapply (accounts_put b b' c x); [done|done| |].
  - intros d y k s _ Hy Hk. apply Hoth. by eapply sub_fresh.
  - pose proof (account_taken b c x (identifier tag topic) Hr Hc) as Etk.
    unfold account_of at 1, a. cbn in *. f_equal. rewrite Etk. clear Etk.
    assert ((fun e => sub_texts b' e.2) <$> c_subs x = (fun e => sub_texts b e.2) <$> c_subs x) as Eold.
    { apply list_fmap_ext. intros i [k s] Hi%list_elem_of_lookup_2. cbn. unfold sub_texts.
      rewrite Hoth; [done|]. by eapply sub_fresh. }
    rewrite Eh. destruct (hash_find _ _); [done|]. rewrite fmap_app, Eold. cbn.
    unfold sub_texts at 2. by rewrite Hs, Efi, Eta.
Qed.

Lemma sub_serving (L : Z) b c x tag topic b' :
  serving L b → client_heap b !! c = Some x → strlen topic ≤ L → 0 < strlen tag ≤ L →
  sub_effect b c x topic tag (next_sub b) b' → serving L b'.
Proof.
  intros [Hok Hw Hf HL] Hc Ht Hg He. pose proof Hok as [Hr _ _ _ _].
  destruct (sub_effect_next_subs _ _ _ _ _ _ Hr Hc He) as (h & Hh & Eh & _).
  destruct He as [Hok' _ Hat [_ Hw'] (sub & Hs & _ & Htok & Efi & Eta) Hoth _].
  assert (∀ p i s, (i, s) ∈ ts_at (topic_tree b) p → (i, s) ∈ ts_at (topic_tree b') p) as Hmono.
  { intros p i s Hin. rewrite Hat. destruct (decide (_ ∧ _)); [|done]. apply elem_of_app. by left. }
  assert (∀ d y k s sub' toks, client_heap b !! d = Some y → (k, s) ∈ c_subs y →
    sub_heap (topic_tree b') !! s = Some sub' → sub_tokens sub' = Some toks →
    ∃ i, (i, s) ∈ ts_at (topic_tree b') (sym_of <$> toks)) as Hold.
  { intros d y k s sub' toks Hy Hk Hs' Hto. rewrite Hoth in Hs' by (by eapply sub_fresh).
    destruct (Hf _ _ _ _ _ _ Hy Hk Hs' Hto) as [i Hi]. exists i. by apply Hmono. }
  split; [done|by apply Hw'| |].
  - intros d y k s sub' toks Hy Hk Hs' Hto. rewrite Hh in Hy.
    apply lookup_insert_Some in Hy as [[<- <-]|[_ Hy]]; [|by eapply Hold].
    cbn in Hk. rewrite Eh in Hk. destruct (hash_find _ _) eqn:Hfi; [by eapply Hold|].
    apply elem_of_app in Hk as [Hk|[= -> ->]%list_elem_of_singleton]; [by eapply Hold|].
    assert (sub' = sub) as -> by congruence. rewrite Htok in Hto. eexists. rewrite Hat.
    rewrite decide_True; [apply elem_of_app; right; by apply list_elem_of_singleton|].
    unfold sub_status. by rewrite Hfi, Hto.
  - intros s sub' Hs'. destruct (decide (s = next_sub b)) as [->|Hne].
    + assert (sub' = sub) as -> by congruence. by rewrite Efi, Eta.
    + rewrite Hoth in Hs' by done. by eapply HL.
Qed.

(** ** Unsubscribing *)

Lemma unsub_effect_next_subs b c x tag topic b' :
  client_heap b !! c = Some x → unsub_effect b c x topic tag b' →
  client_heap b' = <[c := set_c_subs x (hash_del (identifier tag topic) (c_subs x))]> (client_heap b)
  ∧ next_client b' = next_client b.
Proof.
  intros Hc [_ (x' & Hc' & _ & Es) _ _ _ (h & Hh & Hn)]. split; [|done].
  rewrite Hh, lookup_insert_eq in Hc'. injection Hc' as <-. cbn in Es. by rewrite Hh, <- Es.
Qed.

(** The subscribers that stay are untouched. *)
Lemma unsub_heap_kept b c x tag topic b' k s d y :
  registry b → client_heap b !! c = Some x → unsub_effect b c x topic tag b' →
  client_heap b !! d = Some y → (k, s) ∈ c_subs y → d ≠ c ∨ k ≠ identifier tag topic →
  sub_heap (topic_tree b') !! s = sub_heap (topic_tree b) !! s.
Proof.
  intros Hr Hc [_ _ _ Hh _ _] Hy Hk Hne. rewrite Hh.
  destruct (hash_find _ _) as [s'|] eqn:Hf; [|done]. apply hash_find_Some_elem in Hf.
  destruct (decide (s' = s)) as [->|]; [|by rewrite lookup_delete_ne].
  destruct (owner_unique b d c y x k _ s Hr Hy Hc Hk Hf) as [-> ->]. by destruct Hne.
Qed.

Lemma unsub_service b c x tag topic b' :
  broker_ok b → client_heap b !! c = Some x → unsub_effect b c x topic tag b' →
  let a := account_of b x in
  service_of b'
  = {| next_account := next_account (service_of b);
       accounts := <[c := {| ac_addr := ac_addr a; ac_subs := subs_next (Unsubscribe tag topic) (ac_subs a);
                             ac_in := ac_in a |}]> (accounts (service_of b)) |}
  ∧ sent b' = sent b.
Proof.
  intros [Hr _ _ _ _] Hc He a. pose proof (rg_keys _ Hr _ _ Hc) as Hnd.
  destruct (unsub_effect_next_subs _ _ _ _ _ _ Hc He) as [Hh En].
  split; [|by eapply sent_put]. unfold service_of at 1. rewrite En. f_equal.
  eapply (accounts_put b b' c x); [done|done| |].
  - intros d y k s Hne Hy Hk. apply (unsub_heap_kept b c x tag topic b' k s d y); try done. by left.
  - unfold account_of at 1, a. cbn [c_conn set_c_subs c_subs subs_next ac_addr ac_subs ac_in account_of].
    f_equal. rewrite hash_del_filter by done.
    rewrite <- (filter_fmap_key (fun e => sub_texts b e.2) fst ident).
    + apply list_fmap_ext. intros i [k s] Hi%list_elem_of_lookup_2.
      apply list_elem_of_filter in Hi as [Hk Hi]. unfold sub_texts. cbn.
      by rewrite (unsub_heap_kept b c x tag topic b' k s c x) by (done || by right).
    + intros [k s] Hk. by eapply sub_texts_ident.
Qed.

Lemma unsub_serving (L : Z) b c x tag topic b' :
  serving L b → client_heap b !! c = Some x → unsub_effect b c x topic tag b' → serving L b'.
Proof.
  intros [Hok Hw Hf HL] Hc He. pose proof Hok as [Hr _ _ _ _].
  destruct (unsub_effect_next_subs _ _ _ _ _ _ Hc He) as [Hh _].
  pose proof He as [Hok' _ Hat Hheap [_ Hw'] _].
  assert (∀ s sub, sub_heap (topic_tree b') !! s = Some sub → sub_heap (topic_tree b) !! s = Some sub)
    as Hsub.
  { intros s sub. rewrite Hheap. destruct (hash_find _ _); [|done]. by intros [_ ?]%lookup_delete_Some. }
  split; [done|by apply Hw'| |].
  - intros d y k s sub toks Hy Hk Hs Hto.
    assert (∃ z, client_heap b !! d = Some z ∧ (k, s) ∈ c_subs z) as (z & Hz & Hkz).
    { rewrite Hh in Hy. apply lookup_insert_Some in Hy as [[<- <-]|[_ Hy]]; [|by exists y].
      exists x. split; [done|]. apply hash_del_elem in Hk as [Hk _]; [done|by eapply rg_keys]. }
    destruct (Hf _ _ _ _ _ _ Hz Hkz (Hsub _ _ Hs) Hto) as [i Hi]. exists i. rewrite Hat.
    destruct (hash_find _ _) as [s'|] eqn:Hfi; [|done]. apply list_elem_of_filter. split; [|done].
    cbn. intros ->. rewrite Hheap, lookup_delete_eq in Hs. done.
  - intros s sub Hs%Hsub. by eapply HL.
Qed.

(** ** Joining and leaving *)

Lemma join_service (L : Z) b i n pos :
  serving L b → open_conn n → writable (sock n) → hash_find i (clients b) = None →
  broker_ok (with_client b i n pos) →
  let b' := with_client b i n pos in
  serving L b' ∧ service_of b' = next (service_of b) (Join n)
  ∧ sent b' = <[next_client b := tx (sock n)]> (sent b).
Proof.
  intros [Hok Hw Hf HL] Hn Hwn Hi Hok' b'.
  assert (∀ d y, client_heap b' !! d = Some y →
    d = next_client b ∧ y = new_client i n ∨ d ≠ next_client b ∧ client_heap b !! d = Some y) as Hold.
  { intros d y Hy. unfold b' in Hy. cbn in Hy. apply lookup_insert_Some in Hy as [[<- <-]|[? ?]]; [by left|right]. by split. }
  split_and!; [split; [done| | |done]| |].
  - intros d y m [(-> & ->)|(_ & Hy)]%Hold Hm; [by injection Hm as <-|by eapply Hw].
  - intros d y k s sub toks [(-> & ->)|(_ & Hy)]%Hold Hk; [by apply not_elem_of_nil in Hk|].
    by apply Hf with d y k.
  - unfold service_of, b'. cbn. by rewrite fmap_insert.
  - unfold sent, b'. cbn. by rewrite fmap_insert.
Qed.

Lemma leave_service (L : Z) b c x :
  serving L b → client_heap b !! c = Some x →
  ∃ b', broker__destroy_client b c true = Done (BPSP_OK, b') ∧ serving L b'
    ∧ service_of b' = next (Sk:=Sk) (service_of b) (Leave c) ∧ sent b' = delete c (sent b).
Proof.
  intros [Hok Hw Hf HL] Hc. pose proof Hok as [Hr _ _ _ _].
  destruct (broker__destroy_client_spec b c x Hok Hc) as (t & E & Hok' & [Hat Hheap]).
  eexists. split; [exact E|]. set (b' := with_clients _ _) in *.
  assert (∀ d y, client_heap b' !! d = Some y → d ≠ c ∧ client_heap b !! d = Some y) as Hold.
  { intros d y Hy. unfold b' in Hy. cbn in Hy. apply lookup_delete_Some in Hy as [? ?]. by split. }
  assert (∀ d y k s, d ≠ c → client_heap b !! d = Some y → (k, s) ∈ c_subs y → s ∉ (c_subs x).*2)
    as Hown.
  { intros d y k s Hne Hy Hk ([k' s'] & -> & Hk')%list_elem_of_fmap. apply Hne.
    by destruct (owner_unique b d c y x k k' s' Hr Hy Hc Hk Hk'). }
  split_and!; [split; [done| | |]| |].
  - intros d y n [_ Hy]%Hold. by eapply Hw.
  - intros d y k s sub toks [Hne Hy]%Hold Hk Hs Hto. cbn in Hs. rewrite Hheap in Hs.
    rewrite decide_False in Hs by (by eapply Hown).
    destruct (Hf _ _ _ _ _ _ Hy Hk Hs Hto) as [i Hi]. exists i. cbn. rewrite Hat.
    apply list_elem_of_filter. split; [|done]. by eapply Hown.
  - intros s sub Hs. cbn in Hs. rewrite Hheap in Hs. case_decide; [done|]. by eapply HL.
  - unfold service_of. cbn. f_equal. rewrite <- fmap_delete. apply map_fmap_ext.
    intros d y Hy. apply lookup_delete_Some in Hy as [Hne Hy]. apply account_same; [|done|done].
    intros k s Hk. cbn. rewrite Hheap, decide_False; [done|]. by eapply Hown.
  - unfold sent. cbn. by rewrite fmap_delete.
Qed.

(** ** Reading a frame *)

Lemma read_service (L : Z) big now b c x f data rest :
  (∀ n, malloc_ok n = true) → serving L b → client_heap b !! c = Some x →
  to_read x = wire_frame f data ++ rest →
  headers_valid (var_headers f) → vars_size f = headers_size (var_headers f) →
  0 < opcode f < 9 → 0 ≤ flag f < 256 →
  data_size f = Z.of_nat (List.length data) → data_size f < 4294967296 →
  headers_size (headers_after (var_headers f) "x-time" now) < 65536 →
  ∃ b' x' a, client__read big now b c = Done (BPSP_OK, b') ∧ serving L b'
    ∧ client_heap b' !! c = Some x' ∧ in_frame x' = FrameRw.received now f data
    ∧ c_subs x' = c_subs x ∧ topic_tree b' = topic_tree b
    ∧ a = account_of b x
    ∧ service_of b' = {| next_account := next_account (service_of b);
         accounts := <[c := {| ac_addr := ac_addr a; ac_subs := ac_subs a; ac_in := rest |}]>
                       (accounts (service_of b)) |}
    ∧ sent b' = sent b.
Proof.
  intros Hm [Hok Hw Hf HL] Hc Hin Hv Hsz Hop Hfl Hd Hd' Hs. pose proof Hok as [Hr _ [_ _ L3 L4] _ Hl].
  pose proof (broker_ok_ready _ Hok) as Hrdy. pose proof (Hl _ _ Hc) as [B1 B2 (n & Hn & [Ho Hp])].
  assert (rx (sock n) = wire_frame f data ++ rest) as Hrx by (unfold to_read in Hin; by rewrite Hn in Hin).
  destruct (frame__recv_spec big now n (in_frame x) f data rest) as (s' & E & Hrx' & Htx');
    [done|done|done|done|lia|done|done|done|done|done|].
  pose proof (frame__recv_comes big now n _ _ _ _ Ho E) as Hcm.
  assert (writable (sock n) → writable s') as Hws.
  { destruct Hcm as (got & (s2 & Es & _ & _ & Hws) & _). injection Es as <-. exact Hws. }
  unfold client__read. rewrite (get_client_eq _ _ _ Hc). cbn [mbind exec_bind].
  rewrite (client__recv_eq big now b c x n), E by done. cbn [mbind exec_bind]. cbv zeta.
  rewrite decide_False by auto. rewrite log__trace_ok by (cbn; lia). cbn [mbind exec_bind mret exec_ret].
  rewrite get_put. cbn [mbind exec_bind]. rewrite put_put.
  set (x' := set_in_frame _ _). set (b' := put_client b c x').
  assert (client_heap b' !! c = Some x') as Hc' by apply lookup_insert_eq.
  assert (∀ d y, client_heap b' !! d = Some y → d = c ∧ y = x' ∨ d ≠ c ∧ client_heap b !! d = Some y)
    as Hold.
  { intros d y Hy. unfold b' in Hy. cbn in Hy. apply lookup_insert_Some in Hy as [[<- <-]|[? ?]]; [by left|right]. by split. }
  exists b', x', (account_of b x). split_and!; try done; [split; [| | |done]| |].
  - apply (put_client_ok b c x); [done|done|done| |exact (L3 _ _ Hc)|exact (L4 _ _ Hc)|].
    + split; [done|done|]. by exists (set_sock n s').
    + by apply (registry_put_same b c x).
  - intros d y m [(-> & ->)|(_ & Hy)]%Hold Hy'; [|by eapply Hw]. injection Hy' as <-. apply Hws.
    by eapply Hw.
  - intros d y k s sub toks [(-> & ->)|(_ & Hy)]%Hold Hk Hs'; [by apply Hf with c x k|by apply Hf with d y k].
  - unfold service_of at 1. f_equal. eapply (accounts_put b b' c x); [done|done|done|].
    unfold account_of, to_read. cbn. by rewrite Hn, Hrx'.
  - unfold sent, b'. cbn. rewrite fmap_insert. cbn. rewrite Htx'. apply insert_id.
    by rewrite lookup_fmap, Hc; cbn; rewrite Hn.
Qed.
End Facts.
