(* ===== verification/PubSubProps.v ===== *)
(** * The broker refines the service

    Every run of clients that join, send requests and leave takes the broker through the states
    of [service], and sends each client the bytes that the service sends it. *)
From S2P Require Import Prelude Status Uthash Mem Net Frame FrameFacts HeaderCodec FrameOp FrameRw.
From S2P Require Import FrameProps Transfer Subscriber Topic TopicTokens TopicShape TopicSpec TopicFind.
From S2P Require Import TopicService Broker Client BrokerOps Handle BrokerSpec ClientSpec.
From S2P Require Import Delivery Publish Serve Loop Accept Requests Samples PubSub PubSubFacts.
Local Open Scope Z_scope.


Section Refinement.
Context {Sk : Type} `{SocketLaws Sk} `{Malloc} `{!TopicService}.
Variable big : bool.
Variable rand : nat → Z.
Local Notation client_t := (bpsp__client Sk).
Local Notation broker_t := (bpsp__broker Sk).
Implicit Types (b : broker_t) (x : client_t).

(** ** The messages of a publication *)





(** ** Handling a request *)









(** ** Turns *)






End Refinement.


(** ** An instance *)

#[local] Existing Instance malloc_always.



Definition sample_turns : list (turn (Sk:=script_socket)) :=
  [Join sample_pub_conn; Join sample_sub_conn;
   Request sample_now 2 (sub_frame "home/+/temp" "t1") [];
   Request sample_now 1 (pub_frame "home/hall/temp" "21.5") (chars "21.5");
   Request sample_now 2 (sub_frame "home//" "t2") []; Leave 1].



(** What the service is after these turns, and what the subscriber has been sent. *)
Example sample_service :
  accounts (foldl next {| next_account := 1; accounts := ∅ |} sample_turns) !! 2%positive
  = Some {| ac_addr := ("10.0.0.2"%string, 4001); ac_subs := [("t1", "home/+/temp"); ("t2", "home//")]%string;
            ac_in := [] |}.
Proof. vm_compute. reflexivity. Qed.
