(* ===== verification/BrokerProps.v ===== *)
(** * Properties of the broker

    The requests, the end of a client, acceptance, the states that can be reached, and the
    paths on which the code does not do what it announces, each with an instance on the small
    broker of [Samples]. *)
From S2P Require Import Prelude Status Datatype Uthash Mem Net Frame FrameFacts HeaderCodec.
From S2P Require Import FrameOp FrameRw FrameProps Transfer Safe Subscriber Topic TopicTokens.
From S2P Require Import TopicShape TopicSpec TopicFind TopicProps TopicService Broker Client.
From S2P Require Import BrokerOps Handle BrokerSpec ClientSpec Delivery Publish Serve Loop Accept.
From S2P Require Import Requests Samples.
Local Open Scope Z_scope.

Section Properties.
Context {Sk : Type} `{SocketLaws Sk} `{Malloc}.
Variable big : bool.
Local Notation client_t := (bpsp__client Sk).
Local Notation broker_t := (bpsp__broker Sk).
Local Notation connection := (bpsp__connection Sk).
Implicit Types (b : broker_t) (x : client_t).

(** ** Publishing *)

(** C3: [handle__PUB] finds exactly the subscribers whose filter matches the topic, once each;
    it sends to each of them one frame: the published one as MSG, with the tag of the
    subscriber, the topic, the filter and the address of the publisher in its headers; the
    publisher itself is left out unless it asks for an echo; then the publisher gets its reply
    if it asked for one, nobody gets any other byte, and the broker is in order as before. *)
Theorem handle__PUB_delivers now b c x n ip port topic toks data (L : Z) :
  let src := in_frame x in
  let from := addr_text ip port in
  let echo := flag__is_set (flag src) FL_PUB_ECHO in
  (∀ k, malloc_ok k = true) → now ≠ ""%string → broker_ok b → all_writable b →
  client_heap b !! c = Some x → c_conn x = Some n → addr n = (ip, port) →
  publishable now L src topic from data → subs_bounded L b →
  (flag__is_set (flag src) FL_ACK = true → answerable now src "200") →
  topic_tokens topic = Some toks →
  ∃ found locs b', handle__PUB big now b c = Done (BPSP_OK, b')
    ∧ Some <$> found = (fun s => sub_heap (topic_tree b) !! s) <$> locs ∧ NoDup locs
    ∧ (∀ s, s ∈ locs ↔ ∃ p i, matches p toks ∧ (i, s) ∈ subs_at (topic_tree b) p)
    ∧ emits b b' (fun d => deliveries now src topic from data c echo found d
                           ++ answer now src c BPSP_OK "PUB OK." d)
    ∧ broker_ok b'.
Proof.
  intros src from echo Hm Hn Hok Hw Hc Hcn Ha Hp HL Hack Ht.
  destruct (handle__PUB_exact big now b c x n ip port topic toks src data L)
    as (found & locs & b' & E & Hf & Hnd & Hl & He); try done.
  exists found, locs, b'. split_and!; [done|done|done|done|done|by eapply emits_ok].
Qed.

(** A publication without the header [x-topic] is not answered at all: the handler returns
    the error before its reply, nothing is sent, and the caller closes the client. *)
Theorem handle__PUB_no_topic now b c x :
  client_heap b !! c = Some x →
  frame__get_var_header (in_frame x) (Some "x-topic"%string) = None →
  handle__PUB big now b c = Done (BPSP_INVALID_TOPIC, b).
Proof.
  intros Hc Ht. unfold handle__PUB. rewrite (get_client_eq _ _ _ Hc). cbn [mbind exec_bind].
  by rewrite Ht.
Qed.

(** ** Subscribing *)

(** C12: A SUB with a valid topic and a new pair of tag and topic files a new subscriber under
    its topic, and nothing else changes in the tree; the client has it in its table; the
    client gets the reply OK if it asked for one, nobody gets any other byte.  From then on a
    topic reaches the subscriber exactly when the filter matches it. *)
Theorem handle__SUB_files now b c x topic tag toks :
  let src := in_frame x in
  let k := identifier tag topic in
  (∀ n, malloc_ok n = true) → now ≠ ""%string → broker_ok b → all_writable b →
  asked now b c x src BPSP_OK → names src topic tag →
  topic_tokens topic = Some toks → hash_find k (c_subs x) = None →
  ∃ s b1 b', handle__SUB big now b c = Done (BPSP_OK, b')
    ∧ emits b1 b' (answer now src c BPSP_OK "SUB OK.") ∧ broker_ok b'
    ∧ (∃ x', client_heap b1 !! c = Some x' ∧ c_subs x' = c_subs x ++ [(k, s)])
    ∧ same_conns b b1
    ∧ (∀ q, subs_at (topic_tree b') q = if decide (q = sym_of <$> toks)
                                        then subs_at (topic_tree b) q ++ [((c_id x +:+ k)%string, s)]
                                        else subs_at (topic_tree b) q)
    ∧ (∀ topic' toks', topic_tokens topic' = Some toks' → ∀ s',
         subscribed b' toks' s'
         ↔ subscribed b toks' s' ∨ s' = s ∧ matches (sym_of <$> toks) toks').
Proof.
  intros src k Hm Hn Hok Hw Ha Hnm Ht Hf.
  destruct (handle__SUB_exact big now b c x src topic tag Hm Hn Hok Hw Ha Hnm)
    as (b1 & b' & E & [Hok1 (x1 & Hc1 & _ & Es) Hat [Hcn _] _ _ _] & He).
  assert (sub_status topic tag x = BPSP_OK) as Est
    by (unfold sub_status; fold k; by rewrite Hf, Ht).
  rewrite Est in He. fold k in Es. rewrite Hf in Es.
  assert (topic_tree b' = topic_tree b1) as Etr by (by rewrite (em_rest _ _ _ He)).
  assert (∀ q, subs_at (topic_tree b') q
    = if decide (q = sym_of <$> toks)
      then subs_at (topic_tree b) q ++ [((c_id x +:+ k)%string, next_sub b)]
      else subs_at (topic_tree b) q) as Hq.
  { intros q. rewrite Etr. change (subs_at (topic_tree b1) q) with (ts_at (topic_tree b1) q).
    rewrite Hat, Est, Ht. cbn [fmap option_fmap option_map].
    destruct (decide (q = sym_of <$> toks)) as [->|Hne]; [by rewrite decide_True|].
    rewrite decide_False; [done|]. by intros [_ [= ->]]. }
  exists (next_sub b), b1, b'. split_and!; [done|done|by eapply emits_ok|by eauto|done|done|].
  intros topic' toks' _ s'. unfold subscribed. cbn [ts_at TopicService_tree]. split.
  - intros (p & i & Hp & Hin). rewrite Hq in Hin. case_decide as Hpq; [|by left; eauto].
    apply elem_of_app in Hin as [Hin|[= -> ->]%list_elem_of_singleton]; [by left; eauto|].
    right. by subst p.
  - intros [(p & i & Hp & Hin)|[-> Hp]].
    + exists p, i. split; [done|]. rewrite Hq. destruct (decide (p = _)); [|done].
      apply elem_of_app. by left.
    + exists (sym_of <$> toks), (c_id x +:+ k)%string. split; [done|].
      rewrite Hq, decide_True by done. apply elem_of_app. right.
      by apply list_elem_of_singleton.
Qed.

(** C40: A SUB that is refused, because its topic is not valid or the pair of tag and topic is
    taken, is answered with OK all the same (the status is assigned to a variable of an inner
    block): only the text of the reply tells.  The tree stays as it was, but the subscriber
    that was made is not freed, and with an invalid topic the client keeps it in its table. *)
Theorem handle__SUB_refused_says_ok now b c x topic tag :
  let src := in_frame x in
  let k := identifier tag topic in
  (∀ n, malloc_ok n = true) → now ≠ ""%string → broker_ok b → all_writable b →
  asked now b c x src BPSP_OK → names src topic tag →
  topic_tokens topic = None ∨ is_Some (hash_find k (c_subs x)) →
  ∃ s b1 b', handle__SUB big now b c = Done (BPSP_OK, b')
    ∧ emits b1 b' (answer now src c BPSP_OK "Cannot add subsciber into Tree.")
    ∧ (∀ q, subs_at (topic_tree b') q = subs_at (topic_tree b) q)
    ∧ is_Some (sub_heap (topic_tree b') !! s) ∧ (∀ q i, (i, s) ∉ subs_at (topic_tree b') q)
    ∧ ∃ x', client_heap b1 !! c = Some x'
        ∧ c_subs x' = match hash_find k (c_subs x) with
                      | Some _ => c_subs x
                      | None => c_subs x ++ [(k, s)]
                      end.
Proof.
  intros src k Hm Hn Hok Hw Ha Hnm Hor.
  destruct (handle__SUB_exact big now b c x src topic tag Hm Hn Hok Hw Ha Hnm)
    as (b1 & b' & E & [Hok1 (x1 & Hc1 & _ & Es) Hat _ (sub & Hs & _) _ _] & He).
  assert (sub_status topic tag x ≠ BPSP_OK) as Est.
  { unfold sub_status. fold k. destruct Hor as [-> |[s' ->]]; [|done].
    by destruct (hash_find k (c_subs x)). }
  assert (topic_tree b' = topic_tree b1) as Etr by (by rewrite (em_rest _ _ _ He)).
  unfold sub_msg in He. rewrite decide_True in He by done.
  assert (∀ q, subs_at (topic_tree b') q = subs_at (topic_tree b) q) as Hq.
  { intros q. rewrite Etr. change (subs_at (topic_tree b1) q) with (ts_at (topic_tree b1) q).
    rewrite Hat, decide_False; [done|]. by intros [? _]. }
  exists (next_sub b), b1, b'. split_and!; [done|done|done|by rewrite Etr; eexists| |by eauto].
  intros q i Hin. rewrite Hq in Hin. destruct Hok as [Hr _ _ _ _].
  destruct (ts_entry _ _ _ _ (rg_tree _ Hr) Hin) as (sub' & Hsub' & _).
  assert (next_sub b < next_sub b)%positive; [|lia]. apply (rg_sub_fresh _ Hr). by eexists.
Qed.

(** ** Unsubscribing *)

(** C13: An UNSUB takes the subscriber of that tag and topic out of the tree and out of the
    table of the client, and frees it; nothing else changes.  Without such a subscriber it
    changes nothing and the reply is the error BPSP_INVALID_SUBSCRIBER. *)
Theorem handle__UNSUB_removes now b c x topic tag :
  let src := in_frame x in
  let k := identifier tag topic in
  let st := unsub_status topic tag x in
  (∀ n, malloc_ok n = true) → now ≠ ""%string → broker_ok b → all_writable b →
  asked now b c x src st → names src topic tag →
  ∃ b1 b', handle__UNSUB big now b c = Done (BPSP_OK, b')
    ∧ emits b1 b' (answer now src c st (unsub_msg st)) ∧ broker_ok b' ∧ same_conns b b1
    ∧ (∃ x', client_heap b1 !! c = Some x' ∧ c_subs x' = hash_del k (c_subs x))
    ∧ (∀ s, hash_find k (c_subs x) = Some s →
         st = BPSP_OK ∧ sub_heap (topic_tree b') = delete s (sub_heap (topic_tree b))
         ∧ ∀ q, subs_at (topic_tree b') q = filter (fun e => e.2 ≠ s) (subs_at (topic_tree b) q))
    ∧ (hash_find k (c_subs x) = None →
         st = BPSP_INVALID_SUBSCRIBER ∧ sub_heap (topic_tree b') = sub_heap (topic_tree b)
         ∧ ∀ q, subs_at (topic_tree b') q = subs_at (topic_tree b) q).
Proof.
  intros src k st Hm Hn Hok Hw Ha Hnm.
  destruct (handle__UNSUB_exact big now b c x src topic tag Hm Hn Hok Hw Ha Hnm)
    as (b1 & b' & E & [Hok1 (x1 & Hc1 & _ & Es) Hat Hh [Hcn _] _] & He).
  assert (topic_tree b' = topic_tree b1) as Etr by (by rewrite (em_rest _ _ _ He)).
  fold k in Es, Hat, Hh. exists b1, b'.
  split_and!; [done|done|by eapply emits_ok|done|by eauto| |].
  - intros s Hs. rewrite Hs in *. rewrite Etr. split_and!; [|done|exact Hat].
    unfold st, unsub_status. fold k. by rewrite Hs.
  - intros Hs. rewrite Hs in *. rewrite Etr. split_and!; [|done|exact Hat].
    unfold st, unsub_status. fold k. by rewrite Hs.
Qed.

(** An UNSUB without the header [x-sub-tag] never removes anything, although its text
    announces the default tag `_0`: [client__unsub0] refuses the missing tag, and the reply
    is an error. *)
Theorem handle__UNSUB_no_default now b c x topic :
  client_heap b !! c = Some x →
  frame__get_var_header (in_frame x) (Some "x-topic"%string) = Some (Str topic) →
  frame__get_var_header (in_frame x) (Some "x-sub-tag"%string) = None →
  handle__UNSUB big now b c
  = handle__reply big now b c BPSP_INVALID_ARG "Cannot remove subsciber from Tree.".
Proof.
  intros Hc Ht Hg. unfold handle__UNSUB. rewrite (get_client_eq _ _ _ Hc).
  cbn [mbind exec_bind]. rewrite Ht, Hg. reflexivity.
Qed.

(** A client that subscribes and unsubscribes again under the same tag and topic leaves no
    trace: the tables of all topics, its own table and the memory of subscribers are as they
    were, and the broker is in order. *)
Theorem client__sub_unsub b c x topic tag toks :
  (∀ n, malloc_ok n = true) → broker_ok b → client_heap b !! c = Some x →
  no_nul (chars topic) → no_nul (chars tag) → topic_tokens topic = Some toks →
  hash_find (identifier tag topic) (c_subs x) = None →
  ∃ b1 b2, client__sub1 b (Some c) (Some topic) (Some tag) true = Done (BPSP_OK, b1)
    ∧ client__unsub0 b1 (Some c) (Some topic) (Some tag) true = Done (BPSP_OK, b2)
    ∧ (∀ q, subs_at (topic_tree b2) q = subs_at (topic_tree b) q)
    ∧ (∃ x2, client_heap b2 !! c = Some x2 ∧ c_subs x2 = c_subs x)
    ∧ sub_heap (topic_tree b2) !! next_sub b = None ∧ broker_ok b2.
Proof.
  intros Hm Hok Hc Hn Ht Htok Hf. set (k := identifier tag topic) in *.
  destruct (client__sub0_effect b c x topic tag Hm Hok Hc Hn Ht) as (b0 & b1 & E0 & E1 & He).
  destruct He as [Hok1 (x1 & Hc1 & _ & Es) Hat _ _ _ _]. fold k in Es. rewrite Hf in Es.
  assert (sub_status topic tag x = BPSP_OK) as Est
    by (unfold sub_status; fold k; by rewrite Hf, Htok).
  rewrite Est in *.
  destruct (client__unsub0_effect b1 c x1 topic tag Hm Hok1 Hc1) as (b2 & E2 & He2).
  destruct He2 as [Hok2 (x2 & Hc2 & _ & Es2) Hat2 Hh2 _ _]. fold k in Es2, Hat2, Hh2.
  assert (hash_find k (c_subs x1) = Some (next_sub b)) as Hf1.
  { rewrite Es. change (c_subs x ++ [(k, next_sub b)]) with (hash_add k (next_sub b) (c_subs x)).
    by rewrite hash_find_add, decide_True. }
  rewrite Hf1 in *. exists b1, b2. split_and!; [| | | | |done].
  - unfold client__sub1. rewrite E0. cbn [mbind exec_bind]. rewrite E1. reflexivity.
  - rewrite E2. unfold unsub_status. fold k. by rewrite Hf1.
  - intros q. change (ts_at (topic_tree b2) q = ts_at (topic_tree b) q). rewrite Hat2.
    apply (without_added b q (next_sub b)); [apply Hok|done|]. rewrite Hat.
    destruct (decide _); eauto.
  - exists x2. split; [done|]. rewrite Es2, Es. by apply hash_del_add.
  - rewrite Hh2. apply lookup_delete_eq.
Qed.

(** [client__sub1] with a topic that is not valid frees the subscriber that it has just put
    into the table of the client: the table keeps a dangling pointer, and ending the
    subscriptions of the client uses it. *)
Theorem client__sub1_dangling b c x topic tag :
  (∀ n, malloc_ok n = true) → broker_ok b → client_heap b !! c = Some x →
  no_nul (chars topic) → no_nul (chars tag) → topic_tokens topic = None →
  c_subs x = [] →
  ∃ b', client__sub1 b (Some c) (Some topic) (Some tag) true = Done (BPSP_INVALID_TOPIC, b')
    ∧ (∃ x' s, client_heap b' !! c = Some x' ∧ c_subs x' = [(identifier tag topic, s)]
               ∧ sub_heap (topic_tree b') !! s = None)
    ∧ client__destroy b' (Some c) = Undef.
Proof.
  intros Hm Hok Hc Hn Ht Htok Hnil. set (k := identifier tag topic) in *.
  destruct (client__sub0_effect b c x topic tag Hm Hok Hc Hn Ht) as (b0 & b1 & E0 & E1 & He).
  destruct He as [Hok1 (x1 & Hc1 & _ & Es) _ _ (sub & Hs & _) _ _]. fold k in Es.
  rewrite Hnil in Es. cbn in Es.
  assert (sub_status topic tag x = BPSP_INVALID_TOPIC) as Est
    by (unfold sub_status; by rewrite Hnil, Htok).
  rewrite Est in *. set (s := next_sub b) in *.
  set (b' := with_tree b1 (with_sub_heap (topic_tree b1) (delete s (sub_heap (topic_tree b1))))).
  assert (sub_heap (topic_tree b') !! s = None) as Hgone by apply lookup_delete_eq.
  exists b'. split_and!.
  - unfold client__sub1. rewrite E0. cbn [mbind exec_bind]. rewrite E1. cbn [mbind exec_bind].
    rewrite decide_True by done. unfold subscriber__free, mem__free. by rewrite Hs.
  - by exists x1, s.
  - destruct Hok1 as [_ _ [L1 _ L3 _] _ Hl].
    apply (destroy_dangling b' c x1 k s); [done|by apply (Hl _ _ Hc1)|exact (L3 _ _ Hc1)
      |exact L1|done|done].
Qed.

(** Two different pairs of tag and topic can have the same identifier, because the tag may
    contain a slash: the second subscription is refused as a duplicate of the first. *)
Theorem client__sub0_ambiguous b c x tag t1 t2 s :
  (∀ n, malloc_ok n = true) → broker_ok b → client_heap b !! c = Some x →
  no_nul (chars t1) → no_nul (chars t2) → no_nul (chars tag) →
  hash_find (identifier tag (t1 +:+ "/" +:+ t2)) (c_subs x) = Some s →
  ∃ b1 b', new_subscriber b (Some t2) (Some (tag +:+ "/" +:+ t1)%string) (Some c) None
           = Done (Some (next_sub b), b1)
    ∧ client__sub0 b1 (Some c) (Some (next_sub b)) true = Done (BPSP_TREE_DUP_SUBSCRIBER, b').
Proof.
  intros Hm Hok Hc Hn1 Hn2 Ht Hf.
  assert (no_nul (chars (tag +:+ "/" +:+ t1))) as Htag.
  { rewrite !chars_app. unfold no_nul in *. rewrite !elem_of_app. intros [?|[E|?]]; [done| |done].
    by apply list_elem_of_singleton in E. }
  destruct (client__sub0_effect b c x t2 (tag +:+ "/" +:+ t1) Hm Hok Hc Hn2 Htag)
    as (b0 & b1 & E0 & E1 & _).
  exists b0, b1. split; [done|]. rewrite E1. unfold sub_status.
  assert (identifier (tag +:+ "/" +:+ t1) t2 = identifier tag (t1 +:+ "/" +:+ t2)) as ->.
  { unfold identifier. apply chars_inj. rewrite !chars_app. by rewrite <- !app_assoc. }
  by rewrite Hf.
Qed.

(** ** Clients *)


(** C15: [broker__accept] ends as soon as one of the next random identifiers is free, and gives
    the client an identifier of five characters that no other client has; the new client has
    no subscriptions, everything else stays, and the broker is in order. *)
Theorem broker__accept_unique rand fuel b n j :
  (∀ k, malloc_ok k = true) → broker_inv b → open_conn n → (j ≤ fuel)%nat →
  hash_find (drawn rand (rand_pos b) j) (clients b) = None →
  ∃ c i b', broker__accept rand fuel b (Some n) = Done (Some c, b')
    ∧ String.length i = 5%nat ∧ hash_find i (clients b) = None
    ∧ clients b' = clients b ++ [(i, c)]
    ∧ client_heap b !! c = None ∧ client_heap b' = <[c := new_client i n]> (client_heap b)
    ∧ topic_tree b' = topic_tree b ∧ broker_inv b'.
Proof.
  intros Hm Hinv Hn Hj Hf. pose proof Hinv as [[Hr _ _ _ _] _].
  destruct (broker__accept_ends rand fuel b n j Hm Hj Hf) as (b' & E).
  pose proof E as Ea. apply accept_inv in Ea as (i & pos & _ & Eb & Hfree & Hi).
  exists (next_client b), i, b'. subst b'. split_and!; try done.
  - destruct (client_heap b !! next_client b) eqn:Ex; [|done]. exfalso.
    pose proof (rg_client_fresh _ Hr (next_client b) ltac:(by rewrite Ex)). lia.
  - by apply with_client_inv.
Qed.

(** ** All states, all inputs *)

(** C4: In every state that the broker can reach, whatever the clients send and in whatever
    order their frames are handled: the topic tree is well formed and pruned; every subscriber
    in it is an object that exists and belongs to a client that is alive, is in the table of
    that client and is found in the table of the broker; every subscriber in the table of a
    client exists, belongs to it, and has the identifier of its entry; the identifiers of the
    clients are the keys of the table of the broker; and no lock is held. *)
Theorem reachable_no_dangling rand b :
  allocates → reachable big rand b →
  tree_wf (topic_tree b) ∧ pruned (topic_tree b)
  ∧ (∀ p i s, (i, s) ∈ subs_at (topic_tree b) p →
       ∃ sub x k, sub_heap (topic_tree b) !! s = Some sub ∧ sub_path sub = Some p
         ∧ client_heap b !! client sub = Some x ∧ (k, s) ∈ c_subs x
         ∧ hash_find (c_id x) (clients b) = Some (client sub))
  ∧ (∀ c x k s, client_heap b !! c = Some x → (k, s) ∈ c_subs x →
       ∃ sub, sub_heap (topic_tree b) !! s = Some sub ∧ client sub = c
         ∧ client_id sub = Some (c_id x) ∧ subscriber__get_identifier sub = Done k)
  ∧ (∀ k c, hash_find k (clients b) = Some c
            ↔ ∃ x, client_heap b !! c = Some x ∧ c_id x = k)
  ∧ rw_lock (topic_tree b) = Unlocked ∧ cli_rw_lock b = Unlocked
  ∧ (∀ c x, client_heap b !! c = Some x → c_mutex x = false ∧ c_rw_lock x = Unlocked).
Proof.
  intros Hm Hb. apply reachable_inv in Hb as [[Hr _ [L1 L2 L3 L4] Ht _] _]; [|done].
  pose proof (rg_tree _ Hr) as [Hw Hp _]. split_and!; [done|done| | | |done|done|by eauto].
  - intros p i s Hs. destruct (rg_filed _ Hr p i s Hs) as (c & x & k & Hc & Hk).
    destruct (rg_owned _ Hr _ _ _ _ Hc Hk) as (sub & Hsub & [<- _ _ _ _]).
    destruct (ts_entry _ _ _ _ (rg_tree _ Hr) Hs) as (sub' & Hsub' & _ & Hpath & _).
    assert (sub' = sub) as -> by congruence. exists sub, x, k.
    split_and!; [done|done|done|done|by apply table_find].
  - intros c x k s Hc Hk. destruct (rg_owned _ Hr _ _ _ _ Hc Hk) as (sub & Hsub & []).
    by exists sub.
  - intros k c. rewrite (hash_find_iff k c) by apply Ht. apply Ht.
Qed.

(** C6: Any complete frame of any client is handled without waiting for a lock that the thread
    holds and without an endless loop; if the handler returns, all clients are still there, no
    byte of any stream was taken, to no stream was anything but appended, and the invariant of
    the broker holds again. *)
Theorem handle__in_frame_any now b c x :
  allocates → broker_inv b → client_heap b !! c = Some x →
  handle__in_frame big now b c ≠ Blocked ∧ handle__in_frame big now b c ≠ NoFuel
  ∧ ∀ s b', handle__in_frame big now b c = Done (s, b') →
      broker_inv b'
      ∧ (∀ d, is_Some (client_heap b' !! d) ↔ is_Some (client_heap b !! d))
      ∧ ∀ d y, client_heap b !! d = Some y →
          ∃ y' n n' o, client_heap b' !! d = Some y' ∧ c_id y' = c_id y
            ∧ c_conn y = Some n ∧ c_conn y' = Some n'
            ∧ rx (sock n') = rx (sock n) ∧ tx (sock n') = tx (sock n) ++ o.
Proof.
  intros Hm Hinv Hc. pose proof Hinv as [Hok Ht].
  pose proof (handle__in_frame_safe big now b c x Hm Hok Hc (Ht _ _ Hc)) as Hs.
  destruct (handle__in_frame big now b c) as [[s b']| | |]; try done.
  split_and!; [done|done|]. intros s' b'' [= <- <-]. cbn in Hs.
  split; [by eapply in_order_inv|]. destruct Hs as [_ [F B]]. split.
  - intros d. split; intros [y Hy]; [destruct (B d y Hy) as (y' & ? & _)
      |destruct (F d y Hy) as (y' & ? & _)]; by exists y'.
  - intros d y Hy. destruct (F d y Hy) as (y' & Hy' & [Hi _ (n & n' & o & En & En' & G)]).
    destruct G as (s0 & -> & Hrx & Htx & _). exists y', n, (set_sock n s0), o. by split_and!.
Qed.


(** ** Paths on which a client is damaged *)

(** [client__write] of a frame that is not complete returns with the mutex of the client
    locked: the next [client__send] to this client, from any thread, waits for ever. *)
Theorem client__write_keeps_mutex now b c x f f' :
  ready b → client_heap b !! c = Some x → _is_completed f = 0 →
  ∃ b', client__write big now b (Some c) f = Done (BPSP_INVALID_ARG, b')
    ∧ client_heap b' !! c = Some (set_c_mutex x true)
    ∧ client__send big b' (Some c) f' true = Blocked.
Proof.
  intros Hr Hc Hf. destruct (Hr c x Hc) as (Hmu & Hrw & Hl).
  exists (put_client b c (set_c_mutex x true)). split_and!.
  - unfold client__write. rewrite (closed_if_locked_eq b c x) by done. cbn [mbind exec_bind].
    rewrite (mutex_lock_eq b c x) by done. cbn [mbind exec_bind]. rewrite get_put.
    cbn [mbind exec_bind]. unfold frame__copy, frame__is_completed. rewrite Hf.
    cbn [Z.eqb]. rewrite decide_False by done. cbn [mbind exec_bind].
    rewrite decide_True by done. rewrite put_put. by destruct x.
  - apply lookup_insert_eq.
  - unfold client__send.
    rewrite (closed_if_locked_eq _ c (set_c_mutex x true)); [|apply lookup_insert_eq
      |by destruct Hl|done].
    cbn [mbind exec_bind]. unfold mutex_lock_if. by rewrite get_put.
Qed.

(** A frame whose opcode has no name crashes the thread that reads it: the frame is
    accepted, and then the trace macro looks up the name of its opcode behind the end of the
    array, whether tracing is on or not. *)
Theorem client__read_unknown_opcode now b c x n f data rest :
  (∀ k, malloc_ok k = true) → ready b → client_heap b !! c = Some x → c_conn x = Some n →
  rx (sock n) = wire_frame f data ++ rest → frame_wf f → headers_valid (var_headers f) →
  payload_is f data → 9 ≤ opcode f →
  headers_size (headers_after (var_headers f) "x-time" now) < 65536 →
  client__read big now b c = Undef.
Proof.
  intros Hm Hr Hc Hn Hrx [Hh Hp Ho Hfl] Hv Hd Hop Hs. destruct (Hr c x Hc) as (_ & _ & Hl).
  destruct (lv_conn _ Hl) as (n' & En & [Hfd _]). assert (n' = n) as -> by congruence.
  pose proof (payload_is_size f data Hp Hd) as Hsz. destruct Hp as [Hp1 Hp2 _].
  unfold client__read. rewrite (get_client_eq _ _ _ Hc). cbn [mbind exec_bind].
  rewrite (client__recv_eq big now b c x n) by done.
  destruct (frame__recv_spec big now n (in_frame x) f data rest) as (s' & -> & _);
    [done|done|done|apply Hh|lia|done|lia|lia|done|done|].
  cbn [mbind exec_bind]. cbv zeta. rewrite decide_False by auto.
  unfold log__trace, frame__get_op_text. rewrite lookup_ge_None_2; [done|].
  change (opcode (FrameRw.received now f data)) with (opcode f). cbn. lia.
Qed.
End Properties.

(** ** Instances on the sample broker *)

#[local] Existing Instance malloc_always.
Local Notation tree_at b := (subs_at (topic_tree b)).

Lemma handle__PUB_delivers_witness :
  let x := client_of sample_pub_read 1 in
  ∃ found locs b', handle__PUB false sample_now sample_pub_read 1 = Done (BPSP_OK, b')
    ∧ Some <$> found = (fun s => sub_heap (topic_tree sample_pub_read) !! s) <$> locs
    ∧ NoDup locs
    ∧ (∀ s, s ∈ locs ↔ ∃ p i, matches p ["home"; "hall"; "temp"]%string
                              ∧ (i, s) ∈ tree_at sample_pub_read p)
    ∧ emits sample_pub_read b' (fun d =>
        deliveries sample_now (in_frame x) "home/hall/temp" (addr_text "10.0.0.1" 4000)
          (chars "21.5") 1 (flag__is_set (flag (in_frame x)) FL_PUB_ECHO) found d
        ++ answer sample_now (in_frame x) 1 BPSP_OK "PUB OK." d)
    ∧ broker_ok b'.
Proof.
  assert (∃ n, c_conn (client_of sample_pub_read 1) = Some n
               ∧ addr n = ("10.0.0.1"%string, 4000)) as (n & En & Ea)
    by (vm_compute; eexists; split; reflexivity).
  apply (@handle__PUB_delivers script_socket _ _ malloc_always false sample_now sample_pub_read 1
    (client_of sample_pub_read 1) n "10.0.0.1" 4000 "home/hall/temp"
    ["home"; "hall"; "temp"]%string (chars "21.5") 64).
  - reflexivity.
  - discriminate.
  - apply reached_ok, sample_pub_read_reached.
  - apply writable_b_ok. vm_compute. reflexivity.
  - apply client_of_eq. vm_compute. by eexists.
  - exact En.
  - exact Ea.
  - apply publishable_b_ok. vm_compute. reflexivity.
  - apply subs_bounded_b_ok. vm_compute. reflexivity.
  - intros _. apply answerable_b_ok. vm_compute. reflexivity.
  - vm_compute. reflexivity.
Defined.

Lemma handle__PUB_no_topic_witness :
  handle__PUB false sample_now sample_accepted 1 = Done (BPSP_INVALID_TOPIC, sample_accepted).
Proof.
  apply (@handle__PUB_no_topic script_socket _ malloc_always false sample_now sample_accepted 1
    (client_of sample_accepted 1)).
  - apply client_of_eq. vm_compute. by eexists.
  - vm_compute. reflexivity.
Defined.

Lemma sample_asked b c s :
  is_Some (client_heap b !! c) → answerable_b (in_frame (client_of b c)) (reply_code s) = true →
  asked sample_now b c (client_of b c) (in_frame (client_of b c)) s.
Proof. intros Hc Ha. split; [by apply client_of_eq|done|intros _; by apply answerable_b_ok]. Qed.

Lemma handle__SUB_files_witness :
  ∃ s b', handle__SUB false sample_now sample_sub_read 2 = Done (BPSP_OK, b') ∧ broker_ok b'
    ∧ (∀ topic' toks', topic_tokens topic' = Some toks' → ∀ s',
         subscribed b' toks' s'
         ↔ subscribed sample_sub_read toks' s'
           ∨ s' = s ∧ matches (sym_of <$> ["home"; "+"; "temp"]%string) toks').
Proof.
  destruct (@handle__SUB_files script_socket _ _ malloc_always false sample_now sample_sub_read 2
    (client_of sample_sub_read 2) "home/+/temp" "t1" ["home"; "+"; "temp"]%string)
    as (s & b1 & b' & E & _ & Hok & _ & _ & _ & Hs).
  - reflexivity.
  - discriminate.
  - apply reached_ok, sample_sub_read_reached.
  - apply writable_b_ok. vm_compute. reflexivity.
  - apply (sample_asked sample_sub_read 2 BPSP_OK); vm_compute; [by eexists|reflexivity].
  - split; apply (bool_decide_unpack _); vm_compute; exact I.
  - vm_compute. reflexivity.
  - vm_compute. reflexivity.
  - exists s, b'. exact (conj E (conj Hok Hs)).
Defined.

Lemma handle__SUB_refused_says_ok_witness :
  ∃ b1 b', handle__SUB false sample_now sample_bad_sub_read 2 = Done (BPSP_OK, b')
    ∧ emits b1 b' (answer sample_now (in_frame (client_of sample_bad_sub_read 2)) 2 BPSP_OK
                     "Cannot add subsciber into Tree.")
    ∧ (∀ q, tree_at b' q = tree_at sample_bad_sub_read q).
Proof.
  destruct (@handle__SUB_refused_says_ok script_socket _ _ malloc_always false sample_now
    sample_bad_sub_read 2 (client_of sample_bad_sub_read 2) "home//" "t2")
    as (s & b1 & b' & E & He & Hq & _).
  - reflexivity.
  - discriminate.
  - apply reached_ok, sample_bad_sub_read_reached.
  - apply writable_b_ok. vm_compute. reflexivity.
  - apply (sample_asked sample_bad_sub_read 2 BPSP_OK); vm_compute; [by eexists|reflexivity].
  - split; apply (bool_decide_unpack _); vm_compute; exact I.
  - left. vm_compute. reflexivity.
  - exists b1, b'. exact (conj E (conj He Hq)).
Defined.

Lemma handle__UNSUB_removes_witness :
  let k := identifier "t1" "home/+/temp" in
  ∃ (b1 b' : sample_broker_t), handle__UNSUB false sample_now sample_subscribed 2 = Done (BPSP_OK, b')
    ∧ (∃ x', client_heap b1 !! 2%positive = Some x'
             ∧ c_subs x' = hash_del k (c_subs (client_of sample_subscribed 2)))
    ∧ ∀ s, hash_find k (c_subs (client_of sample_subscribed 2)) = Some s →
        sub_heap (topic_tree b') = delete s (sub_heap (topic_tree sample_subscribed)).
Proof.
  destruct (@handle__UNSUB_removes script_socket _ _ malloc_always false sample_now
    sample_subscribed 2 (client_of sample_subscribed 2) "home/+/temp" "t1")
    as (b1 & b' & E & _ & _ & _ & Hx & Hs & _).
  - reflexivity.
  - discriminate.
  - apply reached_ok, sample_subscribed_reached.
  - apply writable_b_ok. vm_compute. reflexivity.
  - apply (sample_asked sample_subscribed 2 BPSP_OK); vm_compute; [by eexists|reflexivity].
  - split; apply (bool_decide_unpack _); vm_compute; exact I.
  - exists b1, b'. refine (conj E (conj Hx _)). intros s H. exact (proj1 (proj2 (Hs s H))).
Defined.

Lemma handle__UNSUB_no_default_witness :
  handle__UNSUB false sample_now sample_pub_read 1
  = handle__reply false sample_now sample_pub_read 1 BPSP_INVALID_ARG
      "Cannot remove subsciber from Tree.".
Proof.
  apply (@handle__UNSUB_no_default script_socket _ malloc_always false sample_now sample_pub_read 1
    (client_of sample_pub_read 1) "home/hall/temp").
  - apply client_of_eq. vm_compute. by eexists.
  - vm_compute. reflexivity.
  - vm_compute. reflexivity.
Defined.

Lemma client__sub_unsub_witness :
  ∃ b1 b2, client__sub1 sample_accepted (Some 2%positive) (Some "a/*"%string)
             (Some "_0"%string) true = Done (BPSP_OK, b1)
    ∧ client__unsub0 b1 (Some 2%positive) (Some "a/*"%string) (Some "_0"%string) true
      = Done (BPSP_OK, b2)
    ∧ (∀ q, tree_at b2 q = tree_at sample_accepted q) ∧ broker_ok b2.
Proof.
  destruct (@client__sub_unsub script_socket _ malloc_always sample_accepted 2
    (client_of sample_accepted 2) "a/*" "_0" ["a"; "*"]%string)
    as (b1 & b2 & E1 & E2 & Hq & _ & _ & Hok).
  - reflexivity.
  - apply reached_ok, sample_accepted_reached.
  - apply client_of_eq. vm_compute. by eexists.
  - apply (bool_decide_unpack _). vm_compute. exact I.
  - apply (bool_decide_unpack _). vm_compute. exact I.
  - vm_compute. reflexivity.
  - vm_compute. reflexivity.
  - exists b1, b2. exact (conj E1 (conj E2 (conj Hq Hok))).
Defined.

Lemma client__sub1_dangling_witness :
  ∃ b', client__sub1 sample_accepted (Some 2%positive) (Some "home//"%string)
          (Some "_0"%string) true = Done (BPSP_INVALID_TOPIC, b')
    ∧ client__destroy b' (Some 2%positive) = Undef.
Proof.
  destruct (@client__sub1_dangling script_socket _ malloc_always sample_accepted 2
    (client_of sample_accepted 2) "home//" "_0") as (b' & E & _ & Hd).
  - reflexivity.
  - apply reached_ok, sample_accepted_reached.
  - apply client_of_eq. vm_compute. by eexists.
  - apply (bool_decide_unpack _). vm_compute. exact I.
  - apply (bool_decide_unpack _). vm_compute. exact I.
  - vm_compute. reflexivity.
  - vm_compute. reflexivity.
  - exists b'. exact (conj E Hd).
Defined.

(** The subscriber has the tag "t1" and the topic "home/+/temp". *)
Lemma client__sub0_ambiguous_witness :
  ∃ b1 b', new_subscriber sample_subscribed (Some "+/temp"%string)
             (Some ("t1" +:+ "/" +:+ "home")%string) (Some 2%positive) None
           = Done (Some (next_sub sample_subscribed), b1)
    ∧ client__sub0 b1 (Some 2%positive) (Some (next_sub sample_subscribed)) true
      = Done (BPSP_TREE_DUP_SUBSCRIBER, b').
Proof.
  destruct (hash_find (identifier "t1" "home/+/temp") (c_subs (client_of sample_subscribed 2)))
    as [s|] eqn:Es; [|by vm_compute in Es].
  apply (@client__sub0_ambiguous script_socket _ malloc_always sample_subscribed 2
    (client_of sample_subscribed 2) "t1" "home" "+/temp" s).
  - reflexivity.
  - apply reached_ok, sample_subscribed_reached.
  - apply client_of_eq. vm_compute. by eexists.
  - apply (bool_decide_unpack _). vm_compute. exact I.
  - apply (bool_decide_unpack _). vm_compute. exact I.
  - apply (bool_decide_unpack _). vm_compute. exact I.
  - exact Es.
Defined.


Lemma broker__accept_unique_witness :
  ∃ c i b', broker__accept sample_rand 8 sample_subscribed (Some (sample_conn "10.0.0.3" 4002 []))
            = Done (Some c, b')
    ∧ String.length i = 5%nat ∧ hash_find i (clients sample_subscribed) = None
    ∧ clients b' = clients sample_subscribed ++ [(i, c)]
    ∧ client_heap sample_subscribed !! c = None
    ∧ client_heap b'
      = <[c := new_client i (sample_conn "10.0.0.3" 4002 [])]> (client_heap sample_subscribed)
    ∧ topic_tree b' = topic_tree sample_subscribed ∧ broker_inv b'.
Proof.
  apply (@broker__accept_unique script_socket malloc_always sample_rand 8 sample_subscribed
    (sample_conn "10.0.0.3" 4002 []) 0).
  - reflexivity.
  - apply reached_inv, sample_subscribed_reached.
  - by split.
  - lia.
  - vm_compute. reflexivity.
Defined.

Lemma reachable_no_dangling_witness :
  tree_wf (topic_tree sample_subscribed) ∧ pruned (topic_tree sample_subscribed)
  ∧ (∀ p i s, (i, s) ∈ tree_at sample_subscribed p →
       ∃ sub x k, sub_heap (topic_tree sample_subscribed) !! s = Some sub ∧ sub_path sub = Some p
         ∧ client_heap sample_subscribed !! client sub = Some x ∧ (k, s) ∈ c_subs x
         ∧ hash_find (c_id x) (clients sample_subscribed) = Some (client sub)).
Proof.
  destruct (@reachable_no_dangling script_socket _ _ _ false sample_rand
    sample_subscribed) as (Hw & Hp & Hs & _).
  - apply sample_allocates_all.
  - apply sample_subscribed_reached.
  - exact (conj Hw (conj Hp Hs)).
Defined.

Lemma handle__in_frame_any_witness :
  handle__in_frame false sample_now sample_pub_read 1 ≠ Blocked
  ∧ handle__in_frame false sample_now sample_pub_read 1 ≠ NoFuel
  ∧ ∀ s b', handle__in_frame false sample_now sample_pub_read 1 = Done (s, b') → broker_inv b'.
Proof.
  destruct (@handle__in_frame_any script_socket _ _ malloc_always false sample_now
    sample_pub_read 1 (client_of sample_pub_read 1)) as (Hb & Hf & Hr).
  - apply sample_allocates_all.
  - apply reached_inv, sample_pub_read_reached.
  - apply client_of_eq. vm_compute. by eexists.
  - refine (conj Hb (conj Hf _)). intros s b' E. exact (proj1 (Hr s b' E)).
Defined.


Lemma client__write_keeps_mutex_witness :
  ∃ b', client__write false sample_now sample_accepted (Some 2%positive) frame_zero
        = Done (BPSP_INVALID_ARG, b')
    ∧ client_heap b' !! 2%positive = Some (set_c_mutex (client_of sample_accepted 2) true)
    ∧ client__send false b' (Some 2%positive) frame_zero true = Blocked.
Proof.
  apply (@client__write_keeps_mutex script_socket _ malloc_always false sample_now
    sample_accepted 2 (client_of sample_accepted 2) frame_zero frame_zero).
  - apply broker_ok_ready, reached_ok, sample_accepted_reached.
  - apply client_of_eq. vm_compute. by eexists.
  - reflexivity.
Defined.

(** A frame with the opcode 200. *)
Definition sample_odd_frame : bpsp__frame := set_control (sub_frame "a" "_0") 200 FL_ACK.
Definition sample_odd : sample_broker_t :=
  accept_on sample_new (sample_conn "10.0.0.9" 5000 (request sample_odd_frame "")).

Lemma client__read_unknown_opcode_witness : client__read false sample_now sample_odd 1 = Undef.
Proof.
  assert (∃ n, c_conn (client_of sample_odd 1) = Some n
               ∧ rx (sock n) = wire_frame sample_odd_frame [] ++ []) as (n & En & Er)
    by (vm_compute; eexists; split; reflexivity).
  apply (@client__read_unknown_opcode script_socket _ _ malloc_always false sample_now sample_odd 1
    (client_of sample_odd 1) n sample_odd_frame [] []).
  - reflexivity.
  - apply broker_ok_ready, reached_ok, accept_on_reached; [apply sample_new_reached|by split].
  - apply client_of_eq. vm_compute. by eexists.
  - exact En.
  - exact Er.
  - apply frame_wf_b_ok. vm_compute. reflexivity.
  - apply (bool_decide_unpack _). vm_compute. exact I.
  - apply (bool_decide_unpack _). vm_compute. exact I.
  - vm_compute. discriminate.
  - vm_compute. reflexivity.
Defined.
