(* ===== verification/Cli.v ===== *)
(** * tools/bpsp.c: the command-line client

    The terminal is what has been typed and not read yet ([t_in]) and what has been printed
    ([t_out], one constructor for each format).  [clock k] is the text of the [k]-th reading of
    the clock; [big] is the byte order of the host.  [exit(code)] is the outcome [Exits code].
    The connection that [net__connect] gives, and the options that [getopt_long] finds, are
    arguments. *)
From S2P Require Import Prelude Status Uthash Mem Net Frame FrameOp FrameRw.
Local Open Scope Z_scope.

(** ** Strings *)

Definition NEWLINE : ascii := "010"%char.

(** The index of the last [c]. *)
Fixpoint strrchr (s : bytes) (c : ascii) : option nat :=
  match s with
  | [] => None
  | a :: s => match strrchr s c with
              | Some i => Some (S i)
              | None => if decide (a = c) then Some 0%nat else None
              end
  end.

Definition tolower (c : ascii) : ascii :=
  let n := Z_of_byte c in if (65 <=? n) && (n <=? 90) then byte_of_Z (n + 32) else c.

(** [strcasecmp(a, b) == 0] *)
Definition strcasecmp_eq (a b : string) : bool :=
  bool_decide (tolower <$> chars a = tolower <$> chars b).

(** [atoi]: blanks, a sign, digits; what does not fit into an [int] is undefined. *)
Definition is_space (c : ascii) : bool := let n := Z_of_byte c in (n =? 32) || (9 <=? n) && (n <=? 13).
Definition is_digit (c : ascii) : bool := let n := Z_of_byte c in (48 <=? n) && (n <=? 57).

Fixpoint skip_space (s : bytes) : bytes :=
  match s with
  | c :: s' => if is_space c then skip_space s' else s
  | [] => []
  end.

Fixpoint digits (s : bytes) (acc : Z) : Z :=
  match s with
  | c :: s' => if is_digit c then digits s' (10 * acc + (Z_of_byte c - 48)) else acc
  | [] => acc
  end.

Definition int_of (z : Z) : exec Z :=
  if (-2147483648 <=? z) && (z <=? 2147483647) then Done z else Undef.

Definition atoi (s : string) : exec Z :=
  match skip_space (chars s) with
  | [] => Done 0
  | c :: s' =>
      if decide (c = "-"%char) then int_of (- digits s' 0)
      else if decide (c = "+"%char) then int_of (digits s' 0)
      else int_of (digits (c :: s') 0)
  end.

(** ** The terminal *)

Inductive printed :=
  | Enter                                     (* enter:  *)
  | Unreadable                                (* Cannot read from stdin *)
  | Unexpected                                (* Unexpected input. *)
  | BrokerSays (text : string)                (* Broker %s *)
  | NoConnection                              (* Cannot established connection with broker. *)
  | NoTopics                                  (* Invalid arguments for `%s` command ... *)
  | Published (n : Z) (topic : string)        (* Published %u bytes to "%s" . *)
  | Subscribing (topic : string)              (* Subscribing on %s . *)
  | Received (from topic : string) (n : Z) (text : string)  (* %s ->> "%s" Received %u bytes : %s *)
  | Failed (text : string)                    (* %s *)
  | CannotSubscribe (text : string)           (* Cannot subscribe %s *)
  | NotSupported (name : string)              (* The command `%s` is currenly not suppoorted. *)
  | DataSend (text : string)                  (* Data send: %s *)
  | NoType (name : string).                   (* No support type %s *)

(** [t_rand]: how many numbers [rand] has given. *)
Record tool := { t_clock : nat; t_rand : nat; t_in : bytes; t_out : list printed }.

Definition say (t : tool) (p : printed) : tool :=
  {| t_clock := t_clock t; t_rand := t_rand t; t_in := t_in t; t_out := t_out t ++ [p] |}.
Definition tick (t : tool) : tool :=
  {| t_clock := S (t_clock t); t_rand := t_rand t; t_in := t_in t; t_out := t_out t |}.
Definition set_in (t : tool) (l : bytes) : tool :=
  {| t_clock := t_clock t; t_rand := t_rand t; t_in := l; t_out := t_out t |}.

Inductive outcome (A : Type) := Goes (a : A) | Exits (code : Z).
Arguments Goes {A} a.
Arguments Exits {A} code.

(** ** Reading a line *)

(** The characters that [fgets] takes: at most [n], to the end of the line. *)
Fixpoint line_of (n : nat) (l : bytes) : bytes * bytes :=
  match n, l with
  | S n, c :: l =>
      if decide (c = NEWLINE) then ([c], l)
      else let '(a, r) := line_of n l in (c :: a, r)
  | _, _ => ([], l)
  end.

(** [None] is NULL: nothing was read. *)
Definition fgets (buf : list cell) (size : Z) (stdin : bytes)
  : exec (option (list cell) * bytes) :=
  match stdin with
  | [] => mret (None, [])
  | _ =>
      let '(a, r) := line_of (Z.to_nat (size - 1)) stdin in
      buf ← mem__memcpy (Some buf) 0 (Some (Some <$> a ++ [NUL])) (Z.of_nat (List.length a) + 1);
      mret (buf, r)
  end.

(** Each round takes a character at least. *)
Fixpoint get_input_loop (fuel : nat) (buf : list cell) (buf_size : Z) (t : tool)
  : exec (Z * list cell * tool) :=
  match fuel with
  | O => NoFuel
  | S fuel =>
      let t := say t Enter in
      '(r, rest) ← fgets buf buf_size (t_in t);
      let t := set_in t rest in
      match r with
      | None => mret (-1, buf, say t Unreadable)
      | Some buf =>
          s ← cells_chars buf;
          match strrchr s NEWLINE with
          | None => get_input_loop fuel buf buf_size (say t Unexpected)
          | Some i => buf ← put_cell buf (Z.of_nat i) NUL; mret (0, buf, t)
          end
      end
  end.

Definition get_input (buf : list cell) (buf_size : Z) (t : tool) : exec (Z * list cell * tool) :=
  get_input_loop (S (List.length (t_in t))) buf buf_size t.

Definition MAX_BUFFER : Z := 65535.
(** [char buffer[MAX_BUFFER + 1]] *)
Definition new_buffer : list cell := replicate (Z.to_nat (MAX_BUFFER + 1)) None.

Section Cli.
Context {Sk : Type} `{Socket Sk} `{Malloc}.
Variable big : bool.
Variable clock : nat → string.
Local Notation connection := (bpsp__connection Sk).
Implicit Types (t : tool) (conn : connection) (inn out : option bpsp__frame).

(** An operation on a frame that may be NULL: all of them refuse NULL first. *)
Definition on_frame {A} (f : option bpsp__frame) (a : A) (op : bpsp__frame → exec (status__err * bpsp__frame * A))
  : exec (status__err * option bpsp__frame * A) :=
  match f with
  | None => mret (BPSP_INVALID_ARG, None, a)
  | Some f => '(s, f, a) ← op f; mret (s, Some f, a)
  end.

Definition build_on (f : option bpsp__frame) (op : bpsp__frame → exec (status__err * bpsp__frame))
  : exec (status__err * option bpsp__frame) :=
  '(s, f, _) ← on_frame f tt (fun f => '(s, f) ← op f; mret (s, f, tt)); mret (s, f).
Definition send_on conn f := on_frame f conn (fun f => frame__send big conn f).
Definition recv_on t conn f := on_frame f conn (fun f => frame__recv big (clock (t_clock t)) conn f).

(** ** Functions that the commands do not use *)

(** A frame to the server and back. *)
Definition echo t conn (frame : bpsp__frame) : exec (status__err * bpsp__frame * connection) :=
  '(s, frame, conn) ← frame__send big conn frame;
  if decide (s ≠ BPSP_OK) then mret (s, frame, conn)
  else frame__recv big (clock (t_clock t)) conn frame.

(** A fixed sequence of requests; the results of the calls are not looked at. *)
Definition publish_script : list (string → bpsp__frame → exec (status__err * bpsp__frame)) :=
  let msg := string_cells "hello from server" in
  let topic := Some "locationA/sensorA"%string in
  let sub topic now f := frame__SUB now f topic None 0 None 0 in
  let unsub topic now f := frame__UNSUB now f topic 0 in
  let pub fl now f := frame__PUB now f topic fl None 0 msg 17 in
  [fun now f => frame__CONNECT now f msg 17; pub 0; sub topic; sub None;
   sub (Some "locationA/*"%string); sub (Some "locationA/+/alo"%string);
   sub (Some "locationB/sensorB"%string); pub 0; unsub topic;
   unsub (Some "locationA/+/alo"%string); unsub (Some "locationB/sensorB"%string); unsub None;
   pub (Z.lor FL_ACK FL_PUB_ECHO)].

Fixpoint run_script (ops : list (string → bpsp__frame → exec (status__err * bpsp__frame)))
    conn out t : exec (connection * tool) :=
  match ops with
  | [] => mret (conn, t)
  | op :: ops =>
      '(_, out) ← build_on out (op (clock (t_clock t)));
      '(_, out, conn) ← send_on conn out;
      run_script ops conn out (tick t)
  end.

Definition __publish (conn : option connection) t : exec (outcome connection * tool) :=
  match conn with
  | None => mret (Exits 1, t)
  | Some conn => '(conn, t) ← run_script publish_script conn frame__new t; mret (Goes conn, t)
  end.

(** Frames are received until one fails. *)
Fixpoint recv_all (fuel : nat) conn inn t : exec (connection * tool) :=
  match fuel with
  | O => NoFuel
  | S fuel =>
      '(s, inn, conn) ← recv_on t conn inn;
      if decide (s ≠ BPSP_OK) then mret (conn, tick t) else recv_all fuel conn inn (tick t)
  end.

Definition __loop (fuel : nat) (conn : option connection) t : exec (outcome connection * tool) :=
  match conn with
  | None => mret (Exits 1, t)
  | Some conn => '(conn, t) ← recv_all fuel conn frame__new t; mret (Goes conn, t)
  end.

(** ** The connection *)

(** [printf("%s", frame->payload_size ? payload : "NO RESPONSE")] *)
Definition response_text (inn : bpsp__frame) : exec string :=
  if payload_size inn =? 0 then Done "NO RESPONSE"%string
  else p ← deref (payload inn); cells_cstr p.

Definition refuse t : exec (outcome connection * tool) := mret (Exits 1, say t NoConnection).

Definition _connect (connected : option connection) t : exec (outcome connection * tool) :=
  match connected with
  | None => refuse t
  | Some conn =>
      match frame__new with
      | None => refuse t
      | Some f =>
          '(s, f) ← frame__CONNECT (clock (t_clock t)) f (string_cells "BPSP Tools.") 11;
          let t := tick t in
          if decide (s ≠ BPSP_OK) then refuse t else
          '(s, f, conn) ← frame__send big conn f;
          if decide (s ≠ BPSP_OK) then refuse t else
          '(s, f, conn) ← frame__recv big (clock (t_clock t)) conn f;
          let t := tick t in
          if decide (s ≠ BPSP_OK) then refuse t else
          text ← response_text f;
          mret (Goes conn, say t (BrokerSays text))
      end
  end.

Definition _close conn : status__err * option connection := net__close (Some conn).

(** ** Publishing *)

(** One line, to each topic; the status of the last frame that was built or sent. *)
Fixpoint pub_topics (topics : list string) (s : status__err) conn out inn (buffer : list cell) t
  : exec (status__err * connection * option bpsp__frame * option bpsp__frame * tool) :=
  match topics with
  | [] => mret (s, conn, out, inn, t)
  | topic :: topics =>
      line ← cells_cstr buffer;
      '(s, out) ← build_on out (fun f =>
         frame__PUB (clock (t_clock t)) f (Some topic) FL_ACK None 0 (Some buffer) (u32 (strlen line)));
      let t := tick t in
      if decide (s ≠ BPSP_OK) then
        text ← status__get_text s;
        pub_topics topics s conn out inn buffer (say t (Failed text))
      else
        '(s, out, conn) ← send_on conn out;
        if decide (s ≠ BPSP_OK) then
          text ← status__get_text s; mret (s, conn, out, inn, say t (Failed text))
        else
          '(s, inn, conn) ← recv_on t conn inn;
          let t := tick t in
          if decide (s ≠ BPSP_OK) then
            text ← status__get_text s; mret (s, conn, out, inn, say t (Failed text))
          else
            fo ← deref out;
            pub_topics topics s conn out inn buffer (say t (Published (data_size fo) topic))
  end.

(** [input] is [get_input]: it returns a negative number when there is no more input. *)
Fixpoint pub_loop (input : list cell → Z → tool → exec (Z * list cell * tool)) (fuel : nat)
    (topics : list string) (s : status__err) conn out inn (buffer : list cell) t
  : exec (outcome connection * tool) :=
  match fuel with
  | O => NoFuel
  | S fuel =>
      if decide (s ≠ BPSP_OK) then mret (Goes conn, t) else
      '(r, buffer, t) ← input buffer MAX_BUFFER t;
      if r <? 0 then mret (Exits 1, t) else
      line ← cells_cstr buffer;
      if strcasecmp_eq line "exit" then mret (Goes conn, t) else
      '(s, conn, out, inn, t) ← pub_topics topics s conn out inn buffer t;
      pub_loop input fuel topics s conn out inn buffer t
  end.

(** The end of the connection is the end of the process, too: the exit code. *)
Definition handle_pub (input : list cell → Z → tool → exec (Z * list cell * tool)) (fuel : nat)
    (connected : option connection) (argv : list string) t
  : exec (outcome (option connection) * tool) :=
  match argv with
  | [] => mret (Exits 1, say t NoTopics)
  | _ =>
      '(r, t) ← _connect connected t;
      match r with
      | Exits c => mret (Exits c, t)
      | Goes conn =>
          '(r, t) ← pub_loop input fuel argv BPSP_OK conn frame__new frame__new new_buffer t;
          match r with
          | Exits c => mret (Exits c, t)
          | Goes conn => mret (Goes (snd (_close conn)), t)
          end
      end
  end.

(** ** Subscribing *)

Fixpoint sub_topics (topics : list string) conn out inn t
  : exec (status__err * connection * option bpsp__frame * option bpsp__frame * tool) :=
  match topics with
  | [] => mret (BPSP_OK, conn, out, inn, t)
  | topic :: topics =>
      '(s, out) ← build_on out (fun f =>
         frame__SUB (clock (t_clock t)) f (Some topic) (Some "_99"%string) FL_ACK None 0);
      let t := tick t in
      let fail s conn out inn t :=
        text ← status__get_text s; mret (s, conn, out, inn, say t (CannotSubscribe text)) in
      if decide (s ≠ BPSP_OK) then fail s conn out inn t else
      '(s, out, conn) ← send_on conn out;
      if decide (s ≠ BPSP_OK) then fail s conn out inn t else
      '(s, inn, conn) ← recv_on t conn inn;
      let t := tick t in
      if decide (s ≠ BPSP_OK) then fail s conn out inn t else
      sub_topics topics conn out inn (say t (Subscribing topic))
  end.

(** The text of a header that is printed, or ["unknown"]. *)
Definition header_or_unknown (hdr : option header_value) : exec string :=
  match hdr with
  | None => Done "unknown"%string
  | Some (Str v) => Done v
  | Some Indet => Undef
  end.

(** The payload goes into the buffer, with a NUL behind it. *)
Definition print_message (f : bpsp__frame) (buffer : list cell) t : exec (list cell * tool) :=
  buffer ← (if data_size f =? 0 then Done (Some buffer)
            else mem__memcpy (Some buffer) 0 (payload f) (data_size f));
  buffer ← deref buffer;
  buffer ← put_cell buffer (data_size f) NUL;
  from ← header_or_unknown (frame__get_var_header f (Some "x-from"%string));
  topic ← header_or_unknown (frame__get_var_header f (Some "x-topic"%string));
  text ← cells_cstr buffer;
  mret (buffer, say t (Received from topic (data_size f) text)).

Fixpoint sub_loop (fuel : nat) conn inn (buffer : list cell) t : exec (connection * tool) :=
  match fuel with
  | O => NoFuel
  | S fuel =>
      '(s, inn, conn) ← recv_on t conn inn;
      let t := tick t in
      if decide (s ≠ BPSP_OK) then mret (conn, t) else
      f ← deref inn;
      '(buffer, t) ← print_message f buffer t;
      sub_loop fuel conn inn buffer t
  end.

Definition handle_sub (fuel : nat) (connected : option connection) (argv : list string) t
  : exec (outcome (option connection) * tool) :=
  match argv with
  | [] => mret (Exits 1, say t NoTopics)
  | _ =>
      '(r, t) ← _connect connected t;
      match r with
      | Exits c => mret (Exits c, t)
      | Goes conn =>
          '(s, conn, _, inn, t) ← sub_topics argv conn frame__new frame__new t;
          '(conn, t) ← (if decide (s = BPSP_OK) then sub_loop fuel conn inn new_buffer t
                        else mret (conn, t));
          mret (Goes (snd (_close conn)), t)
      end
  end.

(** The exit code of the process. *)
Definition handle_cmd (input : list cell → Z → tool → exec (Z * list cell * tool)) (fuel : nat)
    (connected : option connection) (name : string) (argv : list string) t : exec (Z * tool) :=
  let code r := match r with Goes _ => 0 | Exits c => c end in
  if strcasecmp_eq name "pub" then
    '(r, t) ← handle_pub input fuel connected argv t; mret (code r, t)
  else if strcasecmp_eq name "sub" then
    '(r, t) ← handle_sub fuel connected argv t; mret (code r, t)
  else mret (1, say t (NotSupported name)).
End Cli.

(** ** The command line *)

Record config := { host : string; port : Z; log__enable : bool; log__timestamps : bool }.

Definition default_config : config :=
  {| host := "127.0.0.1"; port := 29010; log__enable := false; log__timestamps := false |}.

Definition port_ok (p : Z) : bool := negb ((p <? 1023) || (65535 <? p)).

(** The options in their order, as [getopt_long] returns them; [None] is the result -1. *)
Fixpoint parse_options (opts : list (ascii * cstr)) (cfg : config) : exec (option config) :=
  match opts with
  | [] => mret (Some cfg)
  | (c, optarg) :: opts =>
      if decide (c = "h"%char) then
        a ← deref optarg;
        parse_options opts {| host := a; port := port cfg; log__enable := log__enable cfg;
                              log__timestamps := log__timestamps cfg |}
      else if decide (c = "p"%char) then
        a ← deref optarg; p ← atoi a;
        if port_ok p then
          parse_options opts {| host := host cfg; port := p; log__enable := log__enable cfg;
                                log__timestamps := log__timestamps cfg |}
        else mret None
      else if decide (c = "l"%char) then
        parse_options opts {| host := host cfg; port := port cfg; log__enable := true;
                              log__timestamps := log__timestamps cfg |}
      else if decide (c = "t"%char) then
        parse_options opts {| host := host cfg; port := port cfg; log__enable := log__enable cfg;
                              log__timestamps := true |}
      else mret None
  end.

(** [rest]: what stands behind the options. *)
Definition parse_args (opts : list (ascii * cstr)) (rest : list string)
  : exec (option (config * string * list string)) :=
  cfg ← parse_options opts default_config;
  match cfg, rest with
  | Some cfg, name :: argv => mret (Some (cfg, name, argv))
  | _, _ => mret None
  end.

(** [net_connect host port] is the connection that [net__connect] makes, or NULL. *)
Definition main {Sk} `{Socket Sk} `{Malloc} (big : bool) (clock : nat → string)
    (net_connect : string → Z → option (bpsp__connection Sk)) (fuel : nat)
    (opts : list (ascii * cstr)) (rest : list string) (t : tool) : exec (Z * tool) :=
  r ← parse_args opts rest;
  match r with
  | None => mret (1, t)
  | Some (cfg, name, argv) =>
      handle_cmd big clock get_input fuel (net_connect (host cfg) (u16 (port cfg))) name argv t
  end.
