(* ===== verification/CliFacts.v ===== *)
(** * tools/bpsp.c: facts about lines, buffers and messages *)
From S2P Require Import Prelude Status Datatype Uthash Mem Net Frame FrameFacts HeaderCodec.
From S2P Require Import FrameOp FrameRw Cli.
Local Open Scope Z_scope.

(** ** Buffers *)

(** The characters of a block up to the NUL that is put behind it. *)
Definition upto_nul (data : bytes) : bytes := default [] (until_nul (data ++ [NUL])).

Lemma cells_chars_app data l : cells_chars ((Some <$> data) ++ Some NUL :: l) = Done (upto_nul data).
Proof.
  unfold upto_nul. induction data as [|c data IH]; cbn; [done|]. case_decide; [done|].
  rewrite IH. cbn. destruct (until_nul (data ++ [NUL])) eqn:E; [done|]. exfalso. revert E.
  clear. induction data as [|c data IH]; cbn; [done|]. case_decide; [done|].
  destruct (until_nul (data ++ [NUL])); [done|]. by intros _; apply IH.
Qed.

Lemma upto_nul_id data : no_nul data → upto_nul data = data.
Proof. intros H. unfold upto_nul. by rewrite until_nul_app. Qed.

Lemma upto_nul_cons c data :
  upto_nul (c :: data) = if decide (c = NUL) then [] else c :: upto_nul data.
Proof.
  pose proof (cells_chars_app (c :: data) []) as E.
  cbn [fmap list_fmap app cells_chars] in E. rewrite (cells_chars_app data []) in E.
  apply (f_equal (fun m => match m with Done l => l | _ => [] end)) in E.
  rewrite <- E. by case_decide.
Qed.

Lemma upto_nul_sub c data : c ∉ data → c ∉ upto_nul data.
Proof.
  induction data as [|a data IH]; intros Hn; [done|]. rewrite upto_nul_cons.
  apply not_elem_of_cons in Hn as [Ha Hn]. case_decide; [apply not_elem_of_nil|].
  apply not_elem_of_cons. split; [done|by apply IH].
Qed.

Lemma upto_nul_early data r : NUL ∈ data → upto_nul (data ++ r) = upto_nul data.
Proof.
  induction data as [|a data IH]; intros Hn; [by apply elem_of_nil in Hn|].
  cbn [app]. rewrite !upto_nul_cons. case_decide; [done|].
  apply elem_of_cons in Hn as [?|Hn]; [done|]. by rewrite IH.
Qed.

Lemma cells_chars_nul data : NUL ∈ data → cells_chars (Some <$> data) = Done (upto_nul data).
Proof.
  induction data as [|c data IH]; intros Hn; [by apply elem_of_nil in Hn|].
  rewrite upto_nul_cons. cbn. case_decide; [done|].
  apply elem_of_cons in Hn as [?|Hn]; [congruence|]. by rewrite IH.
Qed.

Lemma cells_cstr_app data l :
  no_nul data → cells_cstr ((Some <$> data) ++ Some NUL :: l) = Done (str data).
Proof. intros H. unfold cells_cstr. by rewrite cells_chars_app, upto_nul_id. Qed.

Lemma memcpy_prefix buf src n :
  Z.of_nat (List.length src) = n → n ≤ Z.of_nat (List.length buf) →
  mem__memcpy (Some buf) 0 (Some src) n = Done (Some (src ++ drop (List.length src) buf)).
Proof.
  intros <- Hn. unfold mem__memcpy. destruct (Z.eqb_spec (Z.of_nat (List.length src)) 0) as [E|].
  { destruct src; [|cbn in E; lia]. by rewrite drop_0. }
  rewrite (proj2 (Z.leb_le _ _)), (proj2 (Z.leb_le _ _)) by lia. cbn [andb].
  rewrite Z.add_0_l, Nat2Z.id, take_0. cbn [app]. by rewrite firstn_all.
Qed.

(** A copy from the front of a block into a fresh one of that size. *)
Lemma memcpy_take data tail :
  data ≠ [] →
  mem__memcpy (Some (replicate (Z.to_nat (Z.of_nat (List.length data))) None)) 0
    (Some ((Some <$> data) ++ tail)) (Z.of_nat (List.length data)) = Done (Some (Some <$> data)).
Proof.
  intros Hd. unfold mem__memcpy. rewrite Nat2Z.id, length_replicate, length_app, length_fmap.
  destruct (Z.eqb_spec (Z.of_nat (List.length data)) 0) as [E|]; [destruct data; done|].
  rewrite (proj2 (Z.leb_le _ _)), (proj2 (Z.leb_le _ _)) by lia. cbn [andb].
  rewrite Z.add_0_l, Nat2Z.id, drop_replicate, Nat.sub_diag, app_nil_r, take_0. cbn [app].
  by rewrite take_app_length' by (by rewrite length_fmap).
Qed.

Lemma put_cell_at l c0 r c :
  put_cell (l ++ c0 :: r) (Z.of_nat (List.length l)) c = Done (l ++ Some c :: r).
Proof.
  unfold put_cell, mem__memcpy. cbn [Z.eqb List.length].
  rewrite length_app. cbn [List.length]. rewrite (proj2 (Z.leb_le _ _)) by lia.
  rewrite (proj2 (Z.leb_le _ _)) by lia. cbn [andb]. rewrite Nat2Z.id, take_app_length.
  replace (Z.to_nat (Z.of_nat (List.length l) + 1)) with (List.length l + 1)%nat by lia.
  rewrite drop_app_add. reflexivity.
Qed.

(** ** Lines *)

Lemma strrchr_app_last s c : strrchr (s ++ [c]) c = Some (List.length s).
Proof. induction s as [|a s IH]; cbn; [by rewrite decide_True|]. by rewrite IH. Qed.

Lemma strrchr_None s c : strrchr s c = None ↔ c ∉ s.
Proof.
  induction s as [|a s IH]; cbn.
  - split; [intros _; apply not_elem_of_nil|done].
  - rewrite not_elem_of_cons. destruct (strrchr s c) as [i|].
    + split; [done|]. intros [_ Hn]. by apply IH in Hn.
    + case_decide as E; [subst; by split; [|intros []]|]. split; [|done]. intros _.
      split; [done|by apply IH].
Qed.

Lemma line_of_spec n line rest :
  NEWLINE ∉ line → (List.length line < n)%nat →
  line_of n (line ++ NEWLINE :: rest) = (line ++ [NEWLINE], rest).
Proof.
  revert n. induction line as [|c line IH]; intros n Hn Hl; (destruct n; [cbn in Hl; lia|]).
  - cbn. by rewrite decide_True.
  - apply not_elem_of_cons in Hn as [Hc Hn]. cbn [app line_of].
    rewrite decide_False by done. cbn in Hl. by rewrite IH by (done || lia).
Qed.

(** What [line_of] takes is a line, or has no end of line at all. *)
Lemma line_of_parts n l a r :
  line_of n l = (a, r) →
  l = a ++ r ∧ (List.length a ≤ n)%nat ∧ (l ≠ [] → n ≠ 0%nat → a ≠ [])
  ∧ (NEWLINE ∉ a ∨ ∃ line, a = line ++ [NEWLINE] ∧ NEWLINE ∉ line).
Proof.
  revert l a r. induction n as [|n IH]; intros l a r; cbn.
  { intros [= <- <-]. split_and!; [done|cbn; lia|done|left; apply not_elem_of_nil]. }
  destruct l as [|c l].
  { intros [= <- <-]. split_and!; [done|cbn; lia|done|left; apply not_elem_of_nil]. }
  case_decide as Hc.
  { intros [= <- <-]. subst c. split_and!; [done|cbn; lia|done|].
    right. exists []. split; [done|apply not_elem_of_nil]. }
  destruct (line_of n l) as [a' r'] eqn:E. intros [= <- <-].
  destruct (IH _ _ _ E) as (-> & Hl & _ & Hor). split_and!; [done|cbn; lia|done|].
  destruct Hor as [Hn|(line & -> & Hn)].
  - left. by apply not_elem_of_cons.
  - right. exists (c :: line). split; [done|]. by apply not_elem_of_cons.
Qed.

Lemma fgets_eq buf size stdin a r :
  stdin ≠ [] → 1 ≤ size ≤ Z.of_nat (List.length buf) →
  line_of (Z.to_nat (size - 1)) stdin = (a, r) →
  fgets buf size stdin
  = Done (Some ((Some <$> a) ++ Some NUL :: drop (List.length a + 1) buf), r).
Proof.
  intros Hs Hz E. unfold fgets. destruct stdin as [|c stdin]; [done|]. rewrite E.
  destruct (line_of_parts _ _ _ _ E) as (_ & Hl & _).
  rewrite memcpy_prefix by (rewrite ?length_fmap, ?length_app; cbn [List.length]; lia).
  rewrite length_fmap, length_app. cbn [List.length].
  cbn [mbind exec_bind]. rewrite fmap_app, <- app_assoc. reflexivity.
Qed.

(** ** The buffer of the tools *)

Lemma new_buffer_length : List.length new_buffer = Z.to_nat 65536.
Proof. unfold new_buffer. by rewrite length_replicate. Qed.

Definition buffer_ok (buf : list cell) : Prop := Z.of_nat (List.length buf) = 65536.

Lemma new_buffer_ok : buffer_ok new_buffer.
Proof. unfold buffer_ok. rewrite new_buffer_length. lia. Qed.

(** ** get_input *)

(** A line that fits is read: the buffer holds it as a C string, the rest waits. *)
Lemma get_input_loop_line fuel buf size t line rest :
  t_in t = line ++ NEWLINE :: rest → NEWLINE ∉ line → no_nul line →
  Z.of_nat (List.length line) + 2 ≤ size ≤ Z.of_nat (List.length buf) →
  ∃ tail, get_input_loop (S fuel) buf size t
          = Done (0, (Some <$> line) ++ Some NUL :: tail, set_in (say t Enter) rest)
    ∧ List.length ((Some <$> line) ++ Some NUL :: tail) = List.length buf.
Proof.
  intros Hin Hnl Hnul Hz. cbn [get_input_loop]. cbv zeta.
  change (t_in (say t Enter)) with (t_in t). rewrite Hin.
  rewrite (fgets_eq buf size _ (line ++ [NEWLINE]) rest); [|by destruct line|lia|].
  2:{ apply line_of_spec; [done|lia]. }
  cbn [mbind exec_bind]. rewrite cells_chars_app, upto_nul_id.
  2:{ unfold no_nul in *. rewrite elem_of_app. intros [?|?%list_elem_of_singleton]; done. }
  cbn [mbind exec_bind]. rewrite strrchr_app_last, fmap_app, <- app_assoc. cbn [fmap list_fmap app].
  rewrite <- (length_fmap Some line), put_cell_at. cbn [mbind exec_bind mret exec_ret].
  eexists. split; [done|]. rewrite !length_app, !length_fmap. cbn [List.length].
  rewrite length_drop, ?length_app. cbn [List.length]. lia.
Qed.

(** The state of the terminal after some rounds: only input is taken and text printed. *)
Record typed (t t' : tool) : Prop := {
  ty_in : ∃ l, t_in t = l ++ t_in t';
  ty_out : ∃ o, t_out t' = t_out t ++ o;
  ty_clock : t_clock t' = t_clock t;
}.

Lemma typed_trans t1 t2 t3 : typed t1 t2 → typed t2 t3 → typed t1 t3.
Proof.
  intros [(l & Hl) (o & Ho) Hc] [(l' & Hl') (o' & Ho') Hc']. split; [| |congruence].
  - exists (l ++ l'). by rewrite Hl, Hl', app_assoc.
  - exists (o ++ o'). by rewrite Ho', Ho, app_assoc.
Qed.

Lemma typed_say t p : typed t (say t p).
Proof. split; [by exists []|by exists [p]|done]. Qed.
Lemma typed_in t l r : t_in t = l ++ r → typed t (set_in t r).
Proof. intros E. split; [by exists l|exists []; cbn; by rewrite app_nil_r|done]. Qed.

(** On any input [get_input] ends; it reads a line, or reports that there is none. *)
Lemma get_input_loop_total fuel buf size t :
  (List.length (t_in t) < fuel)%nat → 2 ≤ size ≤ Z.of_nat (List.length buf) →
  ∃ r buf' t', get_input_loop fuel buf size t = Done (r, buf', t')
    ∧ List.length buf' = List.length buf ∧ typed t t'
    ∧ (r = -1 ∧ t_in t' = []
       ∨ r = 0 ∧ ∃ line tail, buf' = (Some <$> line) ++ Some NUL :: tail ∧ no_nul line
                 ∧ NEWLINE ∉ line ∧ (List.length (t_in t') < List.length (t_in t))%nat).
Proof.
  revert buf t. induction fuel as [|fuel IH]; intros buf t Hf Hz; [lia|].
  cbn [get_input_loop]. cbv zeta. change (t_in (say t Enter)) with (t_in t).
  destruct (decide (t_in t = [])) as [Hnil|Hne].
  { rewrite Hnil. cbn. eexists _, _, _. split_and!; [done|done| |by left].
    eapply typed_trans; [apply typed_say|]. eapply typed_trans; [|apply typed_say].
    by apply typed_in with (l := []). }
  destruct (line_of (Z.to_nat (size - 1)) (t_in t)) as [a r] eqn:E.
  rewrite (fgets_eq buf size _ a r) by (done || lia). cbn [mbind exec_bind].
  destruct (line_of_parts _ _ _ _ E) as (Ein & Hl & Ha & Hor).
  specialize (Ha Hne ltac:(lia)).
  assert (List.length ((Some <$> a) ++ Some NUL :: drop (List.length a + 1) buf)
          = List.length buf) as Hlen.
  { rewrite length_app, length_fmap. cbn [List.length]. rewrite length_drop. lia. }
  assert (typed t (set_in (say t Enter) r)) as Hty.
  { eapply typed_trans; [apply typed_say|]. by apply (typed_in _ a). }
  assert (List.length r < List.length (t_in t))%nat as Hshort.
  { rewrite Ein, length_app. destruct a; [done|cbn; lia]. }
  rewrite cells_chars_app. cbn [mbind exec_bind].
  destruct (strrchr (upto_nul a) NEWLINE) as [i|] eqn:Ei.
  - destruct Hor as [Hn|(line & -> & Hn)].
    { exfalso. assert (NEWLINE ∉ upto_nul a) as Hno%strrchr_None; [|by rewrite Hno in Ei].
      by apply upto_nul_sub. }
    destruct (decide (no_nul line)) as [Hnul|Hnul].
    2:{ exfalso. assert (NEWLINE ∉ upto_nul (line ++ [NEWLINE])) as Hno%strrchr_None;
          [|by rewrite Hno in Ei].
        rewrite upto_nul_early by (by apply dec_stable). by apply upto_nul_sub. }
    rewrite upto_nul_id, strrchr_app_last in Ei.
    2:{ unfold no_nul in *. rewrite elem_of_app. intros [?|?%list_elem_of_singleton]; done. }
    injection Ei as <-. rewrite fmap_app, <- app_assoc in Hlen |- *. cbn [fmap list_fmap app] in *.
    rewrite <- (length_fmap Some line), put_cell_at. cbn [mbind exec_bind mret exec_ret].
    eexists _, _, _. split_and!; [done| |done|].
    + revert Hlen. rewrite !length_app, !length_fmap. done.
    + right. split; [done|]. by eexists line, _.
  - destruct (IH ((Some <$> a) ++ Some NUL :: drop (List.length a + 1) buf)
      (say (set_in (say t Enter) r) Unexpected)) as (x & buf' & t' & E' & Hb & Ht & Hx);
      [cbn; lia|by rewrite Hlen|].
    rewrite E'. eexists _, _, _. split_and!; [done|congruence| |].
    + eapply typed_trans; [exact Hty|]. by eapply typed_trans; [apply typed_say|].
    + destruct Hx as [?|(-> & line & tail & ? & ? & ? & Hlt)]; [by left|right].
      split; [done|]. exists line, tail. split_and!; [done..|]. cbn in Hlt. lia.
Qed.
