(* ===== verification/CliFrames.v ===== *)
(** * tools/bpsp.c: the frames that the tools send *)
From S2P Require Import Prelude Status Datatype Uthash Mem Net Frame FrameFacts HeaderCodec.
From S2P Require Import FrameOp FrameRw Cli CliFacts.
Local Open Scope Z_scope.

(** The headers of a request, in the order in which they are set. *)
Definition texts_of (l : list (string * string)) : list (string * header_value) :=
  (fun e => (e.1, Str e.2)) <$> l.

(** A complete frame with these headers and this payload; [x-time] is the last header. *)
Definition made (op fl : Z) (l : list (string * string)) (data : bytes) : bpsp__frame :=
  {| vars_size := headers_size (texts_of l); opcode := op; flag := fl;
     data_size := Z.of_nat (List.length data); var_headers := texts_of l;
     payload := match data with [] => None | _ => Some (Some <$> data) end;
     payload_size := Z.of_nat (List.length data); pos := Z.of_nat (List.length data);
     _is_completed := 1 |}.

Definition connect_headers (now : string) : list (string * string) := [("x-time", now)]%string.
Definition sub_headers (now topic tag : string) : list (string * string) :=
  [("x-topic", topic); ("x-sub-tag", tag); ("x-time", now)]%string.
Definition pub_headers (now topic : string) : list (string * string) :=
  [("x-topic", topic); ("x-time", now)]%string.

Definition connect_frame (now : string) : bpsp__frame :=
  made (opcode_code OP_CONNECT) 0 (connect_headers now) (chars "BPSP Tools.").
Definition sub_frame (now topic tag : string) : bpsp__frame :=
  made (opcode_code OP_SUB) FL_ACK (sub_headers now topic tag) [].
Definition pub_frame (now topic : string) (line : bytes) : bpsp__frame :=
  made (opcode_code OP_PUB) FL_ACK (pub_headers now topic) line.

(** Texts that can be headers: not empty, and together within the limit. *)
Record fits (l : list (string * string)) : Prop := {
  ft_keys : NoDup l.*1;
  ft_full : Forall (fun e => e.1 ≠ ""%string ∧ e.2 ≠ ""%string) l;
  ft_size : headers_size (texts_of l) < 65536;
}.

#[export] Instance fits_dec l : Decision (fits l).
Proof.
  refine (cast_if_and3 (decide (NoDup l.*1))
    (decide (Forall (fun e : string * string => e.1 ≠ ""%string ∧ e.2 ≠ ""%string) l))
    (decide (headers_size (texts_of l) < 65536))); abstract (by split || by intros []).
Defined.

Lemma texts_of_keys l : (texts_of l).*1 = l.*1.
Proof. unfold texts_of. rewrite <- list_fmap_compose. done. Qed.

Lemma texts_of_app l l' : texts_of (l ++ l') = texts_of l ++ texts_of l'.
Proof. apply fmap_app. Qed.

Lemma fits_full l : fits l → Forall full_header (texts_of l).
Proof. intros [_ Hf _]. unfold texts_of. rewrite Forall_fmap. exact Hf. Qed.

Lemma fits_prefix l l' : fits (l ++ l') → fits l.
Proof.
  intros [Hk Hf Hs]. rewrite fmap_app, NoDup_app in Hk. apply Forall_app in Hf as [Hf _].
  rewrite texts_of_app, headers_size_app in Hs. pose proof (headers_size_nonneg (texts_of l')).
  split; [apply Hk|done|lia].
Qed.

Lemma fits_wf l op fl p n m c :
  fits l → headers_wf {| vars_size := headers_size (texts_of l); opcode := op; flag := fl;
                         data_size := n; var_headers := texts_of l; payload := p;
                         payload_size := n; pos := m; _is_completed := c |}.
Proof.
  intros Hf. pose proof (fits_full _ Hf) as Hfull. destruct Hf as [Hk _ Hs].
  split; cbn; [done|done|by rewrite texts_of_keys|].
  intros k v Hin E%strlen_zero. rewrite Forall_forall in Hfull. by destruct (Hfull _ Hin).
Qed.

Lemma made_sendable op fl l data :
  fits l → 0 ≤ op < 256 → 0 ≤ fl < 256 → Z.of_nat (List.length data) < 4294967296 →
  sendable (made op fl l data) data.
Proof.
  intros Hf Hop Hfl Hd. split; [split| |done|done].
  - by apply fits_wf.
  - split; cbn; [done|lia|]. destruct data; [done|]. split; [by rewrite length_fmap|cbn; lia].
  - done.
  - done.
  - by apply full_headers_all_str, fits_full.
Qed.

Section Build.
Context `{Malloc}.
Hypothesis all_ok : ∀ n, malloc_ok n = true.
Variable now : string.

(** A frame under construction: the headers so far. *)
Definition partial (op fl : Z) (l : list (string * string)) (data : bytes) : bpsp__frame :=
  set_completed (made op fl l data) 0.

Lemma partial_set op fl l data k v :
  fits (l ++ [(k, v)]) →
  frame__set_var_header (partial op fl l data) (Some k) (Some v)
  = Done (BPSP_OK, partial op fl (l ++ [(k, v)]) data).
Proof.
  intros Hf. pose proof (fits_prefix _ _ Hf) as Hl. pose proof Hf as [Hk Hfull Hs].
  apply Forall_app in Hfull as [_ [[Hk0 Hv0] _]%Forall_cons]. cbn in Hk0, Hv0.
  assert (headers_after (texts_of l) k v = texts_of (l ++ [(k, v)])) as Eh.
  { rewrite fmap_app in Hk. apply NoDup_app in Hk as (_ & Hk & _).
    unfold headers_after. rewrite (proj2 (hash_find_None k (texts_of l))).
    2:{ rewrite texts_of_keys. intros Hin. apply (Hk _ Hin). by apply list_elem_of_singleton. }
    rewrite (proj2 (Z.eqb_neq _ 0)) by (by rewrite strlen_zero).
    unfold hash_add. by rewrite texts_of_app. }
  rewrite set_var_header_ok; cbn [partial set_completed made var_headers].
  - by rewrite Eh.
  - apply all_ok.
  - by apply fits_wf.
  - by apply full_headers_all_str, fits_full.
  - done.
  - by rewrite Eh.
Qed.

Lemma partial_build op fl l data :
  fits (l ++ [("x-time", now)]%string) → 0 < op →
  frame__build now (partial op fl l data) = Done (BPSP_OK, made op fl (l ++ [("x-time", now)]%string) data).
Proof.
  intros Hf Hop. unfold frame__build. rewrite partial_set by done.
  cbn [bind_ok mbind exec_bind opcode partial set_completed made]. unfold frame__validate_opcode.
  destruct (Z.leb_spec op 0); [lia|]. by rewrite (proj2 (Z.ltb_lt 0 _)).
Qed.

Lemma partial_payload op fl l data :
  Z.of_nat (List.length data) < 4294967296 → ∀ buf tail,
  buf = (Some <$> data) ++ tail →
  frame__put_payload (partial op fl l []) (Some buf) (Z.of_nat (List.length data)) false
  = Done (BPSP_OK, partial op fl l data).
Proof.
  intros Hd buf tail ->. unfold frame__put_payload, frame__malloc_payload.
  destruct (Z.eqb_spec (Z.of_nat (List.length data)) 0) as [E|E].
  { destruct data; [done|cbn in E; lia]. }
  change (payload_size (partial op fl l [])) with 0. cbn [Z.eqb negb]. cbv zeta.
  unfold mem__malloc. rewrite all_ok. cbn [bind_ok mbind exec_bind payload set_payload].
  rewrite memcpy_take by (by intros ->). cbn [bind_ok mbind exec_bind mret exec_ret].
  cbn. rewrite Z.add_0_r, u32_small by lia. unfold partial, made, set_completed, set_payload. cbn.
  by destruct data.
Qed.

Lemma frame__CONNECT_spec f :
  fits (connect_headers now) →
  frame__CONNECT now f (string_cells "BPSP Tools.") 11 = Done (BPSP_OK, connect_frame now).
Proof.
  intros Hf. unfold frame__CONNECT, frame__empty. cbn [bind_ok mbind exec_bind].
  rewrite set_frame_control_ok by done. cbn [bind_ok mbind exec_bind].
  change (set_control frame_zero _ 0) with (partial (opcode_code OP_CONNECT) 0 [] []).
  change 11 with (Z.of_nat (List.length (chars "BPSP Tools."))).
  unfold string_cells. rewrite (partial_payload _ _ _ (chars "BPSP Tools.") ltac:(done) _ []) by done.
  cbn [bind_ok mbind exec_bind]. by rewrite partial_build.
Qed.

Lemma frame__SUB_spec f topic tag :
  fits (sub_headers now topic tag) →
  frame__SUB now f (Some topic) (Some tag) FL_ACK None 0 = Done (BPSP_OK, sub_frame now topic tag).
Proof.
  intros Hf. unfold frame__SUB, frame__empty. cbn [bind_ok mbind exec_bind].
  rewrite set_frame_control_ok by done. cbn [bind_ok mbind exec_bind frame__set_var_headers Nat.eqb set_if_given].
  change (set_control frame_zero _ FL_ACK) with (partial (opcode_code OP_SUB) FL_ACK [] []).
  rewrite partial_set by (by apply (fits_prefix _ [("x-sub-tag", tag); ("x-time", now)]%string)).
  cbn [bind_ok mbind exec_bind]. rewrite partial_set by (by apply (fits_prefix _ [("x-time", now)]%string)).
  cbn [bind_ok mbind exec_bind]. by rewrite partial_build.
Qed.

Lemma frame__PUB_spec f topic line tail :
  fits (pub_headers now topic) → Z.of_nat (List.length line) < 4294967296 →
  frame__PUB now f (Some topic) FL_ACK None 0 (Some ((Some <$> line) ++ tail))
    (Z.of_nat (List.length line)) = Done (BPSP_OK, pub_frame now topic line).
Proof.
  intros Hf Hl. unfold frame__PUB, frame__empty. cbn [bind_ok mbind exec_bind].
  rewrite set_frame_control_ok by done. cbn [bind_ok mbind exec_bind frame__set_var_headers Nat.eqb].
  change (set_control frame_zero _ FL_ACK) with (partial (opcode_code OP_PUB) FL_ACK [] []).
  rewrite partial_set by (by apply (fits_prefix _ [("x-time", now)]%string)).
  cbn [bind_ok mbind exec_bind]. rewrite (partial_payload _ _ _ line Hl _ tail) by done.
  cbn [bind_ok mbind exec_bind]. by rewrite partial_build.
Qed.
End Build.
