(* ===== verification/CliRuns.v ===== *)
(** * tools/bpsp.c: a run of the tools against a server

    What a loop takes from the stream of the server, what it sends, and what it prints. *)
From S2P Require Import Prelude Status Datatype Uthash Mem Net Frame FrameFacts HeaderCodec.
From S2P Require Import FrameOp FrameRw Transfer Cli CliFacts CliFrames.
Local Open Scope Z_scope.

(** Bytes taken from the peer and bytes sent to it. *)
Definition trades {Sk} `{Socket Sk} (conn conn' : bpsp__connection Sk) (got out : bytes) : Prop :=
  ∃ s', conn' = set_sock conn s' ∧ rx (sock conn) = got ++ rx s'
        ∧ tx s' = tx (sock conn) ++ out ∧ (writable (sock conn) → writable s').

Lemma trades_refl {Sk} `{Socket Sk} (conn : bpsp__connection Sk) : trades conn conn [] [].
Proof. exists (sock conn). rewrite app_nil_r. split_and!; [by destruct conn|done..]. Qed.

Lemma trades_trans {Sk} `{Socket Sk} (c1 c2 c3 : bpsp__connection Sk) g1 o1 g2 o2 :
  trades c1 c2 g1 o1 → trades c2 c3 g2 o2 → trades c1 c3 (g1 ++ g2) (o1 ++ o2).
Proof.
  intros (s & -> & R1 & T1 & W1) (s' & -> & R2 & T2 & W2). cbn in *. exists s'.
  split_and!; [done| | |auto].
  - by rewrite R1, R2, app_assoc.
  - by rewrite T2, T1, app_assoc.
Qed.

Lemma trades_fd {Sk} `{Socket Sk} (c c' : bpsp__connection Sk) g o :
  trades c c' g o → 0 < sockfd c → 0 < sockfd c'.
Proof. by intros (s & -> & _). Qed.
Lemma trades_writable {Sk} `{Socket Sk} (c c' : bpsp__connection Sk) g o :
  trades c c' g o → writable (sock c) → writable (sock c').
Proof. intros (s & -> & _ & _ & W). exact W. Qed.
Lemma trades_rest {Sk} `{Socket Sk} (c c' : bpsp__connection Sk) g o rest :
  trades c c' g o → rx (sock c) = g ++ rest → rx (sock c') = rest.
Proof. intros (s & -> & R & _) E. rewrite R in E. by apply app_inv_head in E. Qed.

Section Runs.
Context {Sk : Type} `{SocketLaws Sk} `{Malloc}.
Variable big : bool.
Variable clock : nat → string.
Hypothesis all_ok : ∀ n, malloc_ok n = true.
Local Notation connection := (bpsp__connection Sk).
Implicit Types (t : tool) (conn : connection).

(** A frame that arrives whole; the receiver's own time has room in it at any moment. *)
Record receivable (f : bpsp__frame) (data : bytes) : Prop := {
  rv_valid : headers_valid (var_headers f);
  rv_counted : vars_size f = headers_size (var_headers f);
  rv_opcode : 0 < opcode f < 256;
  rv_flag : 0 ≤ flag f < 256;
  rv_data : data_size f = Z.of_nat (List.length data);
  rv_size : data_size f < 4294967296;
  rv_time k : headers_size (headers_after (var_headers f) "x-time" (clock k)) < 65536;
}.

Definition wire_of (m : bpsp__frame * bytes) : bytes := wire_frame m.1 m.2.

Lemma recv_on_spec t conn g f data rest :
  receivable f data → 0 < sockfd conn → rx (sock conn) = wire_frame f data ++ rest →
  ∃ conn', recv_on big clock t conn (Some g)
           = Done (BPSP_OK, Some (FrameRw.received (clock (t_clock t)) f data), conn')
    ∧ trades conn conn' (wire_frame f data) [].
Proof.
  intros [] Ho Hrx.
  destruct (frame__recv_spec big (clock (t_clock t)) conn g f data rest)
    as (s' & E & Hr & Ht); [done..|auto|done|].
  unfold recv_on, on_frame. rewrite E. cbn [mbind exec_bind mret exec_ret]. eexists.
  split; [done|]. destruct (frame__recv_comes big _ conn g _ _ _ Ho E) as (got & (s2 & E2 & _ & _ & W) & _).
  apply (f_equal sock) in E2. cbn in E2. subst s2. exists s'. rewrite app_nil_r, Hr.
  by split_and!.
Qed.

Lemma send_on_spec conn f data :
  sendable f data → 0 < sockfd conn → writable (sock conn) →
  ∃ n conn', send_on big conn (Some f) = Done (BPSP_OK, Some (set_pos f n), conn')
    ∧ trades conn conn' [] (wire_frame f data).
Proof.
  intros Hs Ho Hw.
  destruct (frame__send_spec big conn f data) as (s' & E & Hr & Ht & Hw'); [auto|done..|].
  unfold send_on, on_frame. rewrite E. cbn [mbind exec_bind mret exec_ret]. eexists _, _.
  split; [done|]. exists s'. by rewrite Hr.
Qed.

(** ** Messages *)

Definition shown_header (hs : list (string * header_value)) (k : string) : string :=
  match hash_find k hs with Some (Str v) => v | _ => "unknown" end.

(** The line that is printed for a message. *)
Definition shown (m : bpsp__frame * bytes) : printed :=
  Received (shown_header (var_headers m.1) "x-from") (shown_header (var_headers m.1) "x-topic")
    (data_size m.1) (str (upto_nul m.2)).

Lemma shown_header_received now f data k :
  headers_valid (var_headers f) → k ≠ "x-time"%string →
  header_or_unknown (frame__get_var_header (FrameRw.received now f data) (Some k))
  = Done (shown_header (var_headers f) k).
Proof.
  intros Hv Hk. unfold frame__get_var_header, FrameRw.received. cbn [var_headers].
  rewrite headers_after_find, decide_False by done. unfold shown_header, header_or_unknown.
  destruct (hash_find k (var_headers f)) as [[|v]|] eqn:E; [|done|done].
  apply hash_find_Some_elem in E. pose proof (hv_full _ Hv) as Hf. rewrite Forall_forall in Hf.
  by destruct (Hf _ E).
Qed.

Lemma print_message_spec now f data buffer t :
  receivable f data → buffer_ok buffer → Z.of_nat (List.length data) < 65536 →
  ∃ buffer', print_message (FrameRw.received now f data) buffer t
             = Done (buffer', say t (shown (f, data))) ∧ buffer_ok buffer'.
Proof.
  intros Hr Hb Hd. pose proof Hr as [Hv _ _ _ Hsz _ _]. unfold print_message.
  change (data_size (FrameRw.received now f data)) with (data_size f).
  change (payload (FrameRw.received now f data))
    with (match data with [] => None | _ => Some (Some <$> data) end).
  assert (∃ c0 tail, (if data_size f =? 0 then Done (Some buffer)
     else mem__memcpy (Some buffer) 0 (match data with [] => None | _ => Some (Some <$> data) end)
            (data_size f)) = Done (Some ((Some <$> data) ++ c0 :: tail))
     ∧ List.length ((Some <$> data) ++ c0 :: tail) = List.length buffer) as (c0 & tail & E & Hlen).
  { destruct (drop (List.length data) buffer) as [|c0 tail] eqn:Ed.
    { apply (f_equal List.length) in Ed. rewrite length_drop in Ed. cbn in Ed.
      unfold buffer_ok in Hb. lia. }
    exists c0, tail. pose proof (f_equal List.length Ed) as El. rewrite length_drop in El.
    split; [|rewrite length_app, length_fmap; cbn in *; lia]. destruct (Z.eqb_spec (data_size f) 0) as [Ez|Ez].
    - destruct data; [|cbn in Hsz; lia]. cbn in Ed. by rewrite drop_0 in Ed; rewrite Ed.
    - destruct data as [|b data']; [cbn in Hsz; lia|].
      rewrite memcpy_prefix; [by rewrite length_fmap, Ed|by rewrite length_fmap|].
      unfold buffer_ok in Hb. lia. }
  rewrite E. cbn [mbind exec_bind deref]. rewrite Hsz, <- (length_fmap Some data), put_cell_at.
  cbn [mbind exec_bind]. rewrite !shown_header_received by done. cbn [mbind exec_bind].
  unfold cells_cstr. rewrite cells_chars_app. cbn [mbind exec_bind mret exec_ret].
  eexists. split.
  - unfold shown. cbn [fst snd]. by rewrite Hsz, length_fmap.
  - unfold buffer_ok in *. rewrite <- Hb, <- Hlen. by rewrite !length_app.
Qed.

(** The terminal after the clock has been read [k] times and [o] has been printed. *)
Definition after t (k : nat) (o : list printed) : tool :=
  {| t_clock := (t_clock t + k)%nat; t_rand := t_rand t; t_in := t_in t; t_out := t_out t ++ o |}.

Lemma after_0 t : after t 0 [] = t.
Proof. destruct t. unfold after. cbn. by rewrite Nat.add_0_r, app_nil_r. Qed.
Lemma after_after t k o k' o' : after (after t k o) k' o' = after t (k + k') (o ++ o').
Proof. unfold after. cbn. by rewrite Nat.add_assoc, app_assoc. Qed.
Lemma say_tick t p : say (tick t) p = after t 1 [p].
Proof. unfold say, tick, after. cbn. by rewrite Nat.add_1_r. Qed.
Lemma after_say t p k o : after (say (tick (tick t)) p) k o = after t (2 + k) (p :: o).
Proof. unfold after, say, tick. cbn. f_equal; [lia|by rewrite <- app_assoc]. Qed.
Lemma say_after t k o p : say (after t k o) p = after t k (o ++ [p]).
Proof. unfold say, after. cbn. by rewrite app_assoc. Qed.
Lemma tick_after t k o : tick (after t k o) = after t (S k) o.
Proof. unfold tick, after. cbn. by rewrite Nat.add_succ_r. Qed.

Definition fits_buffer (m : bpsp__frame * bytes) : Prop :=
  receivable m.1 m.2 ∧ Z.of_nat (List.length m.2) < 65536.

(** One message after the other; then the loop stands before the rest of the stream. *)
Lemma sub_loop_messages ms fuel conn g buffer t rest :
  Forall fits_buffer ms → 0 < sockfd conn → buffer_ok buffer →
  rx (sock conn) = (ms ≫= wire_of) ++ rest →
  ∃ conn' g' buffer', sub_loop big clock (List.length ms + fuel) conn (Some g) buffer t
      = sub_loop big clock fuel conn' (Some g') buffer' (after t (List.length ms) (shown <$> ms))
    ∧ buffer_ok buffer' ∧ trades conn conn' (ms ≫= wire_of) [].
Proof.
  intros Hms. revert conn g buffer t.
  induction Hms as [|[f data] ms [Hr Hd] Hms IH]; intros conn g buffer t Ho Hb Hrx.
  { exists conn, g, buffer. rewrite after_0. split_and!; [done|done|apply trades_refl]. }
  cbn [mbind list_bind] in *. rewrite <- app_assoc in Hrx. cbn [fst snd] in Hr, Hd.
  destruct (recv_on_spec t conn g f data _ Hr Ho Hrx) as (c1 & E & Ht1).
  destruct (print_message_spec (clock (t_clock t)) f data buffer (tick t) Hr Hb Hd) as (b1 & Ep & Hb1).
  destruct (IH c1 (FrameRw.received (clock (t_clock t)) f data) b1 (after t 1 [shown (f, data)]))
    as (c2 & g2 & b2 & E2 & Hb2 & Ht2);
    [by eapply trades_fd|done|by eapply trades_rest|].
  exists c2, g2, b2. split_and!; [|done|by apply (trades_trans _ _ _ _ _ _ _ Ht1 Ht2)].
  cbn [List.length Nat.add sub_loop]. rewrite E. cbn [mbind exec_bind]. cbv zeta.
  rewrite decide_False by auto. cbn [deref mbind exec_bind]. rewrite Ep. cbn [mbind exec_bind].
  by rewrite say_tick, E2, after_after.
Qed.

(** ** The end of the stream, and a message that is too long *)

Lemma sub_loop_end fuel conn g buffer t f data p q :
  receivable f data → 0 < sockfd conn → p ++ q = wire_frame f data → q ≠ [] →
  rx (sock conn) = p →
  ∃ conn', sub_loop big clock (S fuel) conn (Some g) buffer t = Done (conn', tick t).
Proof.
  intros [] Ho Hpq Hq Hrx.
  destruct (frame__recv_truncated_spec big (clock (t_clock t)) conn g f data p q)
    as (s & f' & c' & E & Hs); [done..|].
  cbn [sub_loop]. unfold recv_on, on_frame. rewrite E. cbn [mbind exec_bind mret exec_ret].
  rewrite decide_True by (by apply io_failure_not_ok). by eexists.
Qed.

Lemma print_message_overflow now f data buffer t :
  receivable f data → buffer_ok buffer → 65536 ≤ Z.of_nat (List.length data) →
  print_message (FrameRw.received now f data) buffer t = Undef.
Proof.
  intros [_ _ _ _ Hsz _ _] Hb Hd. unfold print_message, buffer_ok in *.
  change (data_size (FrameRw.received now f data)) with (data_size f).
  change (payload (FrameRw.received now f data))
    with (match data with [] => None | _ => Some (Some <$> data) end).
  destruct data as [|b data'] eqn:Ed; [cbn in Hd; lia|]. rewrite <- Ed in *.
  rewrite (proj2 (Z.eqb_neq _ 0)) by lia.
  destruct (Z.eq_dec (data_size f) 65536) as [E|E].
  - rewrite memcpy_prefix by (rewrite ?length_fmap; lia). cbn [mbind exec_bind deref].
    rewrite drop_ge, app_nil_r by (rewrite length_fmap; lia).
    unfold put_cell, mem__memcpy. cbn [Z.eqb List.length].
    rewrite (proj2 (Z.leb_gt (data_size f + 1) _)) by (rewrite length_fmap; lia).
    by rewrite andb_false_r.
  - unfold mem__memcpy. rewrite (proj2 (Z.eqb_neq _ 0)) by lia.
    rewrite Z.add_0_l, (proj2 (Z.leb_gt (data_size f) (Z.of_nat (List.length buffer)))) by lia. by rewrite andb_false_r.
Qed.

Lemma sub_loop_overflow fuel conn g buffer t f data rest :
  receivable f data → 0 < sockfd conn → buffer_ok buffer →
  rx (sock conn) = wire_frame f data ++ rest → 65536 ≤ Z.of_nat (List.length data) →
  sub_loop big clock (S fuel) conn (Some g) buffer t = Undef.
Proof.
  intros Hr Ho Hb Hrx Hd. destruct (recv_on_spec t conn g f data _ Hr Ho Hrx) as (c1 & E & _).
  cbn [sub_loop]. rewrite E. cbn [mbind exec_bind]. rewrite decide_False by auto.
  cbn [deref mbind exec_bind]. by rewrite (print_message_overflow _ f data).
Qed.

(** ** Requests and their replies *)

Definition good_reply (m : bpsp__frame * bytes) : Prop := receivable m.1 m.2.

(** The requests to subscribe; the clock is read for each request and for each reply. *)
Fixpoint sub_requests (k : nat) (topics : list string) : bytes :=
  match topics with
  | [] => []
  | topic :: topics => wire_frame (sub_frame (clock k) topic "_99") [] ++ sub_requests (S (S k)) topics
  end.

Lemma sub_topics_run topics rs conn fo g t rest :
  Forall (fun topic => ∀ k, fits (sub_headers (clock k) topic "_99")) topics →
  Forall good_reply rs → List.length rs = List.length topics →
  0 < sockfd conn → writable (sock conn) → rx (sock conn) = (rs ≫= wire_of) ++ rest →
  ∃ conn' fo' g', sub_topics big clock topics conn (Some fo) (Some g) t
      = Done (BPSP_OK, conn', Some fo', Some g',
              after t (2 * List.length topics) (Subscribing <$> topics))
    ∧ trades conn conn' (rs ≫= wire_of) (sub_requests (t_clock t) topics).
Proof.
  intros Hto. revert rs conn fo g t.
  induction Hto as [|topic topics Hfit Hto IH]; intros rs conn fo g t Hrs Hl Ho Hw Hrx.
  { destruct rs; [|done]. eexists _, _, _. rewrite after_0. split; [done|apply trades_refl]. }
  destruct rs as [|[f data] rs]; [done|]. apply Forall_cons in Hrs as [Hr Hrs].
  cbn [mbind list_bind] in *. rewrite <- app_assoc in Hrx. injection Hl as Hl.
  cbn [sub_topics]. unfold build_on, on_frame. rewrite frame__SUB_spec by done.
  cbn [mbind exec_bind mret exec_ret]. cbv zeta. rewrite decide_False by auto.
  destruct (send_on_spec conn (sub_frame (clock (t_clock t)) topic "_99") []) as (n & c1 & E1 & T1);
    [by apply made_sendable|done|done|].
  rewrite E1. cbn [mbind exec_bind]. rewrite decide_False by auto.
  destruct (recv_on_spec (tick t) c1 g f data ((rs ≫= wire_of) ++ rest)) as (c2 & E2 & T2);
    [done|by eapply trades_fd|by apply (trades_rest _ _ _ _ _ T1)|].
  rewrite E2. cbn [mbind exec_bind]. rewrite decide_False by auto.
  pose proof (trades_trans _ _ _ _ _ _ _ T1 T2) as T. cbn [app] in T. rewrite app_nil_r in T.
  edestruct (IH rs c2) as (c3 & fo' & g' & E3 & T3);
    [done|done|by eapply trades_fd|by eapply trades_writable|by eapply trades_rest|].
  eexists c3, fo', g'. split.
  - rewrite E3, after_say. cbn [List.length fmap list_fmap].
    by replace (2 * S (List.length topics))%nat with (2 + 2 * List.length topics)%nat by lia.
  - exact (trades_trans _ _ _ _ _ _ _ T T3).
Qed.

(** The publications of one line, topic after topic. *)
Fixpoint pub_requests (k : nat) (topics : list string) (line : bytes) : bytes :=
  match topics with
  | [] => []
  | topic :: topics =>
      wire_frame (pub_frame (clock k) topic line) line ++ pub_requests (S (S k)) topics line
  end.

Definition topics_fit (topics : list string) : Prop :=
  Forall (fun topic => ∀ k, fits (pub_headers (clock k) topic)) topics.

(** A line that [get_input] can read, and that does not end the program. *)
Record good_line (line : bytes) : Prop := {
  gl_nl : NEWLINE ∉ line;
  gl_nul : no_nul line;
  gl_short : Z.of_nat (List.length line) + 2 ≤ MAX_BUFFER;
}.

Lemma pub_topics_run topics line tail s rs conn fo g t rest :
  topics_fit topics → good_line line → Forall good_reply rs →
  List.length rs = List.length topics → 0 < sockfd conn → writable (sock conn) →
  rx (sock conn) = (rs ≫= wire_of) ++ rest → s = BPSP_OK →
  ∃ conn' fo' g',
    pub_topics big clock topics s conn (Some fo) (Some g) ((Some <$> line) ++ Some NUL :: tail) t
    = Done (BPSP_OK, conn', Some fo', Some g', after t (2 * List.length topics)
              (Published (Z.of_nat (List.length line)) <$> topics))
    ∧ trades conn conn' (rs ≫= wire_of) (pub_requests (t_clock t) topics line).
Proof.
  intros Hto [Hnl Hnul Hsh] Hrs Hl Ho Hw Hrx ->. revert rs conn fo g t Hrs Hl Ho Hw Hrx.
  unfold MAX_BUFFER in Hsh.
  induction Hto as [|topic topics Hfit Hto IH]; intros rs conn fo g t Hrs Hl Ho Hw Hrx.
  { destruct rs; [|done]. eexists _, _, _. rewrite after_0. split; [done|apply trades_refl]. }
  destruct rs as [|[f data] rs]; [done|]. apply Forall_cons in Hrs as [Hr Hrs].
  cbn [mbind list_bind] in *. rewrite <- app_assoc in Hrx. injection Hl as Hl.
  cbn [pub_topics]. rewrite cells_cstr_app by done. cbn [mbind exec_bind].
  unfold build_on, on_frame. rewrite strlen_chars, chars_str, u32_small by lia.
  rewrite frame__PUB_spec by (done || lia).
  cbn [mbind exec_bind mret exec_ret]. cbv zeta. rewrite decide_False by auto.
  destruct (send_on_spec conn (pub_frame (clock (t_clock t)) topic line) line) as (n & c1 & E1 & T1);
    [apply made_sendable; [done..|lia]|done|done|].
  rewrite E1. cbn [mbind exec_bind]. rewrite decide_False by auto.
  destruct (recv_on_spec (tick t) c1 g f data ((rs ≫= wire_of) ++ rest)) as (c2 & E2 & T2);
    [done|by eapply trades_fd|by apply (trades_rest _ _ _ _ _ T1)|].
  rewrite E2. cbn [mbind exec_bind deref]. rewrite decide_False by auto.
  pose proof (trades_trans _ _ _ _ _ _ _ T1 T2) as T. cbn [app] in T. rewrite app_nil_r in T.
  edestruct (IH rs c2) as (c3 & fo' & g' & E3 & T3);
    [done|done|by eapply trades_fd|by eapply trades_writable|by eapply trades_rest|].
  eexists c3, fo', g'. split.
  - rewrite E3. change (data_size (set_pos _ n)) with (Z.of_nat (List.length line)).
    rewrite after_say. cbn [List.length fmap list_fmap].
    by replace (2 * S (List.length topics))%nat with (2 + 2 * List.length topics)%nat by lia.
  - exact (trades_trans _ _ _ _ _ _ _ T T3).
Qed.

(** ** Connecting *)

Lemma connect_run conn f data t rest :
  (∀ k, fits (connect_headers (clock k))) → receivable f data → NUL ∈ data →
  0 < sockfd conn → writable (sock conn) → rx (sock conn) = wire_frame f data ++ rest →
  ∃ conn', _connect big clock (Some conn) t
      = Done (Goes conn', after t 2 [BrokerSays (str (upto_nul data))])
    ∧ trades conn conn' (wire_frame f data)
        (wire_frame (connect_frame (clock (t_clock t))) (chars "BPSP Tools.")).
Proof.
  intros Hfit Hr Hnul Ho Hw Hrx. unfold _connect, frame__new, frame__alloc. rewrite all_ok.
  rewrite frame__CONNECT_spec by done. cbn [mbind exec_bind]. cbv zeta.
  rewrite decide_False by auto.
  destruct (send_on_spec conn (connect_frame (clock (t_clock t))) (chars "BPSP Tools."))
    as (n & c1 & E1 & T1); [by apply made_sendable|done|done|].
  unfold send_on, on_frame in E1.
  destruct (frame__send _ _ _) as [[[s1 f1] c1']| | |]; try done. injection E1 as -> -> ->.
  cbn [mbind exec_bind]. rewrite decide_False by auto.
  destruct (recv_on_spec (tick t) c1 (set_pos (connect_frame (clock (t_clock t))) n) f data rest)
    as (c2 & E2 & T2); [done|by eapply trades_fd|by apply (trades_rest _ _ _ _ _ T1)|].
  unfold recv_on, on_frame in E2.
  destruct (frame__recv _ _ _ _) as [[[s2 f2] c2']| | |]; try done. injection E2 as -> -> ->.
  cbn [mbind exec_bind]. rewrite decide_False by auto.
  assert (response_text (FrameRw.received (clock (S (t_clock t))) f data)
          = Done (str (upto_nul data))) as ->.
  { unfold response_text. cbn [payload_size payload FrameRw.received]. rewrite (rv_data _ _ Hr).
    destruct data as [|b data']; [by apply elem_of_nil in Hnul|]. cbn [List.length Z.of_nat Z.eqb deref mbind exec_bind].
    unfold cells_cstr. by rewrite cells_chars_nul. }
  cbn [mbind exec_bind mret exec_ret]. exists c2. split.
  - do 3 f_equal. rewrite <- (after_0 (tick (tick t))). unfold after, say, tick. cbn.
    f_equal; [lia|by rewrite app_nil_r].
  - pose proof (trades_trans _ _ _ _ _ _ _ T1 T2) as T. by rewrite app_nil_r in T.
Qed.
End Runs.
