(* ===== verification/CliProps.v ===== *)
(** * tools/bpsp.c: properties of the tools *)
From S2P Require Import Prelude Status Datatype Uthash Mem Net Frame FrameFacts HeaderCodec.
From S2P Require Import FrameOp FrameRw FrameProps Transfer Samples Cli CliFacts CliFrames CliRuns.
Local Open Scope Z_scope.

Section Tools.
Context {Sk : Type} `{SocketLaws Sk} `{Malloc}.
Variable big : bool.
Variable clock : nat → string.
Local Notation connection := (bpsp__connection Sk).
Implicit Types (t : tool) (conn : connection).

(** ** The lines of a session *)

Definition typed_lines (lines : list bytes) : bytes := lines ≫= fun l => l ++ [NEWLINE].

Definition is_exit (line : bytes) : bool := strcasecmp_eq (str line) "exit".

Fixpoint line_requests (k : nat) (topics : list string) (lines : list bytes) : bytes :=
  match lines with
  | [] => []
  | line :: lines =>
      pub_requests clock k topics line
      ++ line_requests (k + 2 * List.length topics) topics lines
  end.

Definition line_shown (topics : list string) (line : bytes) : list printed :=
  Enter :: (Published (Z.of_nat (List.length line)) <$> topics).

Lemma after_line t r k o :
  after (set_in (say t Enter) r) k o = set_in (after t k (Enter :: o)) r.
Proof. unfold after, set_in, say. cbn. by rewrite <- app_assoc. Qed.

Lemma after_set_in t r k o : after (set_in t r) k o = set_in (after t k o) r.
Proof. done. Qed.

(** A reply for each line and topic. *)
Fixpoint enough (n : nat) (lines : list bytes) (rs : list (bpsp__frame * bytes)) : Prop :=
  match lines with
  | [] => rs = []
  | _ :: lines => (n ≤ List.length rs)%nat ∧ enough n lines (drop n rs)
  end.

Lemma length_enough n lines rs :
  List.length rs = (List.length lines * n)%nat → enough n lines rs.
Proof.
  revert rs. induction lines as [|l lines IH]; intros rs Hl; cbn in *.
  { by apply nil_length_inv. }
  split; [lia|]. apply IH. rewrite length_drop. lia.
Qed.

Lemma pub_loop_lines topics lines fuel rs conn fo g buffer t more rest :
  (∀ n, malloc_ok n = true) → topics_fit clock topics →
  Forall (fun l => good_line l ∧ is_exit l = false) lines →
  Forall (good_reply clock) rs → List.length rs = (List.length lines * List.length topics)%nat →
  0 < sockfd conn → writable (sock conn) → buffer_ok buffer →
  rx (sock conn) = (rs ≫= wire_of) ++ rest → t_in t = typed_lines lines ++ more →
  ∃ conn' fo' g' buffer',
    pub_loop big clock get_input (List.length lines + fuel) topics BPSP_OK conn
      (Some fo) (Some g) buffer t
    = pub_loop big clock get_input fuel topics BPSP_OK conn' (Some fo') (Some g') buffer'
        (set_in (after t (2 * List.length topics * List.length lines)
                   (lines ≫= line_shown topics)) more)
    ∧ buffer_ok buffer'
    ∧ trades conn conn' (rs ≫= wire_of) (line_requests (t_clock t) topics lines).
Proof.
  intros Hm Hto Hli. revert rs conn fo g buffer t.
  induction Hli as [|line lines [Hg Hx] Hli IH]; intros rs conn fo g buffer t Hrs Hl Ho Hw Hb Hrx Hin.
  { destruct rs; [|done]. eexists _, _, _, _. split_and!; [|done|apply trades_refl].
    rewrite Nat.mul_0_r, after_0. cbn in Hin. rewrite <- Hin. by destruct t. }
  set (n := List.length topics) in *.
  assert (rs = take n rs ++ drop n rs) as Ers by (by rewrite take_drop).
  rewrite Ers in Hrs, Hrx. apply Forall_app in Hrs as [Hr1 Hr2].
  rewrite bind_app, <- app_assoc in Hrx. cbn [List.length Nat.mul] in Hl.
  unfold typed_lines in Hin. cbn [mbind list_bind] in Hin. rewrite <- !app_assoc in Hin.
  cbn [app] in Hin. change (lines ≫= fun l => l ++ [NEWLINE]) with (typed_lines lines) in Hin.
  cbn [List.length Nat.add pub_loop]. rewrite decide_False by auto.
  change (get_input buffer MAX_BUFFER t)
    with (get_input_loop (S (List.length (t_in t))) buffer MAX_BUFFER t).
  destruct (get_input_loop_line (List.length (t_in t)) buffer MAX_BUFFER t line _
    Hin) as (tail & E & Hlen); [apply Hg|apply Hg|split; [apply Hg|unfold MAX_BUFFER, buffer_ok in *; lia]|].
  rewrite E. cbn [mbind exec_bind Z.ltb Z.compare]. rewrite cells_cstr_app by apply Hg.
  cbn [mbind exec_bind]. unfold is_exit in Hx. rewrite Hx.
  destruct (pub_topics_run big clock Hm topics line tail BPSP_OK (take n rs) conn fo g
    (set_in (say t Enter) (typed_lines lines ++ more)) ((drop n rs ≫= wire_of) ++ rest))
    as (c1 & fo1 & g1 & E1 & T1); [done..|rewrite length_take; lia|done|done|done|done|].
  rewrite E1. cbn [mbind exec_bind].
  destruct (IH (drop n rs) c1 fo1 g1 ((Some <$> line) ++ Some NUL :: tail)
    (after (set_in (say t Enter) (typed_lines lines ++ more)) (2 * List.length topics)
       (Published (Z.of_nat (List.length line)) <$> topics)))
    as (c2 & fo2 & g2 & b2 & E2 & Hb2 & T2);
    [done|rewrite length_drop; lia|by eapply trades_fd|by eapply trades_writable
    |unfold buffer_ok in *; by rewrite Hlen|by eapply trades_rest|done|].
  exists c2, fo2, g2, b2. split_and!; [|done|].
  - rewrite E2. f_equal. rewrite after_line, after_set_in, after_after.
    unfold set_in, after. cbn [t_clock t_rand t_out mbind list_bind]. f_equal. subst n. lia.
  - rewrite Ers at 1. rewrite bind_app. cbn [line_requests].
    by apply (trades_trans _ _ _ _ _ _ _ T1 T2).
Qed.

(** ** Whole runs *)

(** An open connection to a server that greets with [di] and answers the [n] requests. *)
Record session (conn : connection) (fi : bpsp__frame) (di : bytes)
    (rs : list (bpsp__frame * bytes)) (n : nat) (more : bytes) : Prop := {
  se_alloc k : malloc_ok k = true;
  se_open : 0 < sockfd conn;
  se_writable : writable (sock conn);
  se_connect k : fits (connect_headers (clock k));
  se_info : receivable clock fi di;
  se_text : NUL ∈ di;
  se_replies : Forall (good_reply clock) rs;
  se_count : List.length rs = n;
  se_stream : rx (sock conn) = wire_frame fi di ++ (rs ≫= wire_of) ++ more;
}.

Definition connect_bytes (k : nat) : bytes :=
  wire_frame (connect_frame (clock k)) (chars "BPSP Tools.").

Definition sub_fit (topics : list string) : Prop :=
  Forall (fun topic => ∀ k, fits (sub_headers (clock k) topic "_99")) topics.

(** C19: [bpsp pub topics]: each line that is typed is published to each topic, in the order of the
    lines and of the topics; the line `exit` ends the program, which closes the connection.
    What is behind that line stays unread. *)
Theorem handle_pub_publishes conn fi di rs topics lines stop more rest t fuel :
  session conn fi di rs (List.length lines * List.length topics) rest →
  topics ≠ [] → topics_fit clock topics →
  Forall (fun l => good_line l ∧ is_exit l = false) lines → good_line stop → is_exit stop = true →
  t_in t = typed_lines lines ++ stop ++ NEWLINE :: more → (List.length lines < fuel)%nat →
  ∃ conn', handle_pub big clock get_input fuel (Some conn) topics t
    = Done (Goes (Some conn'),
        set_in (after t (2 + 2 * List.length topics * List.length lines)
          (BrokerSays (str (upto_nul di)) :: (lines ≫= line_shown topics) ++ [Enter])) more)
    ∧ sockfd conn' = 0 ∧ rx (sock conn') = rest
    ∧ tx (sock conn') = tx (sock conn) ++ connect_bytes (t_clock t)
                        ++ line_requests (2 + t_clock t) topics lines.
Proof.
  intros [Hm Ho Hw Hfc Hfi Hnul Hrs Hl Hrx] Htn Hto Hli Hst Hex Hin Hf.
  destruct (connect_run big clock Hm conn fi di t _ Hfc Hfi Hnul Ho Hw Hrx) as (c1 & E1 & T1).
  set (t1 := after t 2 [BrokerSays (str (upto_nul di))]) in *.
  destruct (pub_loop_lines topics lines (fuel - List.length lines) rs c1 frame_zero frame_zero
    new_buffer t1 (stop ++ NEWLINE :: more) rest) as (c2 & fo & g & b & E2 & Hb & T2);
    [done..|by eapply trades_fd|by eapply trades_writable|apply new_buffer_ok
    |by eapply trades_rest|done|].
  unfold handle_pub. destruct topics as [|topic topics]; [done|]. rewrite E1.
  cbn [mbind exec_bind]. unfold frame__new, frame__alloc. rewrite Hm.
  replace fuel with (List.length lines + (fuel - List.length lines))%nat by lia. rewrite E2.
  replace (fuel - List.length lines)%nat with (S (fuel - List.length lines - 1)) by lia.
  cbn [pub_loop]. rewrite decide_False by auto.
  set (t2 := set_in _ _).
  change (get_input b MAX_BUFFER t2) with (get_input_loop (S (List.length (t_in t2))) b MAX_BUFFER t2).
  destruct (get_input_loop_line (List.length (t_in t2)) b MAX_BUFFER t2 stop more)
    as (tail & E3 & _); [done|apply Hst|apply Hst|split; [apply Hst|unfold MAX_BUFFER, buffer_ok in *; lia]|].
  rewrite E3. cbn [mbind exec_bind Z.ltb Z.compare]. rewrite cells_cstr_app by apply Hst.
  cbn [mbind exec_bind]. unfold is_exit in Hex. rewrite Hex. cbn [mbind exec_bind mret exec_ret].
  destruct (trades_trans _ _ _ _ _ _ _ T1 T2) as (s & -> & R & T & _).
  eexists. split; [|split_and!].
  - unfold _close, net__close, connection__close. cbn [snd]. do 2 f_equal.
    subst t2 t1. unfold set_in, say, after. cbn [t_clock t_rand t_in t_out].
    f_equal; [lia|]. rewrite <- !app_assoc. done.
  - done.
  - cbn [sock]. rewrite Hrx, <- app_assoc in R. by apply app_inv_head, app_inv_head in R.
  - cbn [sock set_sock]. rewrite T, (Nat.add_comm 2). reflexivity.
Qed.

Lemma handle_sub_started conn fi di rs topics more t fuel :
  session conn fi di rs (List.length topics) more → topics ≠ [] → sub_fit topics →
  ∃ conn' g, handle_sub big clock fuel (Some conn) topics t
    = ('(conn, t) ← sub_loop big clock fuel conn' (Some g) new_buffer
          (after t (2 + 2 * List.length topics)
             (BrokerSays (str (upto_nul di)) :: (Subscribing <$> topics)));
       mret (Goes (snd (_close conn)), t))
    ∧ 0 < sockfd conn' ∧ rx (sock conn') = more
    ∧ tx (sock conn') = tx (sock conn) ++ connect_bytes (t_clock t)
                        ++ sub_requests clock (2 + t_clock t) topics.
Proof.
  intros [Hm Ho Hw Hfc Hfi Hnul Hrs Hl Hrx] Htn Hto.
  destruct (connect_run big clock Hm conn fi di t _ Hfc Hfi Hnul Ho Hw Hrx) as (c1 & E1 & T1).
  set (t1 := after t 2 [BrokerSays (str (upto_nul di))]) in *.
  destruct (sub_topics_run big clock Hm topics rs c1 frame_zero frame_zero t1 more)
    as (c2 & fo & g & E2 & T2);
    [done..|by eapply trades_fd|by eapply trades_writable|by eapply trades_rest|].
  exists c2, g. split; [|split_and!].
  - unfold handle_sub. destruct topics as [|topic topics]; [done|]. rewrite E1.
    cbn [mbind exec_bind]. unfold frame__new, frame__alloc. rewrite Hm, E2.
    cbn [mbind exec_bind]. rewrite decide_True by done. subst t1. rewrite after_after. done.
  - eapply trades_fd; [exact T2|]. by eapply trades_fd.
  - eapply trades_rest; [exact T2|]. by eapply trades_rest.
  - destruct (trades_trans _ _ _ _ _ _ _ T1 T2) as (s & -> & _ & T & _). cbn [sock set_sock].
    rewrite T, (Nat.add_comm 2). reflexivity.
Qed.

(** C20: [bpsp sub topics]: one request for each topic, then every message that arrives is printed,
    once and in its order, with its sender, its topic, its size and its text; when the stream
    ends, at the end of a message or in the middle of one, the program closes the connection. *)
Theorem handle_sub_prints conn fi di rs topics ms p q f data t fuel :
  session conn fi di rs (List.length topics) ((ms ≫= wire_of) ++ p) →
  topics ≠ [] → sub_fit topics → Forall (fits_buffer clock) ms →
  receivable clock f data → p ++ q = wire_frame f data → q ≠ [] → (List.length ms < fuel)%nat →
  ∃ conn' t', handle_sub big clock fuel (Some conn) topics t = Done (Goes (Some conn'), t')
    ∧ t_out t' = t_out t ++ BrokerSays (str (upto_nul di))
                   :: (Subscribing <$> topics) ++ (shown <$> ms)
    ∧ sockfd conn' = 0.
Proof.
  intros Hse Htn Hto Hms Hr Hpq Hq Hf. pose proof (se_alloc _ _ _ _ _ _ Hse) as Hm.
  destruct (handle_sub_started conn fi di rs topics _ t fuel Hse Htn Hto)
    as (c1 & g & E1 & Ho1 & Hrx1 & _).
  destruct (sub_loop_messages big clock Hm ms (fuel - List.length ms) c1 g new_buffer
    (after t (2 + 2 * List.length topics) (BrokerSays (str (upto_nul di)) :: (Subscribing <$> topics))) p)
    as (c2 & g2 & b2 & E2 & _ & T2); [done|done|apply new_buffer_ok|done|].
  rewrite E1. replace fuel with (List.length ms + (fuel - List.length ms))%nat by lia. rewrite E2.
  replace (fuel - List.length ms)%nat with (S (fuel - List.length ms - 1)) by lia.
  destruct (sub_loop_end big clock Hm (fuel - List.length ms - 1) c2 g2 b2
    (after (after t (2 + 2 * List.length topics)
       (BrokerSays (str (upto_nul di)) :: (Subscribing <$> topics))) (List.length ms) (shown <$> ms))
    f data p q) as (c3 & E3); [done|by eapply trades_fd|done|done|by eapply trades_rest|].
  rewrite E3. cbn [mbind exec_bind mret exec_ret]. eexists _, _. split_and!; [done| |done].
  cbn. by rewrite <- app_assoc.
Qed.

(** C38: A message of 65536 bytes or more, which the protocol allows, is copied over the end of the
    buffer on the stack of [handle_sub]. *)
Theorem handle_sub_overflow conn fi di rs topics ms f data rest t fuel :
  session conn fi di rs (List.length topics) ((ms ≫= wire_of) ++ wire_frame f data ++ rest) →
  topics ≠ [] → sub_fit topics → Forall (fits_buffer clock) ms →
  receivable clock f data → 65536 ≤ Z.of_nat (List.length data) → (List.length ms < fuel)%nat →
  handle_sub big clock fuel (Some conn) topics t = Undef.
Proof.
  intros Hse Htn Hto Hms Hr Hd Hf. pose proof (se_alloc _ _ _ _ _ _ Hse) as Hm.
  destruct (handle_sub_started conn fi di rs topics _ t fuel Hse Htn Hto)
    as (c1 & g & E1 & Ho1 & Hrx1 & _).
  destruct (sub_loop_messages big clock Hm ms (fuel - List.length ms) c1 g new_buffer
    (after t (2 + 2 * List.length topics) (BrokerSays (str (upto_nul di)) :: (Subscribing <$> topics)))
    (wire_frame f data ++ rest))
    as (c2 & g2 & b2 & E2 & Hb2 & T2); [done|done|apply new_buffer_ok|done|].
  rewrite E1. replace fuel with (List.length ms + (fuel - List.length ms))%nat by lia. rewrite E2.
  replace (fuel - List.length ms)%nat with (S (fuel - List.length ms - 1)) by lia.
  by rewrite (sub_loop_overflow big clock Hm _ c2 g2 b2 _ f data rest);
    [|done|by eapply trades_fd|done|by eapply trades_rest|done].
Qed.
End Tools.

(** ** The terminal and the command line *)

(** [get_input] ends on every input, without touching anything but its buffer: it reports that
    there is no line left, or leaves in the buffer a line as a C string, without its newline. *)
Theorem get_input_total buf t :
  MAX_BUFFER ≤ Z.of_nat (List.length buf) →
  ∃ r buf' t', get_input buf MAX_BUFFER t = Done (r, buf', t')
    ∧ List.length buf' = List.length buf ∧ typed t t'
    ∧ (r = -1 ∧ t_in t' = []
       ∨ r = 0 ∧ ∃ line tail, buf' = (Some <$> line) ++ Some NUL :: tail ∧ no_nul line
                 ∧ NEWLINE ∉ line ∧ (List.length (t_in t') < List.length (t_in t))%nat).
Proof. intros Hb. apply get_input_loop_total; [lia|]. unfold MAX_BUFFER in *. lia. Qed.

Lemma parse_options_inv opts cfg cfg' :
  parse_options opts cfg = Done (Some cfg') →
  (∀ c a, (c, a) ∈ opts → c ∈ ["h"; "p"; "l"; "t"]%char)
  ∧ (1023 ≤ port cfg ≤ 65535 → 1023 ≤ port cfg' ≤ 65535).
Proof.
  revert cfg. induction opts as [|[c a] opts IH]; intros cfg; cbn.
  { intros [= <-]. split; [by intros ? ? ?%elem_of_nil|done]. }
  assert (∀ cfg0, parse_options opts cfg0 = Done (Some cfg') →
    c ∈ ["h"; "p"; "l"; "t"]%char → (1023 ≤ port cfg ≤ 65535 → 1023 ≤ port cfg0 ≤ 65535) →
    (∀ c0 a0, (c0, a0) ∈ (c, a) :: opts → c0 ∈ ["h"; "p"; "l"; "t"]%char)
    ∧ (1023 ≤ port cfg ≤ 65535 → 1023 ≤ port cfg' ≤ 65535)) as Hstep.
  { intros cfg0 E Hc Hp. destruct (IH _ E) as [H1 H2]. split; [|auto].
    intros c0 a0 [[= -> ->]|Hin]%elem_of_cons; [done|by eapply H1]. }
  destruct (decide (c = "h"%char)) as [->|].
  { intros E. exec_inv. eapply Hstep; [eassumption|set_solver|done]. }
  destruct (decide (c = "p"%char)) as [->|].
  { intros E. apply exec_bind_done in E as (s & Es & E). apply exec_bind_done in E as (p & Ep & E).
    destruct (port_ok p) eqn:Hp; [|done]. eapply Hstep; [exact E|set_solver|].
    intros _. cbn. unfold port_ok in Hp. apply negb_true_iff, orb_false_iff in Hp as [H1 H2].
    apply Z.ltb_ge in H1, H2. lia. }
  destruct (decide (c = "l"%char)) as [->|].
  { intros E. eapply Hstep; [exact E|set_solver|done]. }
  destruct (decide (c = "t"%char)) as [->|]; [|done].
  intros E. eapply Hstep; [exact E|set_solver|done].
Qed.

(** When the command line is accepted, the port is between 1023 and 65535 (and so the
    conversion to 16 bits changes nothing), there was no option but -h, -p, -l and -t (so -v
    always ends in the usage text), and the command and its arguments are what stands behind
    the options. *)
Theorem parse_args_accepts opts rest cfg name argv :
  parse_args opts rest = Done (Some (cfg, name, argv)) →
  1023 ≤ port cfg ≤ 65535 ∧ u16 (port cfg) = port cfg
  ∧ (∀ c a, (c, a) ∈ opts → c ∈ ["h"; "p"; "l"; "t"]%char) ∧ rest = name :: argv.
Proof.
  unfold parse_args. intros E. apply exec_bind_done in E as ([cfg0|] & E0 & E); [|done].
  destruct rest as [|name0 argv0]; [done|]. injection E as <- <- <-.
  destruct (parse_options_inv _ _ _ E0) as [Ho Hp]. specialize (Hp ltac:(cbn; lia)).
  split_and!; [lia|lia|apply u16_small; lia|done|done].
Qed.

(** ** Instances *)

#[local] Existing Instance malloc_always.

Definition steady (k : nat) : string := sample_now.

Definition receivable_b (f : bpsp__frame) (data : bytes) : bool :=
  bool_decide (headers_valid (var_headers f)) && (vars_size f =? headers_size (var_headers f))
  && (0 <? opcode f) && (opcode f <? 256) && (0 <=? flag f) && (flag f <? 256)
  && (data_size f =? Z.of_nat (List.length data)) && (data_size f <? 4294967296)
  && (headers_size (headers_after (var_headers f) "x-time" sample_now) <? 65536).

Lemma receivable_b_ok f data : receivable_b f data = true → receivable steady f data.
Proof. unfold receivable_b. intros H. bool_facts. by split. Qed.

(** The greeting of a broker, and its replies to two requests. *)
Definition greeting : bytes := chars "1.0.0bpsp" ++ [NUL].
Definition greeting_frame : bpsp__frame := made (opcode_code OP_INFO) 0 [("x-time", sample_now)]%string greeting.
Definition ok_reply : bpsp__frame * bytes :=
  (made (opcode_code OP_OK) 0 [("x-status-code", "200"); ("x-time", sample_now)]%string (chars "OK."),
   chars "OK.").

(** A message with a payload. *)
Definition message (data : bytes) : bpsp__frame * bytes :=
  (made (opcode_code OP_MSG) 0
     [("x-from", "10.0.0.1:4000"); ("x-topic", "home/+/temp"); ("x-time", sample_now)]%string data,
   data).

Definition server_bytes (n : nat) (more : bytes) : bytes :=
  wire_frame greeting_frame greeting ++ (replicate n ok_reply ≫= wire_of) ++ more.

Definition server_conn (bs : bytes) : bpsp__connection script_socket :=
  connection__create 3 ("127.0.0.1"%string, 29010) NET_S_CONNECTED NET_T_ACTIVE
    {| s_rx := bs; rx_cuts := [5%nat; 2%nat]; closing := true; s_tx := []; tx_cuts := [3%nat];
       gone := false |}.

Lemma server_session n more :
  session steady (server_conn (server_bytes n more)) greeting_frame greeting
    (replicate n ok_reply) n more.
Proof.
  split; try done.
  - intros k. apply (bool_decide_unpack _). by vm_compute.
  - apply receivable_b_ok. by vm_compute.
  - apply (bool_decide_unpack _). by vm_compute.
  - apply Forall_replicate. apply receivable_b_ok. by vm_compute.
  - by rewrite length_replicate.
Qed.

Definition terminal (typed : string) : tool :=
  {| t_clock := 0; t_rand := 0; t_in := chars typed; t_out := [] |}.

Definition typed_text : bytes := chars "21.5" ++ [NEWLINE] ++ chars "Exit" ++ [NEWLINE].

Lemma handle_pub_publishes_witness :
  ∃ conn', handle_pub false steady get_input 2 (Some (server_conn (server_bytes 2 []))) ["a"; "b/c"]%string
             (terminal (str typed_text))
    = Done (Goes (Some conn'),
        {| t_clock := 6; t_rand := 0; t_in := [];
           t_out := [BrokerSays "1.0.0bpsp"; Enter; Published 4 "a"; Published 4 "b/c"; Enter] |})
    ∧ sockfd conn' = 0 ∧ rx (sock conn') = []
    ∧ tx (sock conn') = connect_bytes steady 0
                        ++ line_requests steady 2 ["a"; "b/c"]%string [chars "21.5"].
Proof.
  destruct (@handle_pub_publishes script_socket _ _ malloc_always false steady
    (server_conn (server_bytes 2 [])) greeting_frame greeting (replicate 2 ok_reply)
    ["a"; "b/c"]%string [chars "21.5"] (chars "Exit") [] [] (terminal (str typed_text)) 2)
    as (conn' & E & R).
  - exact (server_session 2 []).
  - discriminate.
  - repeat constructor; apply (bool_decide_unpack _); by vm_compute.
  - repeat constructor; by apply (bool_decide_unpack _); vm_compute.
  - split; by apply (bool_decide_unpack _); vm_compute.
  - by vm_compute.
  - by vm_compute.
  - cbn. lia.
  - exists conn'. split; [|exact R]. rewrite E. by vm_compute.
Defined.

Lemma handle_sub_prints_witness :
  ∃ conn' t', handle_sub true steady 9
      (Some (server_conn (server_bytes 1 ([message (chars "21.5"); message (chars "22")] ≫= wire_of))))
      ["home/+/temp"]%string (terminal "") = Done (Goes (Some conn'), t')
    ∧ t_out t' = [BrokerSays "1.0.0bpsp"; Subscribing "home/+/temp";
                  Received "10.0.0.1:4000" "home/+/temp" 4 "21.5";
                  Received "10.0.0.1:4000" "home/+/temp" 2 "22"]
    ∧ sockfd conn' = 0.
Proof.
  destruct (@handle_sub_prints script_socket _ _ malloc_always true steady
    (server_conn (server_bytes 1 ([message (chars "21.5"); message (chars "22")] ≫= wire_of)))
    greeting_frame greeting (replicate 1 ok_reply) ["home/+/temp"]%string
    [message (chars "21.5"); message (chars "22")] [] (wire_of (message [])) (message []).1 []
    (terminal "") 9)
    as (conn' & t' & E & Eo & R).
  - exact (server_session 1 _).
  - discriminate.
  - apply Forall_singleton. intros k. apply (bool_decide_unpack _). by vm_compute.
  - do 2 (apply Forall_cons; split; [split; [apply receivable_b_ok|]; by vm_compute|]). constructor.
  - apply receivable_b_ok. by vm_compute.
  - reflexivity.
  - by vm_compute.
  - cbn. lia.
  - exists conn', t'. split_and!; [exact E| |exact R]. rewrite Eo. by vm_compute.
Defined.

Definition long_data : bytes := replicate (Z.to_nat 65536) "x"%char.

Lemma handle_sub_overflow_witness :
  handle_sub true steady 9 (Some (server_conn (server_bytes 1 (wire_of (message long_data)))))
    ["home/+/temp"]%string (terminal "") = Undef.
Proof.
  apply (@handle_sub_overflow script_socket _ _ malloc_always true steady
    (server_conn (server_bytes 1 (wire_of (message long_data)))) greeting_frame greeting
    (replicate 1 ok_reply) ["home/+/temp"]%string [] (message long_data).1 long_data []
    (terminal "") 9).
  - replace (([] ≫= wire_of) ++ wire_frame (message long_data).1 long_data ++ [])
      with (wire_of (message long_data)) by (by rewrite app_nil_r).
    exact (server_session 1 _).
  - discriminate.
  - apply Forall_singleton. intros k. apply (bool_decide_unpack _). by vm_compute.
  - constructor.
  - apply receivable_b_ok. by vm_compute.
  - by vm_compute.
  - cbn. lia.
Defined.

Lemma get_input_total_witness :
  ∃ r buf' t', get_input new_buffer MAX_BUFFER (terminal (str typed_text)) = Done (r, buf', t')
    ∧ List.length buf' = List.length new_buffer ∧ typed (terminal (str typed_text)) t'
    ∧ (r = -1 ∧ t_in t' = []
       ∨ r = 0 ∧ ∃ line tail, buf' = (Some <$> line) ++ Some NUL :: tail ∧ no_nul line
                 ∧ NEWLINE ∉ line
                 ∧ (List.length (t_in t') < List.length (t_in (terminal (str typed_text))))%nat).
Proof.
  apply (get_input_total new_buffer (terminal (str typed_text))).
  rewrite new_buffer_length. by vm_compute.
Defined.

Definition sample_cfg : config :=
  {| host := "10.0.0.7"; port := 4000; log__enable := true; log__timestamps := false |}.

Lemma parse_args_accepts_witness :
  1023 ≤ port sample_cfg ≤ 65535 ∧ u16 (port sample_cfg) = port sample_cfg
  ∧ (∀ c a, (c, a) ∈ [("h", Some "10.0.0.7"%string); ("l", None); ("p", Some " 4000"%string)]%char →
       c ∈ ["h"; "p"; "l"; "t"]%char)
  ∧ ["sub"; "a/b"]%string = "sub"%string :: ["a/b"]%string.
Proof.
  apply (parse_args_accepts
    [("h", Some "10.0.0.7"%string); ("l", None); ("p", Some " 4000"%string)]%char
    ["sub"; "a/b"]%string sample_cfg "sub" ["a/b"]%string).
  vm_compute. reflexivity.
Defined.
