(* ===== verification/EndToEnd.v ===== *)
(** * From a publication to the terminal of a subscriber

    The broker handles a publication; the bytes that a subscriber receives are read by
    `bpsp sub` on another host. *)
From S2P Require Import Prelude Status Datatype Uthash Mem Net Frame FrameFacts HeaderCodec.
From S2P Require Import FrameOp FrameRw FrameProps PubHeaders Transfer Subscriber Topic TopicTokens TopicShape.
From S2P Require Import TopicSpec TopicFind TopicService Broker Client BrokerOps Handle BrokerSpec.
From S2P Require Import ClientSpec Delivery Publish Requests Samples Cli CliFacts CliFrames CliRuns.
Local Open Scope Z_scope.

(** ** The headers of a message *)

Lemma headers_after_Forall (P : string * header_value → Prop) h k v :
  Forall P h → P (k, Str v) → strlen v ≠ 0 → Forall P (headers_after h k v).
Proof.
  intros Hh Hp Hv. unfold headers_after. destruct (hash_find k h).
  - rewrite Forall_forall in Hh |- *. intros [k' v'] Hin. clear -Hh Hp Hin.
    revert Hh Hin. induction h as [|[k0 v0] h IH]; cbn; intros Hh Hin; [by apply elem_of_nil in Hin|].
    destruct (hash_find k h).
    + apply elem_of_cons in Hin as [[= -> ->]|Hin]; [apply Hh; left|].
      apply IH; [|done]. intros x Hx. apply Hh. by right.
    + case_decide; [subst k0|].
      * apply elem_of_cons in Hin as [[= -> ->]|Hin]; [done|]. apply Hh. by right.
      * apply elem_of_cons in Hin as [[= -> ->]|Hin]; [apply Hh; left|]. apply Hh. by right.
  - unfold hash_add. apply Forall_app. split; [done|].
    rewrite (proj2 (Z.eqb_neq _ 0) Hv). by constructor.
Qed.

Lemma set_slots_Forall (P : string * header_value → Prop) h l :
  Forall P h → Forall (fun e => P (e.1, Str e.2) ∧ strlen e.2 ≠ 0) l → Forall P (set_slots h l).
Proof.
  revert h. induction l as [|[k v] l IH]; intros h Hh Hl; [done|].
  apply Forall_cons in Hl as [[Hp Hv] Hl]. apply IH; [|done]. by apply headers_after_Forall.
Qed.

(** The four headers of a delivery take no more than their room. *)
Lemma slots_slack (L : Z) h0 topic from tag filter :
  NoDup h0.*1 → 0 ≤ L → strlen filter ≤ L → strlen tag ≤ L →
  slack (slot_room L topic from) h0 (set_slots h0 (slots tag topic filter from)).
Proof.
  intros Hd HL Hf Ht. pose proof (slot_room_nodup L topic from) as HK.
  pose proof (strlen_nonneg topic). pose proof (strlen_nonneg from).
  unfold slots, set_slots. cbn [foldl fst snd].
  apply (slack_set _ _ _ _ _ (11 + strlen from) HK); [set_solver|change (strlen "x-from") with 6; lia|].
  apply (slack_set _ _ _ _ _ (12 + L) HK); [set_solver|change (strlen "x-topic") with 7; lia|].
  apply (slack_set _ _ _ _ _ (19 + strlen topic) HK);
    [set_solver|change (strlen "x-origin-topic") with 14; lia|].
  apply (slack_set _ _ _ _ _ (14 + L) HK); [set_solver|change (strlen "x-sub-tag") with 9; lia|].
  apply slack_refl; [done|]. intros k a. unfold slot_room.
  rewrite !elem_of_cons, elem_of_nil. intros Hk. destruct_or! Hk; simplify_eq; lia.
Qed.

Section EndToEnd.
Context {Sk : Type} `{SocketLaws Sk} `{Malloc}.
Variable big : bool.
Local Notation broker_t := (bpsp__broker Sk).
Implicit Types (b : broker_t).

(** A text that a header can carry. *)
Definition carried (s : string) : Prop := s ≠ ""%string ∧ wire_safe s.

(** The texts of a message can be carried, and its payload fits into the tool's buffer. *)
Record printable (now : string) (clock : nat → string) b (src : bpsp__frame)
    (topic from : string) (data : bytes) : Prop := {
  pr_now : carried now;
  pr_clock k : carried (clock k) ∧ strlen (clock k) = strlen now;
  pr_topic : carried topic;
  pr_from : carried from;
  pr_src : headers_valid (var_headers src);
  pr_subs s sub : sub_heap (topic_tree b) !! s = Some sub →
                  carried (filter_of sub) ∧ carried (tag_of sub);
  pr_data : Z.of_nat (List.length data) < 65536;
}.

Lemma carried_header k v : wire_safe k → k ≠ ""%string → carried v →
  (wire_safe_header (k, Str v) ∧ full_header (k, Str v)) ∧ strlen v ≠ 0.
Proof. intros Hk Hne [Hv Hw]. by rewrite strlen_zero. Qed.

Lemma msg_headers_valid now (L : Z) src topic from data tag filter :
  publishable now L src topic from data → headers_valid (var_headers src) →
  carried now → carried topic → carried from → carried tag → carried filter →
  strlen filter ≤ L → strlen tag ≤ L →
  let hs := set_slots (msg_base now src) (slots tag topic filter from) in
  headers_valid hs ∧ hash_find "x-time"%string hs = Some (Str now)
  ∧ hash_find "x-from"%string hs = Some (Str from) ∧ hash_find "x-topic"%string hs = Some (Str filter).
Proof.
  intros Hpb Hv Hn Ht Hf Hg Hfi HLf HLt hs. pose proof Hpb as [HL Hwf _ _ _ _ _ _ Hs].
  assert (Forall (fun e => strlen e.2 ≠ 0) (slots tag topic filter from)) as Hnz.
  { repeat constructor; cbn; rewrite strlen_zero; by apply Hg || apply Ht || apply Hfi || apply Hf. }
  assert (hash_find "x-time"%string hs = Some (Str now)) as Htime.
  { unfold hs. rewrite set_slots_find by (done || apply slots_nodup).
    change (hash_find "x-time"%string (slots tag topic filter from)) with (@None string).
    unfold msg_base. rewrite headers_after_find, decide_True by done.
    destruct Hn as [Hn _]. by rewrite (proj2 (Z.eqb_neq _ 0)) by (by rewrite strlen_zero). }
  split_and!; [|done|unfold hs; by rewrite set_slots_find by (done || apply slots_nodup)..].
  assert (Forall (fun e => wire_safe_header e ∧ full_header e) hs) as Hall.
  { unfold hs, msg_base. apply set_slots_Forall.
    - apply headers_after_Forall.
      + apply Forall_and. split; apply Hv.
      + by apply carried_header; [apply (bool_decide_unpack _); by vm_compute|..].
      + rewrite strlen_zero. by apply Hn.
    - unfold slots. do 4 (apply Forall_cons; split;
        [apply carried_header; [apply (bool_decide_unpack _); by vm_compute|done|done]|]). done. }
  apply Forall_and in Hall as [Hsafe Hfull].
  split; [apply set_slots_nodup; by apply msg_base_nodup|done|done|].
  assert (slack (slot_room L topic from) (msg_base now src) hs) as Hsl
    by (apply slots_slack; [by apply msg_base_nodup|done..]).
  pose proof (slack_size _ _ _ (slot_room_nodup _ _ _) (msg_base_nodup now src Hwf) Hsl).
  rewrite slot_room_allowance in *. lia.
Qed.

Lemma msg_fits now clock (L : Z) b src topic from data s sub :
  printable now clock b src topic from data → publishable now L src topic from data →
  subs_bounded L b → sub_heap (topic_tree b) !! s = Some sub →
  let m := (msg_frame now src topic from (tag_of sub) (filter_of sub), data) in
  fits_buffer clock m
  ∧ shown m = Received from (filter_of sub) (Z.of_nat (List.length data)) (str (upto_nul data)).
Proof.
  intros [Hn Hck Ht Hf Hv Hsubs Hd] Hpb HL Hs m.
  destruct (Hsubs _ _ Hs) as [Hfi Htag]. destruct (HL _ _ Hs) as [HLf HLt].
  destruct (msg_headers_valid now L src topic from data (tag_of sub) (filter_of sub))
    as (Hhv & Htime & Hfrom & Htop); [done..|lia|].
  pose proof Hpb as [_ [Hwh Hwp Hwo Hwl] _ _ _ Hdata _ _ _].
  assert (payload_size src = Z.of_nat (List.length data)) as Hps by (by apply payload_is_size).
  unfold m, msg_frame. clear m.
  set (hs := set_slots (msg_base now src) (slots (tag_of sub) topic (filter_of sub) from)) in *.
  clearbody hs. split; [split; [split|]|]; cbn; try done; try lia.
  - intros k. destruct (Hck k) as [Hc Hlen]. rewrite headers_after_size; [|apply Hhv|].
    2:{ by apply full_headers_all_str, Hhv. }
    rewrite Htime. cbn [value_len]. pose proof (hv_size _ Hhv). rewrite Hlen. lia.
  - unfold shown, shown_header. cbn. by rewrite Hfrom, Htop, Hps.
Qed.

Lemma deliveries_to now src topic from data c echo found d :
  d ≠ c →
  deliveries now src topic from data c echo found d
  = ((fun p => (msg_frame now src topic from (tag_of p) (filter_of p), data))
       <$> filter (fun p => client p = d) found) ≫= wire_of.
Proof.
  intros Hd. induction found as [|p found IH]; [done|].
  change (deliveries now src topic from data c echo (p :: found) d)
    with ((if bool_decide (client p = d) && (echo || negb (bool_decide (d = c)))
           then wire_frame (msg_frame now src topic from (tag_of p) (filter_of p)) data else [])
          ++ deliveries now src topic from data c echo found d).
  rewrite IH, (bool_decide_eq_false_2 (d = c)), orb_true_r, andb_true_r by done.
  rewrite filter_cons. case_bool_decide; [by rewrite decide_True|by rewrite decide_False].
Qed.

Lemma found_at (h : positive → option bpsp__subscriber)
    (found : list bpsp__subscriber) (locs : list positive) p :
  Some <$> found = h <$> locs → p ∈ found → ∃ s, h s = Some p.
Proof.
  intros E Hp. apply (list_elem_of_fmap_2 Some) in Hp. rewrite E in Hp.
  apply list_elem_of_fmap in Hp as (s & Es & _). by exists s.
Qed.

(** C1: A publication reaches the terminals of its subscribers.  The broker handles the PUB of the
    client [c]; what any other client [d] receives for it, read by the loop of `bpsp sub` on a
    host of either byte order and however the stream is cut, makes that loop print one line
    for each subscription of [d] that matches the topic and no other: the address of the
    publisher, the filter, the size of the payload, and its text up to the first NUL. *)
Theorem publication_is_printed {Tk} `{SocketLaws Tk} (big' : bool) clock now b c x n ip port
    topic toks data (L : Z) d :
  let src := in_frame x in
  let from := addr_text ip port in
  (∀ k, malloc_ok k = true) → broker_ok b → all_writable b →
  client_heap b !! c = Some x → c_conn x = Some n → addr n = (ip, port) →
  publishable now L src topic from data → subs_bounded L b →
  (flag__is_set (flag src) FL_ACK = true → answerable now src "200") →
  topic_tokens topic = Some toks → printable now clock b src topic from data →
  d ≠ c → is_Some (client_heap b !! d) →
  ∃ subs locs b' y n1 n2 o, handle__PUB big now b c = Done (BPSP_OK, b')
    ∧ Some <$> subs = (fun s => sub_heap (topic_tree b) !! s) <$> locs ∧ NoDup locs
    ∧ (∀ s, s ∈ locs ↔ subscribed b toks s ∧ client <$> sub_heap (topic_tree b) !! s = Some d)
    ∧ client_heap b !! d = Some y ∧ c_conn y = Some n1
    ∧ (client_heap b' !! d ≫= c_conn) = Some n2 ∧ tx (sock n2) = tx (sock n1) ++ o
    ∧ ∀ (conn : bpsp__connection Tk) g buffer t rest fuel,
        0 < sockfd conn → buffer_ok buffer → rx (sock conn) = o ++ rest →
        ∃ conn' g' buffer',
          sub_loop big' clock (List.length subs + fuel) conn (Some g) buffer t
          = sub_loop big' clock fuel conn' (Some g') buffer'
              (after t (List.length subs)
                 ((fun p => Received from (filter_of p) (Z.of_nat (List.length data))
                              (str (upto_nul data))) <$> subs))
          ∧ rx (sock conn') = rest.
Proof.
  intros src from Hm Hok Hw Hc Hcn Ha Hp HL Hack Ht Hpr Hd [y Hy].
  assert (now ≠ ""%string) as Hnow by apply Hpr.
  destruct (handle__PUB_exact big now b c x n ip port topic toks src data L)
    as (found & locs & b' & E & Hf & Hnd & Hl & He); try done.
  destruct (emits_fwd _ _ _ _ _ He Hy) as (y' & Hy' & Hh).
  destruct (hd_conn _ _ _ Hh) as (n1 & n2 & E1 & E2 & (s2 & -> & _ & Htx & _)).
  set (ms := (fun p => (msg_frame now src topic from (tag_of p) (filter_of p), data))
               <$> filter (fun p => client p = d) found).
  exists (filter (fun p => client p = d) found).
  exists (filter (fun s => client <$> sub_heap (topic_tree b) !! s = Some d) locs).
  exists b', y, n1, (set_sock n1 s2), (ms ≫= wire_of).
  split_and!; [done| |by apply NoDup_filter| |done|done|by rewrite Hy'| |].
  - by apply found_of.
  - intros s. rewrite list_elem_of_filter, <- Hl. tauto.
  - cbn [sock set_sock]. rewrite Htx, deliveries_to by done. fold ms. unfold pub_reply.
    case_match; [|by unfold to_nobody; rewrite app_nil_r].
    unfold to_client. rewrite decide_False by done. by rewrite app_nil_r.
  - intros conn g buffer t rest fuel Ho Hb Hrx.
    assert (∀ p, p ∈ filter (fun p => client p = d) found → ∃ s, sub_heap (topic_tree b) !! s = Some p)
      as Hat by (intros p [_ Hin]%list_elem_of_filter; by eapply found_at).
    assert (Forall (fits_buffer clock) ms) as Hms.
    { unfold ms. apply Forall_fmap, Forall_forall. intros p (s & Hs)%Hat.
      by apply (msg_fits now clock L b src topic from data s p). }
    destruct (sub_loop_messages big' clock Hm ms fuel conn g buffer t rest)
      as (conn' & g' & buf' & E3 & _ & T); [done..|].
    exists conn', g', buf'. split; [|by eapply trades_rest].
    unfold ms in E3. rewrite length_fmap in E3. rewrite E3. f_equal. unfold after. f_equal. f_equal.
    rewrite <- list_fmap_compose. apply list_fmap_ext. intros i p Hi%list_elem_of_lookup_2.
    destruct (Hat p Hi) as (s & Hs). by apply (msg_fits now clock L b src topic from data s p).
Qed.
End EndToEnd.

(** ** An instance *)

#[local] Existing Instance malloc_always.

#[local] Instance carried_dec s : Decision (carried s).
Proof. unfold carried. apply _. Defined.

(** In the sample broker, client 1 publishes and client 2 reads. *)
Lemma sample_printable :
  printable sample_now (fun _ => sample_now) sample_pub_read (in_frame (client_of sample_pub_read 1))
    "home/hall/temp" (addr_text "10.0.0.1" 4000) (chars "21.5").
Proof.
  split.
  - apply (bool_decide_unpack _). by vm_compute.
  - intros _. split; [|done]. apply (bool_decide_unpack _). by vm_compute.
  - apply (bool_decide_unpack _). by vm_compute.
  - apply (bool_decide_unpack _). by vm_compute.
  - apply (bool_decide_unpack _). by vm_compute.
  - intros s sub Hs%elem_of_map_to_list.
    assert (Forall (fun e => carried (filter_of e.2) ∧ carried (tag_of e.2))
              (map_to_list (sub_heap (topic_tree sample_pub_read)))) as Hall
      by (apply (bool_decide_unpack _); by vm_compute).
    rewrite Forall_forall in Hall. apply (Hall _ Hs).
  - by vm_compute.
Qed.

Lemma publication_is_printed_witness :
  ∃ subs b' y n1 n2 o, handle__PUB false sample_now sample_pub_read 1 = Done (BPSP_OK, b')
    ∧ client_heap sample_pub_read !! 2%positive = Some y ∧ c_conn y = Some n1
    ∧ (client_heap b' !! 2%positive ≫= c_conn) = Some n2 ∧ tx (sock n2) = tx (sock n1) ++ o
    ∧ ∀ (conn : bpsp__connection script_socket) g buffer t rest fuel,
        0 < sockfd conn → buffer_ok buffer → rx (sock conn) = o ++ rest →
        ∃ conn' g' buffer',
          sub_loop true (fun _ => sample_now) (List.length subs + fuel) conn (Some g) buffer t
          = sub_loop true (fun _ => sample_now) fuel conn' (Some g') buffer'
              (after t (List.length subs)
                 ((fun p => Received (addr_text "10.0.0.1" 4000) (filter_of p)
                              (Z.of_nat (List.length (chars "21.5")))
                              (str (upto_nul (chars "21.5")))) <$> subs))
          ∧ rx (sock conn') = rest.
Proof.
  assert (∃ n, c_conn (client_of sample_pub_read 1) = Some n
               ∧ addr n = ("10.0.0.1"%string, 4000)) as (n & En & Ea)
    by (vm_compute; eexists; split; reflexivity).
  destruct (@publication_is_printed script_socket _ _ malloc_always false script_socket _ _ true
    (fun _ => sample_now) sample_now sample_pub_read 1 (client_of sample_pub_read 1) n
    "10.0.0.1" 4000 "home/hall/temp" ["home"; "hall"; "temp"]%string (chars "21.5") 64 2)
    as (subs & locs & b' & y & n1 & n2 & o & E & _ & _ & _ & Hy & E1 & E2 & Et & R).
  - reflexivity.
  - apply reached_ok, sample_pub_read_reached.
  - apply writable_b_ok. vm_compute. reflexivity.
  - apply client_of_eq. vm_compute. by eexists.
  - exact En.
  - exact Ea.
  - apply publishable_b_ok. vm_compute. reflexivity.
  - apply subs_bounded_b_ok. vm_compute. reflexivity.
  - intros _. apply answerable_b_ok. vm_compute. reflexivity.
  - vm_compute. reflexivity.
  - apply sample_printable.
  - discriminate.
  - vm_compute. by eexists.
  - exists subs, b', y, n1, n2, o. exact (conj E (conj Hy (conj E1 (conj E2 (conj Et R))))).
Defined.
