(* ===== verification/CClient.v ===== *)
(** * client/c-client/client.c: the stand-alone client

    A copy of the command-line client of [Cli] that makes up its data: [get_input] does not read
    a line but draws a number for the kind of data that was chosen with -t.  [rand k] is the
    [k]-th number of the generator. *)
From S2P Require Import Prelude Text Status Uthash Mem Net Frame FrameOp FrameRw BrokerOps Cli.
Local Open Scope Z_scope.

(** [cfg.type] is NULL without the option -t, and [strcmp] reads it. *)
Definition typeData (type : cstr) : exec Z :=
  type ← deref type;
  if decide (type = "power"%string) then Done 0
  else if decide (type = "temperature"%string) then Done 1
  else if decide (type = "percent"%string) then Done 2
  else if decide (type = "level"%string) then Done 3
  else if decide (type = "status"%string) then Done 4
  else Done (-1).

(** [sprintf(data, "%d", n)] of a number that is not negative. *)
Definition decimal_text (n : Z) : string := decimal 10 n "".

(** What is written into [data], from one number of [rand]. *)
Definition data_text (type r : Z) : option string :=
  if type =? 0 then Some (decimal_text (Z.rem r 8 + 2))
  else if type =? 1 then Some (decimal_text (Z.rem r 100))
  else if type =? 2 then Some (decimal_text (Z.rem r 100))
  else if type =? 3 then Some (decimal_text (Z.rem r 5))
  else if type =? 4 then Some (if Z.rem r 2 =? 0 then "ON"%string else "OFF"%string)
  else None.

(** [strcpy(dst, s)] *)
Definition strcpy (dst : list cell) (s : string) : exec (list cell) :=
  r ← mem__memcpy (Some dst) 0 (Some (Some <$> chars s ++ [NUL])) (strlen s + 1); deref r.

Definition draw (t : tool) : tool :=
  {| t_clock := t_clock t; t_rand := S (t_rand t); t_in := t_in t; t_out := t_out t |}.

Definition get_input (rand : nat → Z) (cfg_type : cstr) (buf : list cell) (buf_size : Z) (t : tool)
  : exec (Z * list cell * tool) :=
  type ← typeData cfg_type;
  match data_text type (rand (t_rand t)) with
  | None => name ← deref cfg_type; mret (-1, buf, say t (NoType name))
  | Some text =>
      data ← strcpy (replicate (Z.to_nat buf_size) None) text;
      s ← cells_cstr data;
      buf ← strcpy buf s;
      mret (0, buf, say (draw t) (DataSend s))
  end.

Section CClient.
Context {Sk : Type} `{Socket Sk} `{Malloc}.
Variable big : bool.
Variable clock : nat → string.
Variable rand : nat → Z.
Local Notation connection := (bpsp__connection Sk).

(** The connection and the two commands are those of the tool. *)
Definition client_connect (connected : option connection) (t : tool)
  : exec (outcome connection * tool) := _connect big clock connected t.

Definition client_pub (cfg_type : cstr) (fuel : nat) (connected : option connection)
    (argv : list string) (t : tool) : exec (outcome (option connection) * tool) :=
  handle_pub big clock (get_input rand cfg_type) fuel connected argv t.

Definition client_sub (fuel : nat) (connected : option connection) (argv : list string) (t : tool)
  : exec (outcome (option connection) * tool) := handle_sub big clock fuel connected argv t.

Definition client_cmd (cfg_type : cstr) (fuel : nat) (connected : option connection)
    (name : string) (argv : list string) (t : tool) : exec (Z * tool) :=
  handle_cmd big clock (get_input rand cfg_type) fuel connected name argv t.
End CClient.

(** ** The command line *)

Record client_config := {
  c_host : string;
  c_type : cstr;
  c_port : Z;
  c_log : bool;
  c_timestamps : bool;
}.

Definition client_default : client_config :=
  {| c_host := "127.0.0.1"; c_type := None; c_port := 29010; c_log := false;
     c_timestamps := false |}.

(** The options in their order; [inl] is the value returned at once. *)
Fixpoint client_options (opts : list (ascii * cstr)) (cfg : client_config)
  : exec (Z + client_config) :=
  match opts with
  | [] => mret (inr cfg)
  | (c, optarg) :: opts =>
      let set h ty p l ts := client_options opts
        {| c_host := h; c_type := ty; c_port := p; c_log := l; c_timestamps := ts |} in
      if decide (c = "h"%char) then
        a ← deref optarg; set a (c_type cfg) (c_port cfg) (c_log cfg) (c_timestamps cfg)
      else if decide (c = "p"%char) then
        a ← deref optarg; p ← atoi a;
        if port_ok p then set (c_host cfg) (c_type cfg) p (c_log cfg) (c_timestamps cfg)
        else mret (inl (-1))
      else if decide (c = "t"%char) then
        a ← deref optarg; set (c_host cfg) (Some a) (c_port cfg) (c_log cfg) (c_timestamps cfg)
      else if decide (c = "e"%char) then mret (inl 1)
      else if decide (c = "l"%char) then
        set (c_host cfg) (c_type cfg) (c_port cfg) true (c_timestamps cfg)
      else if decide (c = "s"%char) then
        set (c_host cfg) (c_type cfg) (c_port cfg) (c_log cfg) true
      else mret (inl (-1))
  end.

Definition client_args (opts : list (ascii * cstr)) (rest : list string)
  : exec (Z + client_config * string * list string) :=
  cfg ← client_options opts client_default;
  match cfg, rest with
  | inl code, _ => mret (inl code)
  | inr cfg, name :: argv => mret (inr (cfg, name, argv))
  | inr _, [] => mret (inl (-1))
  end.

Definition client_main {Sk} `{Socket Sk} `{Malloc} (big : bool) (clock : nat → string)
    (rand : nat → Z) (net_connect : string → Z → option (bpsp__connection Sk)) (fuel : nat)
    (opts : list (ascii * cstr)) (rest : list string) (t : tool) : exec (Z * tool) :=
  r ← client_args opts rest;
  match r with
  | inl code => mret (1, t)
  | inr (cfg, name, argv) =>
      client_cmd big clock rand (c_type cfg) fuel (net_connect (c_host cfg) (u16 (c_port cfg)))
        name argv t
  end.
