(* ===== verification/CClientProps.v ===== *)
(** * client/c-client/client.c: properties of the stand-alone client *)
From S2P Require Import Prelude Text Status Datatype Uthash Mem Net Frame FrameFacts HeaderCodec.
From S2P Require Import FrameOp FrameRw FrameProps Transfer Samples BrokerOps Cli CliFacts CliFrames.
From S2P Require Import CliRuns CliProps CClient.
Local Open Scope Z_scope.

(** The numbers that the code draws for each kind of data. *)
Definition drawn_range (name : string) : option (Z * Z) :=
  if decide (name = "power"%string) then Some (2, 9)
  else if decide (name = "temperature"%string) then Some (0, 99)
  else if decide (name = "percent"%string) then Some (0, 99)
  else if decide (name = "level"%string) then Some (0, 4)
  else None.

(** The ranges that [typeSupport] announces. *)
Definition announced_range (name : string) : option (Z * Z) :=
  if decide (name = "power"%string) then Some (8, 14)
  else if decide (name = "temperature"%string) then Some (0, 100)
  else if decide (name = "percent"%string) then Some (0, 100)
  else if decide (name = "level"%string) then Some (1, 5)
  else None.

(** A text that is made up for this kind of data. *)
Definition measured (name text : string) : Prop :=
  match drawn_range name with
  | Some (lo, hi) => ∃ n, lo ≤ n ≤ hi ∧ text = decimal_text n
  | None => name = "status"%string ∧ (text = "ON"%string ∨ text = "OFF"%string)
  end.

Lemma decimal_text_short n : 0 ≤ n < 100 → strlen (decimal_text n) ≤ 2 ∧ no_nul (chars (decimal_text n)).
Proof.
  intros Hn. unfold decimal_text.
  assert (Forall (fun k => strlen (decimal 10 (Z.of_nat k) "") ≤ 2
            ∧ no_nul (chars (decimal 10 (Z.of_nat k) ""))) (seq 0 100)) as Hall
    by (apply (bool_decide_unpack _); by vm_compute).
  rewrite Forall_forall in Hall. specialize (Hall (Z.to_nat n)). rewrite Z2Nat.id in Hall by lia.
  apply Hall, elem_of_seq. lia.
Qed.

Lemma measured_short name text : measured name text → strlen text ≤ 3 ∧ no_nul (chars text).
Proof.
  unfold measured. destruct (drawn_range name) as [[lo hi]|] eqn:E.
  - intros (n & Hn & ->).
    assert (0 ≤ n < 100) as Hr by (unfold drawn_range in E; repeat case_decide; simplify_eq; lia).
    destruct (decimal_text_short n Hr). split; [lia|done].
  - intros [_ [-> | ->]]; (split; [by vm_compute|apply (bool_decide_unpack _); by vm_compute]).
Qed.

Lemma strcpy_spec dst s :
  strlen s < Z.of_nat (List.length dst) →
  ∃ tail, strcpy dst s = Done ((Some <$> chars s) ++ Some NUL :: tail)
    ∧ List.length ((Some <$> chars s) ++ Some NUL :: tail) = List.length dst.
Proof.
  intros Hl. unfold strcpy. rewrite strlen_chars in *.
  rewrite memcpy_prefix by (rewrite ?length_fmap, ?length_app; cbn [List.length]; lia).
  cbn [mbind exec_bind deref]. rewrite fmap_app, <- app_assoc. cbn [fmap list_fmap app].
  eexists. split; [done|]. rewrite !length_app, !length_fmap. cbn [List.length].
  rewrite length_drop, ?length_app, ?length_fmap. cbn [List.length]. lia.
Qed.

Lemma data_text_measured name r k :
  0 ≤ r → typeData (Some name) = Done k → 0 ≤ k →
  ∃ text, data_text k r = Some text ∧ measured name text.
Proof.
  intros Hr. unfold typeData. cbn [deref mbind exec_bind]. unfold measured, drawn_range.
  repeat case_decide; subst; intros [= <-] Hk; try lia; cbn [data_text Z.eqb Pos.eqb].
  - eexists. split; [done|]. eexists. split; [|done]. pose proof (Z.rem_bound_pos r 8). lia.
  - eexists. split; [done|]. eexists. split; [|done]. pose proof (Z.rem_bound_pos r 100). lia.
  - eexists. split; [done|]. eexists. split; [|done]. pose proof (Z.rem_bound_pos r 100). lia.
  - eexists. split; [done|]. eexists. split; [|done]. pose proof (Z.rem_bound_pos r 5). lia.
  - eexists. split; [done|]. split; [done|]. destruct (_ =? 0); auto.
Qed.

(** The announced ranges are not those that are drawn. *)
Example power_too_small :
  announced_range "power" = Some (8, 14) ∧ data_text 0 0 = Some (decimal_text 2).
Proof. by vm_compute. Qed.
Example level_too_small :
  announced_range "level" = Some (1, 5) ∧ data_text 3 10 = Some (decimal_text 0).
Proof. by vm_compute. Qed.

(** With a kind of data that it knows, [get_input] always succeeds: it draws one number, and
    leaves in the buffer, as a C string, a text of that kind, which it also prints. *)
Theorem get_input_measures rand name k buf t :
  0 ≤ rand (t_rand t) → typeData (Some name) = Done k → 0 ≤ k →
  MAX_BUFFER ≤ Z.of_nat (List.length buf) →
  ∃ text tail, CClient.get_input rand (Some name) buf MAX_BUFFER t
    = Done (0, (Some <$> chars text) ++ Some NUL :: tail, say (draw t) (DataSend text))
    ∧ List.length ((Some <$> chars text) ++ Some NUL :: tail) = List.length buf
    ∧ measured name text.
Proof.
  intros Hr Ht Hk Hb. destruct (data_text_measured name _ k Hr Ht Hk) as (text & E & Hm).
  destruct (measured_short name text Hm) as [Hs Hn]. unfold CClient.get_input. rewrite Ht.
  cbn [mbind exec_bind]. rewrite E. unfold MAX_BUFFER in *.
  destruct (strcpy_spec (replicate (Z.to_nat 65535) None) text) as (tl & -> & _);
    [rewrite length_replicate; lia|].
  cbn [mbind exec_bind]. rewrite cells_cstr_app, str_chars by done. cbn [mbind exec_bind].
  destruct (strcpy_spec buf text) as (tl' & -> & El); [lia|].
  cbn [mbind exec_bind mret exec_ret]. exists text, tl'. by split_and!.
Qed.

(** The client is not told a kind of data unless -t is given: [client pub] without it compares
    a NULL pointer after it has connected. *)
Theorem client_pub_no_type {Sk} `{SocketLaws Sk} `{Malloc} big clock rand
    (conn : bpsp__connection Sk) fi di more topics t fuel :
  session clock conn fi di [] 0 more → topics ≠ [] → (0 < fuel)%nat →
  client_pub big clock rand None fuel (Some conn) topics t = Undef.
Proof.
  intros [Hm Ho Hw Hfc Hfi Hnul _ _ Hrx] Ht Hf.
  destruct (connect_run big clock Hm conn fi di t _ Hfc Hfi Hnul Ho Hw Hrx) as (c1 & E1 & _).
  unfold client_pub, handle_pub. destruct topics; [done|]. rewrite E1. cbn [mbind exec_bind].
  destruct fuel as [|fuel]; [lia|]. cbn [pub_loop]. by rewrite decide_False by auto.
Qed.

(** ** Instances *)

#[local] Existing Instance malloc_always.

Lemma get_input_measures_witness :
  ∃ text tail, CClient.get_input (fun _ => 5) (Some "power"%string) new_buffer MAX_BUFFER (terminal "")
    = Done (0, (Some <$> chars text) ++ Some NUL :: tail, say (draw (terminal "")) (DataSend text))
    ∧ List.length ((Some <$> chars text) ++ Some NUL :: tail) = List.length new_buffer
    ∧ measured "power" text.
Proof.
  apply (get_input_measures (fun _ => 5) "power" 0 new_buffer (terminal "")).
  - lia.
  - reflexivity.
  - lia.
  - rewrite new_buffer_length. by vm_compute.
Defined.

Lemma client_pub_no_type_witness :
  client_pub false steady (fun _ => 0) None 1 (Some (server_conn (server_bytes 0 []))) ["a"]%string
    (terminal "") = Undef.
Proof.
  apply (@client_pub_no_type script_socket _ _ malloc_always false steady (fun _ => 0)
    (server_conn (server_bytes 0 [])) greeting_frame greeting [] ["a"]%string (terminal "") 1).
  - exact (server_session 0 []).
  - discriminate.
  - lia.
Defined.
