(* ===== verification/Server.v ===== *)
(** * server/server.c: the server program

    The command line, the start of the broker, and the loop that accepts clients.  The options
    are what [getopt_long] returns; [net_listen] and the list of accepted connections are the
    results of [net__listen] and [net__accept].  The threads run one after the other here: each
    client is served to its end before the next one is accepted (the theorems of [BrokerProps]
    hold for the interleaving of the frames of all clients). *)
From S2P Require Import Prelude Status Uthash Mem Net Frame FrameOp FrameRw Subscriber Topic.
From S2P Require Import Broker Client BrokerOps Handle Cli.
Local Open Scope Z_scope.

(** A long option that only sets a flag of the log ([case 0]), or an option letter. *)
Inductive log_flag := LogSilent | LogTimestamps | LogStackTrace | LogFrame.
Inductive server_option :=
  | FlagOption (f : log_flag)
  | LetterOption (c : ascii) (optarg : cstr).

Record server_config := { address : string; s_port : Z }.

Definition DEFAULT_PORT : Z := 29010.
Definition DEFAULT_ADDR : string := "0.0.0.0".

(** [inl code]: the value returned when there is nothing to run. *)
Fixpoint server_options (opts : list server_option) (cfg : server_config)
  : exec (Z + server_config) :=
  match opts with
  | [] => mret (inr cfg)
  | FlagOption _ :: opts => server_options opts cfg
  | LetterOption c optarg :: opts =>
      if decide (c = "a"%char) then
        a ← deref optarg; server_options opts {| address := a; s_port := s_port cfg |}
      else if decide (c = "p"%char) then
        a ← deref optarg; p ← atoi a;
        if port_ok p then server_options opts {| address := address cfg; s_port := p |}
        else mret (inl (-1))
      else if decide (c = "v"%char) then mret (inl 1)
      else mret (inl (-1))
  end.

Definition server_args (opts : list server_option) : exec (Z + server_config) :=
  server_options opts {| address := DEFAULT_ADDR; s_port := DEFAULT_PORT |}.

Section Server.
Context {Sk : Type} `{Socket Sk} `{Malloc}.
Variable big : bool.
Variable now : string.
Variable rand : nat → Z.
Local Notation connection := (bpsp__connection Sk).
Local Notation broker_t := (bpsp__broker Sk).

(** The thread is started with whatever [broker__accept] returns; it reads
    [client->broker] first. *)
Definition serve_accepted (fuel : nat) (b : broker_t) (c : option positive) : exec broker_t :=
  c ← deref c; server__handle_client big now fuel b c.

Fixpoint server__loop (fuel : nat) (b : broker_t) (accepted : list (option connection))
  : exec broker_t :=
  match accepted with
  | [] => mret b
  | conn :: accepted =>
      '(c, b) ← broker__accept rand fuel b conn;
      b ← serve_accepted fuel b c;
      server__loop fuel b accepted
  end.

(** The exit code, or the broker while the loop runs. *)
Definition server_main (fuel : nat) (mutex_ok rwlock_ok : bool)
    (net_listen : string → Z → option connection) (opts : list server_option)
    (accepted : list (option connection)) : exec (Z + broker_t) :=
  r ← server_args opts;
  match r with
  | inl code => mret (inl (if code <? 0 then 1 else 0))
  | inr cfg =>
      match broker__new mutex_ok rwlock_ok (net_listen (address cfg) (u16 (s_port cfg))) with
      | None => mret (inl 1)
      | Some b => b ← server__loop fuel b accepted; mret (inr b)
      end
  end.
End Server.
