(* ===== verification/ServerProps.v ===== *)
(** * server/server.c: properties of the server program *)
From S2P Require Import Prelude Status Datatype Uthash Mem Net Frame FrameFacts HeaderCodec.
From S2P Require Import FrameOp FrameRw FrameProps Transfer Safe Subscriber Topic TopicTokens.
From S2P Require Import TopicShape TopicSpec TopicFind TopicProps TopicService Broker Client.
From S2P Require Import BrokerOps Handle BrokerSpec ClientSpec Delivery Publish Serve Loop Accept.
From S2P Require Import Samples Cli Server.
Local Open Scope Z_scope.

Section ServerProps.
Context {Sk : Type} `{SocketLaws Sk} `{Malloc}.
Variable big : bool.
Variable now : string.
Variable rand : nat → Z.
Local Notation connection := (bpsp__connection Sk).
Local Notation broker_t := (bpsp__broker Sk).
Implicit Types (b : broker_t).







(** When [net__accept] fails once, for lack of descriptors for example, the thread that is
    started reads the broker of a NULL client: the whole server crashes. *)
Theorem server__loop_accept_fails fuel b accepted :
  server__loop big now rand fuel b (None :: accepted) = Undef.
Proof. done. Qed.

Lemma server_options_inv opts cfg cfg' :
  server_options opts cfg = Done (inr cfg') →
  1023 ≤ s_port cfg ≤ 65535 → 1023 ≤ s_port cfg' ≤ 65535.
Proof.
  revert cfg. induction opts as [|[f|c a] opts IH]; intros cfg; cbn.
  - by intros [= <-].
  - apply IH.
  - destruct (decide (c = "a"%char)).
    { intros E ?. apply exec_bind_done in E as (x & _ & E). by apply IH in E. }
    destruct (decide (c = "p"%char)); [|by case_decide].
    intros E _. apply exec_bind_done in E as (x & _ & E). apply exec_bind_done in E as (p & _ & E).
    destruct (port_ok p) eqn:Hp; [|done]. apply IH in E; [done|]. cbn.
    unfold port_ok in Hp. apply negb_true_iff, orb_false_iff in Hp as [Hlo Hhi].
    apply Z.ltb_ge in Hlo, Hhi. lia.
Qed.

(** The server listens on a port between 1023 and 65535, the one of its configuration. *)
Lemma server_args_port opts cfg :
  server_args opts = Done (inr cfg) →
  1023 ≤ s_port cfg ≤ 65535 ∧ u16 (s_port cfg) = s_port cfg.
Proof.
  intros E. pose proof (server_options_inv _ _ _ E ltac:(cbn; unfold DEFAULT_PORT; lia)).
  split; [done|]. apply u16_small. lia.
Qed.
End ServerProps.

(** ** Instances *)

#[local] Existing Instance malloc_always.

