(* ===== verification/NetOpen.v ===== *)
(** * net.c: opening and freeing connections, and the descriptors of the process

    The kernel is the set of open descriptors.  The answers of the system calls are arguments:
    [fd] is what [socket] or [accept] returns (negative on failure), a [bool] is whether the
    call succeeds.  [inet host] is the text of the address that [inet_addr] makes of a host. *)
From S2P Require Import Prelude Status Mem Net.
From stdpp Require Import gmap.
Local Open Scope Z_scope.

Definition sizeof_sockaddr_in : Z := 16.
Definition sizeof_bpsp__connection : Z := 24.

Notation kernel := (gset Z) (only parsing).

(** A descriptor that the kernel hands out is open from then on. *)
Definition opened (fd : Z) (k : kernel) : kernel := if fd <? 0 then k else {[fd]} ∪ k.

Section NetOpen.
Context {Sk : Type} `{Malloc}.
Variable inet : string → string.
Local Notation connection := (bpsp__connection Sk).
Implicit Types (conn : connection) (k : kernel).

Definition connection_alloc (fd : Z) (a : string * Z) (st : net__state) (t : net__type) (s : Sk)
  : option connection :=
  if malloc_ok sizeof_bpsp__connection then Some (connection__create fd a st t s) else None.

Definition connection__init (host : string) (port : Z) (st : net__state) (t : net__type)
    (fd : Z) (s : Sk) k : option connection * kernel :=
  if malloc_ok sizeof_sockaddr_in then
    let k := opened fd k in
    if fd <? 0 then (None, k)
    else (connection_alloc fd (inet host, u16 port) st t s, k)
  else (None, k).

(** The descriptor is closed when it is positive; then the memory is freed. *)
Definition connection__free (conn : option connection) k : kernel :=
  match conn with
  | None => k
  | Some conn => if 0 <? sockfd conn then k ∖ {[sockfd conn]} else k
  end.





(** The copy has the same descriptor. *)
Definition net__dup (conn : option connection) : option connection :=
  match conn with
  | None => None
  | Some conn =>
      if malloc_ok sizeof_sockaddr_in then
        connection_alloc (sockfd conn) (addr conn) (state conn) (type conn) (sock conn)
      else None
  end.

Definition net__free (conn : option connection) k : kernel := connection__free conn k.

(** ** Descriptors *)


Lemma opened_free fd k : 0 < fd → fd ∉ k → opened fd k ∖ {[fd]} = k.
Proof. intros Hfd Hn. unfold opened. rewrite (proj2 (Z.ltb_ge fd 0)) by lia. set_solver. Qed.




(** When only the allocation of the connection itself fails, the descriptor that [socket] gave
    is lost: nobody closes it. *)
Lemma connection__init_leaks host port st t fd s k :
  malloc_ok sizeof_sockaddr_in = true → malloc_ok sizeof_bpsp__connection = false →
  0 ≤ fd → connection__init host port st t fd s k = (None, {[fd]} ∪ k).
Proof.
  intros H1 H2 Hfd. unfold connection__init, connection_alloc, opened.
  rewrite H1, H2. by rewrite (proj2 (Z.ltb_ge fd 0)).
Qed.

(** Freeing a duplicate closes the descriptor of the original. *)
Lemma net__dup_shares conn conn' k :
  net__dup (Some conn) = Some conn' → 0 < sockfd conn → sockfd conn ∉ net__free (Some conn') k.
Proof.
  unfold net__dup, connection_alloc. destruct (malloc_ok _); [|done]. destruct (malloc_ok _); [|done].
  intros [= <-] Hfd. unfold net__free, connection__free. cbn.
  rewrite (proj2 (Z.ltb_lt 0 (sockfd conn))) by lia. set_solver.
Qed.
End NetOpen.

(** ** An instance *)

#[local] Existing Instance malloc_always.


