(* ===== verification/Locks.v ===== *)
(** * The threads of the server, side by side

    The other files see a lock as the thread that holds it does.  Here are the thread that
    accepts clients and the threads that serve them: for each function, the locks that it takes
    and gives back, and what it does in between to the data that the threads share, in the order
    of the source.  What a thread finds in the table of the clients, and whether a client is
    closed, is looked up when the thread gets there; what depends on frames, on the topic tree or
    on the thread's own data (is the topic valid, which subscribers match, is a reply asked for)
    is an argument.  A step of the program is a step of any one of the threads. *)
From S2P Require Import Prelude.

(** [broker->cli_rw_lock], [client->mutex], [topic_tree->rw_lock], [client->rw_lock]; a client
    is named by its address. *)
Inductive lock := CliRw | ClientMutex (c : positive) | TreeRw | ClientRw (c : positive).
Inductive mode := Rd | Wr.

(** What the threads share: the table [broker->clients], the topic tree, the outgoing stream of
    a client, its flag [is_close], its memory. *)
Inductive shared :=
  | ClientTable | TopicTree | Stream (c : positive) | CloseFlag (c : positive)
  | Object (c : positive).

#[export] Instance lock_eq_dec : EqDecision lock.
Proof. solve_decision. Defined.
#[export] Instance mode_eq_dec : EqDecision mode.
Proof. solve_decision. Defined.
#[export] Instance shared_eq_dec : EqDecision shared.
Proof. solve_decision. Defined.

Inductive action :=
  | Acq (l : lock) (m : mode)      (* pthread_rwlock_rdlock, pthread_rwlock_wrlock, pthread_mutex_lock *)
  | Rel (l : lock)                 (* pthread_rwlock_unlock, pthread_mutex_unlock *)
  | Use (o : shared) (m : mode)    (* reads or writes the data *)
  | Insert (c : positive)          (* HASH_ADD_STR(broker->clients, ...) *)
  | Remove (c : positive)          (* HASH_DEL(broker->clients, ...) *)
  | Close (c : positive)           (* client->is_close = 1 *)
  | Free (c : positive)            (* client__free *)
  | Spawn (c : positive)           (* pthread_create *)
  | Begin (c : positive).          (* the thread of the client begins to run *)

(** Is the client in the table?  Is it closed? *)
Inductive cond := Found (c : positive) | Closed (c : positive).

(** What a thread has still to do. *)
Inductive prog :=
  | Stop
  | Do (a : action) (k : prog)
  | If (b : cond) (k1 k2 : prog).

Notation "a ;> k" := (Do a k) (at level 60, right associativity) : bpsp_scope.

(** ** lib/client.c *)

(** [client__send(client, frame, 1)] *)
Definition send_locks (c : positive) (k : prog) : prog :=
  Acq (ClientRw c) Rd ;>
  If (Closed c)
    (Rel (ClientRw c) ;> k)
    (Rel (ClientRw c) ;>
     Acq (ClientMutex c) Wr ;> Use (Stream c) Wr ;> Rel (ClientMutex c) ;> k).

(** [client__read]: [closed] is what follows if the client is closed.  The incoming stream
    belongs to the thread of the client. *)
Definition recv_locks (c : positive) (closed k : prog) : prog :=
  Acq (ClientRw c) Rd ;>
  If (Closed c) (Rel (ClientRw c) ;> closed) (Rel (ClientRw c) ;> k).

(** [topic__add_subscriber] and [topic__del_subscriber], if they get as far as the lock. *)
Definition tree_write_locks (reached : bool) (k : prog) : prog :=
  if reached then Acq TreeRw Wr ;> Use TopicTree Wr ;> Rel TreeRw ;> k else k.

(** [client__sub0]; the table of subscriptions belongs to the thread of the client. *)
Definition sub_locks (c : positive) (reached : bool) (k : prog) : prog :=
  Acq (ClientMutex c) Wr ;> Rel (ClientMutex c) ;> tree_write_locks reached k.

(** [client__unsub0] *)
Definition unsub_locks (c : positive) (reached : bool) (k : prog) : prog :=
  Acq (ClientMutex c) Wr ;> Rel (ClientMutex c) ;> tree_write_locks reached k.

(** [client__unsub_all(client, 1)]; [some]: the table of subscriptions is there. *)
Definition unsub_all_locks (c : positive) (some : bool) (k : prog) : prog :=
  if some
  then Acq (ClientMutex c) Wr ;> Acq TreeRw Wr ;> Use TopicTree Wr ;>
       Rel TreeRw ;> Rel (ClientMutex c) ;> k
  else k.

(** [client__destroy]; closing its connection cannot fail. *)
Definition client_destroy_locks (c : positive) (some : bool) (k : prog) : prog :=
  unsub_all_locks c some
    (Acq (ClientRw c) Wr ;> Close c ;> Rel (ClientRw c) ;> Free c ;> k).

(** ** lib/broker.c, lib/topic.c *)

(** What becomes of a delivery: the header [x-topic] is refused; or the client is looked up,
    and the header [x-from] is accepted or not. *)
Inductive delivery := Refused | To (d : positive) (from_ok : bool).

(** [broker__deliver_msg] *)
Definition deliver_locks (dl : delivery) (k : prog) : prog :=
  match dl with
  | Refused => k
  | To d from_ok =>
      Acq CliRw Rd ;>
      If (Found d)
        (if from_ok then send_locks d (Rel CliRw ;> k) else Rel CliRw ;> k)
        (Rel CliRw ;> k)
  end.

(** [topic__tree_find_subscribers(tree, topic, 1)] *)
Definition find_locks (valid : bool) (k : prog) : prog :=
  if valid then Acq TreeRw Rd ;> Use TopicTree Rd ;> Rel TreeRw ;> k else k.

(** [broker__destroy_client(broker, client, 1)] *)
Definition destroy_client_locks (c : positive) (some : bool) (k : prog) : prog :=
  Acq CliRw Wr ;>
  If (Found c)
    (Remove c ;> Rel CliRw ;> client_destroy_locks c some k)
    (Rel CliRw ;> client_destroy_locks c some k).

(** [broker__accept], where the calls that would take [cli_rw_lock] are commented out: the table
    is searched once for each identifier that is drawn. *)
Definition accept_locks (c : positive) (draws : nat) (k : prog) : prog :=
  Nat.iter (S draws) (fun k => Use ClientTable Rd ;> k) (Insert c ;> k).

(** ** server/handle.c, server/server.c *)

(** [handle__reply] *)
Definition reply_locks (c : positive) (reply : bool) (k : prog) : prog :=
  if reply then send_locks c k else k.

Inductive request :=
  | Connect | Echo
  | Rejected (reply : bool)                   (* no topic, or a frame that is not complete *)
  | Pub (valid : bool) (ds : list delivery) (reply : bool)
  | Sub (reached reply : bool)
  | Unsub (reached reply : bool).

(** [handle__in_frame] *)
Definition request_locks (c : positive) (r : request) (k : prog) : prog :=
  match r with
  | Connect | Echo => send_locks c k
  | Rejected reply => reply_locks c reply k
  | Pub valid ds reply => find_locks valid (foldr deliver_locks (reply_locks c reply k) ds)
  | Sub reached reply => sub_locks c reached (reply_locks c reply k)
  | Unsub reached reply => unsub_locks c reached (reply_locks c reply k)
  end.

(** [handle__client_loop]; [last]: it ends with a read that fails, and not with a request. *)
Fixpoint loop_locks (c : positive) (rs : list request) (last : bool) (k : prog) : prog :=
  match rs with
  | [] => if last then recv_locks c k k else k
  | r :: rs => recv_locks c k (request_locks c r (loop_locks c rs last k))
  end.

(** A client: the draws of its identifier, its requests, whether the last read fails, whether it
    has subscriptions in the end. *)
Record session := {
  who : positive;
  draws : nat;
  requests : list request;
  last_read : bool;
  had_subs : bool;
}.

(** [server__handle_client]: in the end the tree is printed, without its lock. *)
Definition thread_locks (s : session) : prog :=
  Begin (who s) ;>
  loop_locks (who s) (requests s) (last_read s)
    (destroy_client_locks (who s) (had_subs s) (Use TopicTree Rd ;> Stop)).

(** [server__loop] *)
Fixpoint server_locks (ss : list session) : prog :=
  match ss with
  | [] => Stop
  | s :: ss => accept_locks (who s) (draws s) (Spawn (who s) ;> server_locks ss)
  end.

(** ** Steps *)

(** The locks that a thread holds, and what it has still to do. *)
Notation thread := (list (lock * mode) * prog)%type (only parsing).

Record config := {
  threads : list thread;
  table : gset positive;       (* the clients in [broker->clients] *)
  closed : gset positive;      (* those whose [is_close] is set *)
  started : gset positive;     (* those whose thread is created *)
  freed : gset positive;       (* those whose memory is given back *)
}.

Definition set_threads (cf : config) ts : config :=
  {| threads := ts; table := table cf; closed := closed cf; started := started cf; freed := freed cf |}.
Definition set_table (cf : config) t : config :=
  {| threads := threads cf; table := t; closed := closed cf; started := started cf; freed := freed cf |}.
Definition set_closed (cf : config) s : config :=
  {| threads := threads cf; table := table cf; closed := s; started := started cf; freed := freed cf |}.
Definition set_started (cf : config) s : config :=
  {| threads := threads cf; table := table cf; closed := closed cf; started := s; freed := freed cf |}.
Definition set_freed (cf : config) s : config :=
  {| threads := threads cf; table := table cf; closed := closed cf; started := started cf; freed := s |}.

(** Readers share a lock; a writer has it alone. *)
Definition compatible (ts : list thread) (l : lock) (m : mode) : Prop :=
  Forall (fun t : thread => Forall (fun e : lock * mode => e.1 = l → m = Rd ∧ e.2 = Rd) t.1) ts.

#[export] Instance compatible_dec ts l m : Decision (compatible ts l m).
Proof. unfold compatible. apply _. Defined.

Definition holds (cf : config) (b : cond) : bool :=
  match b with
  | Found c => bool_decide (c ∈ table cf)
  | Closed c => bool_decide (c ∈ closed cf)
  end.

(** The action may be done now. *)
Definition enabled (cf : config) (a : action) : Prop :=
  match a with
  | Acq l m => compatible (threads cf) l m
  | Begin c => c ∈ started cf
  | _ => True
  end.

#[export] Instance enabled_dec cf a : Decision (enabled cf a).
Proof. destruct a; cbn [enabled]; apply _. Defined.

(** The locks that the thread holds then. *)
Definition held_after (h : list (lock * mode)) (a : action) : list (lock * mode) :=
  match a with
  | Acq l m => (l, m) :: h
  | Rel l => filter (fun e => e.1 ≠ l) h
  | _ => h
  end.

(** What it does to the data. *)
Definition effect (cf : config) (a : action) : config :=
  match a with
  | Insert c => set_table cf ({[c]} ∪ table cf)
  | Remove c => set_table cf (table cf ∖ {[c]})
  | Close c => set_closed cf ({[c]} ∪ closed cf)
  | Free c => set_freed cf ({[c]} ∪ freed cf)
  | Spawn c => set_started cf ({[c]} ∪ started cf)
  | _ => cf
  end.

(** Thread [i] goes one step. *)
Definition advance (i : nat) (cf : config) : option config :=
  match threads cf !! i with
  | Some (h, Do a k) =>
      if decide (enabled cf a)
      then Some (effect (set_threads cf (<[i := (held_after h a, k)]> (threads cf))) a)
      else None
  | Some (h, If b k1 k2) =>
      Some (set_threads cf (<[i := (h, if holds cf b then k1 else k2)]> (threads cf)))
  | _ => None
  end.

(** The threads go in this order. *)
Fixpoint schedule (order : list nat) (cf : config) : option config :=
  match order with
  | [] => Some cf
  | i :: order => cf ← advance i cf; schedule order cf
  end.

(** The thread that accepts clients comes first. *)
Definition server_config (ss : list session) : config :=
  {| threads := ([], server_locks ss) :: ((fun s => ([], thread_locks s)) <$> ss);
     table := ∅; closed := ∅; started := ∅; freed := ∅ |}.

(** ** What the next step of a thread touches *)

Definition access (p : prog) : option (shared * mode) :=
  match p with
  | Do (Use o m) _ => Some (o, m)
  | Do (Insert _) _ | Do (Remove _) _ => Some (ClientTable, Wr)
  | If (Found _) _ _ => Some (ClientTable, Rd)
  | Do (Close c) _ => Some (CloseFlag c, Wr)
  | If (Closed c) _ _ => Some (CloseFlag c, Rd)
  | Do (Free c) _ => Some (Object c, Wr)
  | _ => None
  end.

Definition lock_client (l : lock) : option positive :=
  match l with ClientMutex c | ClientRw c => Some c | CliRw | TreeRw => None end.

Definition shared_client (o : shared) : option positive :=
  match o with Stream c | CloseFlag c | Object c => Some c | ClientTable | TopicTree => None end.

(** The client whose memory the step needs. *)
Definition needs (p : prog) : option positive :=
  match p with
  | Do (Acq l _) _ | Do (Rel l) _ => lock_client l
  | _ => a ← access p; shared_client a.1
  end.

(** Two threads are about to touch the same data, and one of them writes. *)
Definition race (cf : config) (i j : nat) (o : shared) : Prop :=
  i ≠ j ∧ ∃ t u m n, threads cf !! i = Some t ∧ threads cf !! j = Some u ∧
    access t.2 = Some (o, m) ∧ access u.2 = Some (o, n) ∧ (m = Wr ∨ n = Wr).

(** Every thread is done. *)
Definition finished (cf : config) : Prop := Forall (fun t : thread => t = ([], Stop)) (threads cf).
