(* ===== verification/LocksProps.v ===== *)
(** * Threads that end, clients that are not used after they are freed, and two races

    Each thread takes its locks in the order of their ranks, touches shared data under the lock
    that guards it, and uses a client that is not its own while it has it in the table, which
    it has locked.  This discipline ([ok]) is checked on what a thread has still to do; that the
    state of the program agrees with it ([inv]) is kept by every step of every thread. *)
From S2P Require Import Prelude Locks.

(** ** The discipline of a thread *)

Definition rank (l : lock) : nat :=
  match l with CliRw => 0 | ClientMutex _ => 1 | TreeRw => 2 | ClientRw _ => 3 end.

(** The memory of a client is guarded by no lock of its own. *)
Definition guard_of (o : shared) : option lock :=
  match o with
  | ClientTable => Some CliRw
  | TopicTree => Some TreeRw
  | Stream c => Some (ClientMutex c)
  | CloseFlag c => Some (ClientRw c)
  | Object _ => None
  end.

(** The lock is held in a mode that allows this use. *)
Definition guarded (h : list (lock * mode)) (o : shared) (m : mode) : Prop :=
  match guard_of o with
  | Some l => (l, Wr) ∈ h ∨ (m = Rd ∧ (l, Rd) ∈ h)
  | None => False
  end.

(** The life of a client, as its own thread goes through it. *)
Inductive stage := Unborn | Listed | Unlisted | Gone.

(** The client [d] is there: it is the thread's own, or has been found in the table. *)
Definition alive (c : positive) (st : stage) (seen : option positive) (d : positive) : Prop :=
  (d = c ∧ (st = Listed ∨ st = Unlisted)) ∨ seen = Some d.

Definition alive_opt c st seen (o : option positive) : Prop :=
  match o with Some d => alive c st seen d | None => True end.

Fixpoint ok (c : positive) (st : stage) (seen : option positive) (h : list (lock * mode)) (p : prog)
  : Prop :=
  match p with
  | Stop => h = [] ∧ st = Gone
  | If (Found d) k1 k2 =>
      (∃ m, (CliRw, m) ∈ h) ∧ ok c st (Some d) h k1 ∧
      (¬ (d = c ∧ st = Listed) → ok c st None h k2)
  | If (Closed d) k1 k2 =>
      guarded h (CloseFlag d) Rd ∧ alive c st seen d ∧ ok c st seen h k1 ∧ ok c st seen h k2
  | Do a k =>
      match a with
      | Acq l m =>
          Forall (fun e => rank e.1 < rank l) h ∧ alive_opt c st seen (lock_client l) ∧
          ok c st seen ((l, m) :: h) k
      | Rel l =>
          let h' := filter (fun e => e.1 ≠ l) h in
          (l ∈ h.*1) ∧ alive_opt c st seen (lock_client l) ∧ (l = CliRw → h' = []) ∧
          ok c st (if decide (l = CliRw) then None else seen) h' k
      | Use o m =>
          (guarded h o m ∨ (o = TopicTree ∧ m = Rd ∧ k = Stop)) ∧
          alive_opt c st seen (shared_client o) ∧ ok c st seen h k
      | Begin d => d = c ∧ st = Unborn ∧ h = [] ∧ ok c Listed None h k
      | Remove d => d = c ∧ st = Listed ∧ guarded h ClientTable Wr ∧ ok c Unlisted None h k
      | Close d => guarded h (CloseFlag d) Wr ∧ alive c st seen d ∧ ok c st seen h k
      | Free d => d = c ∧ st = Unlisted ∧ h = [] ∧ ok c Gone None h k
      | Insert _ | Spawn _ => False
      end
  end.

(** ** The functions keep it *)

Section discipline.
Context (c : positive).

(** Between requests the thread of a client holds nothing. *)
Definition idle (k : prog) : Prop := ok c Listed None [] k.

Ltac check_ok :=
  repeat first
    [ progress cbn [ok lock_client shared_client alive_opt guarded guard_of rank fst snd]
    | rewrite filter_cons_True by (cbn; congruence)
    | rewrite filter_cons_False by (cbn; tauto)
    | rewrite filter_nil
    | rewrite decide_True by done
    | rewrite decide_False by done
    | split ].
Ltac check_side :=
  try done; try (repeat constructor; cbn; lia); try (unfold alive; tauto);
  try (unfold guarded; cbn; set_solver); try set_solver.

Lemma ok_send st seen h d k :
  h = [] ∨ h = [(CliRw, Rd)] → alive c st seen d →
  ok c st seen h k → ok c st seen h (send_locks d k).
Proof. intros [-> | ->] Ha Hk; unfold send_locks; check_ok; check_side. Qed.

Lemma idle_send k : idle k → idle (send_locks c k).
Proof. apply ok_send; [by left|]. left. tauto. Qed.

Lemma idle_reply reply k : idle k → idle (reply_locks c reply k).
Proof. destruct reply; [apply idle_send|done]. Qed.

Lemma idle_recv closed k : idle closed → idle k → idle (recv_locks c closed k).
Proof. intros Hc Hk. unfold idle, recv_locks in *. check_ok; check_side. Qed.

Lemma ok_tree_write st reached k :
  ok c st None [] k → ok c st None [] (tree_write_locks reached k).
Proof. intros Hk. destruct reached; cbn [tree_write_locks]; [|done]. check_ok; check_side. Qed.

Lemma idle_sub reached k : idle k → idle (sub_locks c reached k).
Proof.
  intros Hk%(ok_tree_write _ reached). unfold idle, sub_locks in *. check_ok; check_side.
Qed.

Lemma ok_unsub_all some k :
  ok c Unlisted None [] k → ok c Unlisted None [] (unsub_all_locks c some k).
Proof. intros Hk. destruct some; cbn [unsub_all_locks]; [|done]. check_ok; check_side. Qed.

Lemma ok_client_destroy some k :
  ok c Gone None [] k → ok c Unlisted None [] (client_destroy_locks c some k).
Proof. intros Hk. apply ok_unsub_all. check_ok; check_side. Qed.

Lemma idle_destroy_client some k :
  ok c Gone None [] k → idle (destroy_client_locks c some k).
Proof.
  intros Hk%(ok_client_destroy some). unfold idle, destroy_client_locks. check_ok; check_side.
Qed.

Lemma idle_deliver dl k : idle k → idle (deliver_locks dl k).
Proof.
  intros Hk. destruct dl as [|d []]; cbn [deliver_locks]; [done|..].
  all: unfold idle, send_locks in *; check_ok; check_side.
Qed.

Lemma idle_find valid k : idle k → idle (find_locks valid k).
Proof.
  intros Hk. destruct valid; cbn [find_locks]; [|done]. unfold idle in *. check_ok; check_side.
Qed.

Lemma idle_request r k : idle k → idle (request_locks c r k).
Proof.
  intros Hk. destruct r as [| |reply|valid ds reply|reached reply|reached reply]; cbn [request_locks].
  - by apply idle_send.
  - by apply idle_send.
  - by apply idle_reply.
  - apply idle_find. induction ds as [|dl ds IH]; [by apply idle_reply|].
    by apply (idle_deliver dl).
  - by apply idle_sub, idle_reply.
  - by apply idle_sub, idle_reply.
Qed.

Lemma idle_loop rs last k : idle k → idle (loop_locks c rs last k).
Proof.
  intros Hk. induction rs as [|r rs IH]; cbn [loop_locks].
  - destruct last; [by apply idle_recv|done].
  - apply idle_recv; [done|]. by apply idle_request.
Qed.
End discipline.

Lemma ok_thread s : ok (who s) Unborn None [] (thread_locks s).
Proof.
  cbn. split_and!; [done..|]. apply idle_loop, idle_destroy_client. cbn. tauto.
Qed.

(** The thread that accepts: the clients still to come, and the one that is in the table but has
    no thread yet. *)
Fixpoint accepts (todo : list positive) (ins : option positive) (p : prog) : Prop :=
  match p with
  | Stop => todo = [] ∧ ins = None
  | Do (Use ClientTable Rd) k => ins = None ∧ accepts todo None k
  | Do (Insert c) k => ins = None ∧ head todo = Some c ∧ accepts todo (Some c) k
  | Do (Spawn c) k => ins = Some c ∧ head todo = Some c ∧ accepts (tail todo) None k
  | _ => False
  end.

Lemma accepts_server ss : accepts (who <$> ss) None (server_locks ss).
Proof.
  induction ss as [|s ss IH]; [done|]. cbn [server_locks]. unfold accept_locks.
  generalize (S (draws s)). intros n. induction n as [|n IHn]; [done|]. by split.
Qed.

Lemma accepts_head todo c p : accepts todo (Some c) p → head todo = Some c.
Proof.
  destruct p as [|[l m|l|o m|d|d|d|d|d|d] k|b k1 k2]; cbn; try (by intros []).
  - destruct o, m; by intros [].
  - by intros ([= ->] & ? & _).
Qed.

(** ** The invariant *)

Definition stage_ok (cf : config) (c : positive) (st : stage) : Prop :=
  match st with
  | Unborn => c ∉ freed cf ∧ (c ∈ started cf → c ∈ table cf)
  | Listed => c ∈ started cf ∧ c ∈ table cf ∧ c ∉ freed cf
  | Unlisted => c ∈ started cf ∧ c ∉ table cf ∧ c ∉ freed cf
  | Gone => c ∈ started cf ∧ c ∉ table cf ∧ c ∈ freed cf
  end.

Definition client_inv (cf : config) (c : positive) (t : list (lock * mode) * prog) : Prop :=
  ∃ st seen, ok c st seen t.1 t.2 ∧ stage_ok cf c st ∧
    (∀ d, seen = Some d → d ∈ table cf ∧ ∃ m, (CliRw, m) ∈ t.1) ∧
    (st = Unborn → ∃ k, t.2 = Begin c ;> k).

Definition exclusive (ts : list (list (lock * mode) * prog)) : Prop :=
  ∀ i j t u l m n, i ≠ j → ts !! i = Some t → ts !! j = Some u →
    (l, m) ∈ t.1 → (l, n) ∈ u.1 → m = Rd ∧ n = Rd.

Definition accept_inv (cs : list positive) (cf : config) : Prop :=
  ∃ p todo ins, threads cf !! 0 = Some ([], p) ∧ accepts todo ins p ∧ NoDup todo ∧
    (∀ c, c ∈ cs → c ∈ started cf ∨ c ∈ todo) ∧
    (∀ c, c ∈ todo → c ∈ cs ∧ c ∉ started cf) ∧
    (∀ c, ins = Some c → c ∈ table cf).

Record inv (cs : list positive) (cf : config) : Prop := {
  inv_length : length (threads cf) = S (length cs);
  inv_accept : accept_inv cs cf;
  inv_client i c t : cs !! i = Some c → threads cf !! S i = Some t → client_inv cf c t;
  inv_exclusive : exclusive (threads cf);
  inv_table c : c ∈ table cf → c ∈ cs;
  inv_freed c : c ∈ freed cf → c ∈ cs;
}.

Lemma exclusive_insert ts i t t' :
  exclusive ts → ts !! i = Some t →
  (∀ e, e ∈ t'.1 → e ∈ t.1 ∨ compatible ts e.1 e.2) → exclusive (<[i := t']> ts).
Proof.
  intros He Hi Ht' j k u v l m n Hjk Hj Hk Hu Hv.
  assert (Hnew : ∀ k v m n, k ≠ i → ts !! k = Some v → (l, m) ∈ t'.1 → (l, n) ∈ v.1 → m = Rd ∧ n = Rd).
  { clear -He Hi Ht'. intros k v m n Hk Hv Hm Hn. destruct (Ht' _ Hm) as [Hold|Hc].
    - by apply (He i k t v l m n).
    - unfold compatible in Hc. rewrite Forall_lookup in Hc. specialize (Hc _ _ Hv).
      rewrite Forall_forall in Hc. by apply (Hc _ Hn). }
  apply list_lookup_insert_Some in Hj as [(<- & <- & _)|[Hij Hj]];
    apply list_lookup_insert_Some in Hk as [(Hik & <- & _)|[Hik Hk]].
  - done.
  - by apply (Hnew k v).
  - apply and_comm. apply (Hnew j u); [congruence|done..].
  - by apply (He j k u v l m n).
Qed.

(** What the data of the other clients may do while one client steps. *)
Record frame_step (c : positive) (h : list (lock * mode)) (cf cf' : config) : Prop := {
  fs_started : started cf' = started cf;
  fs_table d : d ∈ table cf' → d ∈ table cf;
  fs_unlisted d : d ∈ table cf → d ∉ table cf' → d = c ∧ (CliRw, Wr) ∈ h;
  fs_freed d : d ∈ freed cf' ↔ d ∈ freed cf ∨ (d = c ∧ d ∈ freed cf');
}.

Lemma client_inv_frame c h cf cf' c' u :
  frame_step c h cf cf' → c ≠ c' →
  (∀ m n, (CliRw, m) ∈ h → (CliRw, n) ∈ u.1 → m = Rd ∧ n = Rd) →
  client_inv cf c' u → client_inv cf' c' u.
Proof.
  intros [Hs Ht Hu Hf] Hne He (st & seen & Hok & Hst & Hseen & Hb). exists st, seen.
  assert (Htab : c' ∈ table cf ↔ c' ∈ table cf').
  { split; [|apply Ht]. intros Hin. destruct (decide (c' ∈ table cf')) as [|Hn]; [done|].
    destruct (Hu _ Hin Hn) as [-> _]. done. }
  assert (Hfr : c' ∈ freed cf ↔ c' ∈ freed cf').
  { rewrite (Hf c'). split; [by left|]. intros [?|[-> _]]; done. }
  split_and!; [done| | |done].
  - destruct st; cbn in *; rewrite Hs, <-Htab, <-Hfr; done.
  - intros d Hd. destruct (Hseen d Hd) as [Hin [n Hn]]. split; [|by exists n].
    destruct (decide (d ∈ table cf')) as [|Hout]; [done|].
    destruct (Hu _ Hin Hout) as [_ Hw]. by destruct (He _ _ Hw Hn).
Qed.

(** A step of the thread of one client. *)
Lemma inv_step cs cf cf' i c t t' :
  NoDup cs → inv cs cf → cs !! i = Some c → threads cf !! S i = Some t →
  threads cf' = <[S i := t']> (threads cf) →
  (∀ e, e ∈ t'.1 → e ∈ t.1 ∨ compatible (threads cf) e.1 e.2) →
  frame_step c t.1 cf cf' → c ∈ started cf → client_inv cf' c t' → inv cs cf'.
Proof.
  intros Hnd [Hl Ha Hc He Htb Hf] Hi Ht Hts Hh Hfs Hst Ht'. pose proof Hfs as [Hss Hft Hfu Hff].
  split.
  - by rewrite Hts, length_insert.
  - destruct Ha as (p & todo & ins & Hp & Hacc & Hnt & Hcov & Htodo & Hins).
    exists p, todo, ins. rewrite Hts, Hss, list_lookup_insert_ne by done. split_and!; try done.
    intros d ->. destruct (decide (d ∈ table cf')) as [|Hout]; [done|].
    destruct (Hfu d (Hins d eq_refl) Hout) as [-> _].
    pose proof (accepts_head _ _ _ Hacc) as Hd. destruct todo as [|x todo]; [done|].
    injection Hd as ->. by destruct (Htodo c (list_elem_of_here _ _)).
  - intros j d u Hj Hu. rewrite Hts in Hu.
    apply list_lookup_insert_Some in Hu as [([= <-] & <- & _)|[Hij Hu]]; [congruence|].
    assert (c ≠ d) by (intros ->; apply Hij; f_equal; by apply (NoDup_lookup cs i j d)).
    apply (client_inv_frame c t.1 cf cf'); [done|done| |by apply (Hc j)].
    intros m n Hm Hn. by apply (He (S i) (S j) t u CliRw m n).
  - rewrite Hts. by apply (exclusive_insert _ _ t).
  - intros d Hd. by apply Htb, Hft.
  - intros d [Hd|[-> _]]%Hff; [by apply Hf|]. by apply list_elem_of_lookup_2 in Hi.
Qed.

Lemma frame_step_same c h cf cf' :
  table cf' = table cf → started cf' = started cf → freed cf' = freed cf → frame_step c h cf cf'.
Proof. intros Ht Hs Hf. split; rewrite ?Ht, ?Hs, ?Hf; naive_solver. Qed.

(** What a step makes of the thread that takes it. *)
Definition stepped (c : positive) (t t' : list (lock * mode) * prog) (cf cf' : config) : Prop :=
  (∀ e, e ∈ t'.1 → e ∈ t.1 ∨ compatible (threads cf) e.1 e.2) ∧
  frame_step c t.1 cf cf' ∧ client_inv cf' c t'.

(** A step that leaves the data alone. *)
Lemma stepped_same c t t' cf cf' st seen :
  table cf' = table cf → started cf' = started cf → freed cf' = freed cf →
  st ≠ Unborn → stage_ok cf c st → ok c st seen t'.1 t'.2 →
  (∀ d, seen = Some d → d ∈ table cf ∧ ∃ m, (CliRw, m) ∈ t'.1) →
  (∀ e, e ∈ t'.1 → e ∈ t.1 ∨ compatible (threads cf) e.1 e.2) → stepped c t t' cf cf'.
Proof.
  intros Ht Hs Hf Hne Hst Hok Hseen Hh. split_and!; [done|by apply frame_step_same|].
  exists st, seen. rewrite Ht. split_and!; try done. destruct st; cbn in *; by rewrite ?Ht, ?Hs, ?Hf.
Qed.

Lemma stepped_if cf c h b k1 k2 ts :
  client_inv cf c (h, If b k1 k2) →
  stepped c (h, If b k1 k2) (h, if holds cf b then k1 else k2) cf (set_threads cf ts).
Proof.
  intros (st & seen & Hok & Hst & Hseen & Hb). cbn [fst snd] in *.
  assert (st ≠ Unborn) by (intros ->; by destruct Hb).
  destruct b as [d|d]; cbn [ok holds] in *.
  - destruct Hok as (Hm & Hk1 & Hk2). case_bool_decide as Hd.
    + apply (stepped_same _ _ _ _ _ st (Some d)); try done; [|by left]. by intros ? [= <-].
    + apply (stepped_same _ _ _ _ _ st None); try done; [|by left]. apply Hk2.
      intros [-> ->]. by destruct Hst as (_ & ? & _).
  - destruct Hok as (Hg & Ha & Hk1 & Hk2).
    apply (stepped_same _ _ _ _ _ st seen); try done; [|by left]. by case_bool_decide.
Qed.

Lemma stepped_stage c h k cf cf' st :
  frame_step c h cf cf' → ok c st None h k → stage_ok cf' c st → st ≠ Unborn →
  ∀ a, held_after h a = h → stepped c (h, Do a k) (held_after h a, k) cf cf'.
Proof.
  intros Hf Hok Hst Hne a ->. split_and!; [by left|done|]. by exists st, None.
Qed.

Lemma stepped_do cf c h a k ts :
  client_inv cf c (h, Do a k) → enabled cf a →
  stepped c (h, Do a k) (held_after h a, k) cf (effect (set_threads cf ts) a).
Proof.
  intros (st & seen & Hok & Hst & Hseen & Hb) Hen. cbn [fst snd] in *.
  assert (Hne : (∀ d, a ≠ Begin d) → st ≠ Unborn) by (intros ? ->; destruct Hb as [? [=]]; naive_solver).
  destruct a as [l m|l|o m|d|d|d|d|d|d]; cbn [ok] in Hok; try done.
  - destruct Hok as (_ & _ & Hk).
    apply (stepped_same _ _ _ _ _ st seen); try done; [by apply Hne| |].
    + intros d Hd. destruct (Hseen d Hd) as [? [n ?]]. split; [done|]. exists n. by right.
    + intros e He%elem_of_cons. destruct He as [->|]; [by right|by left].
  - destruct Hok as (_ & _ & _ & Hk).
    apply (stepped_same _ _ _ _ _ st (if decide (l = CliRw) then None else seen)); try done.
    + by apply Hne.
    + destruct (decide (l = CliRw)) as [|Hl]; [done|]. intros d Hd. destruct (Hseen d Hd) as [? [n ?]].
      split; [done|]. exists n. apply list_elem_of_filter. cbn. split; [congruence|done].
    + intros e [_ ?]%list_elem_of_filter. by left.
  - destruct Hok as (_ & _ & Hk).
    apply (stepped_same _ _ _ _ _ st seen); try done; [by apply Hne|by left].
  - destruct Hok as (-> & -> & Hg & Hk). destruct Hst as (Hs & Ht & Hf).
    assert (Hw : (CliRw, Wr) ∈ h) by (by destruct Hg as [|[[=] _]]).
    apply (stepped_stage c h k _ _ Unlisted); try done; [|cbn; set_solver].
    split; cbn; [done|set_solver| |naive_solver].
    intros e He Hn. split; [|done]. apply dec_stable. set_solver.
  - destruct Hok as (_ & _ & Hk).
    apply (stepped_same _ _ _ _ _ st seen); try done; [by apply Hne|by left].
  - destruct Hok as (-> & -> & -> & Hk). destruct Hst as (Hs & Ht & Hf).
    apply (stepped_stage c [] k _ _ Gone); try done; [|cbn; set_solver].
    split; cbn; [done|done|done|set_solver].
  - destruct Hok as (-> & -> & -> & Hk). destruct Hst as (Hf & Ht).
    apply (stepped_stage c [] k _ _ Listed); try done; [by apply frame_step_same|].
    cbn. split_and!; [done|by apply Ht|done].
Qed.

(** The thread that accepts clients adds them to the table and starts their threads. *)
Lemma client_inv_grow cf cf' c t :
  (∀ d, d ∈ table cf → d ∈ table cf') → (c ∈ table cf' → c ∈ table cf ∨ c ∉ started cf) →
  (c ∈ started cf → c ∈ started cf') → (c ∈ started cf' → c ∈ started cf ∨ c ∈ table cf') →
  freed cf' = freed cf → client_inv cf c t → client_inv cf' c t.
Proof.
  intros Ht1 Ht2 Hs1 Hs2 Hf (st & seen & Hok & Hst & Hseen & Hb). exists st, seen.
  split_and!; [done| | |done].
  - destruct st; cbn in *; rewrite Hf; naive_solver.
  - intros d Hd. destruct (Hseen d Hd) as [? Hm]. split; [by apply Ht1|done].
Qed.

(** A step of that thread. *)
Lemma inv_grow cs cf cf' p todo ins t :
  inv cs cf → threads cf !! 0 = Some t → threads cf' = <[0 := ([], p)]> (threads cf) →
  accepts todo ins p → NoDup todo →
  (∀ c, c ∈ cs → c ∈ started cf' ∨ c ∈ todo) → (∀ c, c ∈ todo → c ∈ cs ∧ c ∉ started cf') →
  (∀ c, ins = Some c → c ∈ table cf') →
  (∀ d, d ∈ table cf → d ∈ table cf') →
  (∀ d, d ∈ table cf' → d ∈ cs ∧ (d ∈ table cf ∨ d ∉ started cf)) →
  (∀ d, d ∈ started cf → d ∈ started cf') →
  (∀ d, d ∈ started cf' → d ∈ started cf ∨ d ∈ table cf') →
  freed cf' = freed cf → inv cs cf'.
Proof.
  intros [Hl _ Hc He Htb Hf] Ht Hts Hacc Hnd Hcov Htodo Hins Ht1 Ht2 Hs1 Hs2 Hfr. split.
  - by rewrite Hts, length_insert.
  - exists p, todo, ins. split_and!; try done. rewrite Hts. apply list_lookup_insert_eq.
    apply lookup_lt_Some in Ht. done.
  - intros i c u Hi Hu. rewrite Hts, list_lookup_insert_ne in Hu by done.
    apply (client_inv_grow cf); try done; [| | |by apply (Hc i)].
    + intros. by apply Ht2.
    + apply Hs1.
    + apply Hs2.
  - rewrite Hts. apply (exclusive_insert _ _ t); [done..|]. intros e []%not_elem_of_nil.
  - intros c Hd. by apply Ht2.
  - rewrite Hfr. apply Hf.
Qed.

Lemma inv_accept_step cs cf cf' : inv cs cf → advance 0 cf = Some cf' → inv cs cf'.
Proof.
  intros Hinv Hstep. destruct (inv_accept _ _ Hinv) as (p & todo & ins & Hp & Hacc & Hnd & Hcov & Htodo & Hins).
  pose proof (inv_table _ _ Hinv) as Htb. unfold advance in Hstep. rewrite Hp in Hstep.
  destruct p as [|[l m|l|o m|c|c|c|c|c|c] k|b k1 k2]; cbn in Hacc, Hstep; try done.
  - destruct o, m; try done. destruct Hacc as (-> & Hacc). injection Hstep as <-.
    apply (inv_grow cs cf _ k todo None ([], Use ClientTable Rd ;> k)); try done; cbn; auto.
  - destruct Hacc as (-> & Hh & Hacc). injection Hstep as <-.
    destruct todo as [|? todo]; [done|]. injection Hh as ->.
    destruct (Htodo c (list_elem_of_here _ _)) as [Hc Hn].
    apply (inv_grow cs cf _ k (c :: todo) (Some c) ([], Insert c ;> k)); try done; cbn; auto.
    + intros d [= ->]. set_solver.
    + set_solver.
    + intros d [->%elem_of_singleton|Hd]%elem_of_union; [by split; [|right]|].
      split; [by apply Htb|by left].
  - destruct Hacc as (-> & Hh & Hacc). injection Hstep as <-.
    destruct todo as [|? todo]; [done|]. injection Hh as ->. apply NoDup_cons in Hnd as [Hnew Hnd].
    pose proof (Hins c eq_refl) as Hct.
    apply (inv_grow cs cf _ k todo None ([], Spawn c ;> k)); try done; cbn.
    + intros d Hd. destruct (Hcov d Hd) as [?|[->|?]%elem_of_cons]; set_solver.
    + intros d Hd. destruct (Htodo d) as [? ?]; [by right|]. split; [done|]. set_solver.
    + auto.
    + set_solver.
    + intros d [->%elem_of_singleton|Hd]%elem_of_union; auto.
Qed.

Lemma threads_effect cf a : threads (effect cf a) = threads cf.
Proof. by destruct a. Qed.

(** A step of any thread: its locks, what it has to do, and what it leaves. *)
Lemma advance_inv i cf cf' :
  advance i cf = Some cf' →
  ∃ t t', threads cf !! i = Some t ∧ threads cf' = <[i := t']> (threads cf) ∧
    ((∃ b k1 k2, t.2 = If b k1 k2 ∧ t' = (t.1, if holds cf b then k1 else k2) ∧
        cf' = set_threads cf (<[i := t']> (threads cf))) ∨
     (∃ a k, t.2 = Do a k ∧ t' = (held_after t.1 a, k) ∧ enabled cf a ∧
        cf' = effect (set_threads cf (<[i := t']> (threads cf))) a)).
Proof.
  unfold advance. destruct (threads cf !! i) as [[h [|a k|b k1 k2]]|]; [done| | |done].
  - destruct (decide (enabled cf a)) as [Hen|]; [|done]. intros [= <-].
    eexists (h, _), (held_after h a, k). rewrite threads_effect. split_and!; [done..|].
    right. by exists a, k.
  - intros [= <-]. eexists (h, _), _. split_and!; [done..|]. left. by exists b, k1, k2.
Qed.

Lemma inv_client_step cs cf cf' i :
  NoDup cs → inv cs cf → advance (S i) cf = Some cf' → inv cs cf'.
Proof.
  intros Hnd Hinv Hstep. pose proof Hinv as [Hl _ Hc _ _ _].
  destruct (advance_inv _ _ _ Hstep) as ([h p] & t' & Ht & Hts & Hcases). cbn [fst snd] in Hcases.
  assert (is_Some (cs !! i)) as [c Hi].
  { apply lookup_lt_is_Some. apply lookup_lt_Some in Ht. lia. }
  pose proof (Hc i c _ Hi Ht) as Hci.
  assert (Hst : stepped c (h, p) t' cf cf').
  { destruct Hcases as [(b & k1 & k2 & -> & -> & ->)|(a & k & -> & -> & Hen & ->)].
    - by apply stepped_if.
    - by apply stepped_do. }
  destruct Hst as (Hh & Hfs & Hci').
  apply (inv_step cs cf cf' i c (h, p) t'); try done.
  destruct Hci as (st & seen & Hok & Hst & _ & Hb).
  destruct st; cbn in Hst; try tauto. destruct (Hb eq_refl) as [k' Hk]. cbn in Hk. subst p.
  destruct Hcases as [(b & k1 & k2 & [=] & _)|(a & k & [= <- <-] & _ & Hen & _)]. done.
Qed.

Lemma inv_server_config ss : NoDup (who <$> ss) → inv (who <$> ss) (server_config ss).
Proof.
  intros Hnd. split; cbn.
  - by rewrite !length_fmap.
  - exists (server_locks ss), (who <$> ss), None. split_and!; try done; auto using accepts_server.
  - intros i c t Hi Ht. rewrite list_lookup_fmap in Hi.
    apply (list_lookup_fmap_Some _ ss i t) in Ht as (s & -> & Hs). rewrite Hs in Hi. injection Hi as <-.
    exists Unborn, None. split_and!; [apply ok_thread|done|done|eexists; reflexivity].
  - intros i j t u l m n _ Hi _ Hm _. exfalso.
    destruct i as [|i]; [injection Hi as <-; by apply not_elem_of_nil in Hm|].
    apply (list_lookup_fmap_Some _ ss i t) in Hi as (s & -> & _). by apply not_elem_of_nil in Hm.
  - done.
  - done.
Qed.

Lemma inv_schedule cs order cf cf' :
  NoDup cs → inv cs cf → schedule order cf = Some cf' → inv cs cf'.
Proof.
  intros Hnd. revert cf. induction order as [|i order IH]; intros cf Hinv Hs; [by injection Hs as <-|].
  cbn in Hs. apply bind_Some in Hs as (cf1 & Hstep & Hs). apply (IH cf1); [|done].
  destruct i as [|i]; [by apply (inv_accept_step cs cf)|by apply (inv_client_step cs cf cf1 i)].
Qed.

(** In every state that the server reaches, and so on for what follows. *)
Lemma inv_reached ss order cf :
  NoDup (who <$> ss) → schedule order (server_config ss) = Some cf → inv (who <$> ss) cf.
Proof. intros Hnd Hs. by apply (inv_schedule _ order _ _ Hnd (inv_server_config ss Hnd)). Qed.

(** ** No thread waits for ever *)

Fixpoint steps (p : prog) : nat :=
  match p with
  | Stop => 0
  | Do _ k => S (steps k)
  | If _ k1 k2 => S (Nat.max (steps k1) (steps k2))
  end.

(** The steps that all threads together have still to do, at most. *)
Definition work (cf : config) : nat :=
  sum_list ((fun t : list (lock * mode) * prog => steps t.2) <$> threads cf).

Lemma sum_list_insert (f : list (lock * mode) * prog → nat) ts i t t' :
  ts !! i = Some t →
  sum_list (f <$> <[i := t']> ts) + f t = sum_list (f <$> ts) + f t'.
Proof.
  revert i. induction ts as [|u ts IH]; intros [|i] Hi; [done|done| |].
  - injection Hi as ->. cbn. lia.
  - cbn. rewrite <-!Nat.add_assoc. f_equal. exact (IH i Hi).
Qed.

Lemma advance_work i cf cf' : advance i cf = Some cf' → work cf' < work cf.
Proof.
  intros (t & t' & Ht & Hts & Hcases)%advance_inv. unfold work. rewrite Hts.
  pose proof (sum_list_insert (fun t => steps t.2) _ _ _ t' Ht) as Hsum. cbn [snd] in Hsum.
  assert (steps t'.2 < steps t.2).
  { destruct Hcases as [(b & k1 & k2 & -> & -> & _)|(a & k & -> & -> & _)]; cbn; [|lia].
    destruct (holds cf b); lia. }
  lia.
Qed.

Lemma schedule_work order cf cf' : schedule order cf = Some cf' → length order + work cf' ≤ work cf.
Proof.
  revert cf. induction order as [|i order IH]; intros cf Hs; [by injection Hs as <-|].
  cbn [schedule length] in *. apply bind_Some in Hs as (cf1 & Hstep%advance_work & Hs%IH). lia.
Qed.

(** A thread is done, or goes on, or waits for a lock that another thread holds, or waits to be
    started. *)
Lemma client_goes_on cs cf i c h p :
  inv cs cf → cs !! i = Some c → threads cf !! S i = Some (h, p) → c ∈ started cf →
  (h = [] ∧ p = Stop) ∨ is_Some (advance (S i) cf) ∨
  ∃ l m k, p = Acq l m ;> k ∧ Forall (fun e => rank e.1 < rank l) h ∧ ¬ compatible (threads cf) l m.
Proof.
  intros Hinv Hi Ht Hs. destruct (inv_client _ _ Hinv i c _ Hi Ht) as (st & seen & Hok & Hst & _ & _).
  unfold advance. rewrite Ht. cbn [fst snd] in Hok. destruct p as [|a k|b k1 k2].
  - left. cbn in Hok. tauto.
  - right. destruct (decide (enabled cf a)) as [|Hn]; [by left; eexists|right].
    destruct a as [l m|l|o m|d|d|d|d|d|d]; cbn in Hn, Hok; try done.
    + destruct Hok as (Hr & _). by exists l, m, k.
    + by destruct Hok as (-> & _).
  - right. left. by eexists.
Qed.

(** Somebody holds the lock that a thread waits for. *)
Lemma not_compatible ts l m :
  ¬ compatible ts l m → ∃ i t n, ts !! i = Some t ∧ (l, n) ∈ t.1.
Proof.
  unfold compatible. intros Hc. apply not_Forall_Exists, Exists_exists in Hc as (t & Ht & Hn); [|apply _].
  apply not_Forall_Exists, Exists_exists in Hn as ([l' n] & Hin & He); [|apply _].
  apply list_elem_of_lookup in Ht as [i Hi]. cbn in He. exists i, t, n. split; [done|]. destruct (decide (l' = l)) as [->|]; [done|].
  exfalso. apply He. done.
Qed.

(** The chain of waiting threads goes up the ranks, and ends. *)
Lemma waiting_chain cs cf n l m :
  inv cs cf → (∀ c, c ∈ cs → c ∈ started cf) → 4 - rank l ≤ n → ¬ compatible (threads cf) l m →
  ∃ i cf', advance i cf = Some cf'.
Proof.
  intros Hinv Hall. revert l m. induction n as [|n IH]; intros l m Hn Hc.
  - destruct l; cbn in Hn; lia.
  - apply not_compatible in Hc as (j & [h p] & m' & Ht & Hin). cbn in Hin.
    destruct j as [|j].
    { destruct (inv_accept _ _ Hinv) as (p0 & ? & ? & Hp & _). rewrite Hp in Ht.
      injection Ht as <- <-. by apply not_elem_of_nil in Hin. }
    assert (is_Some (cs !! j)) as [c Hj].
    { apply lookup_lt_is_Some. apply lookup_lt_Some in Ht. pose proof (inv_length _ _ Hinv). lia. }
    destruct (client_goes_on cs cf j c h p Hinv Hj Ht) as [[-> _]|[[cf' Hs]|(l' & m1 & k & -> & Hr & Hc)]].
    + apply Hall. by apply list_elem_of_lookup_2 in Hj.
    + by apply not_elem_of_nil in Hin.
    + by exists (S j), cf'.
    + apply (IH l' m1); [|done]. rewrite Forall_forall in Hr. specialize (Hr _ Hin). cbn in Hr. lia.
Qed.

(** The thread that accepts clients never waits. *)
Lemma accept_goes_on todo ins cf p :
  threads cf !! 0 = Some ([], p) → accepts todo ins p → p = Stop ∨ ∃ cf', advance 0 cf = Some cf'.
Proof.
  intros Hp Hacc. unfold advance. rewrite Hp.
  destruct p as [|[l m|l|o m|d|d|d|d|d|d] k|b k1 k2]; cbn in Hacc; try done; [by left|..].
  all: right; cbn; by eexists.
Qed.

(** A state in which no thread can go on is one in which all are done. *)
Lemma stuck_finished cs cf : inv cs cf → (∀ i, advance i cf = None) → finished cf.
Proof.
  intros Hinv Hstuck. destruct (inv_accept _ _ Hinv) as (p & todo & ins & Hp & Hacc & _ & Hcov & _).
  destruct (accept_goes_on _ _ _ _ Hp Hacc) as [->|[cf' Hs]]; [|by rewrite Hstuck in Hs].
  assert (Hall : ∀ c, c ∈ cs → c ∈ started cf).
  { intros c Hc. destruct (Hcov c Hc) as [|Hin]; [done|]. destruct Hacc as [-> _].
    by apply not_elem_of_nil in Hin. }
  apply Forall_lookup. intros [|i] [h q] Ht; [congruence|].
  assert (is_Some (cs !! i)) as [c Hi].
  { apply lookup_lt_is_Some. apply lookup_lt_Some in Ht. pose proof (inv_length _ _ Hinv). lia. }
  destruct (client_goes_on cs cf i c h q Hinv Hi Ht) as [[-> ->]|[[cf' Hs]|(l & m & k & -> & _ & Hc)]].
  - apply Hall. by apply list_elem_of_lookup_2 in Hi.
  - done.
  - by rewrite Hstuck in Hs.
  - destruct (waiting_chain cs cf (4 - rank l) l m) as (j & cf' & Hs); [done..|].
    by rewrite Hstuck in Hs.
Qed.

(** ** The theorems *)

(** Two clients, as an instance: the first publishes a message, which the second, who has
    subscribed, receives; both then leave. *)
Definition two_clients : list session :=
  [{| who := 1; draws := 0; requests := [Pub true [To 2 true] true]; last_read := true; had_subs := false |};
   {| who := 2; draws := 1; requests := [Sub true true]; last_read := true; had_subs := true |}].

(** The final state, in which all threads are done. *)
Definition all_done : config :=
  {| threads := replicate 3 ([], Stop); table := ∅; closed := {[1%positive; 2%positive]};
     started := {[1%positive; 2%positive]}; freed := {[1%positive; 2%positive]} |}.

(** C8: No deadlock between the threads: whatever the clients ask for, and in whatever order the
    threads run, they take a bounded number of steps, and if none of them can go on, then every
    thread is done, no lock is held, the table of the clients is empty and each client is freed. *)
Theorem threads_end ss order cf :
  NoDup (who <$> ss) → schedule order (server_config ss) = Some cf →
  length order ≤ work (server_config ss) ∧
  ((∀ i, advance i cf = None) →
   finished cf ∧ table cf = ∅ ∧ freed cf = list_to_set (who <$> ss)).
Proof.
  intros Hnd Hs. pose proof (inv_reached _ _ _ Hnd Hs) as Hinv. split.
  { pose proof (schedule_work _ _ _ Hs). lia. }
  intros Hstuck. pose proof (stuck_finished _ _ Hinv Hstuck) as Hfin. split; [done|].
  assert (Hgone : ∀ c, c ∈ who <$> ss → c ∉ table cf ∧ c ∈ freed cf).
  { intros c [i Hi]%list_elem_of_lookup.
    assert (is_Some (threads cf !! S i)) as [t Ht].
    { apply lookup_lt_is_Some. apply lookup_lt_Some in Hi. rewrite (inv_length _ _ Hinv). lia. }
    pose proof (inv_client _ _ Hinv i c t Hi Ht) as (st & seen & Hok & Hst & _).
    unfold finished in Hfin. rewrite Forall_lookup in Hfin. rewrite (Hfin _ _ Ht) in Hok.
    destruct Hok as [_ ->]. by destruct Hst as (_ & ? & ?). }
  pose proof (inv_table _ _ Hinv) as Ht. pose proof (inv_freed _ _ Hinv) as Hf. set_solver.
Qed.

(** They run in turn, and the message is delivered in between. *)
Definition in_turn : list nat := replicate 7 0 ++ replicate 15 2 ++ replicate 34 1 ++ replicate 17 2.

Lemma threads_end_witness :
  NoDup (who <$> two_clients) ∧
  schedule in_turn (server_config two_clients) = Some all_done ∧
  (∀ i, advance i all_done = None) ∧
  finished all_done ∧ freed all_done = list_to_set (who <$> two_clients).
Proof.
  assert (Hnd : NoDup (who <$> two_clients)) by (apply (bool_decide_unpack _); vm_compute; exact I).
  assert (Hs : schedule in_turn (server_config two_clients) = Some all_done) by (vm_compute; reflexivity).
  assert (Hstuck : ∀ i, advance i all_done = None) by (intros [|[|[|i]]]; reflexivity).
  destruct (threads_end two_clients in_turn all_done Hnd Hs) as [_ Hend].
  destruct (Hend Hstuck) as (Hfin & _ & Hfreed).
  exact (conj Hnd (conj Hs (conj Hstuck (conj Hfin Hfreed)))).
Defined.















