(* ===== verification/Sorting.v ===== *)
(** * Comparison functions and stable sorting

    The comparisons of C: negative or zero, when the first argument may come first.
    [insert_inorder] and [sort_inorder] are the reference for the ordered insertion and the merge
    sort of uthash.h; [stable_unique] shows that there is only one stable way to sort a list.  A pass
    of the merge sort ([merge_pass]) merges the runs of a list in pairs. *)
From S2P Require Import Prelude.
From stdpp Require Import sorting.
Local Open Scope Z_scope.

(** A comparison orders any two elements, and is transitive. *)
Record consistent {A} (cmp : A → A → Z) : Prop := {
  cs_total x y : cmp x y ≤ 0 ∨ cmp y x ≤ 0;
  cs_trans x y z : cmp x y ≤ 0 → cmp y z ≤ 0 → cmp x z ≤ 0;
}.

(** A comparison function that is one. *)
Record comparison {A} := { comparison_fun :> A → A → Z; comparison_ok : consistent comparison_fun }.
Arguments comparison A : clear implicits.

Section sorting.
Context {A : Type} (cmp : A → A → Z).
Implicit Types (x y : A) (l : list A).

Definition before x y : Prop := cmp x y ≤ 0.
#[export] Instance before_dec : RelDecision before := fun x y => Z_le_dec (cmp x y) 0.

(** The elements that a sort may not exchange with [x]. *)
Definition same_rank x y : Prop := before x y ∧ before y x.
#[export] Instance same_rank_dec x y : Decision (same_rank x y) := and_dec _ _.

Definition sorted l : Prop := StronglySorted before l.
Definition rank x l : list A := filter (same_rank x) l.

(** In front of the first element that has to come behind it. *)
Fixpoint insert_inorder x l : list A :=
  match l with
  | [] => [x]
  | y :: l => if 0 <? cmp y x then x :: y :: l else y :: insert_inorder x l
  end.

(** All elements, one after the other. *)
Definition sort_inorder l : list A := foldl (fun l x => insert_inorder x l) [] l.

Lemma insert_inorder_perm x l : insert_inorder x l ≡ₚ x :: l.
Proof. induction l as [|y l IH]; cbn; [done|]. destruct (_ <? _); [done|]. rewrite IH. constructor. Qed.

Lemma foldl_inorder_perm l acc : foldl (fun l x => insert_inorder x l) acc l ≡ₚ l ++ acc.
Proof.
  revert acc. induction l as [|x l IH]; intros acc; cbn; [done|].
  rewrite IH, insert_inorder_perm. by rewrite Permutation_middle.
Qed.

Lemma sort_inorder_perm l : sort_inorder l ≡ₚ l.
Proof. unfold sort_inorder. by rewrite foldl_inorder_perm, app_nil_r. Qed.

Lemma not_before x y : ¬ before x y ↔ 0 < cmp x y.
Proof. unfold before. lia. Qed.

(** The place of the insertion: a prefix of elements that may stay in front. *)
Lemma insert_inorder_split x l :
  ∃ l1 l2, l = l1 ++ l2 ∧ insert_inorder x l = l1 ++ x :: l2 ∧ Forall (fun y => before y x) l1
    ∧ match l2 with [] => True | y :: _ => ¬ before y x end.
Proof.
  induction l as [|y l (l1 & l2 & -> & E & Hl1 & Hl2)]; cbn; [by exists [], []|].
  destruct (Z.ltb_spec 0 (cmp y x)).
  - exists [], (y :: l1 ++ l2). split_and!; [done|done|done|]. by apply not_before.
  - exists (y :: l1), l2. rewrite E. split_and!; [done|done| |done]. by constructor.
Qed.

Context (Hcmp : consistent cmp).

Lemma before_refl x : before x x.
Proof. by destruct (cs_total _ Hcmp x x). Qed.
Lemma before_trans x y z : before x y → before y z → before x z.
Proof. apply (cs_trans _ Hcmp). Qed.
Lemma before_total x y : before x y ∨ before y x.
Proof. apply (cs_total _ Hcmp). Qed.

Lemma sorted_app l1 l2 :
  sorted (l1 ++ l2) ↔ sorted l1 ∧ sorted l2 ∧ ∀ x y, x ∈ l1 → y ∈ l2 → before x y.
Proof.
  unfold sorted. induction l1 as [|x l1 IH]; cbn.
  { split; [intros Hs; split_and!; [constructor|done|set_solver]|by intros (_ & Hs & _)]. }
  split.
  - intros [Hs Hf]%StronglySorted_inv. apply IH in Hs as (H1 & H2 & H12).
    rewrite Forall_app, !Forall_forall in Hf. destruct Hf as [Hf1 Hf2].
    split_and!; [constructor; [done|by apply Forall_forall]|done|set_solver].
  - intros ([H1 Hf]%StronglySorted_inv & H2 & H12). constructor.
    + apply IH. split_and!; [done|done|set_solver].
    + apply Forall_app. split; [done|]. apply Forall_forall. set_solver.
Qed.

Lemma sorted_cons x l : sorted (x :: l) ↔ sorted l ∧ ∀ y, y ∈ l → before x y.
Proof.
  split; [intros [? Hf]%StronglySorted_inv|intros []; constructor; [done|]];
    rewrite Forall_forall in *; done.
Qed.

(** Elements of other ranks are filtered out. *)
Lemma rank_none x l : (∀ y, y ∈ l → ¬ same_rank x y) → filter (same_rank x) l = [].
Proof.
  induction l as [|y l IH]; intros Hl; [done|].
  rewrite filter_cons_False by (apply Hl; left). apply IH. intros z Hz. apply Hl. by right.
Qed.

Lemma insert_inorder_sorted x l : sorted l → sorted (insert_inorder x l).
Proof.
  destruct (insert_inorder_split x l) as (l1 & l2 & -> & -> & Hl1 & Hl2).
  rewrite !sorted_app, sorted_cons. intros (H1 & H2 & H12). rewrite Forall_forall in Hl1.
  assert (∀ y, y ∈ l2 → before x y) as Hx.
  { destruct l2 as [|z l2]; [set_solver|]. intros y Hy.
    assert (before x z) as Hz by (by destruct (before_total x z)).
    apply elem_of_cons in Hy as [->|Hy]; [done|]. apply sorted_cons in H2 as [_ H2].
    by eapply before_trans, H2. }
  split_and!; [done|done|done|set_solver].
Qed.

(** The new element is the last of its rank. *)
Lemma insert_inorder_rank x y l : sorted l → rank y (insert_inorder x l) = rank y l ++ rank y [x].
Proof.
  destruct (insert_inorder_split x l) as (l1 & l2 & -> & -> & Hl1 & Hl2).
  rewrite sorted_app. intros (_ & H2 & _). unfold rank.
  rewrite !filter_app, <-app_assoc. f_equal.
  destruct (decide (same_rank y x)) as [[Hyx Hxy]|Hn].
  - rewrite filter_cons_True by done. rewrite (filter_cons_True _ x []) by done.
    rewrite (rank_none y l2); [done|]. intros z Hz [Hyz Hzy]. destruct l2 as [|w l2]; [set_solver|].
    apply Hl2. apply (before_trans w z); [|by eapply before_trans].
    apply elem_of_cons in Hz as [->|Hz]; [apply before_refl|]. by apply sorted_cons in H2 as [_ H2]; apply H2.
  - rewrite filter_cons_False by done. rewrite (filter_cons_False _ x []) by done. cbn. by rewrite app_nil_r.
Qed.

Lemma sort_inorder_ok l : sorted (sort_inorder l) ∧ ∀ x, rank x (sort_inorder l) = rank x l.
Proof.
  unfold sort_inorder.
  assert (∀ acc, sorted acc → sorted (foldl (fun l x => insert_inorder x l) acc l)
    ∧ ∀ x, rank x (foldl (fun l x => insert_inorder x l) acc l) = rank x acc ++ rank x l) as Hgen.
  { induction l as [|x l IH]; intros acc Hacc; cbn [foldl].
    { split; [done|]. intros y. by rewrite app_nil_r. }
    destruct (IH (insert_inorder x acc)) as [Hs Hr]; [by apply insert_inorder_sorted|].
    split; [done|]. intros y. rewrite Hr, insert_inorder_rank, <-app_assoc by done. f_equal.
    unfold rank. by rewrite <-filter_app. }
  destruct (Hgen []) as [Hs Hr]; [constructor|]. split; [done|]. intros x. by rewrite Hr.
Qed.

(** The least element of a sorted list is the first of its rank. *)
Lemma rank_head x l : rank x (x :: l) = x :: rank x l.
Proof. apply filter_cons_True. split; apply before_refl. Qed.

(** A list can be sorted in one way only, if no two elements of a rank are exchanged. *)
Lemma stable_unique l1 l2 :
  sorted l1 → sorted l2 → (∀ x, rank x l1 = rank x l2) → l1 = l2.
Proof.
  assert (∀ x l, x ∈ rank x l ↔ x ∈ l) as Hin.
  { intros x l. unfold rank. rewrite list_elem_of_filter. split; [tauto|]. split; [split; apply before_refl|done]. }
  revert l2. induction l1 as [|x1 l1 IH]; intros l2 H1 H2 Hr.
  { destruct l2 as [|x2 l2]; [done|]. specialize (Hr x2). rewrite rank_head in Hr. done. }
  destruct l2 as [|x2 l2]; [specialize (Hr x1); rewrite rank_head in Hr; done|].
  apply sorted_cons in H1 as [H1 Hx1]. apply sorted_cons in H2 as [H2 Hx2].
  assert (x1 ∈ x2 :: l2) as Hx12 by (apply Hin; rewrite <-Hr; apply Hin; left).
  assert (x2 ∈ x1 :: l1) as Hx21 by (apply Hin; rewrite Hr; apply Hin; left).
  assert (same_rank x1 x2) as Hs.
  { split; [apply elem_of_cons in Hx21 as [->|]|apply elem_of_cons in Hx12 as [->|]];
      [apply before_refl|by apply Hx1|apply before_refl|by apply Hx2]. }
  pose proof (Hr x1) as E. rewrite rank_head in E. unfold rank in E.
  rewrite (filter_cons_True _ x2) in E by done. injection E as E _. rewrite <-E in *.
  f_equal. apply IH; [done..|]. intros y. specialize (Hr y). unfold rank in *.
  rewrite !filter_cons in Hr. destruct (decide (same_rank y x1)); [by injection Hr|done].
Qed.

(** ** Merging *)

#[local] Instance before_Total : Total before := before_total.
#[local] Instance before_Transitive : Transitive before := before_trans.

Lemma merge_sorted l1 l2 : sorted l1 → sorted l2 → sorted (list_merge before l1 l2).
Proof.
  intros H1 H2. apply Sorted_StronglySorted; [exact _|].
  apply Sorted_list_merge; [exact _|by apply StronglySorted_Sorted..].
Qed.

Lemma merge_rank x l1 l2 : sorted l1 → rank x (list_merge before l1 l2) = rank x l1 ++ rank x l2.
Proof.
  induction l1 as [|x1 l1 IH1] in l2 |- *; intros H1; [by rewrite list_merge_nil_l|].
  induction l2 as [|x2 l2 IH2]; [by rewrite list_merge_nil_r, app_nil_r|].
  pose proof H1 as [H1' Hx1]%sorted_cons. rewrite list_merge_cons. case_decide as Hb; unfold rank in *.
  - rewrite !(filter_cons _ x1), IH1 by done. by destruct (decide (same_rank x x1)).
  - rewrite !(filter_cons _ x2), IH2. destruct (decide (same_rank x x2)) as [[Hx Hx']|]; [|done].
    rewrite (rank_none x (x1 :: l1)); [done|]. intros y Hy [_ Hyx]. apply Hb.
    apply (before_trans _ y); [|by apply (before_trans _ x)].
    apply elem_of_cons in Hy as [->|Hy]; [apply before_refl|by apply Hx1].
Qed.
End sorting.

(** ** Runs *)

Section runs.
Context {A : Type} (cmp : A → A → Z).
Implicit Types l : list A.

(** The pairs of runs of [n] elements. *)
Fixpoint runs (fuel n : nat) l : list (list A * list A) :=
  match fuel, l with
  | S fuel, _ :: _ => (take n l, take n (drop n l)) :: runs fuel n (drop (n + n) l)
  | _, _ => []
  end.

Definition merged (ab : list A * list A) : list A := list_merge (before cmp) ab.1 ab.2.
Definition merge_pass (fuel n : nat) l : list A := concat (merged <$> runs fuel n l).

Lemma merged_perm ab : merged ab ≡ₚ ab.1 ++ ab.2.
Proof. apply merge_Permutation. Qed.

Lemma run_split n l : (take n l ++ take n (drop n l)) ++ drop (n + n) l = l.
Proof. rewrite <-app_assoc, <-drop_drop. by rewrite !take_drop. Qed.

Lemma runs_cons fuel n l :
  l ≠ [] → runs (S fuel) n l = (take n l, take n (drop n l)) :: runs fuel n (drop (n + n) l).
Proof. by destruct l. Qed.

Lemma merge_pass_cons fuel n l :
  l ≠ [] → merge_pass (S fuel) n l = merged (take n l, take n (drop n l)) ++ merge_pass fuel n (drop (n + n) l).
Proof. unfold merge_pass. intros Hl. by rewrite runs_cons. Qed.

Lemma merge_pass_perm fuel n l :
  (0 < n)%nat → (List.length l ≤ fuel)%nat → merge_pass fuel n l ≡ₚ l.
Proof.
  intros Hn. revert l. induction fuel as [|fuel IH]; intros l Hf; (destruct l as [|x l]; [done|]);
    [cbn in Hf; lia|].
  rewrite merge_pass_cons, merged_perm, IH by (done || (rewrite length_drop; cbn in *; lia)).
  cbn [fst snd]. by rewrite run_split.
Qed.

Lemma runs_length fuel n l : (0 < n)%nat → (List.length (runs fuel n l) ≤ List.length l)%nat.
Proof.
  intros Hn. revert l. induction fuel as [|fuel IH]; intros l; [cbn; lia|].
  destruct l as [|x l]; [done|]. rewrite runs_cons, length_cons by done.
  pose proof (IH (drop (n + n) (x :: l))) as Hl. rewrite length_drop in Hl. cbn [List.length] in *. lia.
Qed.

(** A single pair takes all elements. *)
Lemma runs_single fuel n l : (List.length l ≤ n + n)%nat → (List.length (runs fuel n l) ≤ 1)%nat.
Proof.
  intros Hl. destruct fuel, l as [|x l]; cbn [runs List.length]; [lia..|].
  rewrite drop_ge by done. by destruct fuel.
Qed.

(** ** Sorted runs *)

Context (Hcmp : consistent cmp).

(** The list is made of sorted runs of [n] elements. *)
Definition blocks (n : nat) l : Prop := ∀ k, sorted cmp (take n (drop (k * n) l)).

Lemma blocks_one l : blocks 1 l.
Proof.
  intros k. destruct (drop (k * 1) l) as [|x l']; [constructor|]. cbn. rewrite take_0.
  constructor; constructor.
Qed.

Lemma blocks_head n l : blocks n l → sorted cmp (take n l) ∧ sorted cmp (take n (drop n l)).
Proof. intros Hb. split; [apply (Hb 0%nat)|]. specialize (Hb 1%nat). by rewrite Nat.mul_1_l in Hb. Qed.

Lemma blocks_drop n l : blocks n l → blocks n (drop (n + n) l).
Proof. intros Hb k. rewrite drop_drop. specialize (Hb (S (S k))). by replace (n + n + k * n)%nat with (S (S k) * n)%nat by lia. Qed.

Lemma merged_length n l : List.length (merged (take n l, take n (drop n l))) = Nat.min (n + n) (List.length l).
Proof. rewrite merged_perm, length_app. cbn [fst snd]. rewrite !length_take, length_drop. lia. Qed.

(** A pass doubles the length of the runs, *)
Lemma merge_pass_blocks fuel n l :
  (List.length l ≤ fuel)%nat → blocks n l → blocks (n + n) (merge_pass fuel n l).
Proof.
  revert l. induction fuel as [|fuel IH]; intros l Hf Hb; (destruct l as [|x l];
    [intros k; cbn; rewrite drop_nil, take_nil; constructor|]); [cbn in Hf; lia|].
  pose proof (blocks_head n _ Hb) as [H1 H2].
  destruct (decide (n = 0%nat)) as [->|Hn]; [intros k; cbn [Nat.add]; rewrite take_0; constructor|].
  rewrite merge_pass_cons by done. set (m := merged _).
  assert (sorted cmp m) as Hm by (by apply merge_sorted).
  pose proof (merged_length n (x :: l)) as Hlm. fold m in Hlm.
  assert (blocks (n + n) (merge_pass fuel n (drop (n + n) (x :: l)))) as Hrest.
  { apply IH; [rewrite length_drop; cbn in *; lia|by apply blocks_drop]. }
  intros k. destruct (Nat.le_gt_cases (n + n) (List.length (x :: l))) as [Hge|Hlt].
  - destruct k as [|k]; cbn [Nat.mul].
    + rewrite drop_0, take_app_length' by lia. done.
    + rewrite drop_app_add' by lia. apply Hrest.
  - rewrite (drop_ge (x :: l)) by lia.
    assert (merge_pass fuel n [] = []) as -> by (unfold merge_pass; by destruct fuel). rewrite app_nil_r.
    destruct k as [|k]; [by rewrite drop_0, take_ge by lia|].
    rewrite drop_ge, take_nil by (cbn [Nat.mul]; lia). constructor.
Qed.

(** and does not exchange elements of the same rank. *)
Lemma merge_pass_rank fuel n l x :
  (List.length l ≤ fuel)%nat → (0 < n)%nat → blocks n l → rank cmp x (merge_pass fuel n l) = rank cmp x l.
Proof.
  intros Hf Hn. revert l Hf. induction fuel as [|fuel IH]; intros l Hf Hb; (destruct l as [|y l]; [done|]);
    [cbn in Hf; lia|].
  pose proof (blocks_head n _ Hb) as [H1 _]. rewrite merge_pass_cons by done.
  unfold rank at 1. rewrite filter_app. fold (rank cmp x (merge_pass fuel n (drop (n + n) (y :: l)))).
  rewrite IH by (by apply blocks_drop || (rewrite length_drop; cbn in *; lia)).
  fold (rank cmp x (merged (take n (y :: l), take n (drop n (y :: l))))).
  unfold merged. rewrite (merge_rank cmp Hcmp) by done. unfold rank. cbn [fst snd].
  by rewrite <-!filter_app, run_split.
Qed.

Lemma blocks_sorted n l : (List.length l ≤ n)%nat → blocks n l → sorted cmp l.
Proof. intros Hl Hb. specialize (Hb 0%nat). cbn in Hb. by rewrite drop_0, take_ge in Hb. Qed.

(** With a single pair, the result is sorted. *)
Lemma merge_pass_last fuel n l :
  (List.length l ≤ fuel)%nat → (List.length (runs fuel n l) ≤ 1)%nat → blocks n l → sorted cmp (merge_pass fuel n l).
Proof.
  intros Hf Hr Hb. destruct fuel as [|fuel]; [destruct l; [constructor|cbn in Hf; lia]|].
  destruct l as [|x l]; [constructor|]. rewrite merge_pass_cons by done.
  rewrite runs_cons, length_cons in Hr by done. pose proof (blocks_head n _ Hb) as [H1 H2].
  unfold merge_pass. destruct (runs fuel n _); [|cbn in Hr; lia]. rewrite app_nil_r. by apply merge_sorted.
Qed.
End runs.
