(* ===== verification/HashFn.v ===== *)
(** * uthash.h: the hash functions

    [HASH_FUNCTION] is [HASH_JEN] (Jenkins) unless the user of the header defines another one; the
    tables of this library are proved correct for any function whose results are 32 bits wide
    ([HashFunction]), of which the functions of the header are instances.  A key is the list of
    its bytes; [key[i]] is only read where [i] is less than its length. *)
From S2P Require Import Prelude.
Local Open Scope Z_scope.

(** [unsigned] is 32 bits wide. *)
Definition add32 (a b : Z) : Z := u32 (a + b).
Definition sub32 (a b : Z) : Z := u32 (a - b).
Definition shl32 (a n : Z) : Z := u32 (Z.shiftl a n).

(** [key[i] << n], or nothing if the key is not so long. *)
Definition key_byte (key : bytes) (i : nat) (n : Z) : Z :=
  match key !! i with Some b => shl32 (Z_of_byte b) n | None => 0 end.

(** ** Jenkins *)

(** One line of [HASH_JEN_MIX]: [a -= b; a -= c; a ^= c >> n], or with [<<]. *)
Definition mix_right (a b c n : Z) : Z := Z.lxor (sub32 (sub32 a b) c) (Z.shiftr c n).
Definition mix_left (a b c n : Z) : Z := Z.lxor (sub32 (sub32 a b) c) (shl32 c n).

Definition HASH_JEN_MIX (abc : Z * Z * Z) : Z * Z * Z :=
  let '(a, b, c) := abc in
  let a := mix_right a b c 13 in
  let b := mix_left b c a 8 in
  let c := mix_right c a b 13 in
  let a := mix_right a b c 12 in
  let b := mix_left b c a 16 in
  let c := mix_right c a b 5 in
  let a := mix_right a b c 3 in
  let b := mix_left b c a 10 in
  let c := mix_right c a b 15 in
  (a, b, c).

(** Four bytes from [key[i]] on, the least significant first. *)
Definition key_word (key : bytes) (i : nat) : Z :=
  add32 (add32 (add32 (key_byte key i 0) (key_byte key (i + 1) 8)) (key_byte key (i + 2) 16))
    (key_byte key (i + 3) 24).

(** The loop over blocks of twelve bytes, and the bytes that are left. *)
Fixpoint jen_blocks (ijh : Z * Z * Z) (key : bytes) {struct key} : Z * Z * Z * bytes :=
  match key with
  | _ :: _ :: _ :: _ :: _ :: _ :: _ :: _ :: _ :: _ :: _ :: _ :: rest =>
      let '(i, j, h) := ijh in
      jen_blocks (HASH_JEN_MIX (add32 i (key_word key 0), add32 j (key_word key 4),
                                add32 h (key_word key 8))) rest
  | _ => (ijh, key)
  end.

(** The [switch] over the rest falls through: every byte that is there is added. *)
Definition HASH_JEN (key : bytes) : Z :=
  let '(i, j, h, rest) := jen_blocks (0x9e3779b9, 0x9e3779b9, 0xfeedbeef) key in
  let h := add32 h (u32 (Z.of_nat (List.length key))) in
  let h := add32 (add32 (add32 h (key_byte rest 10 24)) (key_byte rest 9 16)) (key_byte rest 8 8) in
  let j := add32 (add32 (add32 (add32 j (key_byte rest 7 24)) (key_byte rest 6 16))
                   (key_byte rest 5 8)) (key_byte rest 4 0) in
  let i := add32 (add32 (add32 (add32 i (key_byte rest 3 24)) (key_byte rest 2 16))
                   (key_byte rest 1 8)) (key_byte rest 0 0) in
  let '(_, _, h) := HASH_JEN_MIX (i, j, h) in h.

(** ** Functions that take one byte at a time *)

Definition HASH_BER (key : bytes) : Z :=
  fold_left (fun h b => add32 (add32 (shl32 h 5) h) (Z_of_byte b)) key 0.

Definition HASH_SAX (key : bytes) : Z :=
  fold_left (fun h b =>
    Z.lxor h (add32 (add32 (shl32 h 5) (Z.shiftr h 2)) (Z_of_byte b))) key 0.

Definition HASH_FNV (key : bytes) : Z :=
  fold_left (fun h b => u32 (Z.lxor h (Z_of_byte b) * 16777619)) key 2166136261.

Definition HASH_OAT (key : bytes) : Z :=
  let h := fold_left (fun h b =>
    let h := add32 h (Z_of_byte b) in
    let h := add32 h (shl32 h 10) in
    Z.lxor h (Z.shiftr h 6)) key 0 in
  let h := add32 h (shl32 h 3) in
  let h := Z.lxor h (Z.shiftr h 11) in
  add32 h (shl32 h 15).

(** ** Hsieh *)

(** Two bytes from [key[i]] on. *)
Definition get16bits (key : bytes) (i : nat) : Z := add32 (key_byte key (i + 1) 8) (key_byte key i 0).

Definition sfh_step (h : Z) (key : bytes) : Z :=
  let h := add32 h (get16bits key 0) in
  let tmp := Z.lxor (shl32 (get16bits key 2) 11) h in
  let h := Z.lxor (shl32 h 16) tmp in
  add32 h (Z.shiftr h 11).

(** The main loop, over blocks of four bytes. *)
Fixpoint sfh_blocks (h : Z) (key : bytes) {struct key} : Z * bytes :=
  match key with
  | _ :: _ :: _ :: _ :: rest => sfh_blocks (sfh_step h key) rest
  | _ => (h, key)
  end.

Definition sfh_rest (h : Z) (rest : bytes) : Z :=
  match List.length rest with
  | 3%nat =>
      let h := add32 h (get16bits rest 0) in
      let h := Z.lxor h (shl32 h 16) in
      let h := Z.lxor h (key_byte rest 2 18) in
      add32 h (Z.shiftr h 11)
  | 2%nat =>
      let h := add32 h (get16bits rest 0) in
      let h := Z.lxor h (shl32 h 11) in
      add32 h (Z.shiftr h 17)
  | 1%nat =>
      let h := add32 h (key_byte rest 0 0) in
      let h := Z.lxor h (shl32 h 10) in
      add32 h (Z.shiftr h 1)
  | _ => h
  end.

Definition HASH_SFH (key : bytes) : Z :=
  let '(h, rest) := sfh_blocks 0xcafebabe key in
  let h := sfh_rest h rest in
  let h := Z.lxor h (shl32 h 3) in
  let h := add32 h (Z.shiftr h 5) in
  let h := Z.lxor h (shl32 h 4) in
  let h := add32 h (Z.shiftr h 17) in
  let h := Z.lxor h (shl32 h 25) in
  add32 h (Z.shiftr h 6).

(** ** Their results are 32 bits wide *)

Definition word32 (z : Z) : Prop := 0 ≤ z < 2 ^ 32.

Lemma word32_u32 z : word32 (u32 z).
Proof. apply u32_range. Qed.

Lemma word32_lxor a b : word32 a → word32 b → word32 (Z.lxor a b).
Proof.
  unfold word32. intros Ha Hb.
  assert (Hhigh : ∀ z n, 0 ≤ z < 2 ^ 32 → 32 ≤ n → Z.testbit z n = false).
  { intros z n Hz Hn. rewrite <-(Z.mod_small z (2 ^ 32)) by done. by apply Z.mod_pow2_bits_high. }
  assert (Z.lxor a b = Z.lxor a b mod 2 ^ 32) as ->; [|apply Z.mod_pos_bound; lia].
  apply Z.bits_inj'. intros n Hn. destruct (Z.lt_ge_cases n 32).
  - by rewrite Z.mod_pow2_bits_low.
  - rewrite Z.mod_pow2_bits_high by done. rewrite Z.lxor_spec. by rewrite !Hhigh.
Qed.

Lemma word32_shiftr a n : 0 ≤ n → word32 a → word32 (Z.shiftr a n).
Proof.
  unfold word32. intros Hn Ha. rewrite Z.shiftr_div_pow2 by done.
  pose proof (Z.pow_pos_nonneg 2 n). split; [apply Z.div_pos; lia|].
  apply Z.div_lt_upper_bound; nia.
Qed.

Lemma word32_byte b : word32 (Z_of_byte b).
Proof. pose proof (Z_of_byte_range b). unfold word32. lia. Qed.

Lemma word32_add a b : word32 (add32 a b).
Proof. apply word32_u32. Qed.
Lemma word32_shl a n : word32 (shl32 a n).
Proof. apply word32_u32. Qed.

Create HintDb word32.
#[export] Hint Resolve word32_u32 word32_lxor word32_shiftr word32_byte word32_add word32_shl : word32.
#[export] Hint Extern 1 (_ ≤ _) => lia : word32.

Lemma word32_mix_right a b c n : 0 ≤ n → word32 c → word32 (mix_right a b c n).
Proof. unfold mix_right, sub32. auto with word32. Qed.
Lemma word32_mix_left a b c n : word32 (mix_left a b c n).
Proof. unfold mix_left, sub32. auto with word32. Qed.
#[export] Hint Resolve word32_mix_right word32_mix_left : word32.

Lemma word32_jen key : word32 (HASH_JEN key).
Proof.
  unfold HASH_JEN. destruct (jen_blocks _ key) as [[[i j] h] rest].
  cbn -[key_byte mix_left mix_right]. auto with word32.
Qed.

(** A fold keeps what each step establishes. *)
Lemma word32_fold (f : Z → ascii → Z) key h :
  (∀ h b, word32 h → word32 (f h b)) → word32 h → word32 (fold_left f key h).
Proof. intros Hf. revert h. induction key as [|b key IH]; intros h Hh; cbn; auto. Qed.

Lemma word32_ber key : word32 (HASH_BER key).
Proof. apply word32_fold; [|done]. auto with word32. Qed.
Lemma word32_sax key : word32 (HASH_SAX key).
Proof. apply word32_fold; [|done]. auto with word32. Qed.
Lemma word32_fnv key : word32 (HASH_FNV key).
Proof. apply word32_fold; [|done]. auto with word32. Qed.
Lemma word32_oat key : word32 (HASH_OAT key).
Proof. unfold HASH_OAT. auto with word32. Qed.
Lemma word32_sfh key : word32 (HASH_SFH key).
Proof. unfold HASH_SFH. destruct (sfh_blocks _ key). auto with word32. Qed.

(** ** The function that a table uses *)

Class HashFunction := {
  HASH_FUNCTION : bytes → Z;
  HASH_FUNCTION_word32 key : word32 (HASH_FUNCTION key);
}.

Definition jen : HashFunction := {| HASH_FUNCTION_word32 := word32_jen |}.
Definition ber : HashFunction := {| HASH_FUNCTION_word32 := word32_ber |}.
Definition sax : HashFunction := {| HASH_FUNCTION_word32 := word32_sax |}.
Definition fnv : HashFunction := {| HASH_FUNCTION_word32 := word32_fnv |}.
Definition oat : HashFunction := {| HASH_FUNCTION_word32 := word32_oat |}.
Definition sfh : HashFunction := {| HASH_FUNCTION_word32 := word32_sfh |}.
