(* ===== verification/HashTable.v ===== *)
(** * uthash.h: the tables themselves

    [Uthash] describes a table by the list of its elements; here is what the macros do.  An element
    of a table is a structure with a handle [hh] in it; element and handle are named by the
    address of the element, so that [ELMT_FROM_HH] and [HH_FROM_ELMT]
    disappear.  The handles are on
    two doubly-linked lists: [prev], [next] in the order in which the elements were added, and
    [hh_prev], [hh_next] for the elements of one bucket.  All elements of a table point to the
    same [UT_hash_table]; it is found through the head of the list.

    When memory runs out, [uthash_fatal] ends the process; a macro that may do so yields
    [None] then.  Out of the optional parts of the header, none is switched on in this program:
    no Bloom filter, no [HASH_NONFATAL_OOM], no [HASH_EMIT_KEYS]. *)
From S2P Require Import Prelude Mem HashFn.
Local Open Scope Z_scope.

Record UT_hash_handle := {
  prev : option positive;
  next : option positive;
  hh_prev : option positive;
  hh_next : option positive;
  key : string;
  keylen : Z;
  hashv : Z;
}.

Record UT_hash_bucket := { hh_head : option positive; count : Z; expand_mult : Z }.

Record UT_hash_table := {
  buckets : list UT_hash_bucket;
  num_buckets : Z;
  log2_num_buckets : Z;
  num_items : Z;
  tail : positive;
  ideal_chain_maxlen : Z;
  nonideal_items : Z;
  ineff_expands : Z;
  noexpand : Z;
}.

(** The handles of the elements, the pointer to the first element, its table. *)
Record uthash := {
  handles : gmap positive UT_hash_handle;
  head : option positive;
  tbl : option UT_hash_table;
}.

(** ** Assignments *)

Definition set_app (p n : option positive) (h : UT_hash_handle) : UT_hash_handle :=
  {| prev := p; next := n; hh_prev := hh_prev h; hh_next := hh_next h;
     key := key h; keylen := keylen h; hashv := hashv h |}.
Definition set_bkt (p n : option positive) (h : UT_hash_handle) : UT_hash_handle :=
  {| prev := prev h; next := next h; hh_prev := p; hh_next := n;
     key := key h; keylen := keylen h; hashv := hashv h |}.

Definition set_prev p (h : UT_hash_handle) := set_app p (next h) h.
Definition set_next n (h : UT_hash_handle) := set_app (prev h) n h.
Definition set_hh_prev p (h : UT_hash_handle) := set_bkt p (hh_next h) h.
Definition set_hh_next n (h : UT_hash_handle) := set_bkt (hh_prev h) n h.

Definition set_buckets b (t : UT_hash_table) : UT_hash_table :=
  {| buckets := b; num_buckets := num_buckets t; log2_num_buckets := log2_num_buckets t;
     num_items := num_items t; tail := tail t; ideal_chain_maxlen := ideal_chain_maxlen t;
     nonideal_items := nonideal_items t; ineff_expands := ineff_expands t; noexpand := noexpand t |}.
Definition set_num_items n (t : UT_hash_table) : UT_hash_table :=
  {| buckets := buckets t; num_buckets := num_buckets t; log2_num_buckets := log2_num_buckets t;
     num_items := n; tail := tail t; ideal_chain_maxlen := ideal_chain_maxlen t;
     nonideal_items := nonideal_items t; ineff_expands := ineff_expands t; noexpand := noexpand t |}.
Definition set_tail p (t : UT_hash_table) : UT_hash_table :=
  {| buckets := buckets t; num_buckets := num_buckets t; log2_num_buckets := log2_num_buckets t;
     num_items := num_items t; tail := p; ideal_chain_maxlen := ideal_chain_maxlen t;
     nonideal_items := nonideal_items t; ineff_expands := ineff_expands t; noexpand := noexpand t |}.

Definition with_handles hs (s : uthash) : uthash := {| handles := hs; head := head s; tbl := tbl s |}.
Definition with_tbl t (s : uthash) : uthash := {| handles := handles s; head := head s; tbl := Some t |}.
Definition with_head p (s : uthash) : uthash := {| handles := handles s; head := p; tbl := tbl s |}.

(** An assignment through a pointer, and one through a pointer that may be NULL. *)
Definition update (p : positive) (f : UT_hash_handle → UT_hash_handle) (hs : gmap positive UT_hash_handle)
  : exec (gmap positive UT_hash_handle) :=
  h ← deref (hs !! p); mret (<[p := f h]> hs).
Definition update_opt (p : option positive) f hs : exec (gmap positive UT_hash_handle) :=
  match p with Some p => update p f hs | None => mret hs end.

(** [(head)->hh.tbl] *)
Definition table_of (s : uthash) : exec UT_hash_table := _ ← deref (head s); deref (tbl s).

Definition HASH_INITIAL_NUM_BUCKETS : Z := 32.
Definition HASH_INITIAL_NUM_BUCKETS_LOG2 : Z := 5.
Definition HASH_BKT_CAPACITY_THRESH : Z := 10.
Definition sizeof_UT_hash_table : Z := 64.
Definition sizeof_UT_hash_bucket : Z := 16.

Definition empty_bucket : UT_hash_bucket := {| hh_head := None; count := 0; expand_mult := 0 |}.

Definition HASH_TO_BKT (hashv num_bkts : Z) : nat := Z.to_nat (Z.land hashv (sub32 num_bkts 1)).

Section HashTable.
Context `{Malloc, HashFunction}.

(** ** Adding *)

(** A table whose only element is [add]; its buckets are empty as yet. *)
Definition HASH_MAKE_TABLE (add : positive) : option UT_hash_table :=
  if malloc_ok sizeof_UT_hash_table
     && malloc_ok (HASH_INITIAL_NUM_BUCKETS * sizeof_UT_hash_bucket)
  then Some {|
    buckets := replicate (Z.to_nat HASH_INITIAL_NUM_BUCKETS) empty_bucket;
    num_buckets := HASH_INITIAL_NUM_BUCKETS; log2_num_buckets := HASH_INITIAL_NUM_BUCKETS_LOG2;
    num_items := 0; tail := add; ideal_chain_maxlen := 0; nonideal_items := 0;
    ineff_expands := 0; noexpand := 0 |}
  else None.

Definition HASH_APPEND_LIST (add : positive) (s : uthash) : exec uthash :=
  t ← table_of s;
  hs ← update add (set_app (Some (tail t)) None) (handles s);
  hs ← update (tail t) (set_next (Some add)) hs;
  mret (with_tbl (set_tail add t) (with_handles hs s)).

(** What a loop over the old buckets builds: the handles, the new buckets, [nonideal_items]. *)
Notation expansion := (gmap positive UT_hash_handle * list UT_hash_bucket * Z)%type.

(** The body of the inner loop: the handle [thh] goes to the front of its new bucket. *)
Definition expand_one (nb2 ideal : Z) (thh : positive) (e : expansion) : exec expansion :=
  let '(hs, new, nonideal) := e in
  h ← deref (hs !! thh);
  let i := HASH_TO_BKT (hashv h) nb2 in
  b ← deref (new !! i);
  let c := add32 (count b) 1 in
  let over := ideal <? c in
  let nonideal := if over then add32 nonideal 1 else nonideal in
  let mult := if over && (u32 (expand_mult b * ideal) <? c)
              then add32 (expand_mult b) 1 else expand_mult b in
  hs ← update thh (set_bkt None (hh_head b)) hs;
  hs ← update_opt (hh_head b) (set_hh_prev (Some thh)) hs;
  mret (hs, <[i := {| hh_head := Some thh; count := c; expand_mult := mult |}]> new, nonideal).

(** The inner loop, over the handles of one bucket. *)
Fixpoint expand_bucket (fuel : nat) (nb2 ideal : Z) (thh : option positive) (e : expansion)
  : exec expansion :=
  match thh with
  | None => mret e
  | Some p =>
      match fuel with
      | O => NoFuel
      | S fuel =>
          h ← deref (e.1.1 !! p);
          e ← expand_one nb2 ideal p e;
          expand_bucket fuel nb2 ideal (hh_next h) e
      end
  end.

(** The outer loop, over the indices of the old buckets. *)
Fixpoint expand_loop (fuel : nat) (old : list UT_hash_bucket) (ixs : list nat) (nb2 ideal : Z)
    (e : expansion) : exec expansion :=
  match ixs with
  | [] => mret e
  | i :: ixs =>
      b ← deref (old !! i);
      e ← expand_bucket fuel nb2 ideal (hh_head b) e;
      expand_loop fuel old ixs nb2 ideal e
  end.

(** Twice as many buckets; a shift by the width of the type is undefined. *)
Definition HASH_EXPAND_BUCKETS (s : uthash) : exec (option uthash) :=
  t ← deref (tbl s);
  if negb (malloc_ok (sizeof_UT_hash_bucket * num_buckets t * 2)) then mret None else
  let nb2 := u32 (num_buckets t * 2) in
  let lb2 := add32 (log2_num_buckets t) 1 in
  if 32 <=? lb2 then Undef else
  let ideal := add32 (Z.shiftr (num_items t) lb2)
                 (if Z.land (num_items t) (sub32 nb2 1) =? 0 then 0 else 1) in
  '(hs, new, nonideal) ←
    expand_loop (S (size (handles s))) (buckets t) (seq 0 (Z.to_nat (num_buckets t))) nb2 ideal
      (handles s, replicate (Z.to_nat (num_buckets t * 2)) empty_bucket, 0);
  let ineff := if Z.shiftr (num_items t) 1 <? nonideal then add32 (ineff_expands t) 1 else 0 in
  mret (Some (with_tbl {|
    buckets := new; num_buckets := nb2; log2_num_buckets := lb2; num_items := num_items t;
    tail := tail t; ideal_chain_maxlen := ideal; nonideal_items := nonideal;
    ineff_expands := ineff; noexpand := if 1 <? ineff then 1 else noexpand t |}
    (with_handles hs s))).

(** Two handles are linked, then the bucket may be too full. *)
Definition HASH_ADD_TO_BKT (i : nat) (add : positive) (s : uthash) : exec (option uthash) :=
  t ← table_of s;
  b ← deref (buckets t !! i);
  let c := add32 (count b) 1 in
  hs ← update add (set_bkt None (hh_head b)) (handles s);
  hs ← update_opt (hh_head b) (set_hh_prev (Some add)) hs;
  let t := set_buckets (<[i := {| hh_head := Some add; count := c; expand_mult := expand_mult b |}]>
                          (buckets t)) t in
  let s := with_tbl t (with_handles hs s) in
  if (u32 (add32 (expand_mult b) 1 * HASH_BKT_CAPACITY_THRESH) <=? c) && (noexpand t =? 0)
  then HASH_EXPAND_BUCKETS s
  else mret (Some s).

Definition HASH_ADD_TO_TABLE (hv : Z) (add : positive) (s : uthash) : exec (option uthash) :=
  t ← table_of s;
  let t := set_num_items (add32 (num_items t) 1) t in
  HASH_ADD_TO_BKT (HASH_TO_BKT hv (num_buckets t)) add (with_tbl t s).

(** The handle of an element that is about to be added. *)
Definition new_handle (k : string) (hv : Z) : UT_hash_handle :=
  {| prev := None; next := None; hh_prev := None; hh_next := None;
     key := k; keylen := u32 (strlen k); hashv := hv |}.

Definition HASH_ADD_KEYPTR_BYHASHVALUE (k : string) (hv : Z) (add : positive) (s : uthash)
  : exec (option uthash) :=
  let s := with_handles (<[add := new_handle k hv]> (handles s)) s in
  match head s with
  | None =>
      match HASH_MAKE_TABLE add with
      | None => mret None
      | Some t =>
          HASH_ADD_TO_TABLE hv add {| handles := handles s; head := Some add; tbl := Some t |}
      end
  | Some _ => s ← HASH_APPEND_LIST add s; HASH_ADD_TO_TABLE hv add s
  end.

(** [HASH_ADD_STR(head, key, add)], the key of [add] being [k]. *)
Definition HASH_ADD_STR (k : string) (add : positive) (s : uthash) : exec (option uthash) :=
  HASH_ADD_KEYPTR_BYHASHVALUE k (HASH_FUNCTION (chars k)) add s.

(** ** Finding *)

(** [memcmp] over the first [n] characters. *)
Definition HASH_KEYCMP (a b : string) (n : Z) : bool :=
  bool_decide (take (Z.to_nat n) (chars a) = take (Z.to_nat n) (chars b)).

Fixpoint find_loop (fuel : nat) (hs : gmap positive UT_hash_handle) (k : string) (klen hv : Z)
    (out : option positive) : exec (option positive) :=
  match out with
  | None => mret None
  | Some p =>
      match fuel with
      | O => NoFuel
      | S fuel =>
          h ← deref (hs !! p);
          if (hashv h =? hv) && (keylen h =? klen) && HASH_KEYCMP (key h) k klen
          then mret (Some p)
          else find_loop fuel hs k klen hv (hh_next h)
      end
  end.

Definition HASH_FIND_IN_BKT (i : nat) (k : string) (klen hv : Z) (s : uthash)
  : exec (option positive) :=
  t ← table_of s;
  b ← deref (buckets t !! i);
  find_loop (S (size (handles s))) (handles s) k klen hv (hh_head b).

Definition HASH_FIND_STR (k : string) (s : uthash) : exec (option positive) :=
  match head s with
  | None => mret None
  | Some _ =>
      let hv := HASH_FUNCTION (chars k) in
      t ← table_of s;
      HASH_FIND_IN_BKT (HASH_TO_BKT hv (num_buckets t)) k (u32 (strlen k)) hv s
  end.

(** ** Deleting *)

Definition HASH_DEL_IN_BKT (i : nat) (del : positive) (s : uthash) : exec uthash :=
  t ← table_of s;
  b ← deref (buckets t !! i);
  h ← deref (handles s !! del);
  let first := if bool_decide (hh_head b = Some del) then hh_next h else hh_head b in
  hs ← update_opt (hh_prev h) (set_hh_next (hh_next h)) (handles s);
  hs ← update_opt (hh_next h) (set_hh_prev (hh_prev h)) hs;
  mret (with_tbl (set_buckets
    (<[i := {| hh_head := first; count := sub32 (count b) 1; expand_mult := expand_mult b |}]>
       (buckets t)) t) (with_handles hs s)).

(** [HASH_DEL]: with its last element the table is freed. *)
Definition HASH_DELETE_HH (del : positive) (s : uthash) : exec uthash :=
  h ← deref (handles s !! del);
  t ← table_of s;
  if bool_decide (prev h = None) && bool_decide (next h = None)
  then mret {| handles := handles s; head := None; tbl := None |}
  else
    t ← (if bool_decide (del = tail t) then p ← deref (prev h); mret (set_tail p t) else mret t);
    hs ← update_opt (prev h) (set_next (next h)) (handles s);
    let first := match prev h with Some _ => head s | None => next h end in
    hs ← update_opt (next h) (set_prev (prev h)) hs;
    s ← HASH_DEL_IN_BKT (HASH_TO_BKT (hashv h) (num_buckets t)) del
          {| handles := hs; head := first; tbl := Some t |};
    t ← table_of s;
    mret (with_tbl (set_num_items (sub32 (num_items t) 1) t) s).

(** The table and its buckets are freed; the elements are left alone. *)
Definition HASH_CLEAR (s : uthash) : uthash :=
  match head s with
  | None => s
  | Some _ => {| handles := handles s; head := None; tbl := None |}
  end.

Definition HASH_COUNT (s : uthash) : exec Z :=
  match head s with None => mret 0 | Some _ => t ← table_of s; mret (num_items t) end.

(** ** Iterating

    [tmp] is the element after [el]; it is read before the body, which may delete [el]. *)
Definition next_of (p : option positive) (s : uthash) : exec (option positive) :=
  match p with
  | None => mret None
  | Some p => h ← deref (handles s !! p); mret (next h)
  end.

Fixpoint iter_loop {A} (fuel : nat) (body : positive → A → uthash → exec (A * uthash))
    (el tmp : option positive) (a : A) (s : uthash) : exec (A * uthash) :=
  match el with
  | None => mret (a, s)
  | Some p =>
      match fuel with
      | O => NoFuel
      | S fuel =>
          '(a, s) ← body p a s;
          tmp' ← next_of tmp s;
          iter_loop fuel body tmp tmp' a s
      end
  end.

Definition HASH_ITER {A} (fuel : nat) (body : positive → A → uthash → exec (A * uthash))
    (a : A) (s : uthash) : exec (A * uthash) :=
  tmp ← next_of (head s) s;
  iter_loop fuel body (head s) tmp a s.

(** The bodies of the library: the element is looked at, or deleted and freed. *)
Definition visit (p : positive) (a : list positive) (s : uthash) : exec (list positive * uthash) :=
  mret (a ++ [p], s).
Definition delete_and_free (p : positive) (a : list positive) (s : uthash)
  : exec (list positive * uthash) :=
  s ← HASH_DELETE_HH p s;
  hs ← mem__free (handles s) p;
  mret (a ++ [p], with_handles hs s).

(** ** The check of the header itself

    [HASH_FSCK] is compiled under [HASH_DEBUG] only.  It walks over every bucket and over the list of
    all elements: the pointers back must lead to where it comes from, and the counts must be
    right.  Here the result is whether it finds nothing to complain about. *)
Fixpoint fsck_walk (links : UT_hash_handle → option positive * option positive) (fuel : nat)
    (hs : gmap positive UT_hash_handle) (thh prv : option positive) (cnt : Z) : exec (option Z) :=
  match thh with
  | None => mret (Some cnt)
  | Some p =>
      match fuel with
      | O => NoFuel
      | S fuel =>
          h ← deref (hs !! p);
          let cnt := add32 cnt 1 in
          if bool_decide ((links h).1 = prv)
          then fsck_walk links fuel hs (links h).2 (Some p) cnt
          else mret None
      end
  end.

Fixpoint fsck_buckets (fuel : nat) (hs : gmap positive UT_hash_handle) (bs : list UT_hash_bucket)
    (ixs : list nat) (total : Z) : exec (option Z) :=
  match ixs with
  | [] => mret (Some total)
  | i :: ixs =>
      b ← deref (bs !! i);
      c ← fsck_walk (fun h => (hh_prev h, hh_next h)) fuel hs (hh_head b) None 0;
      match c with
      | Some c => if count b =? c then fsck_buckets fuel hs bs ixs (add32 total c) else mret None
      | None => mret None
      end
  end.

Definition HASH_FSCK (s : uthash) : exec bool :=
  match head s with
  | None => mret true
  | Some _ =>
      t ← table_of s;
      let fuel := S (size (handles s)) in
      total ← fsck_buckets fuel (handles s) (buckets t) (seq 0 (Z.to_nat (num_buckets t))) 0;
      items ← fsck_walk (fun h => (prev h, next h)) fuel (handles s) (head s) None 0;
      mret (bool_decide (total = Some (num_items t)) && bool_decide (items = Some (num_items t)))
  end.
End HashTable.
