(* ===== verification/HashLists.v ===== *)
(** * Doubly-linked lists among the handles of a hash table

    [dseg lk pp l nn]: by the links [lk], the elements of [l] are on a list, one behind the other;
    [pp] is in front of the first and [nn] behind the last.  The links of a handle are those of
    the application order ([app_links]) or those of its bucket ([bkt_links]). *)
From S2P Require Import Prelude HashTable.

Notation links := (positive → option (option positive * option positive)) (only parsing).

Definition first (l : list positive) (nn : option positive) : option positive :=
  match l with [] => nn | x :: _ => Some x end.
Definition final (pp : option positive) (l : list positive) : option positive :=
  match last l with Some x => Some x | None => pp end.

Fixpoint dseg (lk : links) (pp : option positive) (l : list positive) (nn : option positive) : Prop :=
  match l with
  | [] => True
  | x :: l => lk x = Some (pp, first l nn) ∧ dseg lk (Some x) l nn
  end.

Lemma first_app l1 l2 nn : first (l1 ++ l2) nn = first l1 (first l2 nn).
Proof. by destruct l1. Qed.

Lemma final_cons pp x l : final pp (x :: l) = final (Some x) l.
Proof. unfold final. rewrite last_cons. by destruct (last l). Qed.

Lemma final_snoc pp l x : final pp (l ++ [x]) = Some x.
Proof. unfold final. by rewrite last_snoc. Qed.

Lemma final_elem pp l x : final pp l = Some x → pp = Some x ∨ x ∈ l.
Proof.
  unfold final. destruct (last l) eqn:E; [|by left]. intros [= ->]. right.
  by apply last_Some_elem_of.
Qed.

Lemma first_elem l nn x : first l nn = Some x → x ∈ l ∨ nn = Some x.
Proof. destruct l; [by right|]. intros [= ->]. left. left. Qed.

Lemma dseg_app lk pp l1 l2 nn :
  dseg lk pp (l1 ++ l2) nn ↔ dseg lk pp l1 (first l2 nn) ∧ dseg lk (final pp l1) l2 nn.
Proof.
  revert pp. induction l1 as [|x l1 IH]; intros pp; cbn [app dseg]; [tauto|].
  rewrite IH, first_app, final_cons. tauto.
Qed.

Lemma dseg_ext lk lk' pp l nn :
  (∀ x, x ∈ l → lk' x = lk x) → dseg lk pp l nn → dseg lk' pp l nn.
Proof.
  revert pp. induction l as [|x l IH]; intros pp Hext; [done|]. intros [Hx Hl]. split.
  - rewrite Hext by left. done.
  - apply IH; [|done]. intros y Hy. apply Hext. by right.
Qed.

Lemma dseg_lookup lk pp l nn x : dseg lk pp l nn → x ∈ l → is_Some (lk x).
Proof.
  revert pp. induction l as [|y l IH]; intros pp; [by intros _ ?%not_elem_of_nil|].
  intros [Hy Hl] [->|Hx]%elem_of_cons; [by rewrite Hy|by apply (IH (Some y))].
Qed.

Lemma dseg_mid lk pp l1 x l2 nn :
  dseg lk pp (l1 ++ x :: l2) nn → lk x = Some (final pp l1, first l2 nn).
Proof. intros [_ [Hx _]]%dseg_app. done. Qed.

(** ** What the macros do to the links *)

(** [x] is put in front of [o]. *)
Definition link_front (lk : links) (x : positive) (o : option positive) : links := fun y =>
  if decide (y = x) then Some (None, o)
  else (fun e => (if decide (o = Some y) then Some x else e.1, e.2)) <$> lk y.

(** [x] is put behind [z]. *)
Definition link_back (lk : links) (x z : positive) : links := fun y =>
  if decide (y = x) then Some (Some z, None)
  else (fun e => (e.1, if decide (y = z) then Some x else e.2)) <$> lk y.

(** What lies between [a] and [b] is taken out. *)
Definition unlink (lk : links) (a b : option positive) : links := fun y =>
  (fun e => (if decide (b = Some y) then a else e.1, if decide (a = Some y) then b else e.2)) <$> lk y.

Lemma dseg_link_front lk x l :
  NoDup (x :: l) → dseg lk None l None → dseg (link_front lk x (first l None)) None (x :: l) None.
Proof.
  intros [Hx Hnd]%NoDup_cons Hl. unfold link_front. split; [by rewrite decide_True|].
  destruct l as [|y l]; [done|]. destruct Hl as [Hy Hl]. apply NoDup_cons in Hnd as [Hy' Hnd].
  split.
  - rewrite decide_False by set_solver. rewrite Hy. cbn. by rewrite decide_True.
  - apply (dseg_ext lk); [|done]. intros z Hz. cbn.
    rewrite decide_False by set_solver. destruct (lk z) as [[p n]|]; [cbn|done].
    rewrite decide_False; [done|]. intros [= ->]. done.
Qed.

Lemma dseg_link_back lk x l z :
  x ∉ l → NoDup l → last l = Some z → dseg lk None l None → dseg (link_back lk x z) None (l ++ [x]) None.
Proof.
  intros Hx Hnd [l' ->]%last_Some Hl. apply NoDup_app in Hnd as (Hnd & Hdis & _).
  rewrite <-app_assoc. apply dseg_app in Hl as [Hl' [Hz _]]. apply dseg_app. unfold link_back.
  split; [|split; [|split; [|done]]]; cbn in *.
  - apply (dseg_ext lk); [|done]. intros y Hy. rewrite decide_False by set_solver.
    destruct (lk y) as [[p n]|]; [cbn|done]. rewrite decide_False; [done|]. intros ->.
    apply (Hdis z); [done|]. left.
  - rewrite decide_False by set_solver. rewrite Hz. cbn. by rewrite decide_True.
  - by rewrite decide_True.
Qed.

Lemma unlink_other lk a b y : a ≠ Some y → b ≠ Some y → unlink lk a b y = lk y.
Proof.
  intros Ha Hb. unfold unlink. destruct (lk y) as [[p n]|]; [cbn|done].
  by rewrite !decide_False.
Qed.

Lemma dseg_unlink lk l1 x l2 :
  NoDup (l1 ++ x :: l2) → dseg lk None (l1 ++ x :: l2) None →
  dseg (unlink lk (final None l1) (first l2 None)) None (l1 ++ l2) None.
Proof.
  intros Hnd Hl. apply dseg_app in Hl as [H1 [_ H2]]. cbn [first] in H1.
  apply NoDup_app in Hnd as (Hnd1 & Hdis & [Hx Hnd2]%NoDup_cons).
  assert (Hd : ∀ y, y ∈ l1 → y ∉ l2) by set_solver.
  set (a := final None l1). set (b := first l2 None).
  assert (Ha : ∀ y, a = Some y → y ∈ l1) by (intros y [|]%final_elem; done).
  assert (Hb : ∀ y, b = Some y → y ∈ l2) by (intros y [|]%first_elem; done).
  apply dseg_app. fold a b. split.
  - destruct l1 as [|z l1 _] using rev_ind; [done|]. subst a. rewrite final_snoc in *.
    apply dseg_app in H1 as [H1 [Hz _]]. apply dseg_app. cbn in *.
    apply NoDup_app in Hnd1 as (_ & Hz' & _). split; [|split; [|done]].
    + apply (dseg_ext lk); [|done]. intros y Hy.
      apply unlink_other; [intros [= <-]; apply (Hz' z); [done|left]|intros ?%Hb; set_solver].
    + unfold unlink. rewrite Hz. cbn. rewrite decide_False by (intros ?%Hb; set_solver).
      by rewrite decide_True.
  - destruct l2 as [|y l2]; [done|]. subst b. cbn [first] in *. destruct H2 as [Hy H2].
    apply NoDup_cons in Hnd2 as [Hy' _]. cbn [dseg]. split.
    + unfold unlink. rewrite Hy. cbn. rewrite decide_True by done.
      rewrite decide_False; [done|]. intros ?%Ha. set_solver.
    + apply (dseg_ext lk); [|done]. intros z Hz.
      apply unlink_other; [intros ?%Ha; set_solver|intros [= <-]; done].
Qed.

(** ** The links of the handles *)

Notation heap := (gmap positive UT_hash_handle) (only parsing).

Definition app_links (hs : heap) : links := fun x => (fun h => (prev h, next h)) <$> hs !! x.
Definition bkt_links (hs : heap) : links := fun x => (fun h => (hh_prev h, hh_next h)) <$> hs !! x.
Definition meta (hs : heap) (x : positive) : option (string * Z * Z) :=
  (fun h => (key h, keylen h, hashv h)) <$> hs !! x.

Lemma app_lookup hs x h : hs !! x = Some h → app_links hs x = Some (prev h, next h).
Proof. unfold app_links. by intros ->. Qed.
Lemma bkt_lookup hs x h : hs !! x = Some h → bkt_links hs x = Some (hh_prev h, hh_next h).
Proof. unfold bkt_links. by intros ->. Qed.
Lemma meta_lookup hs x h : hs !! x = Some h → meta hs x = Some (key h, keylen h, hashv h).
Proof. unfold meta. by intros ->. Qed.

(** An assignment succeeds if what it goes through is there; the handle is changed, no other. *)
Lemma update_opt_done p f (hs : heap) :
  (∀ x, p = Some x → is_Some (hs !! x)) →
  ∃ hs', update_opt p f hs = Done hs' ∧
    ∀ y, hs' !! y = (fun h => if decide (p = Some y) then f h else h) <$> hs !! y.
Proof.
  intros Hp. destruct p as [x|]; cbn.
  - destruct (Hp x eq_refl) as [h Hh]. unfold update. rewrite Hh. cbn. eexists. split; [done|].
    intros y. destruct (decide (x = y)) as [->|Hne].
    + rewrite lookup_insert_eq, Hh. cbn. by rewrite decide_True.
    + rewrite lookup_insert_ne by done. destruct (hs !! y); [cbn|done].
      rewrite decide_False; [done|congruence].
  - exists hs. split; [done|]. intros y. by destruct (hs !! y).
Qed.

Lemma update_done x f (hs : heap) :
  is_Some (hs !! x) →
  ∃ hs', update x f hs = Done hs' ∧
    ∀ y, hs' !! y = (fun h => if decide (Some x = Some y) then f h else h) <$> hs !! y.
Proof. intros Hx. apply (update_opt_done (Some x) f hs). by intros ? [= <-]. Qed.
