(* ===== verification/HashChains.v ===== *)
(** * The buckets of a hash table

    [chains hs nb bs cs ids]: the buckets [bs] hold the elements [ids], each the bucket that its
    hash value selects; the chain of the i-th bucket is the i-th list of [cs]. *)
From S2P Require Import Prelude Mem HashFn HashTable HashLists.
Local Open Scope Z_scope.

Record bucket_ok (hs : gmap positive UT_hash_handle) (nb : Z) (i : nat) (b : UT_hash_bucket)
    (c : list positive) : Prop := {
  bo_head : hh_head b = first c None;
  bo_count : count b = Z.of_nat (List.length c);
  bo_chain : dseg (bkt_links hs) None c None;
  bo_index x : x ∈ c → ∃ h, hs !! x = Some h ∧ HASH_TO_BKT (hashv h) nb = i;
}.

Record chains (hs : gmap positive UT_hash_handle) (nb : Z) (bs : list UT_hash_bucket)
    (cs : list (list positive)) (ids : list positive) : Prop := {
  ch_num : Z.of_nat (List.length bs) = nb;
  ch_length : List.length cs = List.length bs;
  ch_bucket i b c : bs !! i = Some b → cs !! i = Some c → bucket_ok hs nb i b c;
  ch_elems : concat cs ≡ₚ ids;
}.

(** ** The bucket of a hash value *)

Lemma HASH_TO_BKT_mod hv k :
  word32 hv → 0 ≤ k < 32 → HASH_TO_BKT hv (2 ^ k) = Z.to_nat (hv mod 2 ^ k).
Proof.
  intros Hh Hk. unfold HASH_TO_BKT, sub32.
  assert (0 < 2 ^ k < 2 ^ 32) as Hr.
  { split; [apply Z.pow_pos_nonneg; lia|apply Z.pow_lt_mono_r; lia]. }
  unfold u32. rewrite Z.mod_small by lia. rewrite Z.sub_1_r, <-Z.ones_equiv, Z.land_ones by lia. done.
Qed.

Lemma HASH_TO_BKT_lt hv k :
  word32 hv → 0 ≤ k < 32 → (HASH_TO_BKT hv (2 ^ k) < Z.to_nat (2 ^ k))%nat.
Proof.
  intros Hh Hk. rewrite HASH_TO_BKT_mod by done.
  pose proof (Z.mod_pos_bound hv (2 ^ k)). pose proof (Z.pow_pos_nonneg 2 k). lia.
Qed.

(** ** Lists of chains *)

Lemma concat_middle (cs : list (list positive)) i c :
  cs !! i = Some c → ∃ r, concat cs ≡ₚ c ++ r ∧ ∀ c', concat (<[i := c']> cs) ≡ₚ c' ++ r.
Proof.
  revert i. induction cs as [|c0 cs IH]; intros [|i] Hi; [done|done| |].
  - injection Hi as ->. by exists (concat cs).
  - destruct (IH i Hi) as (r & Hr & Hins). exists (c0 ++ r). cbn. split.
    + rewrite Hr. by rewrite Permutation_app_swap_app.
    + intros c'. rewrite Hins. by rewrite Permutation_app_swap_app.
Qed.

Lemma elem_of_chain (cs : list (list positive)) i c x : cs !! i = Some c → x ∈ c → x ∈ concat cs.
Proof.
  intros Hi Hx. destruct (concat_middle _ _ _ Hi) as (r & Hr & _). rewrite Hr. set_solver.
Qed.

Lemma chain_unique (cs : list (list positive)) i j c c' x :
  NoDup (concat cs) → cs !! i = Some c → cs !! j = Some c' → x ∈ c → x ∈ c' → i = j.
Proof.
  revert i j. induction cs as [|c0 cs IH]; intros i j Hnd Hi Hj Hx Hx'; [done|].
  cbn in Hnd. apply NoDup_app in Hnd as (_ & Hdis & Hnd). destruct i as [|i], j as [|j]; cbn in *.
  - done.
  - injection Hi as ->. exfalso. apply (Hdis x Hx). by apply (elem_of_chain cs j c').
  - injection Hj as ->. exfalso. apply (Hdis x Hx'). by apply (elem_of_chain cs i c).
  - f_equal. by apply (IH i j).
Qed.

Lemma chain_of_elem (cs : list (list positive)) x : x ∈ concat cs → ∃ i c, cs !! i = Some c ∧ x ∈ c.
Proof.
  induction cs as [|c cs IH]; cbn; [by intros ?%not_elem_of_nil|].
  intros [Hx|(i & c' & Hi & Hx)%IH]%elem_of_app; [by exists 0%nat, c|by exists (S i), c'].
Qed.

(** The chain of a bucket that is there. *)
Lemma chains_lookup hs nb bs cs ids i b :
  chains hs nb bs cs ids → bs !! i = Some b → ∃ c, cs !! i = Some c ∧ bucket_ok hs nb i b c.
Proof.
  intros Hch Hb. assert (is_Some (cs !! i)) as [c Hc].
  { apply lookup_lt_is_Some. rewrite (ch_length _ _ _ _ _ Hch). by apply lookup_lt_Some in Hb. }
  exists c. split; [done|]. by apply (ch_bucket _ _ _ _ _ Hch).
Qed.

(** The chain on which an element is. *)
Lemma chains_elem hs nb bs cs ids x h :
  chains hs nb bs cs ids → x ∈ ids → hs !! x = Some h →
  ∃ b c, bs !! HASH_TO_BKT (hashv h) nb = Some b ∧ cs !! HASH_TO_BKT (hashv h) nb = Some c ∧
    x ∈ c ∧ bucket_ok hs nb (HASH_TO_BKT (hashv h) nb) b c.
Proof.
  intros Hch Hx Hh. rewrite <-(ch_elems _ _ _ _ _ Hch) in Hx.
  destruct (chain_of_elem _ _ Hx) as (i & c & Hc & Hin).
  assert (is_Some (bs !! i)) as [b Hb].
  { apply lookup_lt_is_Some. rewrite <-(ch_length _ _ _ _ _ Hch). by apply lookup_lt_Some in Hc. }
  pose proof (ch_bucket _ _ _ _ _ Hch i b c Hb Hc) as Hok.
  destruct (bo_index _ _ _ _ _ Hok x Hin) as (h' & Hh' & <-). rewrite Hh in Hh'. injection Hh' as <-.
  by exists b, c.
Qed.

(** The elements of a chain are elements of the table. *)
Lemma chains_subset hs nb bs cs ids i c x :
  chains hs nb bs cs ids → cs !! i = Some c → x ∈ c → x ∈ ids.
Proof. intros Hch Hc Hx. rewrite <-(ch_elems _ _ _ _ _ Hch). by apply (elem_of_chain cs i c). Qed.

Lemma chains_nodup hs nb bs cs ids : chains hs nb bs cs ids → NoDup ids → NoDup (concat cs).
Proof. intros Hch. by rewrite (ch_elems _ _ _ _ _ Hch). Qed.

(** A bucket is seen through the bucket links and the hash values of its elements. *)
Lemma bucket_ok_ext hs hs' nb i b c :
  (∀ x, x ∈ c → bkt_links hs' x = bkt_links hs x ∧ meta hs' x = meta hs x) →
  bucket_ok hs nb i b c → bucket_ok hs' nb i b c.
Proof.
  intros Hext [Hh Hn Hd Hx]. split; [done|done| |].
  - apply (dseg_ext (bkt_links hs)); [|done]. intros x Hin. by apply Hext.
  - intros x Hin. destruct (Hx x Hin) as (h & Hlk & Hi). destruct (Hext x Hin) as [_ Hm].
    rewrite (meta_lookup _ _ _ Hlk) in Hm. unfold meta in Hm.
    destruct (hs' !! x) as [h'|]; [|done]. injection Hm as _ _ Hv. exists h'. by rewrite Hv.
Qed.

Lemma chains_ext hs hs' nb bs cs ids :
  (∀ y, y ∈ ids → bkt_links hs' y = bkt_links hs y ∧ meta hs' y = meta hs y) →
  chains hs nb bs cs ids → chains hs' nb bs cs ids.
Proof.
  intros Hext Hch. destruct Hch as [Hn Hl Hb He]. split; try done. intros i b c Hbi Hci.
  apply (bucket_ok_ext hs); [|by apply Hb]. intros y Hy. apply Hext. rewrite <-He.
  by apply (elem_of_chain cs i c).
Qed.

(** A change to one bucket, which leaves the elements of the others alone. *)
Lemma chains_update hs hs' nb bs cs ids ids' i c b' c' :
  chains hs nb bs cs ids → NoDup ids → cs !! i = Some c →
  bucket_ok hs' nb i b' c' →
  (∀ x, x ∈ ids → x ∉ c → bkt_links hs' x = bkt_links hs x ∧ meta hs' x = meta hs x) →
  (∀ r, ids ≡ₚ c ++ r → ids' ≡ₚ c' ++ r) →
  chains hs' nb (<[i := b']> bs) (<[i := c']> cs) ids'.
Proof.
  intros Hch Hnd Hc Hok Hext Hids. pose proof (chains_nodup _ _ _ _ _ Hch Hnd) as Hnd'.
  destruct (concat_middle _ _ _ Hc) as (r & Hr & Hins). split.
  - rewrite length_insert. apply (ch_num _ _ _ _ _ Hch).
  - rewrite !length_insert. apply (ch_length _ _ _ _ _ Hch).
  - intros j bj cj Hbj Hcj.
    apply list_lookup_insert_Some in Hbj as [(<- & <- & _)|[Hne Hbj]];
      apply list_lookup_insert_Some in Hcj as [(? & ? & _)|[? Hcj]]; subst; try done.
    apply (bucket_ok_ext hs); [|by apply (ch_bucket _ _ _ _ _ Hch)].
    intros x Hx. apply Hext; [by apply (chains_subset _ _ _ _ _ _ _ _ Hch Hcj)|].
    intros Hx'. apply Hne. by apply (chain_unique cs i j c cj x).
  - rewrite Hins, (Hids r); [done|]. by rewrite <-Hr, (ch_elems _ _ _ _ _ Hch).
Qed.

(** ** An element in front of a chain *)

(** Handles that differ in their bucket links at most. *)
Definition same_app (hs hs' : gmap positive UT_hash_handle) : Prop :=
  ∀ y, app_links hs' y = app_links hs y ∧ meta hs' y = meta hs y.

Lemma assign_front (hs : gmap positive UT_hash_handle) x o :
  is_Some (hs !! x) → (∀ y, o = Some y → y ≠ x ∧ is_Some (hs !! y)) →
  ∃ hs1 hs', update x (set_bkt None o) hs = Done hs1 ∧
    update_opt o (set_hh_prev (Some x)) hs1 = Done hs' ∧
    (∀ y, bkt_links hs' y = link_front (bkt_links hs) x o y) ∧ same_app hs hs'.
Proof.
  intros Hx Ho. destruct (update_done x (set_bkt None o) hs Hx) as (hs1 & E1 & H1).
  destruct (update_opt_done o (set_hh_prev (Some x)) hs1) as (hs' & E2 & H2).
  { intros y Hy. rewrite H1. destruct (Ho y Hy) as [_ [h ->]]. by eexists. }
  exists hs1, hs'. split; [done|]. split; [done|]. split; [|intros y; split].
  - intros y. unfold bkt_links, link_front. rewrite H2, H1. destruct (decide (y = x)) as [->|Hne].
    + destruct Hx as [h ->]. cbn. rewrite (decide_True (P := Some x = Some x)) by done.
      rewrite decide_False; [done|]. intros E. by destruct (Ho x E).
    + destruct (hs !! y) as [h|]; [cbn|done]. rewrite (decide_False (P := Some x = Some y)) by congruence.
      by destruct (decide (o = Some y)).
  - unfold app_links. rewrite H2, H1. destruct (hs !! y) as [h|]; [cbn|done].
    by destruct (decide (o = Some y)), (decide (Some x = Some y)).
  - unfold meta. rewrite H2, H1. destruct (hs !! y) as [h|]; [cbn|done].
    by destruct (decide (o = Some y)), (decide (Some x = Some y)).
Qed.

Lemma index_same hs hs' nb y i :
  same_app hs hs' → (∃ h, hs !! y = Some h ∧ HASH_TO_BKT (hashv h) nb = i) →
  ∃ h, hs' !! y = Some h ∧ HASH_TO_BKT (hashv h) nb = i.
Proof.
  intros Hsame (h & Hh & <-). destruct (Hsame y) as [_ Hm].
  rewrite (meta_lookup _ _ _ Hh) in Hm. unfold meta in Hm.
  destruct (hs' !! y) as [h2|]; [|done]. injection Hm as _ _ Hv. exists h2. by rewrite Hv.
Qed.

(** What is known of the chain of a bucket, among all chains. *)
Lemma chain_facts hs nb bs cs ids i c :
  chains hs nb bs cs ids → NoDup ids → cs !! i = Some c →
  NoDup c ∧ (∀ y, y ∈ c → y ∈ ids) ∧ (List.length c ≤ List.length ids)%nat.
Proof.
  intros Hch Hnd Hc. pose proof (chains_nodup _ _ _ _ _ Hch Hnd) as Hn.
  destruct (concat_middle _ _ _ Hc) as (r & Hr & _). split_and!.
  - rewrite Hr in Hn. by apply NoDup_app in Hn as [? _].
  - intros y Hy. by apply (chains_subset _ _ _ _ _ _ _ _ Hch Hc).
  - rewrite <-(Permutation_length (ch_elems _ _ _ _ _ Hch)), Hr, length_app. lia.
Qed.

Lemma link_front_other lk x o y : y ≠ x → o ≠ Some y → link_front lk x o y = lk y.
Proof.
  intros Hx Ho. unfold link_front. rewrite decide_False by done.
  destruct (lk y) as [[p n]|]; [cbn|done]. by rewrite decide_False.
Qed.

Lemma add32_succ z n : z = Z.of_nat n → Z.of_nat n + 1 < 2 ^ 32 → add32 z 1 = Z.of_nat (S n).
Proof. intros -> Hn. unfold add32. rewrite u32_small by lia. lia. Qed.

(** The assignments by which [HASH_ADD_TO_BKT] and [HASH_EXPAND_BUCKETS] put the element [x] into
    its bucket. *)
Lemma chains_front hs nb bs cs ids x h b mult :
  chains hs nb bs cs ids → NoDup (x :: ids) → hs !! x = Some h →
  bs !! HASH_TO_BKT (hashv h) nb = Some b → Z.of_nat (List.length ids) + 1 < 2 ^ 32 →
  ∃ hs1 hs' cs', update x (set_bkt None (hh_head b)) hs = Done hs1 ∧
    update_opt (hh_head b) (set_hh_prev (Some x)) hs1 = Done hs' ∧
    chains hs' nb (<[HASH_TO_BKT (hashv h) nb :=
      {| hh_head := Some x; count := add32 (count b) 1; expand_mult := mult |}]> bs) cs' (x :: ids) ∧
    (∀ y, y ∉ x :: ids → bkt_links hs' y = bkt_links hs y) ∧ same_app hs hs'.
Proof.
  intros Hch Hnd Hh Hb Hlen. pose proof Hnd as [Hx Hnd']%NoDup_cons.
  destruct (chains_lookup _ _ _ _ _ _ _ Hch Hb) as (c & Hc & Hok).
  destruct (chain_facts _ _ _ _ _ _ _ Hch Hnd' Hc) as (Hnc' & Hsub & Hclen).
  assert (Hnc : NoDup (x :: c)) by (apply NoDup_cons; split; [by intros ?%Hsub|done]).
  destruct Hok as [Hhd Hcnt Hseg Hidx]. rewrite Hhd.
  assert (Ho : ∀ y, first c None = Some y → y ∈ c) by (intros y [|]%first_elem; done).
  destruct (assign_front hs x (first c None)) as (hs1 & hs' & E1 & E2 & Hbkt & Hsame).
  { by eexists. }
  { intros y Hy%Ho. split; [intros ->; by apply Hx, Hsub|]. by destruct (Hidx y Hy) as (h' & -> & _). }
  exists hs1, hs', (<[HASH_TO_BKT (hashv h) nb := x :: c]> cs). split_and!; try done.
  - apply (chains_update hs hs' nb bs cs ids _ _ c); try done.
    + split; cbn [hh_head count].
      * done.
      * rewrite (add32_succ _ (List.length c)); [done|done|lia].
      * apply (dseg_ext (link_front (bkt_links hs) x (first c None))); [by intros; apply Hbkt|].
        by apply dseg_link_front.
      * intros y Hy. apply (index_same hs); [done|].
        apply elem_of_cons in Hy as [->|Hy]; [by exists h|by apply Hidx].
    + intros y Hy Hyc. split; [|by apply Hsame]. rewrite Hbkt. apply link_front_other.
      * by intros ->.
      * by intros ?%Ho.
    + intros r ->. done.
  - intros y Hy. rewrite Hbkt. apply link_front_other; [set_solver|].
    intros ?%Ho%Hsub. set_solver.
Qed.

(** ** An element out of a chain *)

(** Two assignments, through [a] and through [b]. *)
Lemma assign_both (hs : gmap positive UT_hash_handle) a b f g :
  (∀ y, a = Some y → is_Some (hs !! y)) → (∀ y, b = Some y → is_Some (hs !! y)) →
  ∃ hs1 hs', update_opt a f hs = Done hs1 ∧ update_opt b g hs1 = Done hs' ∧
    ∀ y, hs' !! y = (fun h => let h1 := if decide (a = Some y) then f h else h in
                              if decide (b = Some y) then g h1 else h1) <$> hs !! y.
Proof.
  intros Ha Hb. destruct (update_opt_done a f hs Ha) as (hs1 & E1 & H1).
  destruct (update_opt_done b g hs1) as (hs' & E2 & H2).
  { intros y Hy. rewrite H1. destruct (Hb y Hy) as [h ->]. by eexists. }
  exists hs1, hs'. split_and!; [done|done|]. intros y. rewrite H2, H1. by destruct (hs !! y).
Qed.

Lemma assign_unlink_bkt (hs : gmap positive UT_hash_handle) a b :
  (∀ y, a = Some y → is_Some (hs !! y)) → (∀ y, b = Some y → is_Some (hs !! y)) →
  ∃ hs1 hs', update_opt a (set_hh_next b) hs = Done hs1 ∧
    update_opt b (set_hh_prev a) hs1 = Done hs' ∧
    (∀ y, bkt_links hs' y = unlink (bkt_links hs) a b y) ∧ same_app hs hs'.
Proof.
  intros Ha Hb. destruct (assign_both hs a b (set_hh_next b) (set_hh_prev a) Ha Hb)
    as (hs1 & hs' & E1 & E2 & Hlk). exists hs1, hs'. split; [done|]. split; [done|].
  assert (∀ y, bkt_links hs' y = unlink (bkt_links hs) a b y ∧ app_links hs' y = app_links hs y ∧ meta hs' y = meta hs y) as Hall.
  { intros y. unfold bkt_links, unlink, app_links, meta. rewrite Hlk. destruct (hs !! y); [cbn|done].
    by destruct (decide (b = Some y)), (decide (a = Some y)). }
  split; [intros y; apply Hall|intros y; split; apply Hall].
Qed.

Lemma assign_unlink_app (hs : gmap positive UT_hash_handle) a b :
  (∀ y, a = Some y → is_Some (hs !! y)) → (∀ y, b = Some y → is_Some (hs !! y)) →
  ∃ hs1 hs', update_opt a (set_next b) hs = Done hs1 ∧
    update_opt b (set_prev a) hs1 = Done hs' ∧
    (∀ y, app_links hs' y = unlink (app_links hs) a b y) ∧ (∀ y, bkt_links hs' y = bkt_links hs y ∧ meta hs' y = meta hs y).
Proof.
  intros Ha Hb. destruct (assign_both hs a b (set_next b) (set_prev a) Ha Hb)
    as (hs1 & hs' & E1 & E2 & Hlk). exists hs1, hs'. split; [done|]. split; [done|].
  assert (∀ y, app_links hs' y = unlink (app_links hs) a b y ∧ bkt_links hs' y = bkt_links hs y ∧ meta hs' y = meta hs y) as Hall.
  { intros y. unfold bkt_links, unlink, app_links, meta. rewrite Hlk. destruct (hs !! y); [cbn|done].
    by destruct (decide (b = Some y)), (decide (a = Some y)). }
  split; [intros y; apply Hall|intros y; split; apply Hall].
Qed.

(** The first element without [x], as [HASH_DEL_IN_BKT] finds it. *)
Lemma first_without (l1 l2 : list positive) x :
  NoDup (l1 ++ x :: l2) →
  (if bool_decide (first (l1 ++ x :: l2) None = Some x) then first l2 None
   else first (l1 ++ x :: l2) None) = first (l1 ++ l2) None.
Proof.
  intros Hnd. destruct l1 as [|y l1]; cbn [List.app first].
  - by rewrite bool_decide_eq_true_2.
  - rewrite bool_decide_eq_false_2; [done|]. intros [= ->].
    apply NoDup_cons in Hnd as [Hx _]. apply Hx, elem_of_app. right. left.
Qed.

Lemma sub32_pred z n : z = Z.of_nat (S n) → Z.of_nat (S n) < 2 ^ 32 → sub32 z 1 = Z.of_nat n.
Proof. intros -> Hn. unfold sub32. rewrite u32_small by lia. lia. Qed.

(** The links of an element in the middle of a list are elements of the list. *)
Lemma neighbours_mid (l1 l2 : list positive) x y :
  (final None l1 = Some y → y ∈ l1 ++ x :: l2) ∧ (first l2 None = Some y → y ∈ l1 ++ x :: l2).
Proof.
  split; [intros [|]%final_elem|intros [|]%first_elem]; done || set_solver.
Qed.

Lemma chains_remove hs nb bs cs ids ids' x h :
  chains hs nb bs cs ids → NoDup ids → ids ≡ₚ x :: ids' → hs !! x = Some h →
  Z.of_nat (List.length ids) < 2 ^ 32 →
  ∃ b hs1 hs' cs', bs !! HASH_TO_BKT (hashv h) nb = Some b ∧
    update_opt (hh_prev h) (set_hh_next (hh_next h)) hs = Done hs1 ∧
    update_opt (hh_next h) (set_hh_prev (hh_prev h)) hs1 = Done hs' ∧
    chains hs' nb (<[HASH_TO_BKT (hashv h) nb :=
      {| hh_head := if bool_decide (hh_head b = Some x) then hh_next h else hh_head b;
         count := sub32 (count b) 1; expand_mult := expand_mult b |}]> bs) cs' ids' ∧
    same_app hs hs'.
Proof.
  intros Hch Hnd Hids Hh Hlen.
  destruct (chains_elem _ _ _ _ _ x h Hch) as (b & c & Hb & Hc & Hx & [Hhd Hcnt Hseg Hidx]);
    [rewrite Hids; left|done|].
  destruct (chain_facts _ _ _ _ _ _ _ Hch Hnd Hc) as (Hnc & Hsub & Hclen).
  apply list_elem_of_split in Hx as (l1 & l2 & ->).
  pose proof (dseg_mid _ _ _ _ _ _ Hseg) as Hlk. rewrite (bkt_lookup _ _ _ Hh) in Hlk.
  injection Hlk as Hp Hn. exists b. rewrite Hp, Hn, Hhd, first_without by done.
  destruct (assign_unlink_bkt hs (final None l1) (first l2 None)) as (hs1 & hs' & E1 & E2 & Hbkt & Hsame).
  { intros y Hy%(proj1 (neighbours_mid l1 l2 x y)). by destruct (Hidx y Hy) as (h' & -> & _). }
  { intros y Hy%(proj2 (neighbours_mid l1 l2 x y)). by destruct (Hidx y Hy) as (h' & -> & _). }
  exists hs1, hs', (<[HASH_TO_BKT (hashv h) nb := l1 ++ l2]> cs). split_and!; try done.
  apply (chains_update hs hs' nb bs cs ids _ _ (l1 ++ x :: l2)); try done.
  - split; cbn [hh_head count].
    + done.
    + rewrite length_app in Hcnt, Hclen. cbn in Hcnt, Hclen.
      rewrite length_app, (sub32_pred _ (List.length l1 + List.length l2)); lia.
    + apply (dseg_ext (unlink (bkt_links hs) (final None l1) (first l2 None))); [by intros; apply Hbkt|].
      by apply (dseg_unlink _ _ x).
    + intros y Hy. apply (index_same hs); [done|]. apply Hidx. set_solver.
  - intros y Hy Hyc. split; [|by apply Hsame]. rewrite Hbkt. apply unlink_other.
    + by intros ?%(proj1 (neighbours_mid l1 l2 x y)).
    + by intros ?%(proj2 (neighbours_mid l1 l2 x y)).
  - intros r Hr. rewrite Hids in Hr. apply (Permutation_cons_inv (a := x)). rewrite Hr.
    by rewrite <-Permutation_middle.
Qed.
