(* ===== verification/HashRep.v ===== *)
(** * What a hash table represents

    [rep s h]: the table in the state [s] holds the elements [h], pairs of a key and an element,
    in this order.  Adding, finding, deleting, counting and iterating do to the list what
    [Uthash] says.  First the doubling of the buckets: [HASH_EXPAND_BUCKETS] takes every handle out
    of its old bucket, from the front, and puts it to the front of its new one; no element is lost,
    and no link leads to an old bucket. *)
From S2P Require Import Prelude Mem Uthash HashFn HashTable HashLists HashChains.
Local Open Scope Z_scope.

(** ** Doubling the buckets *)

(** The handle is there, with a hash value of 32 bits. *)
Definition hashed (hs : gmap positive UT_hash_handle) (y : positive) : Prop :=
  ∃ h, hs !! y = Some h ∧ word32 (hashv h).

Lemma hashed_same hs hs' y : same_app hs hs' → hashed hs y → hashed hs' y.
Proof.
  intros Hsame (h & Hh & Hw). destruct (Hsame y) as [_ Hm].
  rewrite (meta_lookup _ _ _ Hh) in Hm. unfold meta in Hm.
  destruct (hs' !! y) as [h2|] eqn:E; [|done]. injection Hm as _ _ Hv. exists h2. by rewrite Hv.
Qed.

Lemma same_app_trans hs1 hs2 hs3 : same_app hs1 hs2 → same_app hs2 hs3 → same_app hs1 hs3.
Proof. intros H1 H2 y. destruct (H1 y), (H2 y). split; congruence. Qed.

(** What the loops establish: from the elements [done] in new buckets to [done']. *)
Definition moved (nb2 : Z) (old : list positive)
    (e e' : gmap positive UT_hash_handle * list UT_hash_bucket * Z) (from to : list positive) : Prop :=
  (∃ cs, chains e'.1.1 nb2 e'.1.2 cs to) ∧ to ≡ₚ old ++ from ∧ same_app e.1.1 e'.1.1 ∧
  ∀ y, y ∉ to → bkt_links e'.1.1 y = bkt_links e.1.1 y.

Section expand.
Context (k ideal : Z) (Hk : 0 ≤ k < 32).
Notation nb2 := (2 ^ k).

Lemma expand_one_ok hs new ni cs from x :
  chains hs nb2 new cs from → NoDup (x :: from) → hashed hs x →
  Z.of_nat (List.length from) + 1 < 2 ^ 32 →
  ∃ e', expand_one nb2 ideal x (hs, new, ni) = Done e' ∧ moved nb2 [x] (hs, new, ni) e' from (x :: from).
Proof.
  intros Hch Hnd (h & Hh & Hw) Hlen.
  assert (is_Some (new !! HASH_TO_BKT (hashv h) nb2)) as [b Hb].
  { apply lookup_lt_is_Some. pose proof (HASH_TO_BKT_lt _ _ Hw Hk). pose proof (ch_num _ _ _ _ _ Hch). lia. }
  unfold expand_one. rewrite Hh. cbn [deref mbind exec_bind]. rewrite Hb. cbn [deref mbind exec_bind].
  match goal with |- context [Build_UT_hash_bucket _ _ ?m] => set (mult := m) end.
  destruct (chains_front _ _ _ _ _ _ _ _ mult Hch Hnd Hh Hb Hlen)
    as (hs1 & hs' & cs' & E1 & E2 & Hch' & Hfr & Hsame).
  rewrite E1. cbn. rewrite E2. cbn. eexists. split; [done|].
  split; [by exists cs'|]. split_and!; done.
Qed.

Lemma expand_bucket_ok fuel pp c hs new ni cs from :
  (List.length c ≤ fuel)%nat → dseg (bkt_links hs) pp c None → (∀ y, y ∈ c → hashed hs y) →
  chains hs nb2 new cs from → NoDup (c ++ from) → Z.of_nat (List.length (c ++ from)) < 2 ^ 32 →
  ∃ e' to, expand_bucket fuel nb2 ideal (first c None) (hs, new, ni) = Done e' ∧
    moved nb2 c (hs, new, ni) e' from to.
Proof.
  revert fuel pp hs new ni cs from.
  induction c as [|x c IH]; intros fuel pp hs new ni cs from Hf Hseg Hha Hch Hnd Hlen.
  { exists (hs, new, ni), from. split; [by destruct fuel|]. split; [by exists cs|].
    split_and!; [done|by intros y|done]. }
  destruct fuel as [|fuel]; [cbn in Hf; lia|]. destruct Hseg as [Hx Hseg]. cbn [app] in Hnd, Hlen.
  apply NoDup_cons in Hnd as [Hxn Hnd]. pose proof Hnd as (_ & Hdis & Hnf)%NoDup_app.
  cbn [List.length] in Hlen, Hf. rewrite length_app in Hlen.
  destruct (expand_one_ok hs new ni cs from x Hch) as ([[hs1 new1] ni1] & E1 & [cs1 Hch1] & Hp1 & Hs1 & Hb1).
  { apply NoDup_cons. set_solver. }
  { apply Hha. left. }
  { lia. }
  cbn [fst snd] in *.
  destruct (IH fuel (Some x) hs1 new1 ni1 cs1 (x :: from)) as (e' & to & E2 & Hch2 & Hp2 & Hs2 & Hb2).
  - lia.
  - apply (dseg_ext (bkt_links hs)); [|done]. intros y Hy. apply Hb1. set_solver.
  - intros y Hy. apply (hashed_same hs); [done|]. apply Hha. by right.
  - done.
  - rewrite <-Permutation_middle. apply NoDup_cons. by split.
  - rewrite length_app. cbn. lia.
  - exists e', to. split.
    + cbn [first expand_bucket fst]. unfold bkt_links in Hx. destruct (hs !! x) as [h|]; [|done].
      injection Hx as _ Hn. cbn [deref mbind exec_bind]. rewrite E1, Hn. exact E2.
    + split; [done|]. cbn [fst snd] in *. split_and!.
      * rewrite Hp2. cbn. by rewrite Permutation_middle.
      * by apply (same_app_trans _ hs1).
      * intros y Hy. rewrite Hb2 by done. apply Hb1. rewrite Hp2 in Hy. set_solver.
Qed.

Lemma expand_loop_ok fuel old ixs ccs hs new ni cs from :
  Forall2 (fun i c => ∃ b, old !! i = Some b ∧ hh_head b = first c None) ixs ccs →
  (∀ c, c ∈ ccs → (List.length c ≤ fuel)%nat ∧ dseg (bkt_links hs) None c None) →
  (∀ y, y ∈ concat ccs → hashed hs y) →
  chains hs nb2 new cs from → NoDup (concat ccs ++ from) →
  Z.of_nat (List.length (concat ccs ++ from)) < 2 ^ 32 →
  ∃ e' to, expand_loop fuel old ixs nb2 ideal (hs, new, ni) = Done e' ∧
    moved nb2 (concat ccs) (hs, new, ni) e' from to.
Proof.
  intros Hix. revert hs new ni cs from.
  induction Hix as [|i c ixs ccs (b & Hb & Hhd) _ IH]; intros hs new ni cs from Hseg Hha Hch Hnd Hlen.
  { exists (hs, new, ni), from. split; [done|]. split; [by exists cs|].
    split_and!; [done|by intros y|done]. }
  cbn [concat] in *. rewrite <-app_assoc in Hnd, Hlen.
  pose proof Hnd as (Hnc & Hdis & Hnr)%NoDup_app. pose proof Hnr as (_ & Hdis2 & Hnf)%NoDup_app.
  destruct (Hseg c) as [Hf Hc]; [left|]. rewrite !length_app in Hlen.
  destruct (expand_bucket_ok fuel None c hs new ni cs from) as ([[hs1 new1] ni1] & to1 & E1 & [cs1 Hch1] & Hp1 & Hs1 & Hb1).
  1-4: done || (intros; apply Hha; set_solver).
  { apply NoDup_app. set_solver. }
  { rewrite length_app. lia. }
  cbn [fst snd] in *.
  destruct (IH hs1 new1 ni1 cs1 to1) as (e' & to & E2 & Hch2 & Hp2 & Hs2 & Hb2).
  - intros c' Hc'. destruct (Hseg c') as [Hf' Hd']; [by right|]. split; [done|].
    apply (dseg_ext (bkt_links hs)); [|done]. intros y Hy. apply Hb1. rewrite Hp1.
    assert (y ∈ concat ccs) by (apply list_elem_of_lookup in Hc' as [j Hj]; by apply (elem_of_chain ccs j c')).
    set_solver.
  - intros y Hy. apply (hashed_same hs); [done|]. apply Hha. set_solver.
  - done.
  - rewrite Hp1, Permutation_app_swap_app. done.
  - rewrite Hp1, !length_app. lia.
  - exists e', to. split.
    + cbn [expand_loop]. rewrite Hb. cbn [deref mbind exec_bind]. rewrite Hhd, E1. exact E2.
    + split; [done|]. cbn [fst snd] in *. split_and!.
      * rewrite Hp2, Hp1. by rewrite Permutation_app_swap_app, app_assoc.
      * by apply (same_app_trans _ hs1).
      * intros y Hy. rewrite Hb2 by done. apply Hb1. rewrite Hp2 in Hy. set_solver.
Qed.
End expand.

(** ** Representation *)

(** Nobody gets 64 GB for the buckets of a table: their number would not fit its field. *)
Class MallocLimit `{Malloc} := malloc_limit n : malloc_ok n = true → n < 2 ^ 36.

Section rep.
Context `{HashFunction}.
Implicit Types (s : uthash) (h : list (string * positive)) (t : UT_hash_table).

(** The list of all elements, and the fields of the table that do not concern the buckets. *)
Record list_ok s t h : Prop := {
  lo_head : head s = first h.*2 None;
  lo_tbl : tbl s = Some t;
  lo_app : dseg (app_links (handles s)) None h.*2 None;
  lo_tail : last h.*2 = Some (tail t);
  lo_log : 0 ≤ log2_num_buckets t < 32 ∧ num_buckets t = 2 ^ log2_num_buckets t;
  lo_keys k x : (k, x) ∈ h →
    meta (handles s) x = Some (k, u32 (strlen k), HASH_FUNCTION (chars k));
  lo_nodup : NoDup h.*2;
}.

Record table_ok s t h : Prop := {
  to_list : list_ok s t h;
  to_items : num_items t = Z.of_nat (List.length h);
  to_bound : Z.of_nat (List.length h) < 2 ^ 32;
  to_chains : ∃ cs, chains (handles s) (num_buckets t) (buckets t) cs h.*2;
}.

Definition rep s h : Prop :=
  match h with [] => head s = None ∧ tbl s = None | _ => ∃ t, table_ok s t h end.

Lemma rep_intro s t h : table_ok s t h → rep s h.
Proof.
  intros Hok. destruct h as [|e h]; [|by exists t].
  pose proof (lo_tail _ _ _ (to_list _ _ _ Hok)). done.
Qed.

Lemma list_ok_table s t h : list_ok s t h → table_of s = Done t.
Proof.
  intros Hok. unfold table_of. rewrite (lo_tbl _ _ _ Hok), (lo_head _ _ _ Hok).
  pose proof (lo_tail _ _ _ Hok) as Ht. destruct h as [|[k x] h]; done.
Qed.

Lemma list_ok_hashed s t h x :
  list_ok s t h → x ∈ h.*2 → ∃ k hd, (k, x) ∈ h ∧ handles s !! x = Some hd ∧
    key hd = k ∧ keylen hd = u32 (strlen k) ∧ hashv hd = HASH_FUNCTION (chars k).
Proof.
  intros Hok ([k y] & -> & Hin)%list_elem_of_fmap. cbn. exists k.
  pose proof (lo_keys _ _ _ Hok k y Hin) as Hm. unfold meta in Hm.
  destruct (handles s !! y) as [hd|]; [|done]. injection Hm as Hk Hl Hv. by exists hd.
Qed.

(** As many handles as elements, at least: the fuel of the loops. *)
Lemma chain_size (hs : gmap positive UT_hash_handle) l :
  NoDup l → (∀ y, y ∈ l → is_Some (hs !! y)) → (List.length l ≤ size hs)%nat.
Proof.
  intros Hnd Hin. rewrite <-(size_dom (D := gset positive)).
  rewrite <-(size_list_to_set (C := gset positive)) by done. apply subseteq_size.
  intros y Hy%elem_of_list_to_set. apply elem_of_dom. by apply Hin.
Qed.

(** Only the bucket links change, and the fields of the table that concern the buckets. *)
Lemma list_ok_same s t h hs' t' :
  list_ok s t h → same_app (handles s) hs' → tail t' = tail t →
  0 ≤ log2_num_buckets t' < 32 → num_buckets t' = 2 ^ log2_num_buckets t' →
  list_ok {| handles := hs'; head := head s; tbl := Some t' |} t' h.
Proof.
  intros [? ? ? ? ? Hkeys ?] Hsame Ht Hl Hn. split; cbn; try done.
  - apply (dseg_ext (app_links (handles s))); [|done]. intros y _. apply Hsame.
  - by rewrite Ht.
  - intros k x Hx. destruct (Hsame x) as [_ ->]. by apply Hkeys.
Qed.

Lemma concat_replicate_nil n : concat (replicate n (@nil positive)) = [].
Proof. induction n; done. Qed.

Lemma chains_empty hs n :
  chains hs (Z.of_nat n) (replicate n empty_bucket) (replicate n []) [].
Proof.
  split.
  - by rewrite length_replicate.
  - by rewrite !length_replicate.
  - intros i b c [-> _]%lookup_replicate [-> _]%lookup_replicate. split; [done..|set_solver].
  - by rewrite concat_replicate_nil.
Qed.

(** The old buckets, as the loops of the expansion walk over them. *)
Lemma chains_forall2 hs nb bs cs ids :
  chains hs nb bs cs ids →
  Forall2 (fun i c => ∃ b, bs !! i = Some b ∧ hh_head b = first c None) (seq 0 (Z.to_nat nb)) cs.
Proof.
  intros Hch. rewrite <-(ch_num _ _ _ _ _ Hch), Nat2Z.id.
  apply Forall2_same_length_lookup_2.
  - rewrite length_seq. by rewrite (ch_length _ _ _ _ _ Hch).
  - intros i j c [-> Hi]%lookup_seq Hc. cbn.
    destruct (lookup_lt_is_Some_2 bs i Hi) as [b Hb]. exists b. split; [done|].
    by apply (bo_head _ _ _ _ _ (ch_bucket _ _ _ _ _ Hch i b c Hb Hc)).
Qed.

Lemma chains_walk hs nb bs cs ids i c :
  chains hs nb bs cs ids → NoDup ids → cs !! i = Some c →
  (List.length c ≤ size hs)%nat ∧ dseg (bkt_links hs) None c None.
Proof.
  intros Hch Hnd Hc. destruct (chain_facts _ _ _ _ _ _ _ Hch Hnd Hc) as (Hnc & _ & _).
  destruct (lookup_lt_is_Some_2 bs i) as [b Hb].
  { rewrite <-(ch_length _ _ _ _ _ Hch). by apply lookup_lt_Some in Hc. }
  pose proof (ch_bucket _ _ _ _ _ Hch i b c Hb Hc) as Hok. split; [|apply Hok].
  apply chain_size; [done|]. intros y Hy. destruct (bo_index _ _ _ _ _ Hok y Hy) as (hd & -> & _). done.
Qed.

Context `{MallocLimit}.

(** [HASH_EXPAND_BUCKETS]: the process ends, or the same elements are in twice as many buckets. *)
Lemma HASH_EXPAND_BUCKETS_ok s t h ids cs :
  list_ok s t h → chains (handles s) (num_buckets t) (buckets t) cs ids → ids ≡ₚ h.*2 →
  Z.of_nat (List.length h) < 2 ^ 32 → num_items t = Z.of_nat (List.length h) →
  HASH_EXPAND_BUCKETS s = Done None ∨
  ∃ s' t', HASH_EXPAND_BUCKETS s = Done (Some s') ∧ table_ok s' t' h.
Proof.
  intros Hok Hch Hids Hlen Hitems. pose proof (lo_log _ _ _ Hok) as [Hl Hnb].
  unfold HASH_EXPAND_BUCKETS. rewrite (lo_tbl _ _ _ Hok). cbn [deref mbind exec_bind].
  destruct (malloc_ok _) eqn:Hm; cbn [negb]; [right|by left].
  apply malloc_limit in Hm. unfold sizeof_UT_hash_bucket in Hm.
  assert (Hlog : log2_num_buckets t < 31).
  { destruct (Z.lt_ge_cases (log2_num_buckets t) 31) as [|Hge]; [done|].
    pose proof (Z.pow_le_mono_r 2 31 (log2_num_buckets t)). lia. }
  assert (Hpow : num_buckets t * 2 = 2 ^ (log2_num_buckets t + 1)) by (rewrite Hnb, Z.pow_add_r; lia).
  assert (Hnb2 : u32 (num_buckets t * 2) = 2 ^ (log2_num_buckets t + 1)).
  { rewrite Hpow. apply u32_small. pose proof (Z.pow_pos_nonneg 2 (log2_num_buckets t + 1)).
    pose proof (Z.pow_lt_mono_r 2 (log2_num_buckets t + 1) 32). lia. }
  assert (Hnd : NoDup ids) by (rewrite Hids; apply (lo_nodup _ _ _ Hok)).
  assert (Hlb2 : add32 (log2_num_buckets t) 1 = log2_num_buckets t + 1) by (apply u32_small; lia).
  rewrite Hlb2, Hnb2. rewrite (proj2 (Z.leb_gt _ _)) by lia.
  match goal with |- context [expand_loop _ _ _ _ ?i _] => set (ideal := i) end.
  destruct (expand_loop_ok (log2_num_buckets t + 1) ideal ltac:(lia) (S (size (handles s))) (buckets t)
    (seq 0 (Z.to_nat (num_buckets t))) cs (handles s)
    (replicate (Z.to_nat (num_buckets t * 2)) empty_bucket) 0
    (replicate (Z.to_nat (num_buckets t * 2)) []) [])
    as ([[hs' new] ni] & to & E & [cs' Hch'] & Hto & Hsame & _).
  - exact (chains_forall2 _ _ _ _ _ Hch).
  - intros c [i Hc]%list_elem_of_lookup.
    destruct (chains_walk _ _ _ _ _ _ _ Hch Hnd Hc) as [Hf Hd]. split; [lia|done].
  - intros y Hy. rewrite (ch_elems _ _ _ _ _ Hch), Hids in Hy.
    destruct (list_ok_hashed _ _ _ _ Hok Hy) as (k & hd & _ & Hhd & _ & _ & Hv).
    exists hd. split; [done|]. rewrite Hv. apply HASH_FUNCTION_word32.
  - pose proof (chains_empty (handles s) (Z.to_nat (num_buckets t * 2))) as He.
    rewrite Hpow, Z2Nat.id in He by (apply Z.pow_nonneg; lia). by rewrite Hpow.
  - rewrite app_nil_r. by rewrite (ch_elems _ _ _ _ _ Hch).
  - rewrite app_nil_r, (Permutation_length (ch_elems _ _ _ _ _ Hch)), Hids, length_fmap. lia.
  - rewrite E. cbn [mbind exec_bind]. eexists _, _. split; [done|]. cbn [fst snd] in *.
    split; [apply (list_ok_same s t); cbn; try done; lia|done|done|].
    exists cs'. cbn. rewrite app_nil_r, (ch_elems _ _ _ _ _ Hch), Hids in Hto.
    destruct Hch' as [? ? ? Hel]. split; try done. by rewrite Hel.
Qed.
End rep.
