(* ===== verification/HashOps.v ===== *)
(** * The operations on a hash table, on what it represents *)
From S2P Require Import Prelude Mem Uthash HashFn HashTable HashLists HashChains HashRep.
Local Open Scope Z_scope.

Section ops.
Context `{HashFunction, MallocLimit}.
Implicit Types (s : uthash) (h : list (string * positive)) (t : UT_hash_table).

(** ** Adding *)

(** The element is on the list of all elements, at any place, and counted; it still has to go into
    its bucket. *)
Lemma HASH_ADD_TO_BKT_ok s t h h' k x cs hd :
  list_ok s t h' → h' ≡ₚ (k, x) :: h → chains (handles s) (num_buckets t) (buckets t) cs h.*2 →
  num_items t = Z.of_nat (List.length h') →
  Z.of_nat (List.length h') < 2 ^ 32 → handles s !! x = Some hd → word32 (hashv hd) →
  ∃ r, HASH_ADD_TO_BKT (HASH_TO_BKT (hashv hd) (num_buckets t)) x s = Done r ∧
    (r = None ∨ ∃ s' t', r = Some s' ∧ table_ok s' t' h').
Proof.
  intros Hok Hh' Hch Hitems Hlen Hhd Hw.
  assert (Hperm : x :: h.*2 ≡ₚ h'.*2) by (by rewrite Hh').
  pose proof (lo_nodup _ _ _ Hok) as Hnd. rewrite <-Hperm in Hnd.
  pose proof (lo_log _ _ _ Hok) as [Hl Hnb].
  destruct (lookup_lt_is_Some_2 (buckets t) (HASH_TO_BKT (hashv hd) (num_buckets t))) as [b Hb].
  { rewrite Hnb. pose proof (HASH_TO_BKT_lt _ _ Hw Hl). pose proof (ch_num _ _ _ _ _ Hch). lia. }
  assert (List.length h' = S (List.length h)) as Hl' by (by rewrite Hh').
  destruct (chains_front _ _ _ _ _ _ _ _ (expand_mult b) Hch Hnd Hhd Hb)
    as (hs1 & hs' & cs' & E1 & E2 & Hch' & _ & Hsame); [rewrite length_fmap; lia|].
  unfold HASH_ADD_TO_BKT. rewrite (list_ok_table _ _ _ Hok). cbn [mbind exec_bind].
  rewrite Hb. cbn [deref mbind exec_bind]. rewrite E1. cbn [mbind exec_bind]. rewrite E2.
  cbn [mbind exec_bind]. set (t' := set_buckets _ t). set (s' := with_tbl t' _).
  assert (Hok' : list_ok s' t' h') by (apply (list_ok_same s t); done).
  destruct (_ && _).
  - destruct (HASH_EXPAND_BUCKETS_ok s' t' h' (x :: h.*2) cs') as [->|(s2 & t2 & -> & Ht)];
      try done; eexists; (split; [done|]); [by left|right; by exists s2, t2].
  - eexists. split; [done|]. right. exists s', t'. split; [done|]. split; [done..|].
    exists cs'. destruct Hch' as [? ? ? Hel]. split; try done. by rewrite Hel.
Qed.

Lemma HASH_ADD_TO_TABLE_ok s t h h' k x cs :
  list_ok s t h' → h' ≡ₚ (k, x) :: h → chains (handles s) (num_buckets t) (buckets t) cs h.*2 →
  num_items t = Z.of_nat (List.length h) → Z.of_nat (List.length h) + 1 < 2 ^ 32 →
  ∃ r, HASH_ADD_TO_TABLE (HASH_FUNCTION (chars k)) x s = Done r ∧
    (r = None ∨ ∃ s' t', r = Some s' ∧ table_ok s' t' h').
Proof.
  intros Hok Hh' Hch Hitems Hlen.
  assert (Hin : (k, x) ∈ h') by (rewrite Hh'; left).
  assert (List.length h' = S (List.length h)) as Hl' by (by rewrite Hh').
  pose proof (lo_keys _ _ _ Hok k x Hin) as Hm. unfold meta in Hm.
  destruct (handles s !! x) as [hd|] eqn:Hhd; [|done]. injection Hm as _ _ Hv. rewrite <-Hv.
  unfold HASH_ADD_TO_TABLE. rewrite (list_ok_table _ _ _ Hok). cbn [mbind exec_bind].
  set (t1 := set_num_items _ t).
  apply (HASH_ADD_TO_BKT_ok (with_tbl t1 s) t1 h h' k x cs hd); [|done..| | |done|].
  - destruct s. apply (list_ok_same _ t); try done; apply (lo_log _ _ _ Hok).
  - cbn. rewrite (add32_succ _ (List.length h)) by (done || lia). lia.
  - lia.
  - rewrite Hv. apply HASH_FUNCTION_word32.
Qed.

(** A first element, with a table of its own. *)
Lemma HASH_ADD_STR_empty s k x :
  rep s [] → ∃ r, HASH_ADD_STR k x s = Done r ∧ (r = None ∨ ∃ s', r = Some s' ∧ rep s' [(k, x)]).
Proof.
  intros [Hhd Htb]. unfold HASH_ADD_STR, HASH_ADD_KEYPTR_BYHASHVALUE. cbn [head with_handles handles].
  rewrite Hhd. unfold HASH_MAKE_TABLE. destruct (_ && _); [|eexists; split; [done|by left]].
  match goal with |- context [Build_uthash ?hs _ (Some ?t)] => set (hs' := hs); set (t0 := t) end.
  destruct (HASH_ADD_TO_TABLE_ok {| handles := hs'; head := Some x; tbl := Some t0 |} t0 [] [(k, x)] k x
    (replicate 32 [])) as (r & E & [->|(s' & t' & -> & Ht)]).
  - split; cbn; try done.
    + split; [|done]. unfold app_links. subst hs'. by rewrite lookup_insert_eq.
    + intros k' x' [= -> ->]%list_elem_of_singleton. unfold meta. subst hs'. by rewrite lookup_insert_eq.
    + apply NoDup_singleton.
  - done.
  - apply (chains_empty hs' 32).
  - done.
  - done.
  - exists None. split; [done|by left].
  - exists (Some s'). split; [done|]. right. exists s'. split; [done|]. by apply (rep_intro _ t').
Qed.

(** The assignments of [HASH_APPEND_LIST], with those that precede it. *)
Lemma assign_back (hs : gmap positive UT_hash_handle) x z hd :
  x ≠ z → is_Some (hs !! z) →
  ∃ hs1 hs', update x (set_app (Some z) None) (<[x := hd]> hs) = Done hs1 ∧
    update z (set_next (Some x)) hs1 = Done hs' ∧
    (∀ y, app_links hs' y = link_back (app_links hs) x z y) ∧
    (∀ y, y ≠ x → bkt_links hs' y = bkt_links hs y ∧ meta hs' y = meta hs y) ∧
    meta hs' x = Some (key hd, keylen hd, hashv hd).
Proof.
  intros Hxz Hz. destruct (update_done x (set_app (Some z) None) (<[x := hd]> hs)) as (hs1 & E1 & L1).
  { rewrite lookup_insert_eq. by eexists. }
  destruct (update_done z (set_next (Some x)) hs1) as (hs' & E2 & L2).
  { rewrite L1, lookup_insert_ne by done. destruct Hz as [h ->]. by eexists. }
  exists hs1, hs'. split; [done|]. split; [done|].
  assert (Hx : hs' !! x = Some (set_app (Some z) None hd)).
  { rewrite L2, L1, lookup_insert_eq. cbn. rewrite (decide_True (P := Some x = Some x)) by done.
    by rewrite decide_False by congruence. }
  assert (Hy : ∀ y, y ≠ x → hs' !! y = (fun g => if decide (Some z = Some y) then set_next (Some x) g else g) <$> hs !! y).
  { intros y Hy. rewrite L2, L1, lookup_insert_ne by done. destruct (hs !! y); [cbn|done].
    by rewrite (decide_False (P := Some x = Some y)) by congruence. }
  split; [|split].
  - intros y. unfold app_links, link_back. destruct (decide (y = x)) as [->|Hne]; [by rewrite Hx|].
    rewrite Hy by done. destruct (hs !! y); [cbn|done].
    destruct (decide (Some z = Some y)) as [[= ->]|]; [by rewrite decide_True|].
    rewrite decide_False; [done|congruence].
  - intros y Hne. unfold bkt_links, meta. rewrite Hy by done. destruct (hs !! y); [cbn|done].
    by destruct (decide (Some z = Some y)).
  - unfold meta. by rewrite Hx.
Qed.

Lemma HASH_APPEND_LIST_ok s t h k x :
  table_ok s t h → x ∉ h.*2 →
  ∃ s' t' cs, HASH_APPEND_LIST x (with_handles
      (<[x := new_handle k (HASH_FUNCTION (chars k))]> (handles s)) s) = Done s' ∧
    list_ok s' t' (h ++ [(k, x)]) ∧ num_items t' = num_items t ∧
    chains (handles s') (num_buckets t') (buckets t') cs h.*2.
Proof.
  intros Hok Hx. pose proof (to_list _ _ _ Hok) as Hlo. destruct (to_chains _ _ _ Hok) as [cs Hch].
  pose proof (lo_tail _ _ _ Hlo) as Htail.
  assert (Hz : tail t ∈ h.*2) by (by apply last_Some_elem_of).
  destruct (assign_back (handles s) x (tail t) (new_handle k (HASH_FUNCTION (chars k))))
    as (hs1 & hs' & E1 & E2 & Happ & Hother & Hnew); [by intros ->|..].
  { destruct (list_ok_hashed _ _ _ _ Hlo Hz) as (k' & hd & _ & -> & _). by eexists. }
  unfold HASH_APPEND_LIST. cbn [with_handles handles].
  assert (table_of (with_handles (<[x := new_handle k (HASH_FUNCTION (chars k))]> (handles s)) s) = Done t)
    as -> by apply (list_ok_table _ _ _ Hlo).
  cbn [mbind exec_bind]. rewrite E1. cbn [mbind exec_bind]. rewrite E2. cbn [mbind exec_bind].
  eexists _, (set_tail x t), cs. split; [done|]. split; [|split; [done|]].
  - split; cbn.
    + rewrite (lo_head _ _ _ Hlo). destruct h; done.
    + done.
    + rewrite fmap_app. cbn. apply (dseg_ext (link_back (app_links (handles s)) x (tail t))).
      { intros; apply Happ. }
      apply dseg_link_back; [done|apply Hlo|done|apply Hlo].
    + rewrite fmap_app. apply last_snoc.
    + apply Hlo.
    + intros k' y [Hin|[= -> ->]%list_elem_of_singleton]%elem_of_app; [|by rewrite Hnew].
      assert (y ≠ x) as Hne by (intros ->; apply Hx; by apply (list_elem_of_fmap_2 snd _ (k', x))).
      destruct (Hother y Hne) as [_ ->]. by apply Hlo.
    + rewrite fmap_app. cbn. apply NoDup_app. split_and!; [apply Hlo|set_solver|apply NoDup_singleton].
  - apply (chains_ext (handles s)); [|done]. intros y Hy. apply Hother. by intros ->.
Qed.

(** [HASH_ADD_STR]: the element is added at the end; or the process has ended for lack of memory. *)
Lemma HASH_ADD_STR_ok s h k x :
  rep s h → x ∉ h.*2 → Z.of_nat (List.length h) + 1 < 2 ^ 32 →
  ∃ r, HASH_ADD_STR k x s = Done r ∧ (r = None ∨ ∃ s', r = Some s' ∧ rep s' (hash_add k x h)).
Proof.
  intros Hrep Hx Hlen. destruct h as [|e h]; [by apply HASH_ADD_STR_empty|].
  destruct Hrep as [t Hok].
  destruct (HASH_APPEND_LIST_ok s t (e :: h) k x Hok Hx) as (s1 & t1 & cs & E & Hlo & Hitems & Hch).
  destruct (HASH_ADD_TO_TABLE_ok s1 t1 (e :: h) ((e :: h) ++ [(k, x)]) k x cs Hlo) as (r & E2 & Hr).
  - by rewrite <-Permutation_cons_append.
  - done.
  - rewrite Hitems. apply (to_items _ _ _ Hok).
  - done.
  - exists r. split.
    + unfold HASH_ADD_STR, HASH_ADD_KEYPTR_BYHASHVALUE. cbn [head with_handles].
      rewrite (lo_head _ _ _ (to_list _ _ _ Hok)). cbn [fmap list_fmap first].
      rewrite E. exact E2.
    + destruct Hr as [->|(s' & t' & -> & Ht)]; [by left|]. right. exists s'. split; [done|].
      by apply (rep_intro _ t').
Qed.
End ops.
