(* ===== verification/HashDel.v ===== *)
(** * Finding, deleting, counting and iterating, on what a hash table represents *)
From S2P Require Import Prelude Mem Uthash HashFn HashTable HashLists HashChains HashRep.
Local Open Scope Z_scope.

(** The length of the key fits its field. *)
Definition short (k : string) : Prop := strlen k < 2 ^ 32.

Section ops.
Context `{HashFunction}.
Implicit Types (s : uthash) (h : list (string * positive)) (t : UT_hash_table).

(** ** Finding *)

Lemma keys_match k' k :
  short k' → short k →
  (HASH_FUNCTION (chars k') =? HASH_FUNCTION (chars k)) && (u32 (strlen k') =? u32 (strlen k))
    && HASH_KEYCMP k' k (u32 (strlen k)) = bool_decide (k' = k).
Proof.
  unfold short. intros Hk' Hk. pose proof (strlen_nonneg k). pose proof (strlen_nonneg k').
  rewrite !u32_small by lia. unfold HASH_KEYCMP. case_bool_decide as Hcmp; case_bool_decide as Heq.
  - subst. by rewrite !Z.eqb_refl.
  - destruct (Z.eqb_spec (strlen k') (strlen k)) as [El|]; [|by rewrite andb_false_r].
    exfalso. apply Heq, chars_inj. rewrite !strlen_chars in *.
    rewrite !take_ge in Hcmp by lia. done.
  - subst. done.
  - by rewrite andb_false_r.
Qed.

Lemma find_loop_ok fuel (hs : gmap positive UT_hash_handle) k pp c :
  dseg (bkt_links hs) pp c None → (List.length c ≤ fuel)%nat → short k →
  (∀ y, y ∈ c → ∃ k', short k' ∧ meta hs y = Some (k', u32 (strlen k'), HASH_FUNCTION (chars k'))) →
  ∃ r, find_loop fuel hs k (u32 (strlen k)) (HASH_FUNCTION (chars k)) (first c None) = Done r ∧
    match r with
    | Some x => x ∈ c ∧ key <$> hs !! x = Some k
    | None => ∀ y, y ∈ c → key <$> hs !! y ≠ Some k
    end.
Proof.
  revert fuel pp. induction c as [|x c IH]; intros fuel pp Hseg Hf Hk Hmeta.
  { exists None. split; [by destruct fuel|]. intros y []%not_elem_of_nil. }
  destruct fuel as [|fuel]; [cbn in Hf; lia|]. destruct Hseg as [Hx Hseg].
  destruct (Hmeta x) as (k' & Hk' & Hm); [left|]. unfold meta in Hm. unfold bkt_links in Hx.
  cbn [first find_loop]. destruct (hs !! x) as [hd|] eqn:Hhd; [|done].
  injection Hx as _ Hn. injection Hm as Hkey Hlen Hv. cbn [deref mbind exec_bind].
  rewrite Hkey, Hlen, Hv, keys_match by done. case_bool_decide as Heq.
  - exists (Some x). split; [done|]. split; [left|]. rewrite Hhd. cbn. congruence.
  - rewrite Hn. destruct (IH fuel (Some x)) as (r & -> & Hr); try done.
    + cbn in Hf. lia.
    + intros y Hy. apply Hmeta. by right.
    + exists r. split; [done|]. destruct r as [z|].
      * destruct Hr. split; [by right|done].
      * intros y [->|Hy]%elem_of_cons; [|by apply Hr]. rewrite Hhd. cbn. congruence.
Qed.

(** What is found in the chain of the key is what the list says. *)
Lemma find_result s t h k cs c r :
  list_ok s t h → chains (handles s) (num_buckets t) (buckets t) cs h.*2 → NoDup h.*1 →
  cs !! HASH_TO_BKT (HASH_FUNCTION (chars k)) (num_buckets t) = Some c →
  match r with
  | Some x => x ∈ c ∧ key <$> handles s !! x = Some k
  | None => ∀ y, y ∈ c → key <$> handles s !! y ≠ Some k
  end → r = hash_find k h.
Proof.
  intros Hlo Hch Hnd Hc Hr. symmetry. destruct r as [y|].
  - destruct Hr as [Hy Hkey]. apply (chains_subset _ _ _ _ _ _ _ _ Hch Hc) in Hy.
    apply hash_find_elem; [done|].
    destruct (list_ok_hashed _ _ _ _ Hlo Hy) as (k' & hd & He & Hhd & Hk' & _).
    rewrite Hhd in Hkey. cbn in Hkey. congruence.
  - apply hash_find_None. intros ([k' z] & Heq & Hz)%list_elem_of_fmap. cbn in Heq. subst k'.
    assert (Hz2 : z ∈ h.*2) by (by apply (list_elem_of_fmap_2 snd _ (k, z))).
    pose proof (lo_keys _ _ _ Hlo _ _ Hz) as Hm. unfold meta in Hm.
    destruct (handles s !! z) as [hd|] eqn:Hhd; [|done]. injection Hm as Hkey _ Hv.
    destruct (chains_elem _ _ _ _ _ z hd Hch Hz2 Hhd) as (b' & c' & _ & Hc' & Hzc & _).
    rewrite Hv, Hc in Hc'. injection Hc' as <-. apply (Hr z Hzc). rewrite Hhd. cbn. by rewrite Hkey.
Qed.

(** [HASH_FIND_STR] finds the element of this key. *)
Lemma HASH_FIND_STR_ok s h k :
  rep s h → NoDup h.*1 → (∀ k', k' ∈ h.*1 → short k') → short k →
  HASH_FIND_STR k s = Done (hash_find k h).
Proof.
  intros Hrep Hnd Hshort Hk. unfold HASH_FIND_STR. destruct h as [|e h]; [by destruct Hrep as [-> _]|].
  destruct Hrep as [t Hok]. revert Hnd Hshort Hok. generalize (e :: h). clear e h. intros h Hnd Hshort Hok.
  pose proof (to_list _ _ _ Hok) as Hlo. destruct (to_chains _ _ _ Hok) as [cs Hch].
  assert (is_Some (head s)) as [x ->].
  { rewrite (lo_head _ _ _ Hlo). pose proof (lo_tail _ _ _ Hlo). destruct h as [|[]]; done. }
  rewrite (list_ok_table _ _ _ Hlo). cbn [mbind exec_bind]. unfold HASH_FIND_IN_BKT.
  rewrite (list_ok_table _ _ _ Hlo). cbn [mbind exec_bind]. set (i := HASH_TO_BKT _ _).
  assert (is_Some (buckets t !! i)) as [b Hb].
  { apply lookup_lt_is_Some. subst i. destruct (lo_log _ _ _ Hlo) as [Hl ->].
    pose proof (HASH_TO_BKT_lt _ _ (HASH_FUNCTION_word32 (chars k)) Hl).
    pose proof (ch_num _ _ _ _ _ Hch). destruct (lo_log _ _ _ Hlo). lia. }
  rewrite Hb. cbn [deref mbind exec_bind].
  destruct (chains_lookup _ _ _ _ _ _ _ Hch Hb) as (c & Hc & Hbok). rewrite (bo_head _ _ _ _ _ Hbok).
  destruct (chains_walk _ _ _ _ _ _ _ Hch (lo_nodup _ _ _ Hlo) Hc) as [Hf Hseg].
  assert (Hin : ∀ y, y ∈ c → y ∈ h.*2) by (intros y; apply (chains_subset _ _ _ _ _ _ _ _ Hch Hc)).
  destruct (find_loop_ok (S (size (handles s))) (handles s) k None c) as (r & -> & Hr); try done.
  { lia. }
  { intros y ([k' z] & -> & Hy)%Hin%list_elem_of_fmap. exists k'. cbn. split; [|by apply Hlo].
    apply Hshort. by apply (list_elem_of_fmap_2 fst _ (k', z)). }
  f_equal. by apply (find_result s t h k cs c).
Qed.

Lemma HASH_COUNT_ok s h : rep s h → HASH_COUNT s = Done (Z.of_nat (hash_count h)).
Proof.
  intros Hrep. unfold HASH_COUNT. destruct h as [|e h]; [by destruct Hrep as [-> _]|].
  destruct Hrep as [t Hok]. pose proof (to_list _ _ _ Hok) as Hlo.
  rewrite (lo_head _ _ _ Hlo). cbn [fmap list_fmap first]. rewrite (list_ok_table _ _ _ Hlo).
  cbn [mbind exec_bind]. by rewrite (to_items _ _ _ Hok).
Qed.
(** ** Deleting *)

(** [HASH_DEL_IN_BKT], when the element is no longer on the list of all elements. *)
Lemma HASH_DEL_IN_BKT_ok s t h ids cs x hd :
  list_ok s t h → h ≠ [] → chains (handles s) (num_buckets t) (buckets t) cs ids →
  NoDup ids → ids ≡ₚ x :: h.*2 → handles s !! x = Some hd → Z.of_nat (List.length ids) < 2 ^ 32 →
  ∃ s' t' cs', HASH_DEL_IN_BKT (HASH_TO_BKT (hashv hd) (num_buckets t)) x s = Done s' ∧
    list_ok s' t' h ∧ num_items t' = num_items t ∧
    chains (handles s') (num_buckets t') (buckets t') cs' h.*2 ∧ is_Some (handles s' !! x).
Proof.
  intros Hlo Hne Hch Hnd Hids Hhd Hlen.
  destruct (chains_remove _ _ _ _ _ _ _ _ Hch Hnd Hids Hhd Hlen)
    as (b & hs1 & hs' & cs' & Hb & E1 & E2 & Hch' & Hsame).
  unfold HASH_DEL_IN_BKT. rewrite (list_ok_table _ _ _ Hlo). cbn [mbind exec_bind].
  rewrite Hb, Hhd. cbn [deref mbind exec_bind]. rewrite E1. cbn [mbind exec_bind]. rewrite E2.
  cbn [mbind exec_bind]. eexists _, (set_buckets _ t), cs'. split; [done|].
  split; [|split; [done|split; [exact Hch'|]]].
  - apply (list_ok_same s t); try done; apply (lo_log _ _ _ Hlo).
  - destruct (Hsame x) as [_ Hm]. unfold meta in Hm. rewrite Hhd in Hm. cbn.
    destruct (hs' !! x); [by eexists|done].
Qed.

Lemma first_unlink (l1 l2 : list positive) x :
  match final None l1 with Some _ => first (l1 ++ x :: l2) None | None => first l2 None end
  = first (l1 ++ l2) None.
Proof. destruct l1 as [|y l1 _] using rev_ind; [done|]. rewrite final_snoc. by destruct l1. Qed.

(** The element is taken off the list of all elements. *)
Lemma unlink_list_ok s t h1 h2 k x hd (last' : positive) :
  list_ok s t (h1 ++ (k, x) :: h2) → handles s !! x = Some hd → h1 ++ h2 ≠ [] →
  last (h1 ++ h2).*2 = Some last' →
  ∃ hs1 hs', update_opt (prev hd) (set_next (next hd)) (handles s) = Done hs1 ∧
    update_opt (next hd) (set_prev (prev hd)) hs1 = Done hs' ∧
    (∀ y, bkt_links hs' y = bkt_links (handles s) y ∧ meta hs' y = meta (handles s) y) ∧
    list_ok {| handles := hs';
               head := match prev hd with Some _ => head s | None => next hd end;
               tbl := Some (set_tail last' t) |} (set_tail last' t) (h1 ++ h2).
Proof.
  intros Hlo Hhd Hne Hlast. pose proof (lo_app _ _ _ Hlo) as Happ. pose proof (lo_nodup _ _ _ Hlo) as Hnd.
  rewrite fmap_app, fmap_cons in Happ, Hnd. cbn [snd] in Happ, Hnd.
  pose proof (dseg_mid _ _ _ _ _ _ Happ) as Hlk. rewrite (app_lookup _ _ _ Hhd) in Hlk.
  injection Hlk as Hp Hn. rewrite Hp, Hn.
  assert (Hthere : ∀ y, y ∈ h1.*2 ++ x :: h2.*2 → is_Some (handles s !! y)).
  { intros y Hy. destruct (list_ok_hashed s t _ y Hlo) as (k' & hd' & _ & -> & _); [|done].
    by rewrite fmap_app, fmap_cons. }
  destruct (assign_unlink_app (handles s) (final None h1.*2) (first h2.*2 None))
    as (hs1 & hs' & E1 & E2 & Happ' & Hother).
  { intros y Hy%(proj1 (neighbours_mid h1.*2 h2.*2 x y)). by apply Hthere. }
  { intros y Hy%(proj2 (neighbours_mid h1.*2 h2.*2 x y)). by apply Hthere. }
  exists hs1, hs'. split; [done|]. split; [done|]. split; [done|]. split; cbn.
  - rewrite (lo_head _ _ _ Hlo), !fmap_app, fmap_cons. apply first_unlink.
  - done.
  - rewrite fmap_app. apply (dseg_ext (unlink (app_links (handles s)) (final None h1.*2) (first h2.*2 None)));
      [by intros; apply Happ'|]. by apply (dseg_unlink _ _ x).
  - done.
  - apply Hlo.
  - intros k' y Hy. destruct (Hother y) as [_ ->]. apply Hlo. set_solver.
  - rewrite fmap_app. rewrite <-Permutation_middle in Hnd. by apply NoDup_cons in Hnd as [_ ?].
Qed.
(** The new tail, as [HASH_DELETE_HH] computes it. *)
Lemma tail_without t (l1 l2 : list positive) x last' :
  NoDup (l1 ++ x :: l2) → last (l1 ++ x :: l2) = Some (tail t) → last (l1 ++ l2) = Some last' →
  (if bool_decide (x = tail t) then p ← deref (final None l1); mret (set_tail p t) else mret t)
  = Done (set_tail last' t).
Proof.
  intros Hnd Hlast Hlast'. destruct l2 as [|y l2 _] using rev_ind.
  - rewrite last_snoc in Hlast. injection Hlast as ->. rewrite bool_decide_eq_true_2 by done.
    rewrite app_nil_r in Hlast'. unfold final. by rewrite Hlast'.
  - rewrite app_comm_cons, app_assoc, last_snoc in Hlast. rewrite app_assoc, last_snoc in Hlast'.
    injection Hlast as Hy. injection Hlast' as <-.
    rewrite bool_decide_eq_false_2; [rewrite Hy; by destruct t|]. intros ->. apply NoDup_app in Hnd as (_ & _ & [Hn _]%NoDup_cons).
    apply Hn. rewrite Hy. set_solver.
Qed.

(** The last steps of [HASH_DELETE_HH]. *)
Lemma delete_from_bucket s t h ids cs x hd n :
  list_ok s t h → h ≠ [] → chains (handles s) (num_buckets t) (buckets t) cs ids →
  NoDup ids → ids ≡ₚ x :: h.*2 → handles s !! x = Some hd →
  num_items t = Z.of_nat n → Z.of_nat n < 2 ^ 32 → n = S (List.length h) →
  ∃ s', (s ← HASH_DEL_IN_BKT (HASH_TO_BKT (hashv hd) (num_buckets t)) x s;
         t ← table_of s; mret (with_tbl (set_num_items (sub32 (num_items t) 1) t) s)) = Done s' ∧
    rep s' h ∧ is_Some (handles s' !! x).
Proof.
  intros Hlo Hne Hch Hnd Hids Hhd Hit Hn ->.
  destruct (HASH_DEL_IN_BKT_ok s t h ids cs x hd) as (s2 & t2 & cs2 & -> & Hlo2 & Hit2 & Hch2 & Hx2); try done.
  { rewrite (Permutation_length Hids). cbn. by rewrite length_fmap. }
  cbn [mbind exec_bind]. rewrite (list_ok_table _ _ _ Hlo2). cbn [mbind exec_bind].
  eexists. split; [done|]. split; [|done]. apply (rep_intro _ (set_num_items (sub32 (num_items t2) 1) t2)). split; cbn.
  - destruct s2. apply (list_ok_same _ t2); try done; apply (lo_log _ _ _ Hlo2).
  - rewrite Hit2. by apply sub32_pred.
  - lia.
  - by exists cs2.
Qed.

(** [HASH_DEL]: the element is taken out. *)
Lemma HASH_DELETE_HH_ok s h1 h2 k x :
  rep s (h1 ++ (k, x) :: h2) → ∃ s', HASH_DELETE_HH x s = Done s' ∧ rep s' (h1 ++ h2)
    ∧ is_Some (handles s' !! x).
Proof.
  intros Hrep. assert (∃ t, table_ok s t (h1 ++ (k, x) :: h2)) as [t Hok] by (by destruct h1).
  pose proof (to_list _ _ _ Hok) as Hlo. destruct (to_chains _ _ _ Hok) as [cs Hch].
  pose proof (lo_app _ _ _ Hlo) as Happ. pose proof (lo_tail _ _ _ Hlo) as Htl.
  pose proof (lo_nodup _ _ _ Hlo) as Hnd. rewrite fmap_app, fmap_cons in Happ, Htl, Hnd, Hch.
  cbn [snd] in *.
  destruct (list_ok_hashed _ _ _ x Hlo) as (k' & hd & _ & Hhd & _); [rewrite fmap_app; set_solver|].
  pose proof (dseg_mid _ _ _ _ _ _ Happ) as Hlk. rewrite (app_lookup _ _ _ Hhd) in Hlk.
  injection Hlk as Hp Hn. unfold HASH_DELETE_HH. rewrite Hhd. cbn [deref mbind exec_bind].
  rewrite (list_ok_table _ _ _ Hlo). cbn [mbind exec_bind].
  destruct (last (h1 ++ h2).*2) as [last'|] eqn:Hlast; rewrite fmap_app in Hlast.
  2: { apply last_None in Hlast. apply app_eq_nil in Hlast as [E1%fmap_nil_inv E2%fmap_nil_inv].
       subst h1 h2. cbn in Hp, Hn. rewrite Hp, Hn. cbn. eexists. split; [done|]. split; [done|]. cbn. by rewrite Hhd. }
  assert (bool_decide (prev hd = None) && bool_decide (next hd = None) = false) as ->.
  { rewrite Hp, Hn. destruct h2 as [|[k2 x2] h2]; [|by rewrite andb_false_r].
    rewrite app_nil_r in Hlast. unfold final. by rewrite Hlast. }
  pose proof (tail_without t _ _ _ last' Hnd Htl Hlast) as Htw. rewrite <-Hp in Htw.
  rewrite Htw. cbn [mbind exec_bind].
  destruct (unlink_list_ok s t h1 h2 k x hd last' Hlo Hhd) as (hs1 & hs' & E1 & E2 & Hother & Hlo').
  { intros [-> ->]%app_eq_nil. done. }
  { by rewrite fmap_app. }
  rewrite E1. cbn [mbind exec_bind]. rewrite E2. cbn [mbind exec_bind].
  match goal with |- context [HASH_DEL_IN_BKT _ _ ?s1] => set (s1' := s1) in * end.
  destruct (Hother x) as [_ Hmx]. rewrite (meta_lookup _ _ _ Hhd) in Hmx. unfold meta in Hmx.
  destruct (hs' !! x) as [hd'|] eqn:Hhd'; [|done]. injection Hmx as _ _ Hv. rewrite <-Hv.
  apply (delete_from_bucket s1' (set_tail last' t) (h1 ++ h2) (h1.*2 ++ x :: h2.*2) cs x hd'
    (List.length (h1 ++ (k, x) :: h2))); try done.
  - intros [-> ->]%app_eq_nil. done.
  - apply (chains_ext (handles s)); [by intros; apply Hother|done].
  - rewrite fmap_app. by rewrite <-Permutation_middle.
  - apply (to_items _ _ _ Hok).
  - apply (to_bound _ _ _ Hok).
  - rewrite !length_app. cbn. lia.
Qed.
End ops.
