(* ===== verification/HashMore.v ===== *)
(** * uthash.h: the macros that the library does not use

    Adding in order, replacing, sorting, selecting.  [cmpfcn] is the comparison function of the
    user, on the addresses of elements; [cond] his condition. *)
From S2P Require Import Prelude Mem HashFn HashTable.
Local Open Scope Z_scope.

Notation heap := (gmap positive UT_hash_handle) (only parsing).

Section HashMore.
Context `{Malloc, HashFunction}.

(** ** Adding in order *)

(** The first element that has to come behind [add], or NULL. *)
Fixpoint HASH_AKBI_INNER_LOOP (fuel : nat) (cmpfcn : positive → positive → Z) (add : positive)
    (hs : heap) (iter : positive) : exec (option positive) :=
  match fuel with
  | O => NoFuel
  | S fuel =>
      if 0 <? cmpfcn iter add then mret (Some iter)
      else
        h ← deref (hs !! iter);
        match next h with
        | None => mret None
        | Some n => HASH_AKBI_INNER_LOOP fuel cmpfcn add hs n
        end
  end.

(** [add] goes in front of [iter]. *)
Definition link_before (iter add : positive) (s : uthash) : exec uthash :=
  hi ← deref (handles s !! iter);
  hs ← update add (set_app (prev hi) (Some iter)) (handles s);
  hs ← update_opt (prev hi) (set_next (Some add)) hs;
  let first := match prev hi with Some _ => head s | None => Some add end in
  hs ← update iter (set_prev (Some add)) hs;
  mret {| handles := hs; head := first; tbl := tbl s |}.

Definition HASH_ADD_KEYPTR_BYHASHVALUE_INORDER (cmpfcn : positive → positive → Z) (k : string)
    (hv : Z) (add : positive) (s : uthash) : exec (option uthash) :=
  let s := with_handles (<[add := new_handle k hv]> (handles s)) s in
  match head s with
  | None =>
      match HASH_MAKE_TABLE add with
      | None => mret None
      | Some t =>
          HASH_ADD_TO_TABLE hv add {| handles := handles s; head := Some add; tbl := Some t |}
      end
  | Some iter =>
      it ← HASH_AKBI_INNER_LOOP (S (size (handles s))) cmpfcn add (handles s) iter;
      s ← match it with
          | Some it => link_before it add s
          | None => HASH_APPEND_LIST add s
          end;
      HASH_ADD_TO_TABLE hv add s
  end.

Definition HASH_ADD_INORDER (cmpfcn : positive → positive → Z) (k : string) (add : positive)
    (s : uthash) : exec (option uthash) :=
  HASH_ADD_KEYPTR_BYHASHVALUE_INORDER cmpfcn k (HASH_FUNCTION (chars k)) add s.

(** ** Replacing *)

(** The element with the key of the new one is taken out. *)
Definition take_out (k : string) (s : uthash) : exec (option positive * uthash) :=
  replaced ← HASH_FIND_STR k s;
  s ← match replaced with Some r => HASH_DELETE_HH r s | None => mret s end;
  mret (replaced, s).

Definition HASH_REPLACE_STR (k : string) (add : positive) (s : uthash)
  : exec (option (option positive * uthash)) :=
  '(replaced, s) ← take_out k s;
  r ← HASH_ADD_KEYPTR_BYHASHVALUE k (HASH_FUNCTION (chars k)) add s;
  mret (match r with Some s => Some (replaced, s) | None => None end).

Definition HASH_REPLACE_INORDER (cmpfcn : positive → positive → Z) (k : string) (add : positive)
    (s : uthash) : exec (option (option positive * uthash)) :=
  '(replaced, s) ← take_out k s;
  r ← HASH_ADD_KEYPTR_BYHASHVALUE_INORDER cmpfcn k (HASH_FUNCTION (chars k)) add s;
  mret (match r with Some s => Some (replaced, s) | None => None end).

(** ** Sorting *)

(** [q] walks over a run of [insize] elements, if there are so many. *)
Fixpoint step_off (i : nat) (hs : heap) (q : positive) (psize : Z) : exec (option positive * Z) :=
  match i with
  | O => mret (Some q, psize)
  | S i =>
      h ← deref (hs !! q);
      match next h with
      | None => mret (None, add32 psize 1)
      | Some n => step_off i hs n (add32 psize 1)
      end
  end.

(** Which run gives the next element: the second, if the first is used up or has a greater one. *)
Definition from_second (cmpfcn : positive → positive → Z) (p : option positive) (psize : Z)
    (q : option positive) (qsize : Z) : exec bool :=
  if psize =? 0 then mret true
  else match q with
       | None => mret false
       | Some q =>
           if qsize =? 0 then mret false
           else p ← deref p; mret (negb (cmpfcn p q <=? 0))
       end.

(** [p->next], or NULL behind NULL. *)
Definition next_in (hs : heap) (p : option positive) : exec (option positive) :=
  match p with None => mret None | Some p => h ← deref (hs !! p); mret (next h) end.

(** The element [e] is the next one of the new list; [list] and [tail] are its ends so far. *)
Definition put_tail (e : option positive) (hs : heap) (list tail : option positive)
  : exec (heap * option positive) :=
  hs ← update_opt tail (set_next e) hs;
  let list := match tail with Some _ => list | None => e end in
  hs ← update_opt e (set_prev tail) hs;
  mret (hs, list).

(** What merging yields: the handles, the ends of the new list, what follows the second run. *)
Fixpoint merge_loop (fuel : nat) (cmpfcn : positive → positive → Z) (hs : heap)
    (p : option positive) (psize : Z) (q : option positive) (qsize : Z)
    (list tail : option positive) : exec (heap * option positive * option positive * option positive) :=
  if (psize =? 0) && ((qsize =? 0) || bool_decide (q = None)) then mret (hs, list, tail, q)
  else
    match fuel with
    | O => NoFuel
    | S fuel =>
        second ← from_second cmpfcn p psize q qsize;
        if second : bool then
          n ← (q ← deref q; next_in hs (Some q));
          '(hs, list) ← put_tail q hs list tail;
          merge_loop fuel cmpfcn hs p psize n (sub32 qsize 1) list q
        else
          n ← next_in hs p;
          '(hs, list) ← put_tail p hs list tail;
          merge_loop fuel cmpfcn hs n (sub32 psize 1) q qsize list p
    end.

(** One pass over the list merges pairs of runs; it counts them. *)
Fixpoint merge_runs (fuel : nat) (cmpfcn : positive → positive → Z) (insize : Z) (hs : heap)
    (p list tail : option positive) (nmerges : Z) : exec (heap * option positive * option positive * Z) :=
  match p with
  | None => mret (hs, list, tail, nmerges)
  | Some p0 =>
      match fuel with
      | O => NoFuel
      | S fuel =>
          '(q, psize) ← step_off (Z.to_nat insize) hs p0 0;
          '(hs, list, tail, q) ← merge_loop (S (size hs)) cmpfcn hs p psize q insize list tail;
          merge_runs fuel cmpfcn insize hs q list tail (add32 nmerges 1)
      end
  end.

(** Passes, until one merges a single pair. *)
Fixpoint srt_loop (fuel : nat) (cmpfcn : positive → positive → Z) (insize : Z) (hs : heap)
    (list : option positive) : exec (heap * option positive * option positive) :=
  match fuel with
  | O => NoFuel
  | S fuel =>
      '(hs, list, tail, nmerges) ← merge_runs (S (size hs)) cmpfcn insize hs list None None 0;
      hs ← update_opt tail (set_next None) hs;
      if nmerges <=? 1 then mret (hs, list, tail)
      else srt_loop fuel cmpfcn (u32 (insize * 2)) hs list
  end.

(** The size of the runs is doubled 31 times at most. *)
Definition srt_fuel : nat := 32.

Definition HASH_SRT (cmpfcn : positive → positive → Z) (s : uthash) : exec uthash :=
  match head s with
  | None => mret s
  | Some _ =>
      t ← table_of s;
      '(hs, list, tail) ← srt_loop srt_fuel cmpfcn 1 (handles s) (head s);
      tail ← deref tail;
      mret {| handles := hs; head := list; tbl := Some (set_tail tail t) |}
  end.

(** ** What a table costs, in a [size_t]: 64 bits hold what two numbers of 32 bits yield *)

Definition sizeof_UT_hash_handle : Z := 56.

Definition HASH_OVERHEAD (s : uthash) : exec Z :=
  match head s with
  | None => mret 0
  | Some _ =>
      t ← table_of s;
      mret (num_items t * sizeof_UT_hash_handle + num_buckets t * sizeof_UT_hash_bucket
            + sizeof_UT_hash_table)
  end.

(** ** Selecting

    An element has two handles, one for each table; [last] is the last element selected.  The
    tail of the new table is not moved behind its first element. *)
Definition select_one (src : heap) (elt : positive) (dst : uthash) (last : option positive)
  : exec (option uthash) :=
  h ← deref (src !! elt);
  let new := {| prev := last; next := None; hh_prev := None; hh_next := None;
                key := key h; keylen := keylen h; hashv := hashv h |} in
  hs ← update_opt last (set_next (Some elt)) (<[elt := new]> (handles dst));
  match match head dst with
        | Some _ => Some (with_handles hs dst)
        | None =>
            match HASH_MAKE_TABLE elt with
            | Some t => Some {| handles := hs; head := Some elt; tbl := Some t |}
            | None => None
            end
        end with
  | None => mret None
  | Some dst =>
      t ← table_of dst;
      r ← HASH_ADD_TO_BKT (HASH_TO_BKT (hashv h) (num_buckets t)) elt dst;
      match r with
      | None => mret None
      | Some dst =>
          t ← table_of dst;
          mret (Some (with_tbl (set_num_items (add32 (num_items t) 1) t) dst))
      end
  end.

Fixpoint select_chain (fuel : nat) (cond : positive → bool) (src : heap) (thh : option positive)
    (dst : uthash) (last : option positive) : exec (option (uthash * option positive)) :=
  match thh with
  | None => mret (Some (dst, last))
  | Some p =>
      match fuel with
      | O => NoFuel
      | S fuel =>
          r ← (if cond p then
                 r ← select_one src p dst last;
                 mret (match r with Some dst => Some (dst, Some p) | None => None end)
               else mret (Some (dst, last)));
          match r with
          | None => mret None
          | Some (dst, last) =>
              h ← deref (src !! p);
              select_chain fuel cond src (hh_next h) dst last
          end
      end
  end.

Fixpoint select_buckets (cond : positive → bool) (src : heap) (bs : list UT_hash_bucket)
    (dst : uthash) (last : option positive) : exec (option uthash) :=
  match bs with
  | [] => mret (Some dst)
  | b :: bs =>
      r ← select_chain (S (size src)) cond src (hh_head b) dst last;
      match r with
      | None => mret None
      | Some (dst, last) => select_buckets cond src bs dst last
      end
  end.

Definition HASH_SELECT (cond : positive → bool) (dst src : uthash) : exec (option uthash) :=
  match head src with
  | None => mret (Some dst)
  | Some _ => t ← table_of src; select_buckets cond (handles src) (buckets t) dst None
  end.
End HashMore.
