(* ===== verification/HashInorder.v ===== *)
(** * Adding in order and replacing, on what a hash table represents *)
From S2P Require Import Prelude Mem Uthash Sorting HashFn HashTable HashMore HashLists HashChains HashRep HashOps HashDel.
Local Open Scope Z_scope.

(** ** An element between two others *)

(** [x] is put between [a] and [b]. *)
Definition link_mid (lk : links) (x : positive) (a b : option positive) : links := fun y =>
  if decide (y = x) then Some (a, b)
  else (fun e => (if decide (b = Some y) then Some x else e.1,
                  if decide (a = Some y) then Some x else e.2)) <$> lk y.

Lemma link_mid_other lk x a b y : y ≠ x → a ≠ Some y → b ≠ Some y → link_mid lk x a b y = lk y.
Proof.
  intros Hx Ha Hb. unfold link_mid. rewrite decide_False by done.
  destruct (lk y) as [[p n]|]; [cbn|done]. by rewrite !decide_False.
Qed.

Lemma dseg_link_mid lk x l1 l2 :
  NoDup (l1 ++ l2) → x ∉ l1 ++ l2 → dseg lk None (l1 ++ l2) None →
  dseg (link_mid lk x (final None l1) (first l2 None)) None (l1 ++ x :: l2) None.
Proof.
  intros Hnd Hx Hl. apply dseg_app in Hl as [H1 H2]. rewrite elem_of_app in Hx.
  apply NoDup_app in Hnd as (Hnd1 & Hdis & Hnd2).
  set (a := final None l1) in *. set (b := first l2 None) in *.
  assert (Ha : ∀ y, a = Some y → y ∈ l1) by (intros y [|]%final_elem; done).
  assert (Hb : ∀ y, b = Some y → y ∈ l2) by (intros y [|]%first_elem; done).
  apply dseg_app. fold a. cbn [first]. split; [|split].
  - destruct l1 as [|z l1 _] using rev_ind; [done|]. subst a. rewrite final_snoc in *.
    apply dseg_app in H1 as [H1 [Hz _]]. apply dseg_app. cbn in *.
    apply NoDup_app in Hnd1 as (_ & Hz' & _). split; [|split; [|done]].
    + apply (dseg_ext lk); [|done]. intros y Hy.
      apply link_mid_other; [set_solver|intros [= <-]; apply (Hz' z); [done|left]|intros ?%Hb; set_solver].
    + unfold link_mid. rewrite decide_False by set_solver. rewrite Hz. cbn.
      rewrite decide_False by (intros ?%Hb; set_solver). by rewrite decide_True.
  - unfold link_mid. by rewrite decide_True.
  - destruct l2 as [|y l2]; [done|]. subst b. cbn [first] in *. destruct H2 as [Hy H2].
    apply NoDup_cons in Hnd2 as [Hy' _]. cbn [dseg]. split.
    + unfold link_mid. rewrite decide_False by set_solver. rewrite Hy. cbn.
      rewrite decide_True by done. rewrite decide_False; [done|]. intros ?%Ha. set_solver.
    + apply (dseg_ext lk); [|done]. intros z Hz.
      apply link_mid_other; [set_solver|intros ?%Ha; set_solver|intros [= <-]; done].
Qed.

(** The comparison of two entries is that of their elements. *)
Definition on_elt (cmp : positive → positive → Z) (e e' : string * positive) : Z := cmp e.2 e'.2.

Section ops.
Context `{HashFunction, MallocLimit}.
Implicit Types (s : uthash) (h : list (string * positive)) (t : UT_hash_table).

(** The loop finds the place of the reference. *)
Lemma HASH_AKBI_INNER_LOOP_ok cmp k x (hs : gmap positive UT_hash_handle) fuel e h pp :
  dseg (app_links hs) pp (e :: h).*2 None → (List.length (e :: h) ≤ fuel)%nat →
  ∃ h1 h2, e :: h = h1 ++ h2 ∧ insert_inorder (on_elt cmp) (k, x) (e :: h) = h1 ++ (k, x) :: h2
    ∧ HASH_AKBI_INNER_LOOP fuel cmp x hs e.2 = Done (first h2.*2 None).
Proof.
  revert fuel e pp. induction h as [|e' h IH]; intros fuel e pp Hd Hf;
    (destruct fuel as [|fuel]; [cbn in Hf; lia|]); cbn [insert_inorder HASH_AKBI_INNER_LOOP];
    change (on_elt cmp e (k, x)) with (cmp e.2 x); rewrite fmap_cons in Hd; destruct Hd as [He Hd];
    (destruct (0 <? cmp e.2 x); [eexists [], _; split_and!; reflexivity|]);
    unfold app_links in He; (destruct (hs !! e.2) as [hd|]; [|done]); injection He as _ Hn;
    cbn [deref mbind exec_bind]; rewrite Hn; cbn [first fmap list_fmap].
  - by exists [e], [].
  - destruct (IH fuel e' (Some e.2) Hd) as (h1 & h2 & E & Ei & El); [cbn in *; lia|].
    exists (e :: h1), h2. split_and!; [by rewrite E| |done]. cbn [app]. f_equal. exact Ei.
Qed.

(** The assignments of [link_before]. *)
Lemma assign_mid (hs : gmap positive UT_hash_handle) x a it hd :
  x ≠ it → a ≠ Some x → a ≠ Some it → is_Some (hs !! it) → (∀ y, a = Some y → is_Some (hs !! y)) →
  ∃ hs1 hs2 hs', update x (set_app a (Some it)) (<[x := hd]> hs) = Done hs1 ∧
    update_opt a (set_next (Some x)) hs1 = Done hs2 ∧ update it (set_prev (Some x)) hs2 = Done hs' ∧
    (∀ y, app_links hs' y = link_mid (app_links hs) x a (Some it) y) ∧
    (∀ y, y ≠ x → bkt_links hs' y = bkt_links hs y ∧ meta hs' y = meta hs y) ∧
    meta hs' x = Some (key hd, keylen hd, hashv hd).
Proof.
  intros Hxi Hax Hai Hit Ha.
  destruct (update_done x (set_app a (Some it)) (<[x := hd]> hs)) as (hs1 & E1 & L1).
  { rewrite lookup_insert_eq. by eexists. }
  destruct (update_opt_done a (set_next (Some x)) hs1) as (hs2 & E2 & L2).
  { intros y Hy. rewrite L1, lookup_insert_ne by (intros ->; done). by destruct (Ha y Hy) as [? ->]. }
  destruct (update_done it (set_prev (Some x)) hs2) as (hs' & E3 & L3).
  { rewrite L2, L1, lookup_insert_ne by done. by destruct Hit as [? ->]. }
  exists hs1, hs2, hs'. split; [done|]. split; [done|]. split; [done|].
  assert (Hx : hs' !! x = Some (set_app a (Some it) hd)).
  { rewrite L3, L2, L1, lookup_insert_eq. cbn. rewrite (decide_True (P := Some x = Some x)) by done.
    rewrite (decide_False (P := a = Some x)), decide_False by congruence. done. }
  assert (Hy : ∀ y, y ≠ x → hs' !! y = (fun g => (if decide (Some it = Some y) then set_prev (Some x) else id)
    ((if decide (a = Some y) then set_next (Some x) else id) g)) <$> hs !! y).
  { intros y Hy. rewrite L3, L2, L1, lookup_insert_ne by done. destruct (hs !! y); [cbn|done].
    rewrite (decide_False (P := Some x = Some y)) by congruence.
    by destruct (decide (a = Some y)), (decide (Some it = Some y)). }
  split; [|split].
  - intros y. unfold app_links, link_mid. destruct (decide (y = x)) as [->|Hne]; [by rewrite Hx|].
    rewrite Hy by done. destruct (hs !! y); [cbn|done].
    by destruct (decide (a = Some y)), (decide (Some it = Some y)).
  - intros y Hne. unfold bkt_links, meta. rewrite Hy by done. destruct (hs !! y); [cbn|done].
    by destruct (decide (a = Some y)), (decide (Some it = Some y)).
  - unfold meta. by rewrite Hx.
Qed.

(** The element is on the list of all elements, in front of [it]. *)
Lemma link_before_ok s t h1 h2 k x e :
  list_ok s t (h1 ++ e :: h2) → x ∉ (h1 ++ e :: h2).*2 →
  ∃ s', link_before e.2 x (with_handles
      (<[x := new_handle k (HASH_FUNCTION (chars k))]> (handles s)) s) = Done s' ∧
    list_ok s' t (h1 ++ (k, x) :: e :: h2) ∧
    (∀ y, y ≠ x → bkt_links (handles s') y = bkt_links (handles s) y ∧ meta (handles s') y = meta (handles s) y).
Proof.
  intros Hlo Hx. pose proof (lo_app _ _ _ Hlo) as Happ. pose proof (lo_nodup _ _ _ Hlo) as Hnd.
  pose proof Hx as Hx2. rewrite fmap_app, fmap_cons in Happ, Hnd, Hx2.
  pose proof (dseg_mid _ _ _ _ _ _ Happ) as Hlk. unfold app_links in Hlk.
  destruct (handles s !! e.2) as [hi|] eqn:Hhi; [|done]. injection Hlk as Hp _.
  rewrite elem_of_app, elem_of_cons in Hx2.
  assert (Hfin : ∀ y, final None h1.*2 = Some y → y ∈ h1.*2) by (intros y [|]%final_elem; done).
  destruct (assign_mid (handles s) x (final None h1.*2) e.2 (new_handle k (HASH_FUNCTION (chars k))))
    as (hs1 & hs2 & hs' & E1 & E2 & E3 & Happ' & Hother & Hnew).
  - intros ->. set_solver.
  - intros ?%Hfin. set_solver.
  - intros Hf%Hfin. apply NoDup_app in Hnd as (_ & Hdis & _). apply (Hdis _ Hf). left.
  - by rewrite Hhi.
  - intros y Hy%Hfin. pose proof (dseg_lookup _ _ _ _ y Happ) as Hl. unfold app_links in Hl.
    destruct (handles s !! y); [by eexists|]. destruct Hl as [? Hl]; [set_solver|done].
  - unfold link_before. cbn [handles with_handles]. rewrite lookup_insert_ne by (intros ->; set_solver).
    rewrite Hhi. cbn [deref mbind exec_bind]. rewrite Hp, E1. cbn [mbind exec_bind].
    rewrite E2. cbn [mbind exec_bind]. rewrite E3. cbn [mbind exec_bind]. eexists. split; [done|].
    split; [|done]. split; cbn.
    + rewrite (lo_head _ _ _ Hlo). destruct h1 as [|e1 h1 _] using rev_ind; [done|].
      rewrite fmap_app. cbn. rewrite final_snoc. by destruct h1.
    + apply Hlo.
    + rewrite fmap_app, !fmap_cons. cbn [snd].
      apply (dseg_ext (link_mid (app_links (handles s)) x (final None h1.*2) (first (e.2 :: h2.*2) None)));
        [by intros; apply Happ'|]. apply dseg_link_mid; [done| |done]. set_solver.
    + rewrite <-(lo_tail _ _ _ Hlo), !fmap_app, !fmap_cons. by rewrite !last_app_cons.
    + apply Hlo.
    + intros k' y [Hy|[[= -> ->]|Hy]%elem_of_cons]%elem_of_app; [| by rewrite Hnew |];
        (assert ((k', y) ∈ h1 ++ e :: h2) as Hin by set_solver);
        (assert (y ≠ x) as Hne by (intros ->; apply Hx; by apply (list_elem_of_fmap_2 snd _ (k', x))));
        destruct (Hother y Hne) as [_ ->]; by apply Hlo.
    + rewrite fmap_app, !fmap_cons. cbn [snd]. rewrite <-Permutation_middle. apply NoDup_cons.
      split; [set_solver|done].
Qed.

(** [HASH_ADD_INORDER]: the element is added at its place. *)
Lemma HASH_ADD_INORDER_ok cmp s h k x :
  rep s h → x ∉ h.*2 → Z.of_nat (List.length h) + 1 < 2 ^ 32 →
  ∃ r, HASH_ADD_INORDER cmp k x s = Done r ∧
    (r = None ∨ ∃ s', r = Some s' ∧ rep s' (insert_inorder (on_elt cmp) (k, x) h)).
Proof.
  intros Hrep Hx Hlen. destruct h as [|e h].
  { replace (HASH_ADD_INORDER cmp k x s) with (HASH_ADD_STR k x s); [by apply HASH_ADD_STR_empty|].
    destruct Hrep as [Hhd _]. unfold HASH_ADD_INORDER, HASH_ADD_KEYPTR_BYHASHVALUE_INORDER, HASH_ADD_STR,
      HASH_ADD_KEYPTR_BYHASHVALUE. cbn [head with_handles]. by rewrite Hhd. }
  destruct Hrep as [t Hok]. pose proof (to_list _ _ _ Hok) as Hlo. destruct (to_chains _ _ _ Hok) as [cs Hch].
  unfold HASH_ADD_INORDER, HASH_ADD_KEYPTR_BYHASHVALUE_INORDER. cbn [head with_handles handles].
  rewrite (lo_head _ _ _ Hlo). cbn [fmap list_fmap first].
  set (hs0 := <[x := _]> (handles s)).
  destruct (HASH_AKBI_INNER_LOOP_ok cmp k x hs0 (S (size hs0)) e h None) as (h1 & h2 & E & Ei & El).
  { apply (dseg_ext (app_links (handles s))); [|apply Hlo]. intros y Hy. unfold app_links, hs0.
    rewrite lookup_insert_ne; [done|]. by intros ->. }
  { pose proof (chain_size hs0 (e :: h).*2 (lo_nodup _ _ _ Hlo)) as Hsz. rewrite length_fmap in Hsz.
    apply Nat.le_le_succ_r, Hsz. intros y Hy. unfold hs0. rewrite lookup_insert_ne by (by intros ->).
    destruct (list_ok_hashed _ _ _ _ Hlo Hy) as (? & ? & _ & -> & _). by eexists. }
  rewrite El. cbn [mbind exec_bind]. rewrite Ei. destruct h2 as [|e2 h2]; cbn [fmap list_fmap first].
  - rewrite app_nil_r in E. subst h1.
    destruct (HASH_APPEND_LIST_ok s t (e :: h) k x Hok Hx) as (s1 & t1 & cs1 & E1 & Hlo1 & Hit & Hch1).
    fold hs0 in E1. rewrite E1. cbn [mbind exec_bind].
    destruct (HASH_ADD_TO_TABLE_ok s1 t1 (e :: h) ((e :: h) ++ [(k, x)]) k x cs1 Hlo1) as (r & -> & Hr);
      [by rewrite <-Permutation_cons_append|done|by rewrite Hit; apply Hok|done|].
    exists r. split; [done|]. destruct Hr as [->|(s' & t' & -> & Ht)]; [by left|right].
    exists s'. split; [done|]. by apply (rep_intro _ t').
  - rewrite E in *. destruct (link_before_ok s t h1 h2 k x e2 Hlo Hx) as (s1 & E1 & Hlo1 & Hother).
    fold hs0 in E1. rewrite E1. cbn [mbind exec_bind].
    destruct (HASH_ADD_TO_TABLE_ok s1 t (h1 ++ e2 :: h2) (h1 ++ (k, x) :: e2 :: h2) k x cs Hlo1) as (r & -> & Hr);
      [by rewrite Permutation_middle| |apply Hok|done|].
    { apply (chains_ext (handles s)); [|done]. intros y Hy. apply Hother. by intros ->. }
    exists r. split; [done|]. destruct Hr as [->|(s' & t' & -> & Ht)]; [by left|right].
    exists s'. split; [done|]. by apply (rep_intro _ t').
Qed.

(** ** Replacing *)

Lemma take_out_ok s h k :
  rep s h → NoDup h.*1 → (∀ k', k' ∈ h.*1 → short k') → short k →
  ∃ s', take_out k s = Done (hash_find k h, s') ∧ rep s' (hash_del k h).
Proof.
  intros Hrep Hnd Hs Hk. unfold take_out. rewrite (HASH_FIND_STR_ok s h k) by done.
  cbn [mbind exec_bind]. destruct (hash_find k h) as [x|] eqn:E.
  - destruct (hash_del_split k x h Hnd E) as (h1 & h2 & -> & ->).
    destruct (HASH_DELETE_HH_ok s h1 h2 k x Hrep) as (s' & -> & Hs' & _). by exists s'.
  - exists s. by rewrite hash_del_notin.
Qed.

Lemma hash_del_length k h : NoDup h.*1 → (List.length (hash_del k h) ≤ List.length h)%nat.
Proof. intros Hnd. rewrite hash_del_filter by done. apply length_filter. Qed.

Lemma replace_ok s h k (add : uthash → exec (option uthash)) (h' : list (string * positive)) :
  rep s h → NoDup h.*1 → (∀ k', k' ∈ h.*1 → short k') → short k →
  (∀ s', rep s' (hash_del k h) → ∃ r, add s' = Done r ∧ (r = None ∨ ∃ s'', r = Some s'' ∧ rep s'' h')) →
  ∃ r, ('(replaced, s) ← take_out k s;
        r ← add s;
        mret (match r with Some s => Some (replaced, s) | None => None end)) = Done r ∧
    (r = None ∨ ∃ s', r = Some (hash_find k h, s') ∧ rep s' h').
Proof.
  intros Hrep Hnd Hs Hk Hadd. destruct (take_out_ok s h k) as (s1 & -> & Hs1); [done..|].
  cbn [mbind exec_bind]. destruct (Hadd s1 Hs1) as (r & -> & Hr). cbn [mbind exec_bind].
  eexists. split; [done|]. destruct Hr as [->|(s' & -> & Hs')]; [by left|right]. by exists s'.
Qed.

(** [HASH_REPLACE_STR]: the element with this key is given back; the new one is added at the end. *)
Lemma HASH_REPLACE_STR_ok s h k x :
  rep s h → NoDup h.*1 → (∀ k', k' ∈ h.*1 → short k') → short k → x ∉ (hash_del k h).*2 →
  Z.of_nat (List.length h) + 1 < 2 ^ 32 →
  ∃ r, HASH_REPLACE_STR k x s = Done r ∧
    (r = None ∨ ∃ s', r = Some (hash_find k h, s') ∧ rep s' (hash_add k x (hash_del k h))).
Proof.
  intros Hrep Hnd Hs Hk Hx Hl. apply replace_ok; [done..|]. intros s1 Hs1.
  apply HASH_ADD_STR_ok; [done..|]. pose proof (hash_del_length k h Hnd). lia.
Qed.

Lemma HASH_REPLACE_INORDER_ok cmp s h k x :
  rep s h → NoDup h.*1 → (∀ k', k' ∈ h.*1 → short k') → short k → x ∉ (hash_del k h).*2 →
  Z.of_nat (List.length h) + 1 < 2 ^ 32 →
  ∃ r, HASH_REPLACE_INORDER cmp k x s = Done r ∧
    (r = None ∨ ∃ s', r = Some (hash_find k h, s') ∧ rep s' (insert_inorder (on_elt cmp) (k, x) (hash_del k h))).
Proof.
  intros Hrep Hnd Hs Hk Hx Hl. apply replace_ok; [done..|]. intros s1 Hs1.
  apply HASH_ADD_INORDER_ok; [done..|]. pose proof (hash_del_length k h Hnd). lia.
Qed.
End ops.
