(* ===== verification/HashSrt.v ===== *)
(** * [HASH_SRT], on what a hash table represents

    During a pass [D] is the new list, linked in both directions; [P] is what is left of the first
    run and [L] the rest of the old list, linked by [next]. *)
From stdpp Require Import sorting.
From S2P Require Import Prelude Mem Uthash Sorting HashFn HashTable HashMore HashLists HashChains HashRep HashInorder.
Local Open Scope Z_scope.

(** ** Lists linked by [next] *)

Fixpoint nexts (hs : heap) (l : list positive) (nn : option positive) : Prop :=
  match l with
  | [] => True
  | x :: l => next <$> hs !! x = Some (first l nn) ∧ nexts hs l nn
  end.

Lemma nexts_app hs l1 l2 nn : nexts hs (l1 ++ l2) nn ↔ nexts hs l1 (first l2 nn) ∧ nexts hs l2 nn.
Proof. induction l1 as [|x l1 IH]; cbn [app nexts]; [tauto|]. rewrite IH, first_app. tauto. Qed.

Lemma nexts_ext hs hs' l nn : (∀ y, y ∈ l → hs' !! y = hs !! y) → nexts hs l nn → nexts hs' l nn.
Proof.
  induction l as [|x l IH]; intros Hext; [done|]. intros [Hx Hl]. split; [by rewrite Hext by left|].
  apply IH; [|done]. intros y Hy. apply Hext. by right.
Qed.

Lemma nexts_take hs n L nn : nexts hs L nn → nexts hs (take n L) (first (drop n L) nn).
Proof. intros Hn. rewrite <-(take_drop n L) in Hn. by apply nexts_app in Hn as [? _]. Qed.
Lemma nexts_drop hs n L nn : nexts hs L nn → nexts hs (drop n L) nn.
Proof. intros Hn. rewrite <-(take_drop n L) in Hn. by apply nexts_app in Hn as [_ ?]. Qed.

Lemma dseg_nexts hs pp l nn : dseg (app_links hs) pp l nn → nexts hs l nn.
Proof.
  revert pp. induction l as [|x l IH]; intros pp; [done|]. intros [Hx Hl]. split; [|by apply (IH (Some x))].
  unfold app_links in Hx. destruct (hs !! x); [|done]. by injection Hx as _ <-.
Qed.

Lemma next_in_ok hs x l nn : nexts hs (x :: l) nn → next_in hs (Some x) = Done (first l nn).
Proof. intros [Hx _]. cbn. destruct (hs !! x); [|done]. injection Hx as <-. done. Qed.

(** Only the links of the list of all elements change. *)
Definition same_bkt (hs hs' : heap) : Prop :=
  ∀ y, bkt_links hs' y = bkt_links hs y ∧ meta hs' y = meta hs y.

Lemma same_bkt_refl hs : same_bkt hs hs.
Proof. done. Qed.
Lemma same_bkt_trans hs1 hs2 hs3 : same_bkt hs1 hs2 → same_bkt hs2 hs3 → same_bkt hs1 hs3.
Proof. intros H1 H2 y. destruct (H1 y) as [<- <-], (H2 y) as [<- <-]. done. Qed.

Lemma same_bkt_size hs hs' : same_bkt hs hs' → size hs' = size hs.
Proof.
  intros Hs. rewrite <-!(size_dom (D := gset positive)). f_equal. apply set_eq. intros y.
  rewrite !elem_of_dom. destruct (Hs y) as [_ Hm]. unfold meta in Hm.
  destruct (hs' !! y), (hs !! y); try done; split; intros; by eexists.
Qed.

(** ** One element more *)

Lemma put_tail_ok hs D e nn l nn' :
  dseg (app_links hs) None D nn → NoDup (D ++ [e]) → nexts hs (e :: l) nn' →
  ∃ hs', put_tail (Some e) hs (first D None) (last D) = Done (hs', first (D ++ [e]) None) ∧
    dseg (app_links hs') None (D ++ [e]) (first l nn') ∧
    (∀ y, y ∉ D ++ [e] → hs' !! y = hs !! y) ∧ same_bkt hs hs'.
Proof.
  intros Hd Hnd [He _]. apply NoDup_app in Hnd as (Hnd & Hdis & _).
  assert (e ∉ D) as HeD by (intros Hin; apply (Hdis e Hin); left).
  destruct (hs !! e) as [hd|] eqn:Hhd; [|done]. injection He as He.
  destruct (update_opt_done (last D) (set_next (Some e)) hs) as (hs1 & E1 & L1).
  { intros y Hy%last_Some_elem_of. pose proof (dseg_lookup _ _ _ _ y Hd Hy) as Hl. unfold app_links in Hl.
    destruct (hs !! y); [by eexists|by destruct Hl]. }
  assert (last D ≠ Some e) as Hle by (intros ?%last_Some_elem_of; done).
  destruct (update_done e (set_prev (last D)) hs1) as (hs' & E2 & L2).
  { rewrite L1, Hhd. by eexists. }
  exists hs'. unfold put_tail. rewrite E1. cbn [mbind exec_bind update_opt]. rewrite E2. cbn [mbind exec_bind].
  assert (Hy : ∀ y, hs' !! y = (fun g => (if decide (e = y) then set_prev (last D) else id)
    ((if decide (last D = Some y) then set_next (Some e) else id) g)) <$> hs !! y).
  { intros y. rewrite L2, L1. destruct (hs !! y); [cbn|done].
    destruct (decide (Some e = Some y)) as [[= ->]|].
    - rewrite (decide_True (P := y = y)) by done. by destruct (decide (last D = Some y)).
    - rewrite (decide_False (P := e = y)) by congruence. by destruct (decide (last D = Some y)). }
  split_and!.
  - destruct (last D) eqn:E; [|apply last_None in E as ->; done]. by destruct D.
  - apply dseg_app. split.
    + destruct D as [|z D _] using rev_ind; [done|]. rewrite last_snoc in *. apply dseg_app in Hd as [Hd [Hz _]].
      apply NoDup_app in Hnd as (_ & HzD & _). apply dseg_app. cbn [first]. split; [|split; [|done]].
      * apply (dseg_ext (app_links hs)); [|done]. intros y HyD. unfold app_links. rewrite Hy.
        destruct (hs !! y); [cbn|done]. rewrite (decide_False (P := e = y)) by set_solver.
        rewrite decide_False; [done|]. intros [= ->]. apply (HzD y); [done|left].
      * unfold app_links in *. rewrite Hy. destruct (hs !! z); [cbn|done].
        rewrite (decide_False (P := e = z)) by set_solver. rewrite decide_True by done.
        injection Hz as Hz _. cbn. by rewrite Hz.
    + cbn [dseg first]. split; [|done]. unfold app_links. rewrite Hy, Hhd. cbn.
      rewrite decide_True, decide_False by done. cbn. rewrite He. unfold final. by destruct (last D).
  - intros y HyD. rewrite Hy. destruct (hs !! y); [cbn|done].
    rewrite decide_False by set_solver. rewrite decide_False; [done|]. intros ?%last_Some_elem_of. set_solver.
  - intros y. unfold bkt_links, meta. rewrite Hy. destruct (hs !! y); [cbn|done].
    by destruct (decide (e = y)), (decide (last D = Some y)).
Qed.

(** What a part of a pass starts from, and what it leaves: [D] is done, [L] is to do. *)
Record pass_state (hs : heap) (D P L : list positive) (nn : option positive) : Prop := {
  ps_done : ∃ n, dseg (app_links hs) None D n;
  ps_first : nexts hs P nn;
  ps_rest : nexts hs L None;
  ps_nodup : NoDup (D ++ P ++ L);
}.

(** The element that is put next may come from either run. *)
Lemma pass_put hs D P L nn e P' L' nn' l :
  pass_state hs D P L nn → P ++ L ≡ₚ e :: P' ++ L' → nexts hs (e :: l) nn' →
  nexts hs P' nn → nexts hs L' None →
  ∃ hs', put_tail (Some e) hs (first D None) (last D) = Done (hs', first (D ++ [e]) None) ∧
    pass_state hs' (D ++ [e]) P' L' nn ∧ same_bkt hs hs'.
Proof.
  intros [[n Hd] _ _ Hnd] Hp He HP HL. rewrite Hp in Hnd.
  change (e :: P' ++ L') with ([e] ++ P' ++ L') in Hnd. rewrite app_assoc in Hnd.
  pose proof Hnd as (Hnd1 & Hdis & _)%NoDup_app.
  destruct (put_tail_ok hs D e n l nn' Hd Hnd1 He) as (hs' & -> & Hd' & Hother & Hs).
  exists hs'. split; [done|]. split; [|done]. split; [by eexists| | |done].
  - apply (nexts_ext hs); [|done]. intros y Hy. apply Hother. intros ?%Hdis. set_solver.
  - apply (nexts_ext hs); [|done]. intros y Hy. apply Hother. intros ?%Hdis. set_solver.
Qed.

(** ** Merging two runs *)

Section merge.
Context (cmp : positive → positive → Z).

(** The result of a merge, as the loop hands it on. *)
Definition ends (hs : heap) (D L : list positive) : heap * option positive * option positive * option positive :=
  (hs, first D None, last D, first L None).

Lemma list_merge_left x P l :
  (match l with [] => True | y :: _ => before cmp x y end) →
  list_merge (before cmp) (x :: P) l = x :: list_merge (before cmp) P l.
Proof.
  destruct l as [|y l]; [by rewrite !list_merge_nil_r|]. intros Hb. rewrite list_merge_cons.
  by rewrite decide_True.
Qed.

Lemma from_second_both x n y m :
  from_second cmp (Some x) (Z.of_nat (S n)) (Some y) (Z.of_nat (S m)) = Done (negb (cmp x y <=? 0)).
Proof. done. Qed.

(** What the loop does, when [P] and [q] elements of [L] are to be merged behind [D]. *)
Definition merges (fuel : nat) (hs : heap) (D P L : list positive) (nn : option positive) (q : nat) : Prop :=
  ∃ hs' nn', let D' := D ++ list_merge (before cmp) P (take q L) in
    merge_loop fuel cmp hs (first P nn) (Z.of_nat (List.length P)) (first L None) (Z.of_nat q)
      (first D None) (last D) = Done (ends hs' D' (drop q L))
    ∧ pass_state hs' D' [] (drop q L) nn' ∧ same_bkt hs hs'.

Lemma merges_done fuel hs D L nn q :
  pass_state hs D [] L nn → q = 0%nat ∨ L = [] → merges fuel hs D [] L nn q.
Proof.
  intros Hps Hq. exists hs, nn. cbn zeta. rewrite list_merge_nil_l.
  assert (take q L = [] ∧ drop q L = L) as [-> ->] by (by destruct Hq as [->| ->]; [|destruct q]).
  rewrite app_nil_r. split_and!; [|done..]. destruct Hq as [->| ->], fuel; cbn; by rewrite ?orb_true_r.
Qed.

Lemma merges_second fuel hs D P y L nn q :
  pass_state hs D P (y :: L) nn → Z.of_nat (S q) < 2 ^ 32 →
  list_merge (before cmp) P (y :: take q L) = y :: list_merge (before cmp) P (take q L) →
  from_second cmp (first P nn) (Z.of_nat (List.length P)) (Some y) (Z.of_nat (S q)) = Done true →
  (∀ hs', pass_state hs' (D ++ [y]) P L nn → merges fuel hs' (D ++ [y]) P L nn q) →
  merges (S fuel) hs D P (y :: L) nn (S q).
Proof.
  intros Hps Hq Em Es IH. pose proof (ps_rest _ _ _ _ _ Hps) as [Hy HL].
  destruct (pass_put hs D P (y :: L) nn y P L None L Hps) as (hs1 & E1 & Hps1 & Hs1); [|done|apply Hps|done|].
  { by rewrite Permutation_middle. }
  destruct (IH hs1 Hps1) as (hs2 & nn2 & E2 & Hps2 & Hs2).
  exists hs2, nn2. cbn zeta in *. cbn [take]. rewrite Em. cbn [merge_loop first].
  rewrite Es. rewrite (proj2 (Z.eqb_neq (Z.of_nat (S q)) 0)), andb_false_r by lia.
  cbn [deref mbind exec_bind]. rewrite (next_in_ok hs y L None) by done.
  cbn [mbind exec_bind]. rewrite E1. cbn [mbind exec_bind]. rewrite (sub32_pred _ q) by done.
  rewrite last_snoc, <-app_assoc in E2. rewrite E2. cbn [drop]. rewrite <-app_assoc in Hps2.
  split_and!; [done|done|by eapply same_bkt_trans].
Qed.

Lemma merges_first fuel hs D x P L nn q :
  pass_state hs D (x :: P) L nn → Z.of_nat (S (List.length P)) < 2 ^ 32 →
  match take q L with [] => True | y :: _ => before cmp x y end →
  from_second cmp (Some x) (Z.of_nat (S (List.length P))) (first L None) (Z.of_nat q) = Done false →
  (∀ hs', pass_state hs' (D ++ [x]) P L nn → merges fuel hs' (D ++ [x]) P L nn q) →
  merges (S fuel) hs D (x :: P) L nn q.
Proof.
  intros Hps HlP Hm Es IH. pose proof (ps_first _ _ _ _ _ Hps) as [Hx HP].
  destruct (pass_put hs D (x :: P) L nn x P L nn P Hps) as (hs1 & E1 & Hps1 & Hs1); [done|done|done|apply Hps|].
  destruct (IH hs1 Hps1) as (hs2 & nn2 & E2 & Hps2 & Hs2).
  exists hs2, nn2. cbn zeta in *. rewrite (list_merge_left x P) by done. cbn [merge_loop first List.length].
  rewrite Es. rewrite (proj2 (Z.eqb_neq _ 0)) by lia. cbn [andb mbind exec_bind].
  rewrite (next_in_ok hs x P nn) by done.
  cbn [mbind exec_bind]. rewrite E1. cbn [mbind exec_bind]. rewrite (sub32_pred _ (List.length P)) by done.
  rewrite last_snoc, <-app_assoc in E2. rewrite E2. rewrite <-app_assoc in Hps2.
  split_and!; [done|done|by eapply same_bkt_trans].
Qed.

Lemma merge_loop_ok fuel hs D P L nn q :
  pass_state hs D P L nn → (List.length P + List.length L ≤ fuel)%nat →
  Z.of_nat (List.length P) < 2 ^ 32 → Z.of_nat q < 2 ^ 32 → merges fuel hs D P L nn q.
Proof.
  revert hs D P L q. induction fuel as [|fuel IH]; intros hs D P L q Hps Hf HlP Hq.
  { destruct P, L; [|cbn in Hf; lia..]. apply merges_done; [done|by right]. }
  destruct P as [|x P].
  - destruct L as [|y L]; [apply merges_done; [done|by right]|].
    destruct q as [|q]; [apply merges_done; [done|by left]|].
    apply merges_second; [done|done|by rewrite !list_merge_nil_l|done|].
    intros hs' Hps'. apply IH; [done|cbn in *; lia|done|lia].
  - cbn [List.length] in *.
    destruct L as [|y L]; [|destruct q as [|q]; [|destruct (Z.leb_spec (cmp x y) 0) as [Hle|Hgt]]].
    + apply merges_first; [done|done|by rewrite take_nil|done|]. intros hs' Hps'. apply IH; [done|cbn in *; lia..].
    + apply merges_first; [done..|]. intros hs' Hps'. apply IH; [done|cbn in *; lia..].
    + apply merges_first; [done|done|exact Hle|by cbn [first]; rewrite from_second_both, (proj2 (Z.leb_le _ _))|].
      intros hs' Hps'. apply IH; [done|cbn in *; lia..].
    + apply merges_second; [done|done| |by cbn [first List.length]; rewrite from_second_both, (proj2 (Z.leb_gt _ _))|].
      * rewrite list_merge_cons. rewrite decide_False; [done|]. unfold before. lia.
      * intros hs' Hps'. apply IH; [done|cbn in *; lia..].
Qed.
End merge.

(** ** A pass *)

Lemma step_off_ok i hs x L c :
  nexts hs (x :: L) None → Z.of_nat (c + i) < 2 ^ 32 →
  step_off i hs x (Z.of_nat c)
  = Done (first (drop i (x :: L)) None, Z.of_nat (c + Nat.min i (List.length (x :: L)))).
Proof.
  revert x L c. induction i as [|i IH]; intros x L c Hn Hc; cbn [step_off].
  { cbn. by rewrite Nat.add_0_r. }
  pose proof (next_in_ok hs x L None Hn) as Hx. unfold next_in in Hx. destruct Hn as [Hh Hn].
  destruct (hs !! x) as [hd|]; [|done]. cbn [deref mbind exec_bind] in *. injection Hx as ->.
  rewrite (add32_succ _ c) by (done || lia). destruct L as [|y L]; cbn [first].
  - rewrite drop_ge by (cbn; lia). cbn [first List.length mret exec_ret]. do 2 f_equal. lia.
  - rewrite (IH y L) by (done || lia). cbn [drop List.length]. do 2 f_equal. lia.
Qed.

Section passes.
Context (cmp : positive → positive → Z).
Implicit Types (hs : heap) (D L : list positive).

Lemma pass_state_start hs D L nn n nn' :
  pass_state hs D [] L nn → nn' = first (drop n L) None → pass_state hs D (take n L) (drop n L) nn'.
Proof.
  intros [Hd _ HL Hnd] ->. split; [done|by apply nexts_take|by apply nexts_drop|].
  cbn in Hnd. by rewrite take_drop.
Qed.

Lemma merge_runs_ok fuel n hs D L nn (c : nat) :
  pass_state hs D [] L nn → (List.length L ≤ fuel)%nat → (List.length (D ++ L) ≤ size hs)%nat →
  (0 < n)%nat → Z.of_nat n < 2 ^ 32 → Z.of_nat (c + List.length L) < 2 ^ 32 →
  ∃ hs', let D' := D ++ merge_pass cmp fuel n L in
    merge_runs fuel cmp (Z.of_nat n) hs (first L None) (first D None) (last D) (Z.of_nat c)
    = Done (hs', first D' None, last D', Z.of_nat (c + List.length (runs fuel n L)))
    ∧ (∃ nn', dseg (app_links hs') None D' nn') ∧ same_bkt hs hs'.
Proof.
  revert hs D L nn c. induction fuel as [|fuel IH]; intros hs D L nn c Hps Hf Hsz Hn Hn32 Hc; cbn zeta;
    (destruct L as [|x L];
      [exists hs; unfold merge_pass; cbn; rewrite app_nil_r, Nat.add_0_r; split_and!; [done|apply Hps|done]|]);
    [cbn in Hf; lia|].
  cbn [merge_runs first]. rewrite Nat2Z.id. change 0 with (Z.of_nat 0).
  rewrite (step_off_ok n hs x L 0) by (apply Hps || lia). cbn [mbind exec_bind Nat.add].
  pose proof (pass_state_start hs D (x :: L) nn n _ Hps eq_refl) as Hps1.
  rewrite length_app in Hsz.
  destruct (merge_loop_ok cmp (S (size hs)) hs D (take n (x :: L)) (drop n (x :: L)) _ n Hps1)
    as (hs1 & nn1 & E1 & Hps2 & Hs1); [rewrite length_take, length_drop; lia|rewrite length_take; lia|done|].
  cbn zeta in *. rewrite length_take in E1.
  assert (first (take n (x :: L)) (first (drop n (x :: L)) None) = Some x) as Ex by (by destruct n; [lia|]).
  rewrite Ex in E1. rewrite E1. unfold ends. cbn [mbind exec_bind].
  rewrite (add32_succ _ c) by (done || (cbn [List.length] in Hc; lia)).
  rewrite drop_drop in Hps2. rewrite drop_drop.
  assert (List.length (drop (n + n) (x :: L)) < List.length (x :: L))%nat as Hl
    by (rewrite length_drop; cbn; lia).
  destruct (IH hs1 _ _ nn1 (S c) Hps2) as (hs2 & E2 & Hd2 & Hs2); [lia| |done|done|lia|].
  { rewrite (same_bkt_size _ _ Hs1). rewrite !length_app, merge_Permutation, length_app.
    rewrite !length_take, !length_drop. cbn [List.length] in *. lia. }
  exists hs2. cbn zeta in *. rewrite merge_pass_cons by done. unfold merged. cbn [fst snd]. rewrite app_assoc.
  rewrite E2, runs_cons, length_cons by done.
  split_and!; [by rewrite Nat.add_succ_r|done|by eapply same_bkt_trans].
Qed.

(** The list is cut behind its last element. *)
Lemma cut_tail hs D nn :
  dseg (app_links hs) None D nn → NoDup D →
  ∃ hs', update_opt (last D) (set_next None) hs = Done hs' ∧ dseg (app_links hs') None D None ∧ same_bkt hs hs'.
Proof.
  intros Hd Hnd. destruct (update_opt_done (last D) (set_next None) hs) as (hs' & -> & L1).
  { intros y Hy%last_Some_elem_of. pose proof (dseg_lookup _ _ _ _ y Hd Hy) as Hl. unfold app_links in Hl.
    destruct (hs !! y); [by eexists|by destruct Hl]. }
  exists hs'. split; [done|]. split.
  - destruct D as [|z D _] using rev_ind; [done|]. rewrite last_snoc in L1. apply dseg_app in Hd as [Hd [Hz _]].
    apply NoDup_app in Hnd as (_ & HzD & _). apply dseg_app. split; [|split; [|done]].
    + apply (dseg_ext (app_links hs)); [|done]. intros y Hy. unfold app_links. rewrite L1.
      destruct (hs !! y); [cbn|done]. rewrite decide_False; [done|]. intros [= ->]. apply (HzD y); [done|left].
    + unfold app_links in *. rewrite L1. destruct (hs !! z); [cbn|done]. rewrite decide_True by done.
      injection Hz as Hz _. cbn. by rewrite Hz.
  - intros y. unfold bkt_links, meta. rewrite L1. destruct (hs !! y); [cbn|done]. by destruct (decide _).
Qed.

(** ** All passes *)

Lemma srt_loop_ok fuel i hs L :
  dseg (app_links hs) None L None → NoDup L → L ≠ [] → (List.length L ≤ size hs)%nat →
  Z.of_nat (List.length L) < 2 ^ 32 → (fuel + i = 32)%nat → (0 < fuel)%nat →
  ∃ hs' L', srt_loop fuel cmp (2 ^ Z.of_nat i) hs (first L None) = Done (hs', first L' None, last L')
    ∧ dseg (app_links hs') None L' None ∧ same_bkt hs hs' ∧ L' ≡ₚ L
    ∧ (consistent cmp → blocks cmp (2 ^ i) L → sorted cmp L' ∧ ∀ x, rank cmp x L' = rank cmp x L).
Proof.
  revert i hs L. induction fuel as [|fuel IH]; intros i hs L Hd Hnd Hne Hsz Hlen Hi Hpos; [lia|].
  set (n := (2 ^ i)%nat).
  assert (Z.of_nat n = 2 ^ Z.of_nat i) as Hzn by (subst n; by rewrite Nat2Z.inj_pow).
  assert (0 < n)%nat as Hn by (subst n; pose proof (Nat.pow_nonzero 2 i); lia).
  assert (Z.of_nat n ≤ 2 ^ 31) as Hn31.
  { rewrite Hzn. apply Z.pow_le_mono_r; lia. }
  rewrite <-Hzn. set (F := S (size hs)). cbn [srt_loop]. fold F.
  destruct (merge_runs_ok F n hs [] L None 0) as (hs1 & E1 & (nn & Hd1) & Hs1); try done; [|lia..|].
  { split; [by exists None|done|by apply (dseg_nexts _ None)|done]. }
  cbn zeta in E1. cbn [first last app Nat.add] in *. change (Z.of_nat 0) with 0 in E1. rewrite E1.
  cbn [mbind exec_bind]. set (L1 := merge_pass cmp F n L) in *.
  assert (L1 ≡ₚ L) as Hp by (apply merge_pass_perm; lia).
  assert (NoDup L1) as Hnd1 by (by rewrite Hp).
  destruct (cut_tail hs1 L1 nn Hd1 Hnd1) as (hs2 & -> & Hd2 & Hs2). cbn [mbind exec_bind].
  assert (same_bkt hs hs2) as Hs by (by eapply same_bkt_trans).
  destruct (Z.leb_spec (Z.of_nat (List.length (runs F n L))) 1) as [Hle|Hgt].
  - exists hs2, L1. split_and!; [done..|]. intros Hc Hb. split.
    + apply merge_pass_last; [done|lia|lia|done].
    + intros x. apply merge_pass_rank; [done|lia|done|done].
  - assert (2 * Z.of_nat n < Z.of_nat (List.length L)) as Hbig.
    { apply Z.nle_gt. intros Hle. pose proof (runs_single F n L). lia. }
    assert (i ≠ 31%nat) as Hi31 by (intros ->; change (2 ^ Z.of_nat 31) with (2 ^ 31) in Hzn; lia).
    assert (u32 (Z.of_nat n * 2) = 2 ^ Z.of_nat (S i)) as ->.
    { rewrite u32_small by lia. rewrite Nat2Z.inj_succ, Z.pow_succ_r by lia. lia. }
    destruct (IH (S i) hs2 L1) as (hs3 & L3 & E3 & Hd3 & Hs3 & Hp3 & Hsort); try done.
    + intros Hnil. rewrite Hnil in Hp. by apply Permutation_nil in Hp.
    + rewrite (same_bkt_size _ _ Hs), Hp. done.
    + by rewrite Hp.
    + lia.
    + lia.
    + exists hs3, L3. split_and!; [done|done|by eapply same_bkt_trans|by rewrite Hp3|].
      intros Hc Hb. destruct Hsort as [Hs' Hr]; [done| |].
      * change (2 ^ S i)%nat with (n + (n + 0))%nat. rewrite Nat.add_0_r. apply merge_pass_blocks; [done|lia|done].
      * split; [done|]. intros x. rewrite Hr. apply merge_pass_rank; [done|lia|done|done].
Qed.
End passes.

(** ** Sorting a table *)

Section sort.
Context `{HashFunction}.
Implicit Types (s : uthash) (h : list (string * positive)) (t : UT_hash_table).

(** The handles are on the list in another order. *)
Lemma table_ok_reorder s t h hs' h' tl :
  table_ok s t h → h' ≡ₚ h → dseg (app_links hs') None h'.*2 None → same_bkt (handles s) hs' →
  last h'.*2 = Some tl →
  table_ok {| handles := hs'; head := first h'.*2 None; tbl := Some (set_tail tl t) |} (set_tail tl t) h'.
Proof.
  intros [Hlo Hit Hb [cs Hch]] Hp Hd Hs Htl. split; cbn.
  - split; cbn; try done.
    + apply Hlo.
    + intros k x Hx. destruct (Hs x) as [_ ->]. apply Hlo. by rewrite <-Hp.
    + rewrite Hp. apply Hlo.
  - by rewrite Hp.
  - by rewrite Hp.
  - exists cs. apply (chains_ext (handles s)); [by intros; apply Hs|].
    destruct Hch as [? ? ? Hel]. split; try done. by rewrite Hel, Hp.
Qed.

(** With any comparison the table stays one, with the same elements; *)
Lemma HASH_SRT_ok cmp s h :
  rep s h → ∃ s' h', HASH_SRT cmp s = Done s' ∧ rep s' h' ∧ h' ≡ₚ h
    ∧ (consistent cmp → sorted cmp h'.*2 ∧ ∀ x, rank cmp x h'.*2 = rank cmp x h.*2).
Proof.
  intros Hrep. unfold HASH_SRT. destruct h as [|e h].
  { destruct Hrep as [Hhd Htb]. exists s, []. rewrite Hhd. split_and!; [done|done|done|].
    split; [constructor|done]. }
  destruct Hrep as [t Hok]. pose proof (to_list _ _ _ Hok) as Hlo.
  set (L := (e :: h).*2). assert (Hhd : head s = first L None) by apply (lo_head _ _ _ Hlo).
  destruct (srt_loop_ok cmp 32 0 (handles s) L) as (hs' & L' & E & Hd & Hs & Hp & Hsort); try done; [apply Hlo|apply Hlo| | |lia|].
  { apply chain_size; [apply Hlo|]. intros y Hy.
    destruct (list_ok_hashed _ _ _ _ Hlo Hy) as (? & ? & _ & -> & _). by eexists. }
  { subst L. rewrite length_fmap. apply Hok. }
  rewrite (list_ok_table _ _ _ Hlo). cbn [mbind exec_bind].
  rewrite Hhd. change (2 ^ Z.of_nat 0) with 1 in E. unfold srt_fuel. rewrite E.
  assert (is_Some (first L None)) as [x ->] by (by eexists). cbn [mbind exec_bind].
  destruct (last L') as [tl|] eqn:Htl.
  2: { apply last_None in Htl as ->. by apply Permutation_nil in Hp. }
  cbn [deref mbind exec_bind].
  destruct (Permutation_map_inv snd (e :: h) Hp) as (h' & -> & Hh'%Permutation_sym).
  eexists _, h'. split; [done|]. split; [|split; [done|]].
  - apply (rep_intro _ (set_tail tl t)), (table_ok_reorder s t (e :: h)); done.
  - intros Hc. apply Hsort; [done|apply blocks_one].
Qed.

(** with a comparison that orders the elements, they are sorted as by inserting one after the other. *)
Lemma sorted_on_elt cmp h : sorted (on_elt cmp) h ↔ sorted cmp h.*2.
Proof.
  unfold sorted. induction h as [|e h IH]; cbn; [by split; constructor|].
  split; intros [Hs Hf]%StronglySorted_inv; (constructor; [by apply IH|]).
  - apply Forall_fmap. exact Hf.
  - rewrite Forall_fmap in Hf. exact Hf.
Qed.

Lemma consistent_on_elt cmp : consistent cmp → consistent (on_elt cmp).
Proof. intros [Ht Htr]. split; unfold on_elt; intros; eauto. Qed.

Lemma rank_on_elt cmp x h : (rank (on_elt cmp) x h).*2 = rank cmp x.2 h.*2.
Proof.
  unfold rank. induction h as [|e h IH]; [done|]. rewrite filter_cons. cbn [fmap list_fmap].
  rewrite filter_cons. destruct (decide (same_rank (on_elt cmp) x e)) as [Hd|Hd], (decide (same_rank cmp x.2 e.2)) as [Hd'|Hd'];
    [by cbn; rewrite IH|by destruct Hd'|by destruct Hd|done].
Qed.

(** A list of entries is known by the elements, in their order, and their keys. *)
Lemma entries_unique h1 h2 : NoDup h1.*2 → h1.*2 = h2.*2 → h1 ≡ₚ h2 → h1 = h2.
Proof.
  intros Hnd E Hp. apply list_eq. intros i.
  pose proof (f_equal (fun l => l !! i) E) as Ei. cbn in Ei. rewrite !list_lookup_fmap in Ei.
  destruct (h1 !! i) as [[k1 x1]|] eqn:E1, (h2 !! i) as [[k2 x2]|] eqn:E2; try done.
  injection Ei as <-. do 2 f_equal.
  apply list_elem_of_lookup_2 in E2 as H2. rewrite <-Hp in H2. apply list_elem_of_lookup in H2 as [j Hj].
  assert (i = j) as <-; [|congruence].
  apply (NoDup_lookup h1.*2 i j x1); [done|by rewrite list_lookup_fmap, E1|by rewrite list_lookup_fmap, Hj].
Qed.

Lemma HASH_SRT_sorts cmp s h :
  rep s h → consistent cmp → ∃ s', HASH_SRT cmp s = Done s' ∧ rep s' (sort_inorder (on_elt cmp) h).
Proof.
  intros Hrep Hc. destruct (HASH_SRT_ok cmp s h Hrep) as (s' & h' & E & Hrep' & Hp & Hsort).
  exists s'. split; [done|]. destruct (Hsort Hc) as [Hs Hr].
  destruct (sort_inorder_ok (on_elt cmp) (consistent_on_elt _ Hc) h) as [Hs2 Hr2].
  replace (sort_inorder (on_elt cmp) h) with h'; [done|].
  assert (NoDup h.*2) as Hnd.
  { destruct h as [|e h]; [constructor|]. destruct Hrep as [t Hok]. apply (lo_nodup _ _ _ (to_list _ _ _ Hok)). }
  apply entries_unique; [by rewrite Hp| |by rewrite Hp, sort_inorder_perm].
  apply (stable_unique cmp Hc); [done|by apply sorted_on_elt|].
  intros x. rewrite Hr. by rewrite <-!(rank_on_elt cmp (EmptyString, x)), Hr2.
Qed.
End sort.
