(* ===== verification/HashProps.v ===== *)
(** * The hash tables of uthash.h are the lists of [Uthash]

    Every sequence of the operations of the header, on a table with buckets and links, shows what
    the same operations on a list show. *)
From S2P Require Import Prelude Mem Uthash HashFn HashTable HashLists HashChains HashRep HashOps HashDel Sorting HashMore HashInorder HashSrt.
Local Open Scope Z_scope.

Section walks.
Context `{HashFunction}.
Implicit Types (s : uthash) (h : list (string * positive)) (t : UT_hash_table).

(** ** Iterating *)

Lemma next_of_dseg s pp l nn :
  dseg (app_links (handles s)) pp l nn → l ≠ [] → next_of (first l None) s = Done (first (List.tl l) nn).
Proof.
  intros Hl Hne. destruct l as [|x l]; [done|]. destruct Hl as [Hx _]. unfold app_links in Hx.
  cbn. destruct (handles s !! x) as [hd|]; [|done]. cbn. injection Hx as _ ->. by destruct l.
Qed.

Lemma next_of_first s pp l :
  dseg (app_links (handles s)) pp l None → next_of (first l None) s = Done (first (List.tl l) None).
Proof. destruct l as [|x l]; [done|]. intros Hl. by apply (next_of_dseg s pp). Qed.

Lemma iter_visit fuel s pp l acc :
  dseg (app_links (handles s)) pp l None → (List.length l ≤ fuel)%nat →
  iter_loop fuel visit (first l None) (first (List.tl l) None) acc s = Done (acc ++ l, s).
Proof.
  revert fuel pp acc. induction l as [|x l IH]; intros fuel pp acc Hl Hf.
  { cbn. rewrite app_nil_r. by destruct fuel. }
  destruct fuel as [|fuel]; [cbn in Hf; lia|]. destruct Hl as [Hx Hl].
  change (first (x :: l) None) with (Some x). cbn [List.tl iter_loop].
  change (visit x acc s) with (Done (acc ++ [x], s)). cbn [mbind exec_bind]. rewrite (next_of_first s (Some x)) by done.
  cbn [mbind exec_bind]. rewrite (IH fuel (Some x)) by (done || (cbn in Hf; lia)).
  by rewrite <-app_assoc.
Qed.

Lemma rep_list s h : rep s h → head s = first h.*2 None ∧ dseg (app_links (handles s)) None h.*2 None.
Proof.
  destruct h as [|e h]; [by intros [-> _]|]. intros [t Hok]. pose proof (to_list _ _ _ Hok) as Hlo.
  split; apply Hlo.
Qed.

Lemma rep_nodup s h : rep s h → NoDup h.*2.
Proof. destruct h as [|e h]; [constructor|]. intros [t Hok]. apply (lo_nodup _ _ _ (to_list _ _ _ Hok)). Qed.

Lemma rep_size s h : rep s h → (List.length h ≤ size (handles s))%nat.
Proof.
  destruct h as [|e h]; [cbn; lia|]. intros [t Hok]. pose proof (to_list _ _ _ Hok) as Hlo.
  rewrite <-(length_fmap snd (e :: h)). apply chain_size; [apply Hlo|]. intros y Hy.
  destruct (list_ok_hashed _ _ _ _ Hlo Hy) as (k & hd & _ & -> & _). by eexists.
Qed.

(** [HASH_ITER] over a table that stays as it is. *)
Lemma HASH_ITER_visit s h fuel :
  rep s h → (List.length h ≤ fuel)%nat → HASH_ITER fuel visit [] s = Done (h.*2, s).
Proof.
  intros [Hhd Hl]%rep_list Hf. unfold HASH_ITER. rewrite Hhd, (next_of_first s None) by done.
  cbn [mbind exec_bind]. by rewrite (iter_visit fuel s None) by (done || by rewrite length_fmap).
Qed.

(** Only the handles of the elements count. *)
Lemma rep_ext s s' h :
  head s' = head s → tbl s' = tbl s → (∀ y, y ∈ h.*2 → handles s' !! y = handles s !! y) →
  rep s h → rep s' h.
Proof.
  intros Hhd Htb Hext. destruct h as [|e h]; [cbn; congruence|]. intros [t Hok]. exists t.
  revert Hext Hok. generalize (e :: h). clear e h. intros h Hext [Hlo Hit Hb [cs Hch]].
  assert (Hall : ∀ y, y ∈ h.*2 → app_links (handles s') y = app_links (handles s) y ∧
    bkt_links (handles s') y = bkt_links (handles s) y ∧ meta (handles s') y = meta (handles s) y).
  { intros y Hy. unfold app_links, bkt_links, meta. by rewrite (Hext y Hy). }
  split; [|done|done|].
  - destruct Hlo as [? ? Happ ? ? Hk ?]. split; [congruence|congruence| |done|done| |done].
    + apply (dseg_ext (app_links (handles s))); [|done]. intros y Hy. by apply Hall.
    + intros k x Hx. destruct (Hall x) as (_ & _ & ->); [|by apply Hk].
      by apply (list_elem_of_fmap_2 snd _ (k, x)).
  - exists cs. apply (chains_ext (handles s)); [|done]. intros y Hy. by apply Hall.
Qed.

Lemma iter_delete fuel s h acc :
  rep s h → NoDup h.*2 → (List.length h ≤ fuel)%nat →
  ∃ s', iter_loop fuel delete_and_free (first h.*2 None) (first (List.tl h.*2) None) acc s
        = Done (acc ++ h.*2, s') ∧ rep s' [].
Proof.
  revert fuel s acc. induction h as [|[k x] h IH]; intros fuel s acc Hrep Hnd Hf.
  { exists s. rewrite app_nil_r. by destruct fuel. }
  destruct fuel as [|fuel]; [cbn in Hf; lia|]. change (first ((k, x) :: h).*2 None) with (Some x). cbn [fmap list_fmap List.tl iter_loop snd].
  change (list_fmap (string * positive)%type positive snd h) with (h.*2).
  apply NoDup_cons in Hnd as [Hx Hnd]. cbn [snd] in Hx.
  destruct (HASH_DELETE_HH_ok s [] h k x Hrep) as (s1 & E & Hrep1 & [hx Hhx]). cbn [List.app] in Hrep1.
  set (s2 := with_handles (delete x (handles s1)) s1).
  assert (delete_and_free x acc s = Done (acc ++ [x], s2)) as ->
    by (unfold delete_and_free, mem__free; rewrite E; cbn; by rewrite Hhx).
  cbn [mbind exec_bind].
  assert (Hrep2 : rep s2 h).
  { apply (rep_ext s1); try done. intros y Hy. cbn. apply lookup_delete_ne. by intros ->. }
  destruct (rep_list _ _ Hrep2) as [_ Hl]. rewrite (next_of_first s2 None) by done.
  cbn [mbind exec_bind].
  destruct (IH fuel s2 (acc ++ [x])) as (s' & -> & Hs'); [done|done|cbn in Hf; lia|].
  exists s'. by rewrite <-app_assoc.
Qed.

(** ** [HASH_FSCK] *)

Lemma fsck_walk_ok links (hs : gmap positive UT_hash_handle) fuel pp l n :
  dseg (fun y => links <$> hs !! y) pp l None → (List.length l ≤ fuel)%nat →
  Z.of_nat (n + List.length l) < 2 ^ 32 →
  fsck_walk links fuel hs (first l None) pp (Z.of_nat n) = Done (Some (Z.of_nat (n + List.length l))).
Proof.
  revert fuel pp n. induction l as [|x l IH]; intros fuel pp n Hl Hf Hn.
  { cbn. rewrite Nat.add_0_r. by destruct fuel. }
  destruct fuel as [|fuel]; [cbn in Hf; lia|]. destruct Hl as [Hx Hl].
  change (first (x :: l) None) with (Some x). cbn [fsck_walk].
  destruct (hs !! x) as [hd|]; [|done]. cbn in Hx. injection Hx as Hx. cbn [deref mbind exec_bind].
  rewrite Hx. cbn [fst snd]. rewrite bool_decide_eq_true_2 by done. cbn [List.length] in *.
  rewrite (add32_succ _ n) by (done || lia). rewrite (IH fuel (Some x)); [|done|lia|lia].
  do 3 f_equal. lia.
Qed.

(** The buckets from the i-th on. *)
Lemma fsck_buckets_ok hs nb bs cs ids fuel i n :
  chains hs nb bs cs ids → NoDup ids → (size hs ≤ fuel)%nat → Z.of_nat (List.length ids) < 2 ^ 32 →
  (i + n = List.length bs)%nat →
  fsck_buckets fuel hs bs (seq i n) (Z.of_nat (List.length (concat (take i cs))))
  = Done (Some (Z.of_nat (List.length ids))).
Proof.
  intros Hch Hnd Hf Hlen. revert i. induction n as [|n IH]; intros i Hin.
  - cbn. rewrite take_ge by (rewrite (ch_length _ _ _ _ _ Hch); lia).
    by rewrite (Permutation_length (ch_elems _ _ _ _ _ Hch)).
  - destruct (lookup_lt_is_Some_2 bs i) as [b Hb]; [lia|].
    destruct (chains_lookup _ _ _ _ _ _ _ Hch Hb) as (c & Hc & Hok).
    destruct (chains_walk _ _ _ _ _ _ _ Hch Hnd Hc) as [Hcf Hseg].
    destruct (chain_facts _ _ _ _ _ _ _ Hch Hnd Hc) as (_ & _ & Hcl).
    cbn [seq fsck_buckets]. rewrite Hb. cbn [deref mbind exec_bind]. rewrite (bo_head _ _ _ _ _ Hok).
    rewrite (fsck_walk_ok _ hs fuel None c 0) by (done || lia). cbn [mbind exec_bind Nat.add].
    rewrite (bo_count _ _ _ _ _ Hok), Z.eqb_refl.
    assert (List.length (concat (take (S i) cs)) = List.length (concat (take i cs)) + List.length c)%nat as Hadd.
    { rewrite (take_S_r _ _ c) by done. rewrite concat_app, length_app. cbn. by rewrite app_nil_r. }
    assert (List.length (concat (take (S i) cs)) ≤ List.length ids)%nat as Hle.
    { rewrite <-(Permutation_length (ch_elems _ _ _ _ _ Hch)).
      rewrite <-(take_drop (S i) cs) at 2. rewrite concat_app, length_app. lia. }
    replace (add32 _ _) with (Z.of_nat (List.length (concat (take (S i) cs)))); [apply IH; lia|].
    unfold add32. rewrite u32_small by lia. lia.
Qed.

(** The header's own check finds nothing. *)
Lemma table_fsck s t h : table_ok s t h → HASH_FSCK s = Done true.
Proof.
  intros Hok. pose proof (to_list _ _ _ Hok) as Hlo. destruct (to_chains _ _ _ Hok) as [cs Hch].
  pose proof (to_bound _ _ _ Hok) as Hb. pose proof (to_items _ _ _ Hok) as Hi.
  unfold HASH_FSCK. pose proof (lo_tail _ _ _ Hlo) as Htl. pose proof (lo_head _ _ _ Hlo) as Hhd.
  rewrite (list_ok_table _ _ _ Hlo). cbn [mbind exec_bind].
  pose proof (fsck_buckets_ok _ _ _ _ _ (S (size (handles s))) 0 (Z.to_nat (num_buckets t)) Hch
    (lo_nodup _ _ _ Hlo)) as Hbs.
  change (Z.of_nat (List.length (concat (take 0 cs)))) with 0 in Hbs. rewrite length_fmap in Hbs.
  rewrite Hbs by (lia || (rewrite <-(ch_num _ _ _ _ _ Hch); lia)). cbn [mbind exec_bind].
  pose proof (fsck_walk_ok (fun hd => (prev hd, next hd)) (handles s) (S (size (handles s))) None h.*2 0
    (lo_app _ _ _ Hlo)) as Hw.
  rewrite length_fmap in Hw. change (Z.of_nat 0) with 0 in Hw. cbn [Nat.add] in Hw. rewrite Hhd.
  pose proof (rep_size s h (rep_intro _ _ _ Hok)).
  rewrite Hw by lia. cbn [mbind exec_bind]. rewrite Hi, !bool_decide_eq_true_2 by done.
  by destruct h.
Qed.

Lemma HASH_FSCK_ok s h : rep s h → HASH_FSCK s = Done true.
Proof.
  destruct h as [|e h]; [|intros [t Hok]; by apply (table_fsck s t (e :: h))].
  intros [Hhd _]. unfold HASH_FSCK. by rewrite Hhd.
Qed.

(** 56 bytes for each element, 16 for each bucket, 64 for the table. *)
Lemma HASH_OVERHEAD_ok s h :
  rep s h → h ≠ [] → ∃ b, 0 ≤ b < 32 ∧
    HASH_OVERHEAD s = Done (Z.of_nat (List.length h) * 56 + 2 ^ b * 16 + 64).
Proof.
  intros Hrep Hne. destruct h as [|e h]; [done|]. destruct Hrep as [t Hok].
  pose proof (to_list _ _ _ Hok) as Hlo. destruct (lo_log _ _ _ Hlo) as [Hl Hn].
  exists (log2_num_buckets t). split; [done|]. unfold HASH_OVERHEAD. rewrite (lo_head _ _ _ Hlo).
  cbn [fmap list_fmap first]. rewrite (list_ok_table _ _ _ Hlo). cbn [mbind exec_bind].
  by rewrite (to_items _ _ _ Hok), Hn.
Qed.

Lemma HASH_CLEAR_ok s h : rep s h → rep (HASH_CLEAR s) [].
Proof.
  intros Hrep. unfold HASH_CLEAR. destruct (head s) eqn:Hhd; [done|].
  destruct h as [|e h]; [done|]. destruct Hrep as [t Hok].
  pose proof (lo_head _ _ _ (to_list _ _ _ Hok)) as Hf. rewrite Hhd in Hf. done.
Qed.
End walks.

(** ** Sequences of operations *)

(** What can be done with a table; the library does the first six. *)
Inductive hash_op :=
  | Add (k : string) (x : positive)   (* HASH_ADD_STR *)
  | Del (k : string)                  (* HASH_FIND_STR, and HASH_DEL if it is found *)
  | Find (k : string)                 (* HASH_FIND_STR *)
  | Count                             (* HASH_COUNT *)
  | Iterate                           (* HASH_ITER *)
  | Clear                             (* HASH_CLEAR *)
  | AddInorder (cmp : positive → positive → Z) (k : string) (x : positive)   (* HASH_ADD_INORDER *)
  | Replace (k : string) (x : positive)                                      (* HASH_REPLACE_STR *)
  | ReplaceInorder (cmp : positive → positive → Z) (k : string) (x : positive)
  | Sort (cmp : comparison positive). (* HASH_SRT *)

(** What is seen. *)
Inductive hash_obs := Nothing | Element (x : option positive) | Number (n : Z) | Elements (l : list positive).

Definition no_table : uthash := {| handles := ∅; head := None; tbl := None |}.

Section runs.
Context `{HashFunction, Malloc}.

(** An operation on the table; [None]: the process has ended. *)
Definition table_op (o : hash_op) (s : uthash) : exec (option (hash_obs * uthash)) :=
  match o with
  | Add k x => r ← HASH_ADD_STR k x s;
      mret (match r with Some s => Some (Nothing, s) | None => None end)
  | Del k =>
      out ← HASH_FIND_STR k s;
      s ← match out with Some x => HASH_DELETE_HH x s | None => mret s end;
      mret (Some (Element out, s))
  | Find k => out ← HASH_FIND_STR k s; mret (Some (Element out, s))
  | Count => n ← HASH_COUNT s; mret (Some (Number n, s))
  | Iterate => '(l, s) ← HASH_ITER (S (size (handles s))) visit [] s; mret (Some (Elements l, s))
  | Clear => mret (Some (Nothing, HASH_CLEAR s))
  | AddInorder cmp k x => r ← HASH_ADD_INORDER cmp k x s;
      mret (match r with Some s => Some (Nothing, s) | None => None end)
  | Replace k x => r ← HASH_REPLACE_STR k x s;
      mret (match r with Some (out, s) => Some (Element out, s) | None => None end)
  | ReplaceInorder cmp k x => r ← HASH_REPLACE_INORDER cmp k x s;
      mret (match r with Some (out, s) => Some (Element out, s) | None => None end)
  | Sort cmp => s ← HASH_SRT cmp s; mret (Some (Nothing, s))
  end.

Fixpoint table_run (os : list hash_op) (s : uthash) : exec (option (list hash_obs * uthash)) :=
  match os with
  | [] => mret (Some ([], s))
  | o :: os =>
      r ← table_op o s;
      match r with
      | None => mret None
      | Some (v, s) =>
          r ← table_run os s;
          mret (match r with Some (vs, s) => Some (v :: vs, s) | None => None end)
      end
  end.
End runs.

(** A new element for this key is one. *)
Definition may_add (k : string) (x : positive) (h : list (string * positive)) : Prop :=
  hash_find k h = None ∧ x ∉ h.*2 ∧ short k ∧ Z.of_nat (List.length h) + 1 < 2 ^ 32.
#[export] Instance may_add_dec k x h : Decision (may_add k x h).
Proof. unfold may_add. apply _. Defined.

(** The same on a list; [None]: the operation may not be used there, since a
    key or an element would be in the table twice, a key or the table would be too large. *)
Definition list_op (o : hash_op) (h : list (string * positive))
  : option (hash_obs * list (string * positive)) :=
  match o with
  | Add k x =>
      if decide (may_add k x h) then Some (Nothing, hash_add k x h) else None
  | Del k => if decide (short k) then Some (Element (hash_find k h), hash_del k h) else None
  | Find k => if decide (short k) then Some (Element (hash_find k h), h) else None
  | Count => Some (Number (Z.of_nat (hash_count h)), h)
  | Iterate => Some (Elements h.*2, h)
  | Clear => Some (Nothing, [])
  | AddInorder cmp k x =>
      if decide (may_add k x h) then Some (Nothing, insert_inorder (on_elt cmp) (k, x) h) else None
  | Replace k x =>
      if decide (may_add k x (hash_del k h) ∧ Z.of_nat (List.length h) + 1 < 2 ^ 32)
      then Some (Element (hash_find k h), hash_add k x (hash_del k h)) else None
  | ReplaceInorder cmp k x =>
      if decide (may_add k x (hash_del k h) ∧ Z.of_nat (List.length h) + 1 < 2 ^ 32)
      then Some (Element (hash_find k h), insert_inorder (on_elt cmp) (k, x) (hash_del k h)) else None
  | Sort cmp => Some (Nothing, sort_inorder (on_elt cmp) h)
  end.

Fixpoint list_run (os : list hash_op) (h : list (string * positive))
  : option (list hash_obs * list (string * positive)) :=
  match os with
  | [] => Some ([], h)
  | o :: os => '(v, h) ← list_op o h; '(vs, h) ← list_run os h; Some (v :: vs, h)
  end.

Section refinement.
Context `{HashFunction, MallocLimit}.

(** Distinct keys, none of them too long: what every list of [list_run] has. *)
Definition keys_ok (h : list (string * positive)) : Prop :=
  NoDup h.*1 ∧ ∀ k, k ∈ h.*1 → short k.

Lemma keys_ok_perm h h' : h' ≡ₚ h → keys_ok h → keys_ok h'.
Proof. intros Hp [Hnd Hs]. split; [by rewrite Hp|]. intros k. rewrite Hp. apply Hs. Qed.

Lemma keys_ok_del k h : keys_ok h → keys_ok (hash_del k h).
Proof.
  intros [Hnd Hs]. split; [by apply hash_del_keys|]. rewrite hash_del_filter by done.
  intros k' (e & -> & He)%list_elem_of_fmap. apply list_elem_of_filter in He as [_ He].
  by apply Hs, list_elem_of_fmap_2.
Qed.

Lemma keys_ok_add k x h : may_add k x h → keys_ok h → keys_ok (hash_add k x h).
Proof.
  intros (Hf & _ & Hk & _) [Hnd Hs]. split; [by apply hash_add_NoDup|].
  intros k'. rewrite hash_add_keys. set_solver.
Qed.

Lemma keys_ok_inorder cmp k x h :
  may_add k x h → keys_ok h → keys_ok (insert_inorder (on_elt cmp) (k, x) h).
Proof.
  intros Hm Hk. apply (keys_ok_perm (hash_add k x h)); [|by apply keys_ok_add].
  unfold hash_add. by rewrite insert_inorder_perm, Permutation_cons_append.
Qed.

#[local] Hint Resolve keys_ok_del keys_ok_add keys_ok_inorder : core.

Lemma list_op_keys o h v h' : keys_ok h → list_op o h = Some (v, h') → keys_ok h'.
Proof.
  intros Hk. destruct o; cbn; repeat case_decide; destruct_and?; intros [= <- <-]; auto.
  - split; [constructor|intros ? []%not_elem_of_nil].
  - by apply (keys_ok_perm h), Hk; apply sort_inorder_perm.
Qed.

Lemma table_op_ok o s h v h' :
  rep s h → keys_ok h → list_op o h = Some (v, h') →
  ∃ r, table_op o s = Done r ∧ (r = None ∨ ∃ s', r = Some (v, s') ∧ rep s' h').
Proof.
  intros Hrep [Hnd Hs]. assert (Hend : ∀ v s' h', rep s' h' → ∃ r : option (hash_obs * uthash), mret (Some (v, s')) = Done r ∧
    (r = None ∨ ∃ s'', r = Some (v, s'') ∧ rep s'' h')).
  { intros w s' l Hs'. eexists. split; [done|]. right. by exists s'. }
  assert (Hoom : ∀ v h', ∃ r : option (hash_obs * uthash), mret None = Done r ∧ (r = None ∨ ∃ s', r = Some (v, s') ∧ rep s' h')).
  { intros. eexists. split; [done|by left]. }
  destruct o as [k x|k|k| | | |cmp k x|k x|cmp k x|cmp]; cbn; repeat case_decide; try done; intros [= <- <-].
  - unfold may_add in *. destruct_and!.
    destruct (HASH_ADD_STR_ok s h k x) as (r & -> & [->|(s' & -> & ?)]); [done..|exact (Hoom _ _)|by apply Hend].
  - destruct (take_out_ok s h k) as (s' & E & Hs'); [done..|]. unfold take_out in E.
    rewrite (HASH_FIND_STR_ok s h k) in * by done. cbn in *. destruct (hash_find k h) as [x|]; cbn in *.
    + destruct (HASH_DELETE_HH x s); try done. injection E as ->. by apply Hend.
    + injection E as ->. by apply Hend.
  - rewrite (HASH_FIND_STR_ok s h k) by done. by apply Hend.
  - rewrite (HASH_COUNT_ok s h) by done. by apply Hend.
  - rewrite (HASH_ITER_visit s h) by (done || by apply Nat.le_le_succ_r, rep_size). by apply Hend.
  - apply Hend. by apply (HASH_CLEAR_ok s h).
  - unfold may_add in *. destruct_and!.
    destruct (HASH_ADD_INORDER_ok cmp s h k x) as (r & -> & [->|(s' & -> & ?)]); [done..|exact (Hoom _ _)|by apply Hend].
  - unfold may_add in *. destruct_and!.
    destruct (HASH_REPLACE_STR_ok s h k x) as (r & -> & [->|(s' & -> & ?)]); [done..|exact (Hoom _ _)|by apply Hend].
  - unfold may_add in *. destruct_and!.
    destruct (HASH_REPLACE_INORDER_ok cmp s h k x) as (r & -> & [->|(s' & -> & ?)]); [done..|exact (Hoom _ _)|by apply Hend].
  - destruct (HASH_SRT_sorts cmp s h Hrep (comparison_ok cmp)) as (s' & -> & Hs'). by apply Hend.
Qed.

Lemma table_run_ok os s h0 vs h :
  rep s h0 → keys_ok h0 → list_run os h0 = Some (vs, h) →
  ∃ r, table_run os s = Done r ∧ (r = None ∨ ∃ s', r = Some (vs, s') ∧ rep s' h).
Proof.
  revert vs s h0. induction os as [|o os IH]; intros vs s h0 Hrep Hk Hrun; cbn in *.
  { injection Hrun as <- <-. eexists. split; [done|]. right. by exists s. }
  destruct (list_op o h0) as [[v h1]|] eqn:Ho; [|done]. cbn in Hrun.
  destruct (list_run os h1) as [[vs1 h2]|] eqn:Hr; [|done]. injection Hrun as <- <-.
  destruct (table_op_ok o s h0 v h1 Hrep Hk Ho) as (r & -> & [->|(s1 & -> & Hrep1)]); cbn.
  - eexists. split; [done|by left].
  - destruct (IH vs1 s1 h1 Hrep1) as (r & -> & Hr'); [by apply (list_op_keys o h0 v)|done|].
    destruct Hr' as [->|(s2 & -> & Hrep2)]; cbn; (eexists; split; [done|]); [by left|].
    right. by exists s2.
Qed.

Lemma no_table_rep : rep no_table [] ∧ keys_ok [].
Proof. split; [done|]. split; [constructor|]. intros k []%not_elem_of_nil. Qed.

(** C11: The hash tables of uthash.h are lists: whatever sequence of additions (also in order), deletions,
    replacements, searches, counts, iterations, sorts and clearings is made, on distinct keys and elements, none of the
    macros uses a bad pointer or loops for ever, what is seen is what the list shows (the
    expansions of the buckets included), and in the end the links and counts pass the check of
    the header; or the process has ended because memory ran out.  Adding in order is insertion
    behind the elements that are not greater, and the merge sort of the header gives what
    inserting all elements one after the other gives. *)
Theorem uthash_refines os vs h :
  list_run os [] = Some (vs, h) →
  ∃ r, table_run os no_table = Done r ∧
    (r = None ∨ ∃ s, r = Some (vs, s) ∧ rep s h ∧ HASH_FSCK s = Done true).
Proof.
  intros Hrun. destruct no_table_rep as [Hrep Hk].
  destruct (table_run_ok os no_table [] vs h Hrep Hk Hrun) as (r & -> & Hr).
  exists r. split; [done|]. destruct Hr as [->|(s & -> & Hs)]; [by left|]. right. exists s.
  split; [done|]. split; [done|]. by apply (HASH_FSCK_ok s h).
Qed.

(** C34: [HASH_ITER] with a body that deletes and frees the element at hand, as the library empties its
    tables, visits every element once and in order, never reads a freed one, and leaves no table. *)
Theorem HASH_ITER_delete s h fuel :
  rep s h → (List.length h ≤ fuel)%nat →
  ∃ s', HASH_ITER fuel delete_and_free [] s = Done (h.*2, s') ∧ head s' = None ∧ tbl s' = None.
Proof.
  intros Hrep Hf. pose proof (rep_list _ _ Hrep) as [Hhd Hl]. unfold HASH_ITER.
  rewrite Hhd, (next_of_first s None) by done. cbn [mbind exec_bind].
  destruct (iter_delete fuel s h [] Hrep (rep_nodup _ _ Hrep) Hf) as (s' & -> & Hs'). by exists s'.
Qed.
End refinement.

(** ** Instances *)

(** An allocator that gives no block of 64 GB. *)
Definition malloc_below : Malloc := malloc_upto (2 ^ 36 - 1).
Lemma malloc_below_limit : @MallocLimit malloc_below.
Proof. intros n Hn. unfold malloc_ok, malloc_below, malloc_upto in Hn. apply Z.leb_le in Hn. lia. Qed.

(** Keys of two letters. *)
Definition nth_key (n : nat) : string :=
  String (ascii_of_nat (97 + n mod 26)) (String (ascii_of_nat (97 + n / 26)) "").
Definition add_nth (n : nat) : hash_op := Add (nth_key n) (Pos.of_succ_nat n).

(** The last ones first. *)
Definition descending (x y : positive) : Z := Z.pos y - Z.pos x.
Lemma descending_ok : consistent descending.
Proof. unfold descending. split; intros; lia. Qed.
Definition by_number : comparison positive := {| comparison_ok := descending_ok |}.

(** Enough elements for the buckets to be doubled, then one is deleted, the rest is sorted, some are
    replaced, added in order and searched. *)
Definition many_ops : list hash_op :=
  (add_nth <$> seq 0 200) ++
  [Del (nth_key 7); Find (nth_key 7); Sort by_number; AddInorder by_number (nth_key 7) 900;
   Replace (nth_key 8) 301; ReplaceInorder by_number (nth_key 9) 302; Iterate; Find (nth_key 199); Count].

(** What is seen in the end, and the number of buckets. *)
Definition end_of (r : exec (option (list hash_obs * uthash))) : option (option hash_obs * option Z) :=
  match r with Done (Some (vs, s)) => Some (last vs, num_buckets <$> tbl s) | _ => None end.

#[local] Existing Instances malloc_below malloc_below_limit jen.

Lemma uthash_refines_witness :
  ∃ vs h s, list_run many_ops [] = Some (vs, h) ∧
    table_run many_ops no_table = Done (Some (vs, s)) ∧
    last vs = Some (Number 200) ∧ num_buckets <$> tbl s = Some 64 ∧ HASH_FSCK s = Done true.
Proof.
  assert (Hend : end_of (table_run many_ops no_table) = Some (Some (Number 200), Some 64))
    by (vm_compute; reflexivity).
  destruct (list_run many_ops []) as [[vs h]|] eqn:Hl; [|vm_compute in Hl; discriminate Hl].
  destruct (uthash_refines many_ops vs h Hl) as (r & Hr & Hcase). rewrite Hr in Hend.
  destruct Hcase as [->|(s & -> & _ & Hfsck)]; [discriminate Hend|]. injection Hend as Hlast Hnb.
  exists vs, h, s. split; [reflexivity|]. split; [exact Hr|]. split; [exact Hlast|].
  split; [exact Hnb|exact Hfsck].
Defined.

Lemma HASH_ITER_delete_witness :
  ∃ s h s', rep s h ∧ (List.length h ≤ 200)%nat ∧
    HASH_ITER 200 delete_and_free [] s = Done (h.*2, s') ∧ head s' = None ∧ tbl s' = None.
Proof.
  assert (Hend : end_of (table_run many_ops no_table) = Some (Some (Number 200), Some 64))
    by (vm_compute; reflexivity).
  assert (Hlen : match list_run many_ops [] with Some (_, h) => (List.length h ≤ 200)%nat | None => False end)
    by (vm_compute; lia).
  destruct (list_run many_ops []) as [[vs h]|] eqn:Hl; [|destruct Hlen].
  destruct no_table_rep as [Hrep Hk].
  destruct (table_run_ok many_ops no_table [] vs h Hrep Hk Hl) as (r & Hr & Hcase). rewrite Hr in Hend.
  destruct Hcase as [->|(s & -> & Hs)]; [discriminate Hend|].
  destruct (HASH_ITER_delete s h 200 Hs Hlen) as (s' & Hit & Hhd & Htb).
  exists s, h, s'. exact (conj Hs (conj Hlen (conj Hit (conj Hhd Htb)))).
Defined.

(** ** Selecting

    [HASH_SELECT] takes the elements of a condition into a new table, which passes the check of
    the header; but the tail of that table is still its first element, so that the next
    addition cuts off all others. *)

Definition seven_elements : exec (option uthash) :=
  r ← table_run (add_nth <$> seq 0 7) no_table;
  mret (match r with Some (_, s) => Some s | None => None end).

Definition walk (s : uthash) : exec (list positive * bool) :=
  '(l, _) ← HASH_ITER (S (size (handles s))) visit [] s; ok ← HASH_FSCK s; mret (l, ok).

Example HASH_SELECT_stale_tail :
  (src ← (s ← seven_elements; deref s);
   dst ← (d ← HASH_SELECT (fun x => (x <? 5)%positive) no_table src; deref d);
   seen ← walk dst;
   dst ← (d ← HASH_ADD_STR (nth_key 99) 100 dst; deref d);
   seen' ← walk dst;
   mret (seen, seen')) = Done (([2; 1; 3; 4]%positive, true), ([2; 100]%positive, false)).
Proof. vm_compute. reflexivity. Qed.
