(* ===== verification/Utarray.v ===== *)
(** * utarray.h: dynamic arrays, as the library uses them

    An array has [n] slots, of which the first [i] are in use; its elements are made by the copy
    function of its descriptor and given up by the destructor.  Here each copy is an object of
    its own, named by a number, so that a theorem can say that every copy is destroyed, and only
    once.  When memory runs out, [utarray_oom] ends the process: the result is [None] then. *)
From S2P Require Import Prelude Mem HashFn.
Local Open Scope Z_scope.

(** A result, unless the process has ended. *)
Notation "'get' x ← m ; k" := (m ≫= fun r => match r with Some x => k | None => mret None end)
  (at level 200, x pattern, m at level 100, k at level 200) : bpsp_scope.

Section Utarray.
Context `{Malloc} {V : Type}.

(** A copy: which one it is, and what it holds. *)
Record elt := { obj : nat; val : V }.

(** The number of the next copy, and the copies that are destroyed. *)
Record copies := { fresh : nat; destroyed : list nat }.

(** [d]: NULL, or the block of the slots; a slot may be indeterminate. *)
Record UT_array := { i : Z; n : Z; d : option (list (option elt)) }.

(** [sizeof(UT_array)] and the [sz] of the descriptor of subscribers. *)
Definition sizeof_UT_array : Z := 48.
Definition icd_sz : Z := sizeof_bpsp__subscriber.

(** [icd.copy] and [icd.dtor] *)
Definition icd_copy (v : V) (c : copies) : elt * copies :=
  ({| obj := fresh c; val := v |}, {| fresh := S (fresh c); destroyed := destroyed c |}).
Definition icd_dtor (e : elt) (c : copies) : copies :=
  {| fresh := fresh c; destroyed := destroyed c ++ [obj e] |}.

Definition utarray_new : option UT_array :=
  if malloc_ok sizeof_UT_array then Some {| i := 0; n := 0; d := None |} else None.

(** The number of slots is doubled until it suffices. *)
Fixpoint reserve_loop (fuel : nat) (need n : Z) : exec Z :=
  if need <=? n then mret n else
  match fuel with
  | O => NoFuel
  | S fuel => reserve_loop fuel need (if n =? 0 then 8 else u32 (2 * n))
  end.

Definition utarray_reserve (fuel : nat) (a : UT_array) (by_ : Z) : exec (option UT_array) :=
  let need := add32 (i a) by_ in
  if need <=? n a then mret (Some a) else
  n' ← reserve_loop fuel need (n a);
  if malloc_ok (n' * icd_sz)
  then mret (Some {| i := i a; n := n'; d := Some (resize (Z.to_nat n') None (default [] (d a))) |})
  else mret None.

(** From 8 to 2^31 there are 29 doublings. *)
Definition reserve_fuel : nat := 32.

(** An element is written to the slot [j], which must be one of the block. *)
Definition put_slot (a : UT_array) (j : Z) (e : elt) : exec UT_array :=
  l ← deref (d a);
  if (0 <=? j) && (j <? Z.of_nat (List.length l))
  then mret {| i := i a; n := n a; d := Some (<[Z.to_nat j := Some e]> l) |}
  else Undef.

Definition get_slot (a : UT_array) (j : Z) : exec elt :=
  l ← deref (d a); e ← deref (l !! Z.to_nat j); deref e.

Definition set_i (a : UT_array) (i' : Z) : UT_array := {| i := i'; n := n a; d := d a |}.

Definition utarray_push_back (a : UT_array) (p : V) (c : copies) : exec (option (UT_array * copies)) :=
  get a ← utarray_reserve reserve_fuel a 1;
  let '(e, c) := icd_copy p c in
  a ← put_slot a (i a) e;
  mret (Some (set_i a (add32 (i a) 1), c)).

Definition utarray_len (a : UT_array) : Z := i a.

(** The copies of [utarray_inserta(dst, src, j)], from the k-th on. *)
Fixpoint insert_copies (src : UT_array) (j : Z) (ks : list nat) (dst : UT_array) (c : copies)
  : exec (UT_array * copies) :=
  match ks with
  | [] => mret (dst, c)
  | k :: ks =>
      e ← get_slot src (Z.of_nat k);
      let '(e, c) := icd_copy (val e) c in
      dst ← put_slot dst (add32 j (Z.of_nat k)) e;
      insert_copies src j ks dst c
  end.

(** [utarray_inserta(dst, src, utarray_len(dst))]: nothing is resized or moved. *)
Definition utarray_concat (dst src : UT_array) (c : copies) : exec (option (UT_array * copies)) :=
  if utarray_len src =? 0 then mret (Some (dst, c)) else
  let j := utarray_len dst in
  get dst ← utarray_reserve reserve_fuel dst (utarray_len src);
  '(dst, c) ← insert_copies src j (seq 0 (Z.to_nat (i src))) dst c;
  mret (Some (set_i dst (add32 (i dst) (utarray_len src)), c)).

(** [utarray_free]: the elements are destroyed from the first to the last. *)
Fixpoint destroy_loop (a : UT_array) (ks : list nat) (c : copies) : exec copies :=
  match ks with
  | [] => mret c
  | k :: ks => e ← get_slot a (Z.of_nat k); destroy_loop a ks (icd_dtor e c)
  end.

Definition utarray_done (a : UT_array) (c : copies) : exec copies :=
  if n a =? 0 then mret c else destroy_loop a (seq 0 (Z.to_nat (i a))) c.

Definition utarray_free (a : UT_array) (c : copies) : exec copies := utarray_done a c.

(** ** Pointers to elements, as offsets into the block *)

Definition _utarray_eltptr (j : Z) : Z := icd_sz * j.
Definition utarray_eltidx (e : Z) : Z := e / icd_sz.

Definition utarray_front (a : UT_array) : option Z :=
  if i a =? 0 then None else Some (_utarray_eltptr 0).

Definition utarray_next (a : UT_array) (e : option Z) : option Z :=
  match e with
  | None => utarray_front a
  | Some e =>
      if i a =? utarray_eltidx e + 1 then None else Some (_utarray_eltptr (utarray_eltidx e + 1))
  end.

(** [for (p = utarray_front(a); p != NULL; p = utarray_next(a, p))]: the values that are seen. *)
Fixpoint for_each (fuel : nat) (a : UT_array) (p : option Z) : exec (list V) :=
  match p with
  | None => mret []
  | Some e =>
      match fuel with
      | O => NoFuel
      | S fuel =>
          x ← get_slot a (utarray_eltidx e);
          xs ← for_each fuel a (utarray_next a p);
          mret (val x :: xs)
      end
  end.
End Utarray.
Arguments elt V : clear implicits.
Arguments UT_array V : clear implicits.
