(* ===== verification/UtarrayProps.v ===== *)
(** * Arrays are lists, and every copy is destroyed once *)
From S2P Require Import Prelude Mem HashFn Utarray.
Local Open Scope Z_scope.

(** ** The number of slots *)

(** No slots yet, or a power of two of them. *)
Definition slots_ok (n : Z) : Prop := n = 0 ∨ ∃ k, 3 ≤ k ≤ 31 ∧ n = 2 ^ k.

Lemma reserve_loop_pow fuel need k :
  3 ≤ k ≤ 31 → need ≤ 2 ^ 31 → 31 - k ≤ Z.of_nat fuel →
  ∃ n', reserve_loop fuel need (2 ^ k) = Done n' ∧ need ≤ n' ∧ slots_ok n' ∧ 2 ^ k ≤ n'.
Proof.
  revert k. induction fuel as [|fuel IH]; intros k Hk Hneed Hf; cbn [reserve_loop].
  all: destruct (Z.leb_spec need (2 ^ k)) as [Hle|Hgt];
    [by exists (2 ^ k); split_and!; [..|right; exists k|]|].
  - assert (k = 31) as -> by lia. lia.
  - assert (k < 31) by (destruct (decide (k = 31)) as [->|]; lia).
    pose proof (Z.pow_pos_nonneg 2 k).
    assert (2 ^ (k + 1) = 2 * 2 ^ k) as Hpow by (rewrite Z.pow_add_r by lia; lia).
    pose proof (Z.pow_le_mono_r 2 (k + 1) 31). rewrite (proj2 (Z.eqb_neq _ _)) by lia.
    rewrite u32_small by lia. rewrite <-Hpow.
    destruct (IH (k + 1)) as (n' & -> & ? & ? & ?); [lia..|]. exists n'. split_and!; [done..|lia].
Qed.

Lemma reserve_loop_S fuel need n :
  reserve_loop (S fuel) need n
  = if need <=? n then Done n else reserve_loop fuel need (if n =? 0 then 8 else u32 (2 * n)).
Proof. reflexivity. Qed.

Lemma reserve_loop_ok need n :
  slots_ok n → need ≤ 2 ^ 31 →
  ∃ n', reserve_loop reserve_fuel need n = Done n' ∧ need ≤ n' ∧ slots_ok n' ∧ n ≤ n'.
Proof.
  intros [->|(k & Hk & ->)] Hneed.
  - change reserve_fuel with (S 31). rewrite reserve_loop_S. destruct (Z.leb_spec need 0).
    + exists 0. split_and!; [done|done|by left|done].
    + destruct (reserve_loop_pow 31 need 3) as (n' & E & ? & ? & ?); [lia|done|lia|].
      exists n'. split_and!; [exact E|done|done|lia].
  - destruct (reserve_loop_pow reserve_fuel need k) as (n' & -> & ? & ? & ?); [lia| |unfold reserve_fuel; lia|].
    + done.
    + by exists n'.
Qed.

(** More than 2^31 slots: the number of slots goes to 2^31, to 0 and on for ever. *)
Lemma reserve_loop_diverges fuel need n :
  slots_ok n → 2 ^ 31 < need → reserve_loop fuel need n = NoFuel.
Proof.
  intros Hn Hneed. revert n Hn. induction fuel as [|fuel IH]; intros n Hn; cbn [reserve_loop].
  all: assert (n ≤ 2 ^ 31) by (destruct Hn as [->|(k & Hk & ->)]; [lia|apply Z.pow_le_mono_r; lia]).
  all: rewrite (proj2 (Z.leb_gt _ _)) by lia.
  { done. }
  apply IH. destruct Hn as [->|(k & Hk & ->)]; [right; by exists 3|].
  pose proof (Z.pow_pos_nonneg 2 k). rewrite (proj2 (Z.eqb_neq _ _)) by lia.
  destruct (decide (k = 31)) as [->|].
  - by left.
  - right. exists (k + 1). split; [lia|]. rewrite Z.pow_add_r by lia.
    pose proof (Z.pow_le_mono_r 2 k 30). rewrite u32_small; lia.
Qed.

(** ** What an array holds *)

Section arrays.
Context `{Malloc} {V : Type}.
Implicit Types (a : UT_array V) (es : list (elt V)) (c : copies) (v : V).

Record holds a es : Prop := {
  ho_i : i a = Z.of_nat (List.length es);
  ho_n : slots_ok (n a);
  ho_d : if decide (n a = 0) then d a = None
         else ∃ l, d a = Some l ∧ Z.of_nat (List.length l) = n a;
  ho_slots k e : es !! k = Some e → default [] (d a) !! k = Some (Some e);
}.

Lemma holds_le a es : holds a es → Z.of_nat (List.length es) ≤ n a.
Proof.
  intros [_ _ Hd Hs]. destruct es as [|e0 es'] eqn:E using rev_ind; [|].
  - cbn. destruct (decide (n a = 0)); [lia|]. destruct Hd as (l & _ & <-). lia.
  - clear IHes'. pose proof (Hs (List.length es') e0) as Hl.
    rewrite lookup_app_r, Nat.sub_diag in Hl by done. specialize (Hl eq_refl).
    destruct (decide (n a = 0)); [by rewrite Hd in Hl|].
    destruct Hd as (l & Hd & Hlen). rewrite Hd in Hl. cbn in Hl.
    apply lookup_lt_Some in Hl. rewrite length_app. cbn. lia.
Qed.

(** Room for more elements: the process ends, or the array is large enough. *)
Lemma utarray_reserve_ok a es m :
  holds a es → Z.of_nat (List.length es + m) ≤ 2 ^ 31 →
  ∃ r, utarray_reserve reserve_fuel a (Z.of_nat m) = Done r ∧
    (r = None ∨ ∃ a', r = Some a' ∧ holds a' es ∧ Z.of_nat (List.length es + m) ≤ n a').
Proof.
  intros Hho Hm. pose proof Hho as [Hi Hn Hd Hs]. pose proof (holds_le _ _ Hho) as Hle.
  unfold utarray_reserve. unfold add32. rewrite u32_small by lia. rewrite Hi.
  destruct (Z.leb_spec (Z.of_nat (List.length es) + Z.of_nat m) (n a)) as [Hfit|Hgt].
  { eexists. split; [done|]. right. exists a. split_and!; [done|done|lia]. }
  destruct (reserve_loop_ok (Z.of_nat (List.length es) + Z.of_nat m) (n a)) as (n' & -> & Hn1 & Hn2 & Hn3);
    [done|lia|]. cbn [mbind exec_bind].
  destruct (malloc_ok _); [|by eexists; split; [|left]]. eexists. split; [done|]. right.
  eexists. split; [done|]. split; [|cbn; lia]. split; cbn.
  - lia.
  - done.
  - destruct (decide (n' = 0)); [lia|]. eexists. split; [done|]. rewrite length_resize. lia.
  - intros k e He. pose proof (lookup_lt_Some _ _ _ He). apply Hs in He.
    rewrite lookup_resize; [done|lia|]. by apply lookup_lt_Some in He.
Qed.

(** An element behind the last one. *)
Lemma put_slot_ok a es e :
  holds a es → Z.of_nat (List.length es) + 1 ≤ n a →
  ∃ a', put_slot a (Z.of_nat (List.length es)) e = Done a' ∧ i a' = i a ∧ n a' = n a ∧
    holds (set_i a' (Z.of_nat (List.length es) + 1)) (es ++ [e]).
Proof.
  intros [Hi Hn Hd Hs] Hlen. unfold put_slot. destruct (decide (n a = 0)) as [|Hne]; [lia|].
  destruct Hd as (l & Hd & Hl). rewrite Hd in *. cbn [deref mbind exec_bind default] in *.
  rewrite (proj2 (Z.leb_le _ _)), (proj2 (Z.ltb_lt _ _)) by lia. cbn [andb]. rewrite Nat2Z.id.
  eexists. split; [done|]. split; [done|]. split; [done|]. split; cbn.
  - rewrite length_app. cbn. lia.
  - done.
  - rewrite decide_False by done. eexists. split; [done|]. by rewrite length_insert.
  - intros k e' [He|[Hk He]]%lookup_app_Some.
    + pose proof (lookup_lt_Some _ _ _ He). rewrite list_lookup_insert_ne by lia. by apply Hs.
    + destruct (k - List.length es)%nat eqn:E; [|done]. injection He as <-.
      assert (k = List.length es) as -> by lia. apply list_lookup_insert_eq. lia.
Qed.

Lemma get_slot_ok a es k e : holds a es → es !! k = Some e → get_slot a (Z.of_nat k) = Done e.
Proof.
  intros [_ _ _ Hs] He. apply Hs in He. unfold get_slot. destruct (d a) as [l|]; [|done].
  cbn in *. rewrite Nat2Z.id, He. done.
Qed.

Lemma utarray_push_back_ok a es v c :
  holds a es → Z.of_nat (List.length es) + 1 ≤ 2 ^ 31 →
  ∃ r, utarray_push_back a v c = Done r ∧
    (r = None ∨ ∃ a', r = Some (a', (icd_copy v c).2) ∧ holds a' (es ++ [(icd_copy v c).1])).
Proof.
  intros Hho Hlen. unfold utarray_push_back.
  destruct (utarray_reserve_ok a es 1) as (r & E & Hr); [done|lia|]. change (Z.of_nat 1) with 1 in E.
  rewrite E. cbn [mbind exec_bind]. destruct Hr as [->|(a1 & -> & Hho1 & Hn1)]; [by eexists; split; [|left]|].
  pose proof (ho_i _ _ Hho1) as Hi1. unfold icd_copy. rewrite Hi1.
  destruct (put_slot_ok a1 es {| obj := fresh c; val := v |} Hho1) as (a2 & E2 & Hi2 & _ & Hho2); [lia|].
  rewrite E2. cbn [mbind exec_bind]. eexists. split; [done|]. right. eexists. split; [done|].
  rewrite Hi2, Hi1. unfold add32. rewrite u32_small by lia. exact Hho2.
Qed.

(** ** Appending an array *)

(** The copies of these values, the first of which has the number [p]. *)
Fixpoint fresh_copies (p : nat) (vs : list V) : list (elt V) :=
  match vs with [] => [] | v :: vs => {| obj := p; val := v |} :: fresh_copies (S p) vs end.

Lemma fresh_copies_length p vs : List.length (fresh_copies p vs) = List.length vs.
Proof. revert p. induction vs as [|v vs IH]; intros p; [done|]. cbn. by rewrite IH. Qed.
Lemma fresh_copies_obj p vs : obj <$> fresh_copies p vs = seq p (List.length vs).
Proof. revert p. induction vs as [|v vs IH]; intros p; [done|]. cbn. f_equal. apply IH. Qed.
Lemma fresh_copies_val p vs : val <$> fresh_copies p vs = vs.
Proof. revert p. induction vs as [|v vs IH]; intros p; [done|]. cbn. f_equal. apply IH. Qed.

Lemma put_slot_any a j e x a' :
  put_slot (set_i a x) j e = Done a' → put_slot a j e = Done (set_i a' (i a)).
Proof.
  unfold put_slot. cbn. destruct (d a) as [l|]; [cbn|done]. destruct (_ && _); [|done].
  by intros [= <-].
Qed.

Lemma insert_copies_ok src (all rest : list (elt V)) j k es dst c :
  holds src all → drop k all = rest → holds (set_i dst (Z.of_nat (List.length es))) es →
  Z.of_nat (List.length es) = j + Z.of_nat k → 0 ≤ j →
  Z.of_nat (List.length es + List.length rest) ≤ n dst → n dst ≤ 2 ^ 31 →
  ∃ dst', insert_copies src j (seq k (List.length rest)) dst c
      = Done (dst', {| fresh := fresh c + List.length rest; destroyed := destroyed c |}) ∧
    i dst' = i dst ∧
    holds (set_i dst' (Z.of_nat (List.length es + List.length rest)))
      (es ++ fresh_copies (fresh c) (val <$> rest)).
Proof.
  intros Hsrc. revert k es dst c. induction rest as [|e rest IH]; intros k es dst c Hr Hho Hj Hj0 Hn Hmax.
  { exists dst. cbn. rewrite !Nat.add_0_r, app_nil_r. by destruct c. }
  assert (all !! k = Some e) as He.
  { rewrite <-(Nat.add_0_r k), <-lookup_drop, Hr. done. }
  cbn [List.length seq insert_copies] in *. rewrite (get_slot_ok src all k e Hsrc He). cbn [mbind exec_bind].
  unfold icd_copy. destruct (put_slot_ok _ es {| obj := fresh c; val := val e |} Hho)
    as (a' & E & Hi & Hna & Hho'); [cbn; lia|].
  apply put_slot_any in E. unfold add32. rewrite u32_small by lia. rewrite <-Hj, E. cbn [mbind exec_bind].
  destruct (IH (S k) (es ++ [{| obj := fresh c; val := val e |}]) (set_i a' (i dst))
    {| fresh := S (fresh c); destroyed := destroyed c |}) as (dst' & -> & Hi' & Hho2).
  - rewrite <-Nat.add_1_r, <-drop_drop, Hr. done.
  - rewrite length_app. cbn [List.length]. rewrite Nat2Z.inj_add. exact Hho'.
  - rewrite length_app. cbn [List.length]. lia.
  - done.
  - rewrite length_app. cbn in *. lia.
  - cbn in *. lia.
  - exists dst'. cbn [fresh destroyed fmap list_fmap fresh_copies] in *. split; [|split; [done|]].
    + do 3 f_equal. lia.
    + rewrite <-app_assoc, length_app in Hho2. cbn [List.length List.app] in Hho2.
      by replace (List.length es + S (List.length rest))%nat
        with (List.length es + 1 + List.length rest)%nat by lia.
Qed.

(** The slots of an array are at most 2^31. *)
Lemma slots_max n : slots_ok n → n ≤ 2 ^ 31.
Proof. intros [->|(k & Hk & ->)]; [lia|apply Z.pow_le_mono_r; lia]. Qed.

Lemma utarray_concat_ok dst src es all c :
  holds dst es → holds src all → Z.of_nat (List.length es + List.length all) ≤ 2 ^ 31 →
  ∃ r, utarray_concat dst src c = Done r ∧
    (r = None ∨ ∃ dst', r = Some (dst', {| fresh := fresh c + List.length all; destroyed := destroyed c |}) ∧
      holds dst' (es ++ fresh_copies (fresh c) (val <$> all))).
Proof.
  intros Hdst Hsrc Hlen. unfold utarray_concat, utarray_len. rewrite (ho_i _ _ Hsrc), (ho_i _ _ Hdst).
  destruct (Z.eqb_spec (Z.of_nat (List.length all)) 0) as [Hz|Hnz].
  { assert (all = []) as -> by (destruct all; [done|cbn in Hz; lia]).
    eexists. split; [done|]. right. exists dst. cbn. rewrite Nat.add_0_r, app_nil_r. by destruct c. }
  destruct (utarray_reserve_ok dst es (List.length all) Hdst Hlen) as (r & -> & Hr). cbn [mbind exec_bind].
  destruct Hr as [->|(a1 & -> & Hho1 & Hn1)]; [by eexists; split; [|left]|].
  rewrite Nat2Z.id. pose proof (ho_i _ _ Hho1) as Hi1.
  destruct (insert_copies_ok src all all (Z.of_nat (List.length es)) 0 es a1 c) as (a2 & -> & Hi2 & Hho2).
  - done.
  - done.
  - rewrite <-Hi1. by destruct a1.
  - lia.
  - lia.
  - done.
  - apply slots_max, Hho1.
  - cbn [mbind exec_bind]. eexists. split; [done|]. right. eexists. split; [done|].
    rewrite Hi2, Hi1. unfold add32. rewrite u32_small by lia. rewrite <-Nat2Z.inj_add. exact Hho2.
Qed.

(** ** Freeing and walking *)

Lemma destroy_loop_ok a all rest k c :
  holds a all → drop k all = rest →
  destroy_loop a (seq k (List.length rest)) c
  = Done {| fresh := fresh c; destroyed := destroyed c ++ (obj <$> rest) |}.
Proof.
  intros Hho. revert k c. induction rest as [|e rest IH]; intros k c Hr.
  { cbn. rewrite app_nil_r. by destruct c. }
  assert (all !! k = Some e) as He by (rewrite <-(Nat.add_0_r k), <-lookup_drop, Hr; done).
  cbn [List.length seq destroy_loop]. rewrite (get_slot_ok a all k e Hho He). cbn [mbind exec_bind].
  rewrite IH; [|by rewrite <-Nat.add_1_r, <-drop_drop, Hr]. cbn. by rewrite <-app_assoc.
Qed.

Lemma utarray_free_ok a es c :
  holds a es →
  utarray_free a c = Done {| fresh := fresh c; destroyed := destroyed c ++ (obj <$> es) |}.
Proof.
  intros Hho. unfold utarray_free, utarray_done. destruct (Z.eqb_spec (n a) 0) as [Hz|Hnz].
  - pose proof (holds_le _ _ Hho). destruct es; [|cbn in *; lia]. cbn. rewrite app_nil_r. by destruct c.
  - rewrite (ho_i _ _ Hho), Nat2Z.id. by apply (destroy_loop_ok a es es 0).
Qed.

Lemma eltidx_eltptr j : utarray_eltidx (_utarray_eltptr j) = j.
Proof. unfold utarray_eltidx, _utarray_eltptr. rewrite Z.mul_comm. by apply Z.div_mul. Qed.

Lemma for_each_ok a all rest k fuel :
  holds a all → drop k all = rest → (List.length rest ≤ fuel)%nat →
  for_each fuel a (match rest with [] => None | _ => Some (_utarray_eltptr (Z.of_nat k)) end)
  = Done (val <$> rest).
Proof.
  intros Hho. revert k fuel. induction rest as [|e rest IH]; intros k fuel Hr Hf; [by destruct fuel|].
  destruct fuel as [|fuel]; [cbn in Hf; lia|].
  assert (all !! k = Some e) as He by (rewrite <-(Nat.add_0_r k), <-lookup_drop, Hr; done).
  cbn [for_each]. rewrite eltidx_eltptr, (get_slot_ok a all k e Hho He). cbn [mbind exec_bind].
  cbn [utarray_next]. rewrite eltidx_eltptr, (ho_i _ _ Hho).
  assert (List.length all = k + S (List.length rest))%nat as Hlen.
  { pose proof (length_drop all k) as Hl. rewrite Hr in Hl. cbn in Hl.
    pose proof (lookup_lt_Some _ _ _ He). lia. }
  assert (drop (S k) all = rest) as Hr' by (by rewrite <-Nat.add_1_r, <-drop_drop, Hr).
  specialize (IH (S k) fuel Hr'). cbn in Hf. destruct rest as [|e' rest].
  - rewrite (proj2 (Z.eqb_eq _ _)) by (cbn in Hlen; lia). rewrite IH by (cbn; lia). done.
  - rewrite (proj2 (Z.eqb_neq _ _)) by (cbn in Hlen; lia).
    replace (Z.of_nat k + 1) with (Z.of_nat (S k)) by lia. rewrite IH by lia. done.
Qed.

Lemma utarray_walk_ok a es fuel :
  holds a es → (List.length es ≤ fuel)%nat → for_each fuel a (utarray_front a) = Done (val <$> es).
Proof.
  intros Hho Hf. unfold utarray_front. rewrite (ho_i _ _ Hho).
  rewrite <-(for_each_ok a es es 0 fuel Hho) by done. by destruct es.
Qed.

(** ** Filling *)

(** The array [a] grows by copies of these values; of all copies that are made, those that are not in
    it are destroyed. *)
Definition grows a es c (vs : list V) (r : option (UT_array V * copies)) : Prop :=
  r = None ∨ ∃ a' c' new gone, r = Some (a', c') ∧ holds a' (es ++ new) ∧ val <$> new = vs ∧
    destroyed c' = destroyed c ++ gone ∧ (fresh c ≤ fresh c')%nat ∧
    (obj <$> new) ++ gone ≡ₚ seq (fresh c) (fresh c' - fresh c).

Lemma holds_new a : utarray_new = Some a → holds a [].
Proof.
  unfold utarray_new. destruct (malloc_ok _); [|done]. intros [= <-].
  split; cbn; [done|by left|done|]. by intros [|k] e [=].
Qed.

(** Nothing is added. *)
Lemma grows_nil a es c : holds a es → grows a es c [] (Some (a, c)).
Proof.
  intros Hho. right. exists a, c, [], []. rewrite !app_nil_r, Nat.sub_diag. by split_and!.
Qed.

(** One growth after another. *)
Lemma grows_app a es c vs a1 c1 new gone vs2 r :
  holds a1 (es ++ new) → val <$> new = vs → destroyed c1 = destroyed c ++ gone →
  (fresh c ≤ fresh c1)%nat → (obj <$> new) ++ gone ≡ₚ seq (fresh c) (fresh c1 - fresh c) →
  grows a1 (es ++ new) c1 vs2 r → grows a es c (vs ++ vs2) r.
Proof.
  intros Hho Hv Hd Hc Hp [->|(a2 & c2 & new2 & gone2 & -> & Hho2 & Hv2 & Hd2 & Hc2 & Hp2)]; [by left|right].
  exists a2, c2, (new ++ new2), (gone ++ gone2). split_and!; [done|by rewrite app_assoc| | |lia|].
  - by rewrite fmap_app, Hv, Hv2.
  - by rewrite Hd2, Hd, app_assoc.
  - replace (fresh c2 - fresh c)%nat with ((fresh c1 - fresh c) + (fresh c2 - fresh c1))%nat by lia.
    rewrite seq_app. replace (fresh c + (fresh c1 - fresh c))%nat with (fresh c1) by lia.
    rewrite <-Hp, <-Hp2, fmap_app. solve_Permutation.
Qed.

(** Computations that grow the array, one after another. *)
Lemma grows_bind a es c vs (m : exec (option (UT_array V * copies))) k vs2 :
  (∃ r, m = Done r ∧ grows a es c vs r) →
  (∀ a1 c1 new, holds a1 (es ++ new) → val <$> new = vs →
     ∃ r, k a1 c1 = Done r ∧ grows a1 (es ++ new) c1 vs2 r) →
  ∃ r, (get (a1, c1) ← m; k a1 c1) = Done r ∧ grows a es c (vs ++ vs2) r.
Proof.
  intros (r & -> & Hr) Hk. cbn [mbind exec_bind].
  destruct Hr as [->|(a1 & c1 & new & gone & -> & Hho & Hv & Hd & Hc & Hp)].
  { eexists. split; [done|by left]. }
  destruct (Hk a1 c1 new Hho Hv) as (r & -> & Hr). eexists. split; [done|].
  by apply (grows_app a es c vs a1 c1 new gone).
Qed.

Lemma push_back_grows a es v c :
  holds a es → Z.of_nat (List.length es) + 1 ≤ 2 ^ 31 →
  ∃ r, utarray_push_back a v c = Done r ∧ grows a es c [v] r.
Proof.
  intros Hho Hlen. destruct (utarray_push_back_ok a es v c Hho Hlen) as (r & -> & Hr).
  eexists. split; [done|]. destruct Hr as [->|(a' & -> & Hho')]; [by left|right].
  exists a', (icd_copy v c).2, [(icd_copy v c).1], []. cbn. rewrite app_nil_r.
  replace (S (fresh c) - fresh c)%nat with 1%nat by lia. split_and!; try done. lia.
Qed.

(** A new array is filled, appended and freed: its copies are destroyed, those of the array stay. *)
Lemma append_grows a es c vs (m : UT_array V → exec (option (UT_array V * copies))) :
  holds a es → Z.of_nat (List.length es + List.length vs) ≤ 2 ^ 31 →
  (∀ tmp, holds tmp [] → ∃ r, m tmp = Done r ∧ grows tmp [] c vs r) →
  ∃ r, match utarray_new with
       | None => mret None
       | Some tmp =>
           get (tmp, c) ← m tmp; get (a, c) ← utarray_concat a tmp c;
           c ← utarray_free tmp c; mret (Some (a, c))
       end = Done r ∧ grows a es c vs r.
Proof.
  intros Hho Hlen Hm. destruct utarray_new as [tmp|] eqn:Hnew; [|by eexists; split; [|left]].
  apply holds_new in Hnew. destruct (Hm tmp Hnew) as (r & -> & Hr). cbn [mbind exec_bind].
  destruct Hr as [->|(t1 & c1 & new1 & gone1 & -> & Ht1 & Hv1 & Hd1 & Hc1 & Hp1)]; [by eexists; split; [|left]|].
  cbn [List.app] in Ht1.
  destruct (utarray_concat_ok a t1 es new1 c1 Hho Ht1) as (r & -> & Hr).
  { by rewrite <-(length_fmap val new1), Hv1. }
  cbn [mbind exec_bind]. destruct Hr as [->|(a2 & -> & Hho2)]; [by eexists; split; [|left]|].
  rewrite (utarray_free_ok t1 new1) by done. cbn [mbind exec_bind fresh destroyed].
  eexists. split; [done|]. right. eexists _, _, _, _. split; [done|]. split; [exact Hho2|].
  cbn [fresh destroyed]. rewrite fresh_copies_val, fresh_copies_obj, length_fmap, Hd1.
  rewrite <-app_assoc. split_and!; [done|done|lia|].
  replace (fresh c1 + List.length new1 - fresh c)%nat
    with ((fresh c1 - fresh c) + List.length new1)%nat by lia.
  rewrite seq_app. replace (fresh c + (fresh c1 - fresh c))%nat with (fresh c1) by lia.
  rewrite <-Hp1. solve_Permutation.
Qed.

(** What has grown from nothing is walked in order, and once it is freed every copy is destroyed. *)
Lemma grows_visit tmp vs r fuel :
  grows tmp [] {| fresh := 0; destroyed := [] |} vs r → (List.length vs ≤ fuel)%nat →
  r = None ∨ ∃ a c, r = Some (a, c) ∧ for_each fuel a (utarray_front a) = Done vs ∧
    ∃ c', utarray_free a c = Done c' ∧ fresh c' = fresh c ∧ destroyed c' ≡ₚ seq 0 (fresh c').
Proof.
  intros [->|(a & c & new & gone & -> & Hho & Hv & Hd & Hc & Hp)] Hf; [by left|right].
  cbn [List.app] in *. exists a, c. split; [done|]. rewrite (utarray_walk_ok a new).
  - rewrite Hv. split; [done|]. eexists. split; [by apply (utarray_free_ok a new)|].
    split; [done|]. cbn in *. rewrite Hd, Nat.sub_0_r in *. rewrite <-Hp. solve_Permutation.
  - done.
  - by rewrite <-(length_fmap val new), Hv.
Qed.
End arrays.
