(* ===== verification/UtarrayOps.v ===== *)
(** * utarray.h: the other operations on arrays

    Inserting, resizing, erasing, clearing, sorting and searching, which the library itself does
    not use.  The descriptor of an array says what [init] makes (without it the slot is zeroed) and
    whether elements are given up with a destructor; without a copy function the bytes of an
    element are copied, which makes a new element as [icd.copy] does. *)
From S2P Require Import Prelude Mem HashFn Utarray.
Local Open Scope Z_scope.

Record UT_icd {V} := { init : option V; zero : V; dtor : bool }.
Arguments UT_icd V : clear implicits.

(** [qsort] and [bsearch] of the C library: the reordered elements, the index that is found. *)
Class SortLib := {
  qsort {A} : (A → A → Z) → list A → list A;
  bsearch {A K} : (K → A → Z) → K → list A → option nat;
}.

Section Ops.
Context `{Malloc} `{SortLib} {V : Type}.
Variable icd : UT_icd V.

(** The destructor, if there is one. *)
Definition icd_end (e : elt V) (c : copies) : copies := if dtor icd then icd_dtor e c else c.

(** What [icd.init], or [memset], makes of a slot. *)
Definition icd_init (c : copies) : elt V * copies := icd_copy (default (zero icd) (init icd)) c.

(** [memmove] between slots of the block. *)
Definition memmove_slots (a : UT_array V) (dst src len : Z) : exec (UT_array V) :=
  l ← deref (d a);
  if (dst + len <=? Z.of_nat (List.length l)) && (src + len <=? Z.of_nat (List.length l))
  then mret {| i := i a; n := n a;
               d := Some (take (Z.to_nat dst) l ++ take (Z.to_nat len) (drop (Z.to_nat src) l)
                          ++ drop (Z.to_nat (dst + len)) l) |}
  else Undef.

(** The slots [ks] are given up. *)
Fixpoint end_slots (a : UT_array V) (ks : list nat) (c : copies) : exec copies :=
  match ks with
  | [] => mret c
  | k :: ks => e ← get_slot a (Z.of_nat k); end_slots a ks (icd_end e c)
  end.

Definition utarray_pop_back (a : UT_array V) (c : copies) : exec (UT_array V * copies) :=
  let i' := sub32 (i a) 1 in
  if dtor icd then e ← get_slot a i'; mret (set_i a i', icd_end e c)
  else mret (set_i a i', c).

Definition utarray_extend_back (a : UT_array V) (c : copies) : exec (option (UT_array V * copies)) :=
  get a ← utarray_reserve reserve_fuel a 1;
  let '(e, c) := icd_init c in
  a ← put_slot a (i a) e;
  mret (Some (set_i a (add32 (i a) 1), c)).

(** The loop over [icd.init], or [memset]. *)
Fixpoint init_slots (ks : list nat) (a : UT_array V) (c : copies) : exec (UT_array V * copies) :=
  match ks with
  | [] => mret (a, c)
  | k :: ks =>
      let '(e, c) := icd_init c in
      a ← put_slot a (Z.of_nat k) e;
      init_slots ks a c
  end.

Definition utarray_resize (a : UT_array V) (num : Z) (c : copies) : exec (option (UT_array V * copies)) :=
  if num <? i a then
    c ← (if dtor icd then end_slots a (seq (Z.to_nat num) (Z.to_nat (i a - num))) c else mret c);
    mret (Some (set_i a num, c))
  else if i a <? num then
    get a ← utarray_reserve reserve_fuel a (sub32 num (i a));
    '(a, c) ← init_slots (seq (Z.to_nat (i a)) (Z.to_nat (num - i a))) a c;
    mret (Some (set_i a num, c))
  else mret (Some (set_i a num, c)).

(** [if ((j) > (a)->i) utarray_resize(a,j)] *)
Definition resize_if (a : UT_array V) (j : Z) (c : copies) : exec (option (UT_array V * copies)) :=
  if i a <? j then utarray_resize a j c else mret (Some (a, c)).

Definition utarray_insert (a : UT_array V) (p : V) (j : Z) (c : copies) : exec (option (UT_array V * copies)) :=
  get (a, c) ← resize_if a j c;
  get a ← utarray_reserve reserve_fuel a 1;
  a ← (if j <? i a then memmove_slots a (add32 j 1) j (i a - j) else mret a);
  let '(e, c) := icd_copy p c in
  a ← put_slot a j e;
  mret (Some (set_i a (add32 (i a) 1), c)).

Definition utarray_inserta (a w : UT_array V) (j : Z) (c : copies) : exec (option (UT_array V * copies)) :=
  if utarray_len w =? 0 then mret (Some (a, c)) else
  get (a, c) ← resize_if a j c;
  get a ← utarray_reserve reserve_fuel a (utarray_len w);
  a ← (if j <? i a then memmove_slots a (add32 j (utarray_len w)) j (i a - j) else mret a);
  '(a, c) ← insert_copies w j (seq 0 (Z.to_nat (i w))) a c;
  mret (Some (set_i a (add32 (i a) (utarray_len w)), c)).

(** [utarray_eltptr] is NULL behind the last element; no destructor takes that. *)
Definition utarray_eltptr (a : UT_array V) (j : Z) : option Z := if j <? i a then Some (_utarray_eltptr j) else None.

Fixpoint erase_slots (a : UT_array V) (pos : Z) (ks : list nat) (c : copies) : exec copies :=
  match ks with
  | [] => mret c
  | k :: ks =>
      p ← deref (utarray_eltptr a (add32 pos (Z.of_nat k)));
      e ← get_slot a (utarray_eltidx p);
      erase_slots a pos ks (icd_end e c)
  end.

Definition utarray_erase (a : UT_array V) (pos len : Z) (c : copies) : exec (UT_array V * copies) :=
  c ← (if dtor icd then erase_slots a pos (seq 0 (Z.to_nat len)) c else mret c);
  let e := add32 pos len in
  a ← (if e <? i a then memmove_slots a pos e (i a - e) else mret a);
  mret (set_i a (sub32 (i a) len), c).

Definition utarray_clear (a : UT_array V) (c : copies) : exec (UT_array V * copies) :=
  if 0 <? i a then
    c ← (if dtor icd then end_slots a (seq 0 (Z.to_nat (i a))) c else mret c);
    mret (set_i a 0, c)
  else mret (a, c).

(** [utarray_free] with any descriptor. *)
Definition utarray_free_with (a : UT_array V) (c : copies) : exec copies :=
  if n a =? 0 then mret c
  else if dtor icd then end_slots a (seq 0 (Z.to_nat (i a))) c else mret c.

(** A new array, or the given one without its elements. *)
Definition utarray_renew (a : option (UT_array V)) (c : copies) : exec (option (UT_array V * copies)) :=
  match a with
  | Some a => r ← utarray_clear a c; mret (Some r)
  | None => match utarray_new with Some a => mret (Some (a, c)) | None => mret None end
  end.

(** ** Sorting and searching *)

(** The elements in use, all of them made. *)
Definition used (a : UT_array V) : exec (list (elt V)) :=
  l ← deref (d a); deref (mapM id (take (Z.to_nat (i a)) l)).

Definition utarray_sort (a : UT_array V) (cmp : V → V → Z) : exec (UT_array V) :=
  l ← deref (d a);
  es ← used a;
  mret {| i := i a; n := n a;
          d := Some ((Some <$> qsort (fun e e' => cmp (val e) (val e')) es)
                     ++ drop (Z.to_nat (i a)) l) |}.

Definition utarray_find {K} (a : UT_array V) (v : K) (cmp : K → V → Z) : exec (option Z) :=
  es ← used a;
  mret (_utarray_eltptr ∘ Z.of_nat <$> bsearch (fun v e => cmp v (val e)) v es).

(** ** Walking backwards *)

Definition utarray_back (a : UT_array V) : option Z :=
  if i a =? 0 then None else Some (_utarray_eltptr (sub32 (i a) 1)).

Definition utarray_prev (a : UT_array V) (e : option Z) : option Z :=
  match e with
  | None => utarray_back a
  | Some e =>
      if utarray_eltidx e =? 0 then None else Some (_utarray_eltptr (utarray_eltidx e - 1))
  end.

(** The values seen from the element [p] to the first. *)
Fixpoint for_each_back (fuel : nat) (a : UT_array V) (p : option Z) : exec (list V) :=
  match p with
  | None => mret []
  | Some e =>
      match fuel with
      | O => NoFuel
      | S fuel =>
          x ← get_slot a (utarray_eltidx e);
          xs ← for_each_back fuel a (utarray_prev a p);
          mret (val x :: xs)
      end
  end.
End Ops.

(** ** The descriptors of the header *)

(** A copy of a string; NULL is copied as NULL. *)
Definition utarray_str_cpy `{Malloc} (src : option string) : option string := src ≫= mem__strdup.

Definition ut_str_icd : UT_icd (option string) := {| init := None; zero := None; dtor := true |}.
Definition ut_int_icd : UT_icd Z := {| init := None; zero := 0; dtor := false |}.
Definition ut_ptr_icd : UT_icd Z := {| init := None; zero := 0; dtor := false |}.
