(* ===== verification/UtarraySpec.v ===== *)
(** * Arrays under any operations are lists

    [array_op] are the operations on an array, [list_op] what they do to a list; an array that
    holds a list holds the changed list afterwards, and its elements and those given up are
    together all that were made. *)
From S2P Require Import Prelude Mem HashFn Utarray UtarrayProps UtarrayOps.
Local Open Scope Z_scope.

Section arrays.
Context `{Malloc} {V : Type}.
Implicit Types (a w : UT_array V) (es new : list (elt V)) (c : copies) (v : V).

(** ** The block of an array *)

(** The slots are the elements in use, and others. *)
Lemma holds_block a es :
  holds a es → n a ≠ 0 →
  ∃ junk, d a = Some ((Some <$> es) ++ junk) ∧ Z.of_nat (List.length es + List.length junk) = n a.
Proof.
  intros [Hi Hn Hd Hs] Hne. rewrite decide_False in Hd by done. destruct Hd as (l & Hd & Hl).
  rewrite Hd in Hs. cbn in Hs. exists (drop (List.length es) l).
  assert (∀ es', (∀ k e, es' !! k = Some e → l !! k = Some (Some e)) →
    take (List.length es') l = Some <$> es') as Htake.
  { intros es' He. apply list_eq. intros k. rewrite list_lookup_fmap.
    destruct (es' !! k) as [e|] eqn:E.
    - rewrite lookup_take_lt by (by eapply lookup_lt_Some). by rewrite (He k e E).
    - apply lookup_take_ge. by apply lookup_ge_None. }
  split; [by rewrite <-(Htake es Hs), take_drop|].
  rewrite length_drop. assert (List.length es ≤ List.length l)%nat; [|lia].
  pose proof (f_equal List.length (Htake es Hs)) as E. rewrite length_take, length_fmap in E. lia.
Qed.

Lemma holds_intro a es junk :
  d a = Some ((Some <$> es) ++ junk) → Z.of_nat (List.length es + List.length junk) = n a →
  slots_ok (n a) → n a ≠ 0 → i a = Z.of_nat (List.length es) → holds a es.
Proof.
  intros Hd Hn Hok Hne Hi. split; [done|done| |].
  - rewrite decide_False by done. eexists. split; [done|]. by rewrite length_app, length_fmap.
  - intros k e He. rewrite Hd. cbn. rewrite lookup_app_l by (rewrite length_fmap; by eapply lookup_lt_Some).
    by rewrite list_lookup_fmap, He.
Qed.

(** Fewer elements are in use. *)
Lemma holds_take a es k :
  holds a es → (k ≤ List.length es)%nat → holds (set_i a (Z.of_nat k)) (take k es).
Proof.
  intros [Hi Hn Hd Hs] Hk. split; cbn; [rewrite length_take; lia|done|done|].
  intros k' e. rewrite lookup_take_Some. intros [He _]. by apply Hs.
Qed.

Lemma slots_pos a es : holds a es → 0 < Z.of_nat (List.length es) → n a ≠ 0.
Proof. intros Hho Hlen. pose proof (holds_le _ _ Hho). lia. Qed.

Lemma put_slot_block a pre x post e j :
  d a = Some (pre ++ x :: post) → j = Z.of_nat (List.length pre) →
  put_slot a j e = Done {| i := i a; n := n a; d := Some (pre ++ Some e :: post) |}.
Proof.
  intros Hd ->. unfold put_slot. rewrite Hd. cbn [deref mbind exec_bind].
  rewrite (proj2 (Z.leb_le _ _)), (proj2 (Z.ltb_lt _ _)) by (rewrite ?length_app; cbn; lia). cbn [andb].
  rewrite Nat2Z.id, <-(Nat.add_0_r (List.length pre)), insert_app_r. done.
Qed.

(** A gap of [m] slots behind the first [j] elements. *)
Lemma memmove_gap a es (j m : nat) :
  holds a es → (j ≤ List.length es)%nat → Z.of_nat (List.length es + m) ≤ n a → n a ≠ 0 →
  ∃ gap junk, List.length gap = m
    ∧ Z.of_nat (List.length es + m + List.length junk) = n a
    ∧ (if Z.of_nat j <? i a then memmove_slots a (Z.of_nat (j + m)) (Z.of_nat j) (i a - Z.of_nat j) else mret a)
      = Done {| i := i a; n := n a;
                d := Some ((Some <$> take j es) ++ gap ++ (Some <$> drop j es) ++ junk) |}.
Proof.
  intros Hho Hj Hm Hne. destruct (holds_block a es Hho Hne) as (junk & Hd & Hn).
  pose proof (ho_i _ _ Hho) as Hi.
  assert (List.length (drop j es) = List.length es - j)%nat as Hld by apply length_drop.
  rewrite <-(take_drop j es), fmap_app, <-app_assoc in Hd.
  set (A := Some <$> take j es) in *. set (B := Some <$> drop j es) in *.
  assert (List.length A = j) as HA by (unfold A; rewrite length_fmap, length_take; lia).
  assert (List.length B = List.length es - j)%nat as HB by (unfold B; rewrite length_fmap; lia).
  clearbody A B. destruct (Z.ltb_spec (Z.of_nat j) (i a)) as [Hlt|Hge].
  - unfold memmove_slots. rewrite Hd. cbn [deref mbind exec_bind].
    rewrite !(proj2 (Z.leb_le _ _)) by (rewrite !length_app; lia). cbn [andb].
    exists (take m (B ++ junk)), (drop m junk).
    replace (Z.to_nat (Z.of_nat (j + m))) with (List.length A + m)%nat by lia.
    replace (Z.to_nat (Z.of_nat j)) with (List.length A) by lia.
    replace (Z.to_nat (i a - Z.of_nat j)) with (List.length B) by lia.
    replace (Z.to_nat (Z.of_nat (j + m) + (i a - Z.of_nat j))) with (List.length A + (List.length B + m))%nat by lia.
    split; [rewrite length_take, length_app; lia|]. split; [rewrite length_drop; lia|].
    unfold mret, exec_ret. do 3 f_equal. rewrite take_app_add, <-app_assoc. do 2 f_equal.
    rewrite drop_app_length, take_app_length, drop_app_add, drop_app_add. done.
  - assert (j = List.length es) as Ej by lia.
    exists (take m junk), (drop m junk).
    assert (B = []) as EB by (apply nil_length_inv; lia). rewrite EB in *. cbn [List.app] in *.
    split; [rewrite length_take; lia|]. split; [rewrite length_drop; lia|].
    rewrite take_drop. unfold mret, exec_ret. f_equal. destruct a; cbn in *. by subst.
Qed.

(** A gap is filled with copies. *)
Lemma insert_copies_block w all rest j k a pre gap post c :
  holds w all → drop k all = rest → d a = Some (pre ++ gap ++ post) →
  List.length gap = List.length rest → Z.of_nat (List.length pre) = j + Z.of_nat k → 0 ≤ j →
  Z.of_nat (List.length pre + List.length rest) < 2 ^ 32 →
  insert_copies w j (seq k (List.length rest)) a c
  = Done ({| i := i a; n := n a;
             d := Some (pre ++ (Some <$> fresh_copies (fresh c) (val <$> rest)) ++ post) |},
          {| fresh := fresh c + List.length rest; destroyed := destroyed c |}).
Proof.
  intros Hw. revert k a pre gap c.
  induction rest as [|e rest IH]; intros k a pre gap c Hr Hd Hg Hp Hj Hmax.
  { destruct gap; [|done]. cbn. rewrite Nat.add_0_r. destruct c, a. cbn in *. by subst. }
  destruct gap as [|x gap]; [done|].
  assert (all !! k = Some e) as He by (rewrite <-(Nat.add_0_r k), <-lookup_drop, Hr; done).
  cbn [List.length seq insert_copies] in *. rewrite (get_slot_ok w all k e Hw He). cbn [mbind exec_bind].
  unfold icd_copy. unfold add32. rewrite u32_small by lia.
  rewrite (put_slot_block a pre x (gap ++ post)) by (done || lia). cbn [mbind exec_bind].
  rewrite (IH (S k) _ (pre ++ [Some {| obj := fresh c; val := val e |}]) gap).
  - cbn [fresh destroyed fmap list_fmap fresh_copies]. rewrite <-app_assoc. cbn. do 2 f_equal.
    f_equal. lia.
  - by rewrite <-Nat.add_1_r, <-drop_drop, Hr.
  - cbn [d]. by rewrite <-app_assoc.
  - by injection Hg.
  - rewrite length_app. cbn. lia.
  - done.
  - rewrite length_app. cbn. lia.
Qed.

(** ** What is made and given up *)

Section operations.
Variable icd : UT_icd V.

Definition init_val : V := default (zero icd) (init icd).

(** From [es] to [es'] every element that is made is in the array or given up. *)
Definition counted es c es' c' : Prop :=
  (fresh c ≤ fresh c')%nat ∧
  if dtor icd
  then (obj <$> es') ++ destroyed c' ≡ₚ (obj <$> es) ++ destroyed c ++ seq (fresh c) (fresh c' - fresh c)
  else destroyed c' = destroyed c.

(** The process has ended, or the array holds elements with the values [vs]. *)
Definition becomes es c (vs : list V) (r : option (UT_array V * copies)) : Prop :=
  r = None ∨ ∃ a' c' es', r = Some (a', c') ∧ holds a' es' ∧ val <$> es' = vs ∧ counted es c es' c'.

Lemma counted_refl es c : counted es c es c.
Proof. split; [done|]. rewrite Nat.sub_diag, app_nil_r. by destruct (dtor icd). Qed.

Lemma counted_trans es c es1 c1 es2 c2 :
  counted es c es1 c1 → counted es1 c1 es2 c2 → counted es c es2 c2.
Proof.
  intros [L1 C1] [L2 C2]. split; [lia|]. destruct (dtor icd); [|congruence].
  rewrite C2. replace (fresh c2 - fresh c)%nat with ((fresh c1 - fresh c) + (fresh c2 - fresh c1))%nat by lia.
  rewrite seq_app. replace (fresh c + (fresh c1 - fresh c))%nat with (fresh c1) by lia.
  rewrite (app_assoc (obj <$> es1)), C1. solve_Permutation.
Qed.

(** New elements, none given up. *)
Lemma counted_fresh es es1 es2 c vs :
  es = es1 ++ es2 →
  counted es c (es1 ++ fresh_copies (fresh c) vs ++ es2)
    {| fresh := fresh c + List.length vs; destroyed := destroyed c |}.
Proof.
  intros ->. split; cbn; [lia|]. destruct (dtor icd); [|done].
  rewrite !fmap_app, fresh_copies_obj.
  replace (fresh c + List.length vs - fresh c)%nat with (List.length vs) by lia. solve_Permutation.
Qed.

(** Elements given up, none made. *)
Lemma counted_gone es es' gone c :
  es ≡ₚ es' ++ gone →
  counted es c es' (if dtor icd then {| fresh := fresh c; destroyed := destroyed c ++ (obj <$> gone) |} else c).
Proof.
  intros Hp. split; [by destruct (dtor icd)|]. destruct (dtor icd); [|done]. cbn.
  rewrite Nat.sub_diag, Hp, fmap_app. cbn. solve_Permutation.
Qed.

Lemma becomes_bind es c vs m (k : UT_array V → copies → exec (option (UT_array V * copies))) vs' :
  (∃ r, m = Done r ∧ becomes es c vs r) →
  (∀ a1 c1 es1, holds a1 es1 → val <$> es1 = vs → ∃ r, k a1 c1 = Done r ∧ becomes es1 c1 vs' r) →
  ∃ r, (get (a1, c1) ← m; k a1 c1) = Done r ∧ becomes es c vs' r.
Proof.
  intros (r & -> & [->|(a1 & c1 & es1 & -> & Hh & Hv & Hc)]) Hk; cbn [mbind exec_bind].
  { by eexists; split; [|left]. }
  destruct (Hk a1 c1 es1 Hh Hv) as (r & -> & [->|(a2 & c2 & es2 & -> & Hh2 & Hv2 & Hc2)]).
  { by eexists; split; [|left]. }
  eexists. split; [done|]. right. exists a2, c2, es2. split_and!; [done|done|done|].
  by eapply counted_trans.
Qed.

(** ** The loops *)

Lemma end_slots_ok a es k mid c :
  holds a es → take (List.length mid) (drop k es) = mid →
  end_slots icd a (seq k (List.length mid)) c
  = Done (if dtor icd then {| fresh := fresh c; destroyed := destroyed c ++ (obj <$> mid) |} else c).
Proof.
  intros Hh. revert k c. induction mid as [|e mid IH]; intros k c Hm.
  { cbn. rewrite app_nil_r. by destruct (dtor icd), c. }
  cbn [List.length seq end_slots] in *.
  assert (es !! k = Some e ∧ take (List.length mid) (drop (S k) es) = mid) as [He Hm'].
  { destruct (drop k es) as [|e' l] eqn:Ed; [done|]. cbn in Hm. injection Hm as -> Hm. split.
    - by rewrite <-(Nat.add_0_r k), <-lookup_drop, Ed.
    - by rewrite <-Nat.add_1_r, <-drop_drop, Ed. }
  rewrite (get_slot_ok a es k e Hh He). cbn [mbind exec_bind]. rewrite IH by done.
  unfold icd_end. destruct (dtor icd); [|done]. cbn. by rewrite <-app_assoc.
Qed.

Lemma erase_slots_ok a es (pos k : nat) mid c :
  holds a es → Z.of_nat (List.length es) < 2 ^ 32 → take (List.length mid) (drop (pos + k) es) = mid →
  erase_slots icd a (Z.of_nat pos) (seq k (List.length mid)) c
  = end_slots icd a (seq (pos + k) (List.length mid)) c.
Proof.
  intros Hh Hmax. revert k c. induction mid as [|e mid IH]; intros k c Hm; [done|].
  cbn [List.length seq end_slots erase_slots] in *.
  assert (es !! (pos + k)%nat = Some e ∧ take (List.length mid) (drop (S (pos + k)) es) = mid) as [He Hm'].
  { destruct (drop (pos + k) es) as [|e' l] eqn:Ed; [done|]. cbn in Hm. injection Hm as -> Hm. split.
    - by rewrite <-(Nat.add_0_r (pos + k)), <-lookup_drop, Ed.
    - by rewrite <-Nat.add_1_r, <-drop_drop, Ed. }
  pose proof (lookup_lt_Some _ _ _ He). unfold utarray_eltptr, add32. rewrite u32_small by lia.
  rewrite (proj2 (Z.ltb_lt _ _)) by (rewrite (ho_i _ _ Hh); lia). cbn [deref mbind exec_bind].
  rewrite eltidx_eltptr. rewrite <-Nat2Z.inj_add, (get_slot_ok a es _ e Hh He). cbn [mbind exec_bind].
  rewrite IH; [|by replace (pos + S k)%nat with (S (pos + k)) by lia].
  by replace (pos + S k)%nat with (S (pos + k)) by lia.
Qed.

Lemma init_slots_block a pre gap post c :
  d a = Some (pre ++ gap ++ post) →
  init_slots icd (seq (List.length pre) (List.length gap)) a c
  = Done ({| i := i a; n := n a;
             d := Some (pre ++ (Some <$> fresh_copies (fresh c) (replicate (List.length gap) init_val)) ++ post) |},
          {| fresh := fresh c + List.length gap; destroyed := destroyed c |}).
Proof.
  revert a pre c. induction gap as [|x gap IH]; intros a pre c Hd.
  { cbn. rewrite Nat.add_0_r. destruct c, a. cbn in *. by subst. }
  cbn [List.length seq init_slots]. unfold icd_init, icd_copy. fold init_val.
  rewrite (put_slot_block a pre x (gap ++ post)) by done. cbn [mbind exec_bind].
  specialize (IH {| i := i a; n := n a; d := Some (pre ++ Some {| obj := fresh c; val := init_val |} :: gap ++ post) |}
    (pre ++ [Some {| obj := fresh c; val := init_val |}])
    {| fresh := S (fresh c); destroyed := destroyed c |}).
  rewrite length_app in IH. cbn [List.length] in IH. rewrite Nat.add_1_r in IH.
  rewrite IH by (cbn; by rewrite <-app_assoc). cbn [fresh destroyed i n replicate fresh_copies fmap list_fmap].
  rewrite <-app_assoc. cbn. do 2 f_equal. f_equal. lia.
Qed.

(** ** The operations *)

(** Filled up to [m] elements. *)
Definition pad (m : nat) (vs : list V) : list V := vs ++ replicate (m - List.length vs) init_val.

Lemma vals_length es vs : val <$> es = vs → List.length vs = List.length es.
Proof. intros <-. apply length_fmap. Qed.

Lemma utarray_resize_ok a es c (m : nat) :
  holds a es → Z.of_nat m ≤ 2 ^ 31 →
  ∃ r, utarray_resize icd a (Z.of_nat m) c = Done r ∧ becomes es c (take m (pad m (val <$> es))) r.
Proof.
  intros Hh Hm. pose proof (ho_i _ _ Hh) as Hi. pose proof (holds_le _ _ Hh) as Hle.
  pose proof (slots_max _ (ho_n _ _ Hh)) as Hmax.
  unfold utarray_resize, pad. rewrite length_fmap.
  destruct (Z.ltb_spec (Z.of_nat m) (i a)) as [Hlt|Hge]; [|destruct (Z.ltb_spec (i a) (Z.of_nat m)) as [Hlt|Hge']].
  - set (gone := drop m es). assert (List.length gone = List.length es - m)%nat as Hlg by apply length_drop.
    replace (Z.to_nat (i a - Z.of_nat m)) with (List.length gone) by lia. rewrite Nat2Z.id.
    assert (take (List.length gone) (drop m es) = gone) as Hgone by (by rewrite take_ge).
    pose proof (end_slots_ok a es m gone c Hh Hgone) as He.
    assert ((if dtor icd then end_slots icd a (seq m (List.length gone)) c else mret c)
      = Done (if dtor icd then {| fresh := fresh c; destroyed := destroyed c ++ (obj <$> gone) |} else c)) as ->.
    { destruct (dtor icd); [exact He|done]. }
    cbn [mbind exec_bind]. eexists. split; [done|]. right. eexists _, _, (take m es).
    split_and!; [done|by apply holds_take; [|lia]| |].
    + replace (m - List.length es)%nat with 0%nat by lia. cbn. rewrite app_nil_r. by rewrite fmap_take.
    + apply counted_gone. unfold gone. by rewrite take_drop.
  - unfold sub32. rewrite u32_small by lia.
    destruct (utarray_reserve_ok a es (m - List.length es) Hh ltac:(lia)) as (r & E & Hr).
    replace (Z.of_nat m - i a) with (Z.of_nat (m - List.length es)) by lia. rewrite E. cbn [mbind exec_bind].
    destruct Hr as [->|(a1 & -> & Hh1 & Hn1)]; [by eexists; split; [|left]|].
    assert (n a1 ≠ 0) as Hne by lia. destruct (holds_block a1 es Hh1 Hne) as (junk & Hd & Hl).
    pose proof (ho_i _ _ Hh1) as Hi1. set (g := (m - List.length es)%nat) in *.
    rewrite <-(take_drop g junk) in Hd.
    assert (List.length (take g junk) = g) as Hg by (rewrite length_take; lia).
    pose proof (init_slots_block a1 (Some <$> es) (take g junk) (drop g junk) c Hd) as Ei.
    rewrite length_fmap, Hg in Ei. rewrite Hi1, Nat2Z.id.
    replace (Z.to_nat (Z.of_nat m - Z.of_nat (List.length es))) with g by lia. rewrite Ei. cbn [mbind exec_bind]. eexists. split; [done|]. right.
    eexists _, _, (es ++ fresh_copies (fresh c) (replicate g init_val) ++ []).
    split; [done|]. split; [|split].
    + rewrite app_nil_r. apply (holds_intro _ _ (drop g junk)); cbn.
      * by rewrite fmap_app, <-app_assoc.
      * rewrite length_app, fresh_copies_length, length_replicate, length_drop. lia.
      * apply Hh1.
      * done.
      * rewrite length_app, fresh_copies_length, length_replicate. lia.
    + rewrite app_nil_r, fmap_app, fresh_copies_val. rewrite take_ge; [done|].
      rewrite length_app, length_fmap, length_replicate. lia.
    + pose proof (counted_fresh es es [] c (replicate g init_val) ltac:(by rewrite app_nil_r)) as Hc.
      by rewrite length_replicate in Hc.
  - assert (m = List.length es) as -> by lia. eexists. split; [done|]. right. exists (set_i a (Z.of_nat (List.length es))), c, es.
    split_and!; [done| | |apply counted_refl].
    + rewrite <-Hi. by destruct a, Hh.
    + rewrite Nat.sub_diag. cbn. rewrite app_nil_r, take_ge; [done|]. by rewrite length_fmap.
Qed.

Lemma resize_if_ok a es c (j : nat) :
  holds a es → Z.of_nat j ≤ 2 ^ 31 →
  ∃ r, resize_if icd a (Z.of_nat j) c = Done r ∧ becomes es c (pad j (val <$> es)) r.
Proof.
  intros Hh Hj. pose proof (ho_i _ _ Hh) as Hi. unfold resize_if.
  destruct (Z.ltb_spec (i a) (Z.of_nat j)).
  - destruct (utarray_resize_ok a es c j Hh Hj) as (r & -> & Hr). eexists. split; [done|].
    unfold pad in *. rewrite take_ge in Hr; [done|]. rewrite length_app, length_replicate, length_fmap. lia.
  - eexists. split; [done|]. right. exists a, c, es. split_and!; [done|done| |apply counted_refl].
    unfold pad. rewrite length_fmap. replace (j - List.length es)%nat with 0%nat by lia. cbn. by rewrite app_nil_r.
Qed.

(** The values [ws] at the place [j]. *)
Definition insert_vals (j : nat) (ws vs : list V) : list V :=
  take j (pad j vs) ++ ws ++ drop j (pad j vs).

Lemma pad_length j vs : List.length (pad j vs) = Nat.max j (List.length vs).
Proof. unfold pad. rewrite length_app, length_replicate. lia. Qed.

(** The array with new elements in the gap behind the first [j]. *)
Lemma filled_holds a es junk (j : nat) vs c k :
  Z.of_nat (List.length es + List.length vs + List.length junk) = n a → slots_ok (n a) → n a ≠ 0 →
  k = Z.of_nat (List.length es + List.length vs) →
  d a = Some ((Some <$> take j es) ++ (Some <$> fresh_copies (fresh c) vs) ++ (Some <$> drop j es) ++ junk) →
  ∃ es', holds (set_i a k) es' ∧ val <$> es' = take j (val <$> es) ++ vs ++ drop j (val <$> es)
    ∧ counted es c es' {| fresh := fresh c + List.length vs; destroyed := destroyed c |}.
Proof.
  intros Hn Hok Hne -> Hd. exists (take j es ++ fresh_copies (fresh c) vs ++ drop j es).
  assert (List.length (take j es) + List.length (drop j es) = List.length es)%nat as Hl
    by (rewrite <-length_app; by rewrite take_drop).
  assert (List.length (take j es ++ fresh_copies (fresh c) vs ++ drop j es) = List.length es + List.length vs)%nat
    as Hlen by (rewrite !length_app, fresh_copies_length; lia).
  split_and!.
  - apply (holds_intro _ _ junk); [|rewrite Hlen; cbn; lia|done|done|by rewrite Hlen].
    cbn. by rewrite Hd, !fmap_app, <-!app_assoc.
  - by rewrite !fmap_app, fresh_copies_val, fmap_take, fmap_drop.
  - apply counted_fresh. by rewrite take_drop.
Qed.

Lemma utarray_inserta_ok a es w all c (j : nat) :
  holds a es → holds w all → Z.of_nat (Nat.max j (List.length es) + List.length all) ≤ 2 ^ 31 →
  ∃ r, utarray_inserta icd a w (Z.of_nat j) c = Done r
    ∧ becomes es c (if decide (all = []) then val <$> es else insert_vals j (val <$> all) (val <$> es)) r.
Proof.
  intros Hh Hw Hlen. pose proof (ho_i _ _ Hw) as Hiw. unfold utarray_inserta, utarray_len. rewrite Hiw.
  destruct all as [|e0 all0] eqn:Eall; cbn [List.length] in *.
  { eexists. split; [done|]. right. exists a, c, es. split_and!; [done|done|done|apply counted_refl]. }
  rewrite (proj2 (Z.eqb_neq _ _)), decide_False by (done || lia). rewrite <-Eall in *.
  assert (S (List.length all0) = List.length all) as Hl by (by rewrite Eall). rewrite Hl in *.
  assert (0 < List.length all)%nat as Hpos by lia. clear Eall e0 all0 Hl.
  apply becomes_bind with (vs := pad j (val <$> es)); [apply resize_if_ok; [done|lia]|].
  intros a1 c1 es1 Hh1 Hv1.
  assert (List.length es1 = Nat.max j (List.length es)) as Hl1
    by (rewrite <-(length_fmap val es1), Hv1, pad_length, length_fmap; done).
  unfold insert_vals. rewrite <-Hv1.
  destruct (utarray_reserve_ok a1 es1 (List.length all) Hh1 ltac:(lia)) as (r & -> & Hr). cbn [mbind exec_bind].
  destruct Hr as [->|(a2 & -> & Hh2 & Hn2)]; [by eexists; split; [|left]|].
  pose proof (slots_max _ (ho_n _ _ Hh2)) as Hmax. pose proof (ho_i _ _ Hh2) as Hi2.
  assert (add32 (Z.of_nat j) (Z.of_nat (List.length all)) = Z.of_nat (j + List.length all)) as ->
    by (unfold add32; rewrite u32_small; lia).
  destruct (memmove_gap a2 es1 j (List.length all)) as (gap & junk & Hg & Hj & Em); [done|lia|lia|lia|].
  setoid_rewrite Em. cbn [mbind exec_bind]. rewrite Nat2Z.id.
  rewrite (insert_copies_block w all all (Z.of_nat j) 0 _ (Some <$> take j es1) gap
    ((Some <$> drop j es1) ++ junk)); [|done|done|done|done|rewrite length_fmap, length_take; lia|lia
    |rewrite length_fmap, length_take; lia].
  cbn [mbind exec_bind i]. eexists. split; [done|]. right.
  destruct (filled_holds {| i := i a2; n := n a2; d := Some ((Some <$> take j es1)
      ++ (Some <$> fresh_copies (fresh c1) (val <$> all)) ++ (Some <$> drop j es1) ++ junk) |}
    es1 junk j (val <$> all) c1 (add32 (i a2) (Z.of_nat (List.length all)))) as (es2 & Hh3 & Hv3 & Hc3); cbn.
  - rewrite length_fmap. lia.
  - apply Hh2.
  - lia.
  - rewrite length_fmap. unfold add32. rewrite u32_small; lia.
  - done.
  - rewrite length_fmap in Hc3. by eexists _, _, es2.
Qed.

Lemma utarray_insert_ok a es c v (j : nat) :
  holds a es → Z.of_nat (Nat.max j (List.length es)) + 1 ≤ 2 ^ 31 →
  ∃ r, utarray_insert icd a v (Z.of_nat j) c = Done r ∧ becomes es c (insert_vals j [v] (val <$> es)) r.
Proof.
  intros Hh Hlen. unfold utarray_insert.
  apply becomes_bind with (vs := pad j (val <$> es)); [apply resize_if_ok; [done|lia]|].
  intros a1 c1 es1 Hh1 Hv1.
  assert (List.length es1 = Nat.max j (List.length es)) as Hl1
    by (rewrite <-(length_fmap val es1), Hv1, pad_length, length_fmap; done).
  unfold insert_vals. rewrite <-Hv1.
  destruct (utarray_reserve_ok a1 es1 1 Hh1 ltac:(lia)) as (r & E & Hr). change (Z.of_nat 1) with 1 in E.
  rewrite E. cbn [mbind exec_bind].
  destruct Hr as [->|(a2 & -> & Hh2 & Hn2)]; [by eexists; split; [|left]|].
  pose proof (slots_max _ (ho_n _ _ Hh2)) as Hmax. pose proof (ho_i _ _ Hh2) as Hi2.
  assert (add32 (Z.of_nat j) 1 = Z.of_nat (j + 1)) as -> by (unfold add32; rewrite u32_small; lia).
  destruct (memmove_gap a2 es1 j 1) as (gap & junk & Hg & Hj & Em); [done|lia|lia|lia|].
  setoid_rewrite Em. cbn [mbind exec_bind].
  destruct gap as [|x [|]]; try done. unfold icd_copy.
  rewrite (put_slot_block _ (Some <$> take j es1) x ((Some <$> drop j es1) ++ junk));
    [|done|rewrite length_fmap, length_take; lia].
  cbn [mbind exec_bind i]. eexists. split; [done|]. right.
  destruct (filled_holds {| i := i a2; n := n a2; d := Some ((Some <$> take j es1)
      ++ (Some <$> fresh_copies (fresh c1) [v]) ++ (Some <$> drop j es1) ++ junk) |}
    es1 junk j [v] c1 (add32 (i a2) 1)) as (es2 & Hh3 & Hv3 & Hc3); cbn.
  - lia.
  - apply Hh2.
  - lia.
  - unfold add32. rewrite u32_small; lia.
  - done.
  - cbn in Hc3. rewrite Nat.add_1_r in Hc3. by eexists _, _, es2.
Qed.

Lemma utarray_pop_back_ok a es c :
  holds a es → es ≠ [] →
  ∃ r, utarray_pop_back icd a c = Done r
    ∧ becomes es c (take (List.length es - 1) (val <$> es)) (Some r).
Proof.
  intros Hh Hne. destruct (exists_last Hne) as (es1 & e & ->). pose proof (ho_i _ _ Hh) as Hi.
  rewrite length_app in *. cbn [List.length] in *. pose proof (holds_le _ _ Hh) as Hle.
  pose proof (slots_max _ (ho_n _ _ Hh)). rewrite length_app in Hle. cbn in Hle.
  unfold utarray_pop_back. rewrite Hi. unfold sub32. rewrite u32_small by lia.
  replace (Z.of_nat (List.length es1 + 1) - 1) with (Z.of_nat (List.length es1)) by lia.
  rewrite (get_slot_ok a _ (List.length es1) e Hh) by (by rewrite lookup_app_r, Nat.sub_diag).
  assert (holds (set_i a (Z.of_nat (List.length es1))) es1) as Hh1.
  { rewrite <-(take_app_length es1 [e]) at 2. apply holds_take; [done|]. rewrite length_app. lia. }
  pose proof (counted_gone (es1 ++ [e]) es1 [e] c ltac:(done)) as Hc. unfold icd_end.
  replace (List.length es1 + 1 - 1)%nat with (List.length (val <$> es1)) by (rewrite length_fmap; lia).
  rewrite fmap_app, take_app_length.
  destruct (dtor icd); cbn [mbind exec_bind]; eexists; (split; [done|]); right; by eexists _, _, es1.
Qed.

Lemma put_end_ok a es c v :
  holds a es → Z.of_nat (List.length es) + 1 ≤ 2 ^ 31 →
  ∃ r, utarray_push_back a v c = Done r ∧ becomes es c ((val <$> es) ++ [v]) r.
Proof.
  intros Hh Hlen. destruct (utarray_push_back_ok a es v c Hh Hlen) as (r & E & Hr).
  exists r. split; [exact E|]. destruct Hr as [->|(a' & -> & Hh')]; [by left|right].
  eexists a', _, _. split; [done|]. split; [done|]. split; [by rewrite fmap_app|].
  pose proof (counted_fresh es es [] c [v] ltac:(by rewrite app_nil_r)) as Hc.
  rewrite app_nil_r in Hc. cbn in Hc. by rewrite Nat.add_1_r in Hc.
Qed.

Lemma utarray_clear_ok a es c :
  holds a es → ∃ r, utarray_clear icd a c = Done r ∧ becomes es c [] (Some r).
Proof.
  intros Hh. pose proof (ho_i _ _ Hh) as Hi. unfold utarray_clear.
  destruct (Z.ltb_spec 0 (i a)) as [Hlt|Hge].
  - rewrite Hi, Nat2Z.id.
    assert ((if dtor icd then end_slots icd a (seq 0 (List.length es)) c else mret c)
      = Done (if dtor icd then {| fresh := fresh c; destroyed := destroyed c ++ (obj <$> es) |} else c)) as ->.
    { rewrite (end_slots_ok a es 0 es c Hh) by (by rewrite drop_0, take_ge). by destruct (dtor icd). }
    cbn [mbind exec_bind]. eexists. split; [done|]. right. eexists _, _, []. split; [done|].
    split; [apply (holds_take a es 0 Hh); lia|]. split; [done|]. by apply counted_gone.
  - assert (es = []) as -> by (destruct es; [done|cbn in Hi; lia]).
    eexists. split; [done|]. right. exists a, c, []. split_and!; [done|done|done|apply counted_refl].
Qed.

Lemma utarray_erase_ok a es c (pos len : nat) :
  holds a es → (pos + len ≤ List.length es)%nat →
  ∃ r, utarray_erase icd a (Z.of_nat pos) (Z.of_nat len) c = Done r
    ∧ becomes es c (take pos (val <$> es) ++ drop (pos + len) (val <$> es)) (Some r).
Proof.
  intros Hh Hl. pose proof (ho_i _ _ Hh) as Hi. pose proof (holds_le _ _ Hh) as Hle.
  pose proof (slots_max _ (ho_n _ _ Hh)) as Hmax.
  set (mid := take len (drop pos es)).
  assert (List.length mid = len) as Hm by (unfold mid; rewrite length_take, length_drop; lia).
  assert (es = take pos es ++ mid ++ drop (pos + len) es) as Hes
    by (unfold mid; by rewrite <-drop_drop, take_drop, take_drop).
  assert (es ≡ₚ (take pos es ++ drop (pos + len) es) ++ mid) as Hp by (rewrite Hes at 1; solve_Permutation).
  unfold utarray_erase. rewrite Nat2Z.id.
  assert ((if dtor icd then erase_slots icd a (Z.of_nat pos) (seq 0 len) c else mret c)
    = Done (if dtor icd then {| fresh := fresh c; destroyed := destroyed c ++ (obj <$> mid) |} else c)) as ->.
  { rewrite <-Hm at 1. rewrite (erase_slots_ok a es pos 0 mid c Hh); [|lia|by rewrite Nat.add_0_r, Hm].
    rewrite Nat.add_0_r, (end_slots_ok a es pos mid c Hh); [|by rewrite Hm]. by destruct (dtor icd). }
  cbn [mbind exec_bind]. unfold add32. rewrite u32_small, <-Nat2Z.inj_add by lia.
  assert (∃ a', (if Z.of_nat (pos + len) <? i a
             then memmove_slots a (Z.of_nat pos) (Z.of_nat (pos + len)) (i a - Z.of_nat (pos + len)) else mret a)
            = Done a' ∧ i a' = i a ∧ holds (set_i a' (sub32 (i a) (Z.of_nat len))) (take pos es ++ drop (pos + len) es))
    as (a' & -> & Hi' & Hh').
  { unfold sub32. rewrite u32_small by lia.
    assert (List.length (take pos es) = pos) as Hlp by (rewrite length_take; lia).
    assert (List.length (drop (pos + len) es) = List.length es - (pos + len))%nat as Hlq by apply length_drop.
    destruct (Z.ltb_spec (Z.of_nat (pos + len)) (i a)) as [Hlt|Hge].
    - destruct (holds_block a es Hh) as (junk & Hd & Hn); [lia|]. revert Hd Hn Hlp Hlq.
      rewrite Hes at 1 2. rewrite !length_app, Hm.
      generalize (take pos es), (drop (pos + len) es). intros A B Hd Hn HA HB.
      rewrite !fmap_app, <-!app_assoc in Hd. unfold memmove_slots. rewrite Hd. cbn [deref mbind exec_bind].
      rewrite !(proj2 (Z.leb_le _ _)) by (rewrite !length_app, !length_fmap; lia). cbn [andb].
      eexists. split; [done|]. split; [done|].
      replace (Z.to_nat (Z.of_nat pos)) with (List.length (Some <$> A)) by (rewrite length_fmap; lia).
      replace (Z.to_nat (i a - Z.of_nat (pos + len))) with (List.length (Some <$> B)) by (rewrite length_fmap; lia).
      replace (Z.to_nat (Z.of_nat (pos + len))) with (List.length (Some <$> A) + List.length (Some <$> mid))%nat
        by (rewrite !length_fmap; lia).
      rewrite take_app_length, drop_app_add, drop_app_length, take_app_length.
      eapply (holds_intro _ _ (drop _ _)); cbn; [by rewrite fmap_app, <-app_assoc| |apply Hh|lia|rewrite length_app; lia].
      rewrite length_drop, !length_app, !length_fmap. lia.
    - assert (drop (pos + len) es = []) as E by (apply drop_ge; lia). rewrite E, app_nil_r.
      exists a. split; [done|]. split; [done|].
      replace (i a - Z.of_nat len) with (Z.of_nat pos) by lia. by apply holds_take; [|lia]. }
  cbn [mbind exec_bind]. rewrite Hi'. eexists. split; [done|]. right.
  eexists _, _, (take pos es ++ drop (pos + len) es). split; [done|]. split; [done|].
  split; [by rewrite fmap_app, fmap_take, fmap_drop|]. by apply counted_gone.
Qed.
End operations.
End arrays.

