(* ===== verification/UtarrayRefines.v ===== *)
(** * An array is the list that it holds, whatever is done to it

    An array under [array_op]s does what lists do under [list_op]; sorting and searching rely on
    what the C library says of [qsort] and [bsearch] ([SortLaws], with an instance). *)
From stdpp Require Import sorting.
From S2P Require Import Prelude Mem Sorting HashFn Utarray UtarrayProps UtarrayOps UtarraySpec.
Local Open Scope Z_scope.

(** ** qsort and bsearch *)

(** The elements below the key come first, then those equal to it, then those above. *)
Definition partitioned {A K} (cmp : K → A → Z) (k : K) (l : list A) : Prop :=
  StronglySorted (fun x y => Z.sgn (cmp k y) ≤ Z.sgn (cmp k x)) l.

Class SortLaws `{SortLib} : Prop := {
  qsort_perm {A} (cmp : A → A → Z) l : consistent cmp → qsort cmp l ≡ₚ l;
  qsort_sorted {A} (cmp : A → A → Z) l :
    consistent cmp → StronglySorted (fun x y => cmp x y ≤ 0) (qsort cmp l);
  bsearch_some {A K} (cmp : K → A → Z) k l j :
    partitioned cmp k l → bsearch cmp k l = Some j → ∃ x, l !! j = Some x ∧ cmp k x = 0;
  bsearch_none {A K} (cmp : K → A → Z) k l :
    partitioned cmp k l → bsearch cmp k l = None → ∀ x, x ∈ l → cmp k x ≠ 0;
}.

(** Merge sort and a search from the front keep these laws. *)
#[export] Instance sort_lib : SortLib := {
  qsort A cmp l := @merge_sort A (fun x y => cmp x y ≤ 0) (fun x y => Z_le_dec (cmp x y) 0) l;
  bsearch A K cmp k l := fst <$> list_find (fun x => cmp k x = 0) l;
}.
#[export] Instance sort_lib_laws : SortLaws.
Proof.
  split; cbn.
  - intros A cmp l _. apply merge_sort_Permutation.
  - intros A cmp l [Ht Htr]. apply StronglySorted_merge_sort; [exact Htr|exact Ht].
  - intros A K cmp k l j _ Hj. apply fmap_Some in Hj as ([j' x] & Hj & ->).
    apply list_find_Some in Hj as (Hx & Hc & _). by exists x.
  - intros A K cmp k l _ Hj x Hx. apply fmap_None in Hj. apply list_find_None in Hj.
    rewrite Forall_forall in Hj. by apply Hj.
Qed.

Section run.
Context `{Malloc} `{SortLaws} {V : Type}.
Variable icd : UT_icd V.

(** ** Operations *)

Inductive array_op :=
  | PushBack (v : V)
  | PopBack
  | ExtendBack
  | Insert (v : V) (j : nat)
  | InsertArray (w : UT_array V) (j : nat)
  | Concat (w : UT_array V)
  | Resize (m : nat)
  | Erase (pos len : nat)
  | Clear
  | Sort (cmp : V → V → Z).

(** The macros. *)
Definition array_do (op : array_op) (a : UT_array V) (c : copies) : exec (option (UT_array V * copies)) :=
  match op with
  | PushBack v => utarray_push_back a v c
  | PopBack => r ← utarray_pop_back icd a c; mret (Some r)
  | ExtendBack => utarray_extend_back icd a c
  | Insert v j => utarray_insert icd a v (Z.of_nat j) c
  | InsertArray w j => utarray_inserta icd a w (Z.of_nat j) c
  | Concat w => utarray_concat a w c
  | Resize m => utarray_resize icd a (Z.of_nat m) c
  | Erase pos len => r ← utarray_erase icd a (Z.of_nat pos) (Z.of_nat len) c; mret (Some r)
  | Clear => r ← utarray_clear icd a c; mret (Some r)
  | Sort cmp => a ← utarray_sort a cmp; mret (Some (a, c))
  end.

Fixpoint array_run (ops : list array_op) (a : UT_array V) (c : copies)
  : exec (option (UT_array V * copies)) :=
  match ops with
  | [] => mret (Some (a, c))
  | op :: ops => get (a, c) ← array_do op a c; array_run ops a c
  end.

(** The values in an array. *)
Definition contents (w : UT_array V) : list V :=
  val <$> omap id (take (Z.to_nat (i w)) (default [] (d w))).

(** The same on lists; the order of equal elements is left open by sorting. *)
Definition list_op (op : array_op) (vs vs' : list V) : Prop :=
  match op with
  | PushBack v => vs' = vs ++ [v]
  | PopBack => vs' = take (List.length vs - 1) vs
  | ExtendBack => vs' = vs ++ [init_val icd]
  | Insert v j => vs' = insert_vals icd j [v] vs
  | InsertArray w j =>
      vs' = if decide (List.length (contents w) = 0%nat) then vs else insert_vals icd j (contents w) vs
  | Concat w => vs' = vs ++ contents w
  | Resize m => vs' = take m (pad icd m vs)
  | Erase pos len => vs' = take pos vs ++ drop (pos + len) vs
  | Clear => vs' = []
  | Sort cmp => vs' ≡ₚ vs ∧ StronglySorted (fun x y => cmp x y ≤ 0) vs'
  end.

Fixpoint list_run (ops : list array_op) (vs vs' : list V) : Prop :=
  match ops with
  | [] => vs' = vs
  | op :: ops => ∃ vs1, list_op op vs vs1 ∧ list_run ops vs1 vs'
  end.

(** The number of elements afterwards. *)
Definition size_after (op : array_op) (k : nat) : nat :=
  match op with
  | PushBack _ | ExtendBack => (k + 1)%nat
  | PopBack => (k - 1)%nat
  | Insert _ j => (Nat.max j k + 1)%nat
  | InsertArray w j =>
      if decide (List.length (contents w) = 0%nat) then k else (Nat.max j k + List.length (contents w))%nat
  | Concat w => (k + List.length (contents w))%nat
  | Resize m => m
  | Erase _ len => (k - len)%nat
  | Clear => 0%nat
  | Sort _ => k
  end.

Definition is_array (w : UT_array V) : Prop := ∃ all, holds w all.

(** What the operations ask for: elements to remove, valid arrays, at most 2^31 elements. *)
Definition legal (op : array_op) (k : nat) : Prop :=
  match op with
  | PushBack _ | ExtendBack => Z.of_nat k + 1 ≤ 2 ^ 31
  | PopBack => (0 < k)%nat
  | Insert _ j => Z.of_nat (Nat.max j k) + 1 ≤ 2 ^ 31
  | InsertArray w j => is_array w ∧ Z.of_nat (Nat.max j k + List.length (contents w)) ≤ 2 ^ 31
  | Concat w => is_array w ∧ Z.of_nat (k + List.length (contents w)) ≤ 2 ^ 31
  | Resize m => Z.of_nat m ≤ 2 ^ 31
  | Erase pos len => (pos + len ≤ k)%nat
  | Clear => True
  | Sort cmp => (0 < k)%nat ∧ consistent cmp
  end.

Fixpoint legal_run (ops : list array_op) (k : nat) : Prop :=
  match ops with
  | [] => True
  | op :: ops => legal op k ∧ legal_run ops (size_after op k)
  end.

(** ** What the array holds is what is used *)

Lemma holds_used (a : UT_array V) es :
  holds a es → take (Z.to_nat (i a)) (default [] (d a)) = Some <$> es.
Proof.
  intros Hh. rewrite (ho_i _ _ Hh), Nat2Z.id. destruct (decide (n a = 0)) as [Hz|Hne].
  - pose proof (holds_le _ _ Hh). assert (es = []) as -> by (destruct es; [done|cbn in *; lia]). done.
  - destruct (holds_block a es Hh Hne) as (junk & Hd & _). rewrite Hd. cbn.
    by rewrite <-(length_fmap Some es), take_app_length.
Qed.

Lemma omap_Some {A} (l : list A) : omap id (Some <$> l) = l.
Proof. induction l as [|x l IH]; cbn; [done|]. by rewrite IH. Qed.

Lemma mapM_Some_id {A} (l : list A) : mapM id (Some <$> l) = Some l.
Proof. induction l as [|x l IH]; cbn; [done|]. by rewrite IH. Qed.

Lemma contents_eq (w : UT_array V) all : holds w all → contents w = val <$> all.
Proof. intros Hw. unfold contents. by rewrite (holds_used w all Hw), omap_Some. Qed.

Lemma used_ok (a : UT_array V) es : holds a es → n a ≠ 0 → used a = Done es.
Proof.
  intros Hh Hne. pose proof (holds_used a es Hh) as Hu. destruct (holds_block a es Hh Hne) as (junk & Hd & _).
  rewrite Hd in Hu. cbn in Hu. unfold used. rewrite Hd. cbn [deref mbind exec_bind]. by rewrite Hu, mapM_Some_id.
Qed.

(** ** Sorting *)

Lemma sorted_vals (cmp : V → V → Z) (es : list (elt V)) :
  StronglySorted (fun e e' => cmp (val e) (val e') ≤ 0) es →
  StronglySorted (fun x y => cmp x y ≤ 0) (val <$> es).
Proof.
  induction 1 as [|e es Hs IH Hf]; cbn; constructor; [done|]. by apply Forall_fmap.
Qed.

Lemma utarray_sort_ok (a : UT_array V) es c cmp :
  holds a es → es ≠ [] → consistent cmp →
  ∃ a' vs, utarray_sort a cmp = Done a' ∧ vs ≡ₚ val <$> es ∧ StronglySorted (fun x y => cmp x y ≤ 0) vs
    ∧ becomes icd es c vs (Some (a', c)).
Proof.
  intros Hh Hne Hc. assert (n a ≠ 0) as Hn by (apply (slots_pos a es Hh); destruct es; [done|cbn; lia]).
  destruct (holds_block a es Hh Hn) as (junk & Hd & Hl). pose proof (ho_i _ _ Hh) as Hi.
  set (cmp' := fun e e' : elt V => cmp (val e) (val e')).
  assert (consistent cmp') as Hc' by (destruct Hc; split; unfold cmp'; intros; eauto).
  pose proof (qsort_perm cmp' es Hc') as Hp.
  unfold utarray_sort. rewrite Hd. cbn [deref mbind exec_bind]. rewrite (used_ok a es Hh Hn).
  cbn [mbind exec_bind]. rewrite Hi, Nat2Z.id.
  assert (drop (List.length es) ((Some <$> es) ++ junk) = junk) as ->
    by (rewrite <-(length_fmap Some es); apply drop_app_length).
  eexists _, (val <$> qsort cmp' es). split; [done|].
  split; [by apply fmap_Permutation|]. split; [by apply sorted_vals, qsort_sorted|].
  right. eexists _, c, (qsort cmp' es). split; [done|]. split; [|split; [done|]].
  - apply (holds_intro _ _ junk); cbn; [done|by rewrite Hp|apply Hh|done|by rewrite Hp].
  - split; [done|]. rewrite Nat.sub_diag, app_nil_r. destruct (dtor icd); [|done]. by rewrite Hp.
Qed.

(** ** Searching *)

(** In an array that is sorted by the key, [utarray_find] points to an element that is equal to
    it, and is NULL only when there is none. *)
Lemma utarray_find_ok {K} (a : UT_array V) es (k : K) cmp :
  holds a es → es ≠ [] → partitioned cmp k (val <$> es) →
  ∃ r, utarray_find a k cmp = Done r
    ∧ match r with
      | Some p => ∃ e, get_slot a (utarray_eltidx p) = Done e ∧ e ∈ es ∧ cmp k (val e) = 0
      | None => ∀ v, v ∈ val <$> es → cmp k v ≠ 0
      end.
Proof.
  intros Hh Hne Hp. assert (n a ≠ 0) as Hn by (apply (slots_pos a es Hh); destruct es; [done|cbn; lia]).
  set (cmp' := fun v (e : elt V) => cmp v (val e)).
  assert (partitioned cmp' k es) as Hp'.
  { clear Hh Hne. unfold partitioned in *. induction es as [|e es IH]; [constructor|].
    cbn in Hp. apply StronglySorted_inv in Hp as [Hs Hf]. constructor; [by apply IH|].
    rewrite Forall_fmap in Hf. exact Hf. }
  unfold utarray_find. rewrite (used_ok a es Hh Hn). cbn [mbind exec_bind]. eexists. split; [done|].
  fold cmp'. destruct (bsearch cmp' k es) as [j|] eqn:E; cbn.
  - apply bsearch_some in E as (e & He & Hk); [|done]. exists e. rewrite eltidx_eltptr.
    split_and!; [by eapply get_slot_ok|by eapply list_elem_of_lookup_2|done].
  - intros v (e & -> & He)%list_elem_of_fmap. by eapply (bsearch_none cmp' k es).
Qed.

(** ** Walking backwards *)

Lemma for_each_back_ok (a : UT_array V) all rest k fuel :
  holds a all → take k all = rest → (k ≤ List.length all)%nat → (k ≤ fuel)%nat →
  for_each_back fuel a (if decide (k = 0%nat) then None else Some (_utarray_eltptr (Z.of_nat (k - 1))))
  = Done (reverse (val <$> rest)).
Proof.
  intros Hh <-. revert fuel. induction k as [|k IH]; intros fuel Hk Hf.
  { rewrite decide_True by done. by destruct fuel. }
  destruct fuel as [|fuel]; [lia|]. rewrite decide_False by done. rewrite Nat.sub_succ, Nat.sub_0_r.
  destruct (lookup_lt_is_Some_2 all k) as [e He]; [lia|].
  cbn [for_each_back]. rewrite eltidx_eltptr, (get_slot_ok a all k e Hh He). cbn [mbind exec_bind utarray_prev].
  rewrite eltidx_eltptr. rewrite (take_S_r _ _ e) by done.
  specialize (IH fuel ltac:(lia) ltac:(lia)).
  destruct (decide (k = 0%nat)) as [->|Hne].
  - rewrite (proj2 (Z.eqb_eq _ _)) by lia. rewrite IH. done.
  - rewrite (proj2 (Z.eqb_neq _ _)) by lia. replace (Z.of_nat k - 1) with (Z.of_nat (k - 1)) by lia.
    rewrite IH. cbn [mbind exec_bind]. rewrite fmap_app, reverse_app. done.
Qed.

Lemma utarray_walk_back_ok (a : UT_array V) es fuel :
  holds a es → (List.length es ≤ fuel)%nat →
  for_each_back fuel a (utarray_back a) = Done (reverse (val <$> es)).
Proof.
  intros Hh Hf. pose proof (holds_le _ _ Hh). pose proof (slots_max _ (ho_n _ _ Hh)).
  rewrite <-(for_each_back_ok a es es (List.length es) fuel) by (done || by rewrite firstn_all).
  unfold utarray_back. rewrite (ho_i _ _ Hh). destruct (decide (List.length es = 0%nat)) as [E|E].
  - by rewrite (proj2 (Z.eqb_eq _ _)) by lia.
  - rewrite (proj2 (Z.eqb_neq _ _)) by lia. unfold sub32. rewrite u32_small by lia.
    by replace (Z.of_nat (List.length es) - 1) with (Z.of_nat (List.length es - 1)) by lia.
Qed.
End run.

(** ** Refinement *)

Section refines.
Context `{Malloc} `{SortLaws} {V : Type}.
Variable icd : UT_icd V.
Implicit Types (es : list (elt V)) (c : copies).

Lemma insert_vals_length j ws vs :
  List.length (insert_vals icd j ws vs) = (Nat.max j (List.length vs) + List.length ws)%nat.
Proof.
  unfold insert_vals. rewrite !length_app, length_take, length_drop, pad_length. lia.
Qed.

Lemma concat_becomes (a w : UT_array V) es all c :
  holds a es → holds w all → Z.of_nat (List.length es + List.length all) ≤ 2 ^ 31 →
  ∃ r, utarray_concat a w c = Done r ∧ becomes icd es c ((val <$> es) ++ (val <$> all)) r.
Proof.
  intros Hh Hw Hl. destruct (utarray_concat_ok a w es all c Hh Hw Hl) as (r & -> & Hr).
  eexists. split; [done|]. destruct Hr as [->|(a' & -> & Hh')]; [by left|right].
  eexists _, _, _. split; [done|]. split; [exact Hh'|]. split; [by rewrite fmap_app, fresh_copies_val|].
  pose proof (counted_fresh icd es es [] c (val <$> all) ltac:(by rewrite app_nil_r)) as Hc.
  by rewrite app_nil_r, length_fmap in Hc.
Qed.

(** Each macro does to the list what is said of it. *)
Lemma array_do_ok op (a : UT_array V) es c :
  holds a es → legal op (List.length es) →
  ∃ r vs', array_do icd op a c = Done r ∧ list_op icd op (val <$> es) vs'
    ∧ List.length vs' = size_after op (List.length es) ∧ becomes icd es c vs' r.
Proof.
  intros Hh Hl. destruct op as [v| | |v j|w j|w|m|pos len| |cmp]; cbn [array_do list_op size_after legal] in *.
  - destruct (put_end_ok icd a es c v Hh Hl) as (r & E & Hr). eexists r, _. split_and!; [done|done| |done].
    by rewrite length_app, length_fmap.
  - destruct (utarray_pop_back_ok icd a es c Hh) as (r & -> & Hr); [by destruct es; [cbn in *; lia|]|].
    eexists (Some r), _. split_and!; [done|done| |by rewrite length_fmap]. rewrite length_take, length_fmap. lia.
  - destruct (put_end_ok icd a es c (init_val icd) Hh Hl) as (r & E & Hr). eexists r, _.
    split_and!; [exact E|done| |done]. by rewrite length_app, length_fmap.
  - destruct (utarray_insert_ok icd a es c v j Hh Hl) as (r & -> & Hr). eexists r, _.
    split_and!; [done|done| |done]. by rewrite insert_vals_length, length_fmap.
  - destruct Hl as [[all Hw] Hl]. rewrite (contents_eq w all Hw) in *. rewrite length_fmap in *.
    destruct (utarray_inserta_ok icd a es w all c j Hh Hw Hl) as (r & -> & Hr). eexists r, _.
    split_and!; [done|done| |].
    + destruct (decide (List.length all = 0%nat)); [apply length_fmap|].
      by rewrite insert_vals_length, !length_fmap.
    + destruct (decide (all = [])) as [->|Hne]; [done|]. rewrite decide_False; [done|]. by destruct all.
  - destruct Hl as [[all Hw] Hl]. rewrite (contents_eq w all Hw) in *. rewrite length_fmap in *.
    destruct (concat_becomes a w es all c Hh Hw Hl) as (r & -> & Hr). eexists r, _.
    split_and!; [done|done| |done]. by rewrite length_app, !length_fmap.
  - destruct (utarray_resize_ok icd a es c m Hh Hl) as (r & -> & Hr). eexists r, _.
    split_and!; [done|done| |done]. rewrite length_take, pad_length. lia.
  - destruct (utarray_erase_ok icd a es c pos len Hh Hl) as (r & -> & Hr). eexists (Some r), _.
    split_and!; [done|done| |done]. rewrite length_app, length_take, length_drop, !length_fmap. lia.
  - destruct (utarray_clear_ok icd a es c Hh) as (r & -> & Hr). by eexists (Some r), _.
  - destruct Hl as [Hl Hc]. destruct (utarray_sort_ok icd a es c cmp Hh) as (a' & vs & -> & Hp & Hs & Hr);
      [by destruct es; [cbn in *; lia|]|done|].
    eexists _, vs. split_and!; [done|done|done|by rewrite Hp, length_fmap|done].
Qed.

Lemma array_run_ok ops (a : UT_array V) es c :
  holds a es → legal_run ops (List.length es) →
  ∃ r, array_run icd ops a c = Done r
    ∧ (r = None ∨ ∃ a' c' es', r = Some (a', c') ∧ holds a' es'
         ∧ list_run icd ops (val <$> es) (val <$> es') ∧ counted icd es c es' c').
Proof.
  revert a es c. induction ops as [|op ops IH]; intros a es c Hh Hl.
  { eexists. split; [done|]. right. exists a, c, es. split_and!; [done|done|done|apply counted_refl]. }
  destruct Hl as [Hl Hls]. cbn [array_run].
  destruct (array_do_ok op a es c Hh Hl) as (r & vs1 & -> & Hop & Hlen & Hr). cbn [mbind exec_bind].
  destruct Hr as [->|(a1 & c1 & es1 & -> & Hh1 & Hv1 & Hc1)]; [by eexists; split; [|left]|].
  destruct (IH a1 es1 c1 Hh1) as (r & -> & Hr).
  { by rewrite <-(length_fmap val es1), Hv1, Hlen. }
  eexists. split; [done|]. destruct Hr as [->|(a2 & c2 & es2 & -> & Hh2 & Hrun & Hc2)]; [by left|right].
  exists a2, c2, es2. split_and!; [done|done| |by eapply counted_trans]. exists vs1. by rewrite <-Hv1 in *.
Qed.

Lemma free_with_ok (a : UT_array V) es c :
  holds a es →
  utarray_free_with icd a c
  = Done (if dtor icd then {| fresh := fresh c; destroyed := destroyed c ++ (obj <$> es) |} else c).
Proof.
  intros Hh. unfold utarray_free_with. destruct (Z.eqb_spec (n a) 0) as [Hz|Hnz].
  - pose proof (holds_le _ _ Hh). assert (es = []) as -> by (destruct es; [done|cbn in *; lia]).
    cbn. rewrite app_nil_r. by destruct (dtor icd), c.
  - destruct (dtor icd) eqn:Ed; [|done]. rewrite (ho_i _ _ Hh), Nat2Z.id.
    rewrite (end_slots_ok icd a es 0 es c Hh) by (by rewrite drop_0, take_ge). by rewrite Ed.
Qed.

(** C31: Whatever is done to a new array by the macros of utarray.h (elements pushed, popped, inserted
    one by one or by the array, anywhere or behind the end, resized, erased, cleared, sorted), as
    long as it asks for nothing that is not there: unless memory runs out, no slot is used that is
    not there or not set, the array shows the values of the list under the same operations, in both
    directions, and when it is freed every element that was ever made has been given up to the
    destructor exactly once. *)
Theorem utarray_refines ops (a : UT_array V) fuel :
  utarray_new = Some a → legal_run ops 0 →
  ∃ r, array_run icd ops a {| fresh := 0; destroyed := [] |} = Done r
    ∧ (r = None ∨ ∃ a' c' vs, r = Some (a', c') ∧ list_run icd ops [] vs
         ∧ utarray_len a' = Z.of_nat (List.length vs)
         ∧ ((List.length vs ≤ fuel)%nat →
              for_each fuel a' (utarray_front a') = Done vs
              ∧ for_each_back fuel a' (utarray_back a') = Done (reverse vs))
         ∧ ∃ c'', utarray_free_with icd a' c' = Done c''
             ∧ if dtor icd then destroyed c'' ≡ₚ seq 0 (fresh c'') else destroyed c'' = []).
Proof.
  intros Hnew Hl. apply holds_new in Hnew.
  destruct (array_run_ok ops a [] {| fresh := 0; destroyed := [] |} Hnew Hl) as (r & -> & Hr).
  eexists. split; [done|]. destruct Hr as [->|(a' & c' & es & -> & Hh & Hrun & Hf & Hc)]; [by left|right].
  exists a', c', (val <$> es). rewrite length_fmap. split_and!; [done|done|apply Hh| |].
  - intros Hfuel. split; [by apply utarray_walk_ok|by apply utarray_walk_back_ok].
  - rewrite (free_with_ok a' es) by done. eexists. split; [done|]. cbn in Hc.
    destruct (dtor icd); [|done]. cbn. rewrite Nat.sub_0_r in Hc. rewrite <-Hc. solve_Permutation.
Qed.
End refines.

(** ** An instance *)

#[local] Existing Instance malloc_always.

(** Numbers, initialised to 0, with a destructor. *)
Definition sample_icd : UT_icd Z := {| init := Some 0; zero := 0; dtor := true |}.
Definition sample_array : UT_array Z :=
  match utarray_new with Some a => a | None => {| i := 0; n := 0; d := None |} end.
Definition sample_ops : list (array_op (V:=Z)) :=
  [PushBack 5; Insert 7 0; Insert 9 4; ExtendBack; Erase 1 2; Sort Z.sub; Resize 3; PopBack; Concat sample_array].

Lemma sample_ops_legal : legal_run sample_ops 0.
Proof.
  cbn. split_and!; try lia; try done.
  - split; intros; lia.
  - exists []. by apply holds_new.
Qed.

Example sample_ops_run :
  (a ← array_run sample_icd sample_ops sample_array {| fresh := 0; destroyed := [] |};
   match a with Some (a, c) => mret (contents a, destroyed c) | None => Undef end)
  = Done ([0; 0], [0; 2; 4; 1]%nat).
Proof. vm_compute. reflexivity. Qed.

Lemma utarray_refines_witness :
  utarray_new = Some sample_array ∧
  ∃ r, array_run sample_icd sample_ops sample_array {| fresh := 0; destroyed := [] |} = Done r
    ∧ (r = None ∨ ∃ a' c' vs, r = Some (a', c') ∧ list_run sample_icd sample_ops [] vs
         ∧ ∃ c'', utarray_free_with sample_icd a' c' = Done c'' ∧ destroyed c'' ≡ₚ seq 0 (fresh c'')).
Proof.
  split; [reflexivity|].
  destruct (utarray_refines sample_icd sample_ops sample_array 9) as (r & E & Hr).
  - reflexivity.
  - apply sample_ops_legal.
  - exists r. split; [exact E|]. destruct Hr as [Hr|(a' & c' & vs & Hr & Hrun & _ & _ & Hfree)].
    + left. exact Hr.
    + right. exists a', c', vs. exact (conj Hr (conj Hrun Hfree)).
Defined.
