(* ===== verification/FindArray.v ===== *)
(** * The search for subscribers, with its arrays

    [Topic] gives the search of [topic.c] with a list for the array that it returns.  Here is the
    same search with the arrays of [Utarray], the one of a recursive call included, and the proof
    that they show that list: every subscriber found is copied, what the arrays of the recursive
    calls hold is destroyed, and what the caller walks and frees is the rest. *)
From S2P Require Import Prelude Status Uthash Mem HashFn Utarray UtarrayProps Subscriber Topic TopicProps.
Local Open Scope Z_scope.

Section FindArray.
Context `{Malloc}.

Notation array := (UT_array bpsp__subscriber).
Notation filled := (exec (option (array * copies))).

(** The loop of [hash__subscriber_copy_to_array]: one copy for each element of the table. *)
Fixpoint push_subs (t : bpsp__topic_tree) (arr : array) (c : copies) (h : list (string * positive)) : filled :=
  match h with
  | [] => mret (Some (arr, c))
  | (_, s) :: h =>
      s ← get_sub t s;
      get (arr, c) ← utarray_push_back arr s c;
      push_subs t arr c h
  end.

(** The callers go on whether or not the table is NULL. *)
Definition copy_to_array (t : bpsp__topic_tree) (arr : array) (c : copies) (h : list (string * positive)) : filled :=
  match h with [] => mret (Some (arr, c)) | _ => push_subs t arr c h end.

(** The array [tmp_subs] is made, filled, appended to [subs] and freed. *)
Definition concat_tmp (subs : array) (c : copies) (fill_tmp : array → copies → filled) : filled :=
  match utarray_new with
  | None => mret None
  | Some tmp =>
      get (tmp, c) ← fill_tmp tmp c;
      get (subs, c) ← utarray_concat subs tmp c;
      c ← utarray_free tmp c;
      mret (Some (subs, c))
  end.

Fixpoint find_array_loop (n_tok : nat) (t : bpsp__topic_tree) (cur : positive) (cur_tok : token)
    (arr : array) (c : copies) : filled :=
  n ← get_node t cur;
  match n_tok with
  | O => copy_to_array t arr c (subs n)
  | S n_tok =>
      ml ← (match ml_node n with
            | None => Done None
            | Some l => ml ← get_node t l; mret (Some ml)
            end);
      get (arr, c) ←
        (match ml with
         | Some ml =>
             if (topic__node_num_subs (Some ml) =? 0)%nat then mret (Some (arr, c))
             else copy_to_array t arr c (subs ml)
         | None => mret (Some (arr, c))
         end);
      tok ← tok_str cur_tok;
      let hsh_node := hash_find tok (nodes n) in
      cur_tok ← topic__next_token cur_tok;
      get (arr, c) ←
        (match sl_node n with
         | None => mret (Some (arr, c))
         | Some sl =>
             concat_tmp arr c (fun tmp c =>
               if (n_tok =? 0)%nat then sn ← get_node t sl; copy_to_array t tmp c (subs sn)
               else find_array_loop n_tok t sl cur_tok tmp c)
         end);
      match hsh_node with
      | None => mret (Some (arr, c))
      | Some next => find_array_loop n_tok t next cur_tok arr c
      end
  end.

Definition node_find_array (t : bpsp__topic_tree) (l : positive) (first_tok : token) (n_tok : nat)
    (c : copies) : filled :=
  match utarray_new with
  | None => mret None
  | Some arr =>
      if (n_tok =? 0)%nat then n ← get_node t l; copy_to_array t arr c (subs n)
      else find_array_loop n_tok t l first_tok arr c
  end.

(** [None]: the process has ended; else NULL for an invalid topic, or the array. *)
Definition tree_find_array (t : bpsp__topic_tree) (topic : option string) (lock : bool) (c : copies)
  : exec (option (option array * bpsp__topic_tree * copies)) :=
  match topic with
  | None => mret (Some (None, t, c))
  | Some topic =>
      '(st, n_tok, first_tok) ← topic__extract_token topic;
      match st, first_tok with
      | BPSP_OK, Assigned (Some first_tok) =>
          t ← lock_if lock pthread_rwlock_rdlock t;
          get (subs, c) ← node_find_array t root first_tok (Z.to_nat n_tok) c;
          mret (Some (Some subs, unlock_if lock t, c))
      | _, _ => mret (Some (None, t, c))
      end
  end.

(** No copy has been made. *)
Definition no_copies : copies := {| fresh := 0; destroyed := [] |}.

(** ** The arrays show the list *)

Implicit Types (a : array) (es : list (elt bpsp__subscriber)).

(** Whatever the list computation [l] adds to its list, [m] adds to its array. *)
Definition follows (m : array → copies → filled)
    (l : list bpsp__subscriber → exec (list bpsp__subscriber)) : Prop :=
  ∀ found0 found, l found0 = Done found →
  ∃ vs, found = found0 ++ vs ∧
    ∀ a es c, holds a es → Z.of_nat (List.length es + List.length vs) ≤ 2 ^ 31 →
    ∃ r, m a c = Done r ∧ grows a es c vs r.

Lemma follows_skip : follows (fun a c => mret (Some (a, c))) (fun f => Done f).
Proof.
  intros f0 f [= <-]. exists []. rewrite app_nil_r. split; [done|]. intros a es c Hho _.
  eexists. split; [done|]. by apply grows_nil.
Qed.

Lemma follows_ext m m' l l' :
  (∀ a c, m' a c = m a c) → (∀ f, l' f = l f) → follows m l → follows m' l'.
Proof.
  intros Em El Hm f0 f Hf. rewrite El in Hf. destruct (Hm f0 f Hf) as (vs & -> & Hvs).
  exists vs. split; [done|]. intros a es c. rewrite Em. apply Hvs.
Qed.

(** The tree is read first. *)
Lemma follows_read {A} (e : exec A) m l :
  (∀ x, e = Done x → follows (m x) (l x)) →
  follows (fun a c => x ← e; m x a c) (fun f => x ← e; l x f).
Proof.
  intros Hm f0 f Hf. destruct e as [x| | |] eqn:E; try discriminate Hf. cbn in Hf.
  destruct (Hm x eq_refl f0 f Hf) as (vs & -> & Hvs). by exists vs.
Qed.

Lemma follows_seq m m2 l l2 :
  follows m l → follows m2 l2 →
  follows (fun a c => get (a, c) ← m a c; m2 a c) (fun f => f ← l f; l2 f).
Proof.
  intros H1 H2 f0 f Hf. destruct (l f0) as [f1| | |] eqn:El; try discriminate Hf. cbn in Hf.
  destruct (H1 f0 f1 El) as (vs1 & -> & Hm1). destruct (H2 _ f Hf) as (vs2 & -> & Hm2).
  exists (vs1 ++ vs2). rewrite app_assoc. split; [done|]. intros a es c Hho Hlen.
  rewrite length_app in Hlen. apply grows_bind.
  - apply Hm1; [done|lia].
  - intros a1 c1 new Ha1 Hnew. apply Hm2; [done|].
    rewrite length_app, <-(length_fmap val new), Hnew. lia.
Qed.

(** A new array is filled as a new list is, and appended. *)
Lemma follows_tmp m l :
  follows m l →
  follows (fun a c => concat_tmp a c m) (fun f => more ← l []; mret (f ++ more)).
Proof.
  intros Hm f0 f Hf. destruct (l []) as [more| | |] eqn:El; try discriminate Hf.
  injection Hf as <-. destruct (Hm [] more El) as (vs & -> & Hvs). exists vs. split; [done|].
  intros a es c Hho Hlen. apply append_grows; [done|done|]. intros tmp Htmp.
  apply Hvs; [done|cbn; lia].
Qed.

Lemma push_subs_follows t h :
  follows (fun a c => push_subs t a c h) (fun f => more ← copy_subs t h; mret (f ++ more)).
Proof.
  induction h as [|[k s] h IH]; cbn [push_subs copy_subs].
  - eapply follows_ext, follows_skip; [done|]. intros f. cbn. by rewrite app_nil_r.
  - eapply follows_ext with (l := fun f => x ← get_sub t s; f ← Done (f ++ [subscriber__copy x]);
      more ← copy_subs t h; mret (f ++ more)); [by intros| |].
    + intros f. destruct (get_sub t s) as [x| | |]; [|done..]. cbn.
      destruct (copy_subs t h); [|done..]. cbn. by rewrite <-app_assoc.
    + apply follows_read. intros x _. apply follows_seq; [|exact IH].
      intros f0 f [= <-]. exists [x]. split; [done|]. intros a es c Hho Hlen.
      apply push_back_grows; [done|cbn in Hlen; lia].
Qed.

Lemma copy_to_array_follows t h :
  follows (fun a c => copy_to_array t a c h)
    (fun f => '(_, f) ← hash__subscriber_copy_to_array t f h; mret f).
Proof.
  destruct h as [|e h]; [apply follows_skip|].
  eapply follows_ext, (push_subs_follows t (e :: h)); [done|]. intros f. unfold copy_to_array.
  cbn [hash__subscriber_copy_to_array]. by destruct (copy_subs t (e :: h)).
Qed.

Lemma find_array_loop_follows n_tok t cur tok :
  follows (find_array_loop n_tok t cur tok) (find_loop n_tok t cur tok).
Proof.
  revert cur tok. induction n_tok as [|n_tok IH]; intros cur tok; cbn [find_array_loop find_loop].
  { apply follows_read. intros n _. apply copy_to_array_follows. }
  apply follows_read. intros n _. apply follows_read. intros ml _. apply follows_seq.
  { destruct ml as [ml|]; [|apply follows_skip].
    destruct (_ =? 0)%nat; [apply follows_skip|apply copy_to_array_follows]. }
  apply follows_read. intros k _. apply follows_read. intros next _. apply follows_seq.
  - destruct (sl_node n) as [sl|]; [|apply follows_skip]. destruct (n_tok =? 0)%nat.
    + eapply follows_ext, follows_tmp, follows_read; [done| |].
      2: { intros sn _. apply copy_to_array_follows. }
      intros f. cbn beta. destruct (get_node t sl) as [sn| | |]; [|done..]. cbn.
      by destruct (hash__subscriber_copy_to_array t [] _) as [[? ?]| | |].
    + apply follows_tmp, IH.
  - destruct (hash_find k (nodes n)); [apply IH|apply follows_skip].
Qed.

Lemma node_find_array_grows t l tok n_tok found c :
  topic__node_find_subscribers t l tok n_tok = Done found →
  Z.of_nat (List.length found) ≤ 2 ^ 31 →
  ∃ r, node_find_array t l tok n_tok c = Done r ∧ (r = None ∨ ∃ a, holds a [] ∧ grows a [] c found r).
Proof.
  intros Hf Hlen. unfold node_find_array, topic__node_find_subscribers in *.
  destruct utarray_new as [a|] eqn:Hnew; [|by eexists; split; [|left]]. apply holds_new in Hnew.
  assert (follows (fun a c => if (n_tok =? 0)%nat then n ← get_node t l; copy_to_array t a c (subs n)
                              else find_array_loop n_tok t l tok a c)
    (fun f => if (n_tok =? 0)%nat
              then n ← get_node t l; '(_, f) ← hash__subscriber_copy_to_array t f (subs n); mret f
              else find_loop n_tok t l tok f)) as Hfol.
  { destruct (n_tok =? 0)%nat; [|apply find_array_loop_follows].
    apply follows_read. intros n _. apply copy_to_array_follows. }
  destruct (Hfol [] found Hf) as (vs & -> & Hvs). destruct (Hvs a [] c Hnew Hlen) as (r & -> & Hr).
  exists r. split; [done|]. right. by exists a.
Qed.

(** C33: A publisher finds its subscribers through dynamic arrays: whenever the search of the tree
    gives a list of at most 2^31 subscribers, the same search with the arrays of utarray.h ends
    with an array whose walk from front to end shows just that list, in that order; when the
    publisher then frees the array, every copy of a subscriber that was made, also for the
    temporary arrays of the single-level branches, has been destroyed, and only once.  The one
    other outcome is the end of the process for want of memory. *)
Theorem tree_find_array_refines t topic (lock : bool) found t' :
  topic__tree_find_subscribers t topic lock = Done (Some found, t') →
  Z.of_nat (List.length found) ≤ 2 ^ 31 →
  ∃ r, tree_find_array t topic lock no_copies = Done r ∧
    (r = None ∨ ∃ arr c, r = Some (Some arr, t', c) ∧
      for_each (List.length found) arr (utarray_front arr) = Done found ∧
      ∃ c', utarray_free arr c = Done c' ∧ fresh c' = fresh c ∧ destroyed c' ≡ₚ seq 0 (fresh c')).
Proof.
  intros Hf Hlen. unfold topic__tree_find_subscribers, tree_find_array in *.
  destruct topic as [topic|]; [|discriminate Hf].
  destruct (topic__extract_token topic) as [[[st n_tok] ft]| | |]; try discriminate Hf.
  cbn [mbind exec_bind] in *. destruct st; try discriminate Hf.
  destruct ft as [|[ft|]]; try discriminate Hf.
  destruct (lock_if _ _ _) as [t1| | |]; try discriminate Hf. cbn [mbind exec_bind] in *.
  destruct (topic__node_find_subscribers t1 root ft (Z.to_nat n_tok)) as [fd| | |] eqn:E;
    try discriminate Hf. cbn in Hf. injection Hf as -> <-.
  destruct (node_find_array_grows t1 root ft (Z.to_nat n_tok) found no_copies E Hlen)
    as (r & -> & Hr). cbn [mbind exec_bind]. destruct Hr as [->|(a0 & _ & Hg)]; [by eexists; split; [|left]|].
  destruct (grows_visit a0 found r (List.length found) Hg) as [->|(arr & c & -> & Hw & Hfree)]; [done|..].
  - by eexists; split; [|left].
  - eexists. split; [done|]. right. by exists arr, c.
Qed.
End FindArray.

(** A search that goes through a single-level branch: two copies are made of its one subscriber. *)
Lemma tree_find_array_refines_witness :
  ∃ found arr c, topic__tree_find_subscribers sample_tree1 (Some "home/hall"%string) true
      = Done (Some found, sample_tree1) ∧ List.length found = 1%nat ∧
    @tree_find_array malloc_always sample_tree1 (Some "home/hall"%string) true no_copies
      = Done (Some (Some arr, sample_tree1, c)) ∧ fresh c = 2%nat ∧
    for_each 1 arr (utarray_front arr) = Done found ∧
    ∃ c', utarray_free arr c = Done c' ∧ destroyed c' ≡ₚ seq 0 2.
Proof.
  assert (Hc : match @tree_find_array malloc_always sample_tree1 (Some "home/hall"%string) true no_copies with
               | Done (Some (_, _, c)) => Some (fresh c) | _ => None end = Some 2%nat) by (vm_compute; reflexivity).
  destruct (topic__tree_find_subscribers sample_tree1 (Some "home/hall"%string) true)
    as [[[found|] t']| | |] eqn:Hf; [|vm_compute in Hf; discriminate Hf..].
  assert (Hl : List.length found = 1%nat) by (vm_compute in Hf; injection Hf as <- _; reflexivity).
  assert (Ht : t' = sample_tree1) by (vm_compute in Hf; injection Hf as _ <-; vm_compute; reflexivity).
  subst t'. destruct (@tree_find_array_refines malloc_always sample_tree1 (Some "home/hall"%string) true
    found sample_tree1 Hf) as (r & Hr & Hcase); [rewrite Hl; lia|]. rewrite Hr in Hc.
  destruct Hcase as [->|(arr & c & -> & Hw & c' & Hfree & Hfr & Hp)]; [discriminate Hc|].
  injection Hc as Hc. rewrite Hfr, Hc in Hp. rewrite Hl in Hw. exists found, arr, c.
  exact (conj eq_refl (conj Hl (conj Hr (conj Hc (conj Hw (ex_intro _ c' (conj Hfree Hp))))))).
Defined.
