(* ===== verification/ClockProps.v ===== *)
(** * The date that is put into a frame fits, can be carried, and tells the time *)
From S2P Require Import Prelude Text Clock Frame HeaderCodec.
Local Open Scope Z_scope.

(** The time that a text of [date_now_utc] shows. *)
Definition read_date (s : string) : Z :=
  let field pos len := read_digits 0 (String.substring pos len s) in
  timegm {| tm_year := field 0%nat 4%nat - 1900; tm_mon := field 5%nat 2%nat - 1;
            tm_mday := field 8%nat 2%nat; tm_hour := field 11%nat 2%nat;
            tm_min := field 14%nat 2%nat; tm_sec := field 17%nat 2%nat |}.

(** Characters without a meaning in a frame. *)
Definition plain (c : ascii) : Prop := c ≠ NUL ∧ c ≠ QUOTE ∧ c ≠ BACKSLASH.
#[export] Instance plain_dec c : Decision (plain c).
Proof. unfold plain. apply _. Defined.

Lemma is_digit_plain c : is_digit c → plain c.
Proof. unfold is_digit. intros Hc. split_and!; intros ->; vm_compute in Hc; destruct Hc; done. Qed.

Lemma plain_quote_free p l : p ≠ BACKSLASH → Forall plain l → quote_free p l = true.
Proof.
  intros Hp Hl. revert p Hp. induction Hl as [|c l (_ & Hq & Hb) _ IH]; intros p Hp; cbn.
  - by apply bool_decide_eq_true.
  - rewrite bool_decide_false by done. cbn. by apply IH.
Qed.

Lemma plain_wire_safe s : strlen s < 65536 → Forall plain (chars s) → wire_safe s.
Proof.
  intros Hlen Hs. split; [done| |by apply plain_quote_free].
  intros Hin. rewrite Forall_forall in Hs. by destruct (Hs _ Hin).
Qed.

(** The text of a date in a year of four digits. *)
Definition date_text (t : tm) : string := (strftime t +:+ ".000000Z")%string.

Lemma strftime_digits t :
  1000 ≤ tm_year t + 1900 < 10000 →
  date_text t =
  (digits 4 (tm_year t + 1900) "" +:+ "-" +:+ digits 2 (tm_mon t + 1) "" +:+ "-" +:+
   digits 2 (tm_mday t) "" +:+ "T" +:+ digits 2 (tm_hour t) "" +:+ ":" +:+
   digits 2 (tm_min t) "" +:+ ":" +:+ digits 2 (tm_sec t) "" +:+ ".000000Z")%string.
Proof.
  intros Hy. unfold date_text, strftime, int_text.
  rewrite (decimal_digits 10 3) by (cbn; lia). reflexivity.
Qed.

Lemma date_text_plain t : 1000 ≤ tm_year t + 1900 < 10000 → Forall plain (chars (date_text t)).
Proof.
  intros Hy. rewrite strftime_digits by done. rewrite !chars_app.
  assert (∀ w n, Forall plain (chars (digits w n ""))) as Hd.
  { intros w n. eapply Forall_impl; [apply digits_are_digits|apply is_digit_plain]. }
  repeat (apply Forall_app; split); first [apply Hd | apply (bool_decide_unpack _); by vm_compute].
Qed.

Lemma date_text_length t : 1000 ≤ tm_year t + 1900 < 10000 → strlen (date_text t) = 27.
Proof. intros Hy. rewrite strftime_digits by done. reflexivity. Qed.

Lemma read_date_text t :
  tm_ok t → 1000 ≤ tm_year t + 1900 < 10000 → read_date (date_text t) = timegm t.
Proof.
  intros Hok Hy. rewrite strftime_digits by done. unfold read_date. set (s := (_ +:+ _)%string).
  change (String.substring 0 4 s) with (digits 4 (tm_year t + 1900) "").
  change (String.substring 5 2 s) with (digits 2 (tm_mon t + 1) "").
  change (String.substring 8 2 s) with (digits 2 (tm_mday t) "").
  change (String.substring 11 2 s) with (digits 2 (tm_hour t) "").
  change (String.substring 14 2 s) with (digits 2 (tm_min t) "").
  change (String.substring 17 2 s) with (digits 2 (tm_sec t) "").
  pose proof (month_day_small t Hok). destruct Hok.
  rewrite !read_digits_digits by (cbn; lia). rewrite !Z.add_simpl_r. by destruct t.
Qed.

Lemma date_now_utc_text t len : date_now_utc t len = in_buffer len (date_text (gmtime t)).
Proof. unfold date_now_utc, date_text. generalize (gmtime t). reflexivity. Qed.

Lemma date_text_tells t :
  tm_ok t → 1970 ≤ tm_year t + 1900 < 10000 →
  in_buffer 33 (date_text t) = Some (date_text t) ∧ strlen (date_text t) = 27 ∧ date_text t ≠ ""%string ∧
  wire_safe (date_text t) ∧ read_date (date_text t) = timegm t.
Proof.
  intros Hok Hy. assert (1000 ≤ tm_year t + 1900 < 10000) as Hy' by lia.
  pose proof (date_text_length _ Hy') as Hlen. pose proof (date_text_plain _ Hy') as Hplain.
  pose proof (read_date_text _ Hok Hy') as Hr. generalize dependent (date_text t). intros d Hlen Hplain Hr.
  unfold in_buffer. rewrite Hlen. split_and!; [done|done| | |done].
  - intros E. by rewrite E in Hlen.
  - by apply plain_wire_safe; [lia|].
Qed.

(** C36: The date that [frame__build] writes into a frame, at any second from 1970 to the end of the
    year 9999, fits into its buffer of 33 bytes, has 27 characters, can be carried by a header,
    and read back by the calendar it is the time of the clock. *)
Theorem date_now_utc_tells t :
  0 ≤ t < 253402300800 →
  ∃ d, date_now_utc t 33 = Some d ∧ strlen d = 27 ∧ d ≠ ""%string ∧ wire_safe d ∧ read_date d = t.
Proof.
  intros Ht. destruct (gmtime_ok t) as [Hok Htm]. pose proof (gmtime_year t Ht) as Hy.
  exists (date_text (gmtime t)). rewrite date_now_utc_text. generalize dependent (gmtime t).
  intros x Hok <- Hy. by apply date_text_tells.
Qed.

Lemma date_now_utc_tells_witness :
  date_now_utc 1709164799 33 = Some "2024-02-28T23:59:59.000000Z"%string ∧
  read_date "2024-02-28T23:59:59.000000Z" = 1709164799.
Proof.
  assert (0 ≤ 1709164799 < 253402300800) as Ht by lia.
  destruct (date_now_utc_tells 1709164799 Ht) as (d & Hd & _ & _ & _ & Hr).
  assert (date_now_utc 1709164799 33 = Some "2024-02-28T23:59:59.000000Z"%string) as He
    by (vm_compute; reflexivity).
  split; [exact He|]. rewrite He in Hd. injection Hd as <-. exact Hr.
Defined.
