(* ===== verification/PrintProps.v ===== *)
(** * The printed tree shows every node once; what is printed of a frame *)
From S2P Require Import Prelude Status Uthash Mem Text Frame FrameFacts FrameOp Subscriber Topic.
From S2P Require Import TopicShape TopicSpec TopicProps CliFacts Print.
Local Open Scope Z_scope.

(** ** The paths below a node, in the order in which they are printed *)

Fixpoint paths_below (fuel : nat) (h : gmap positive topic__node) (l : positive) : list (list sym) :=
  match fuel with
  | O => []
  | S fuel =>
      match h !! l with
      | None => []
      | Some n =>
          [] :: (cons SStar <$> default [] (paths_below fuel h <$> ml_node n))
          ++ (cons SPlus <$> default [] (paths_below fuel h <$> sl_node n))
          ++ (nodes n ≫= fun '(k, c) => cons (SLit k) <$> paths_below fuel h c)
      end
  end.

(** The paths that begin with the edge [s] to the child [c]. *)
Lemma elem_of_cons_fmap (s s' : sym) (q : list sym) (ps : list (list sym)) :
  s' :: q ∈ cons s <$> ps ↔ s' = s ∧ q ∈ ps.
Proof.
  rewrite list_elem_of_fmap. split; [by intros (y & [= -> ->] & ?)|]. intros [-> ?]. by exists q.
Qed.
Lemma nil_cons_fmap (s : sym) (ps : list (list sym)) : [] ∉ cons s <$> ps.
Proof. by intros (y & ? & _)%list_elem_of_fmap. Qed.

Lemma elem_of_children (s : sym) q (f : positive → list (list sym)) (l : list (string * positive)) :
  NoDup l.*1 →
  s :: q ∈ (l ≫= fun '(k, c) => cons (SLit k) <$> f c)
  ↔ ∃ k c, s = SLit k ∧ hash_find k l = Some c ∧ q ∈ f c.
Proof.
  intros Hnd. rewrite list_elem_of_bind. split.
  - intros ([k c] & [-> Hq]%elem_of_cons_fmap & Hin%hash_find_iff); [by exists k, c|done].
  - intros (k & c & -> & Hf%hash_find_iff & Hq); [|done]. exists (k, c). by rewrite elem_of_cons_fmap.
Qed.

Lemma nil_children (f : positive → list (list sym)) (l : list (string * positive)) :
  [] ∉ (l ≫= fun '(k, c) => cons (SLit k) <$> f c).
Proof. rewrite list_elem_of_bind. by intros ([k c] & ?%nil_cons_fmap & _). Qed.

(** With enough fuel they are all the paths that there are, and each comes once. *)
Lemma elem_of_paths_below fuel h l p q :
  shape h → walk h root p = Some l → (size h ≤ List.length p + fuel)%nat →
  q ∈ paths_below fuel h l ↔ is_Some (walk h l q).
Proof.
  intros Hsh. revert l p q. induction fuel as [|fuel IH]; intros l p q Hp Hf.
  { pose proof (path_length h p l Hsh Hp). lia. }
  destruct (walk_alloc h p l Hsh Hp) as [n Hn]. cbn [paths_below]. rewrite Hn.
  assert (∀ s c, edge n s = Some c → ∀ q, q ∈ paths_below fuel h c ↔ is_Some (walk h c q)) as Hchild.
  { intros s c Hc q'. apply (IH c (p ++ [s])).
    - rewrite walk_snoc, Hp. cbn. unfold step. by rewrite Hn.
    - rewrite length_app. cbn. lia. }
  destruct q as [|s q].
  { split; [by eexists|intros _; left]. }
  assert (walk h l (s :: q) = edge n s ≫= fun c => walk h c q) as ->
    by (cbn; unfold step; by rewrite Hn).
  rewrite elem_of_cons, !elem_of_app, !elem_of_cons_fmap.
  rewrite elem_of_children by (by destruct (sh_keys h Hsh l n Hn)).
  assert (∀ s0, q ∈ default [] (paths_below fuel h <$> edge n s0) ↔ is_Some (edge n s0 ≫= fun c => walk h c q))
    as Hopt.
  { intros s0. destruct (edge n s0) as [c|] eqn:Hc; cbn; [by apply (Hchild s0)|].
    split; [by intros ?%not_elem_of_nil|by intros []]. }
  split.
  - intros [?|[[-> Hq]|[[-> Hq]|(k & c & -> & Hc & Hq)]]]; [done| | |].
    + by apply (Hopt SStar).
    + by apply (Hopt SPlus).
    + cbn. rewrite Hc. cbn. by apply (Hchild (SLit k)).
  - intros Hq. right. destruct s as [k| |].
    + right. right. cbn in Hq. destruct (hash_find k (nodes n)) as [c|] eqn:Hc; [|by destruct Hq].
      exists k, c. split_and!; [done..|]. by apply (Hchild (SLit k)).
    + right. left. split; [done|]. by apply (Hopt SPlus).
    + left. split; [done|]. by apply (Hopt SStar).
Qed.

Lemma NoDup_paths_below fuel h l : shape h → NoDup (paths_below fuel h l).
Proof.
  intros Hsh. revert l. induction fuel as [|fuel IH]; intros l; [constructor|]. cbn [paths_below].
  destruct (h !! l) as [n|] eqn:Hn; [|constructor].
  assert (∀ s o, NoDup (cons s <$> default [] (paths_below fuel h <$> o))) as Hopt.
  { intros s [c|]; [|constructor]. cbn. apply NoDup_fmap_2; [by intros ? ? [= ->]|apply IH]. }
  apply NoDup_cons. split.
  { rewrite !elem_of_app. intros [?%nil_cons_fmap|[?%nil_cons_fmap|?%nil_children]]; done. }
  apply NoDup_app. split; [apply Hopt|]. split.
  { intros q (q' & -> & _)%list_elem_of_fmap. rewrite elem_of_app, elem_of_cons_fmap.
    intros [[? _]|([k c] & [? _]%elem_of_cons_fmap & _)%list_elem_of_bind]; done. }
  apply NoDup_app. split; [apply Hopt|]. split.
  { intros q (q' & -> & _)%list_elem_of_fmap.
    by intros ([k c] & [? _]%elem_of_cons_fmap & _)%list_elem_of_bind. }
  destruct (sh_keys h Hsh l n Hn) as [Hk _]. apply NoDup_bind.
  - intros [k1 c1] [k2 c2] q Hin1 Hin2 (q1 & -> & _)%list_elem_of_fmap [[= ->] _]%elem_of_cons_fmap.
    apply hash_find_iff in Hin1, Hin2; [|done..]. congruence.
  - intros [k c] _. apply NoDup_fmap_2; [by intros ? ? [= ->]|apply IH].
  - by eapply NoDup_fmap_1.
Qed.

(** ** What is printed *)

(** The token that is printed for the last edge of a path. *)
Definition token_of (s : sym) : string :=
  match s with SLit k => k | SPlus => "+" | SStar => "*" end.
Definition label (p : list sym) : string := match last p with Some s => token_of s | None => "#root" end.

(** The line of a path. *)
Definition path_line (t : bpsp__topic_tree) (p : list sym) : string :=
  node_line (List.length p) (label p) (List.length (subs_at t p)).

Lemma label_snoc p s : label (p ++ [s]) = token_of s.
Proof. unfold label. by rewrite last_snoc. Qed.

(** The lines of the paths [qs] below the path [p]. *)
Definition lines_at (t : bpsp__topic_tree) (p : list sym) (qs : list (list sym)) : string :=
  cat ((fun q => path_line t (p ++ q)) <$> qs).

Lemma lines_at_cons t p s qs : lines_at t (p ++ [s]) qs = lines_at t p (cons s <$> qs).
Proof.
  unfold lines_at. f_equal. rewrite <-list_fmap_compose. apply list_fmap_ext. intros _ q _. cbn.
  by rewrite <-app_assoc.
Qed.

Lemma lines_at_app t p qs1 qs2 : lines_at t p (qs1 ++ qs2) = (lines_at t p qs1 +:+ lines_at t p qs2)%string.
Proof. unfold lines_at. by rewrite fmap_app, cat_app. Qed.

(** Children that are printed as lines. *)
Lemma print_children_ok (print : string → positive → exec string) t p (f : positive → list (list sym)) l :
  (∀ k c, (k, c) ∈ l → print k c = Done (lines_at t p (cons (SLit k) <$> f c))) →
  print_children print l = Done (lines_at t p (l ≫= fun '(k, c) => cons (SLit k) <$> f c)).
Proof.
  induction l as [|[k c] l IH]; intros Hp; [done|]. cbn [print_children].
  rewrite Hp by left. cbn [mbind exec_bind]. rewrite IH by (intros; apply Hp; by right).
  cbn [mbind exec_bind]. rewrite bind_cons, lines_at_app. done.
Qed.

Lemma print_node_ok t fuel l p :
  tree_wf t → walk (heap t) root p = Some l → (size (heap t) ≤ List.length p + fuel)%nat →
  print_node fuel t (List.length p) (label p) l = Done (lines_at t p (paths_below fuel (heap t) l)).
Proof.
  intros Hw. pose proof (tw_shape t Hw) as Hsh. revert l p.
  induction fuel as [|fuel IH]; intros l p Hp Hf.
  { pose proof (path_length _ p l Hsh Hp). lia. }
  destruct (walk_alloc _ p l Hsh Hp) as [n Hn]. cbn [print_node paths_below].
  rewrite Hn. unfold get_node. rewrite Hn. cbn [deref mbind exec_bind].
  assert (∀ s c, edge n s = Some c →
    print_node fuel t (S (List.length p)) (token_of s) c
    = Done (lines_at t p (cons s <$> paths_below fuel (heap t) c))) as Hchild.
  { intros s c Hc. rewrite <-lines_at_cons, <-(IH c (p ++ [s])).
    - rewrite label_snoc, length_app. cbn [List.length]. by rewrite Nat.add_1_r.
    - rewrite walk_snoc, Hp. cbn. unfold step. by rewrite Hn.
    - rewrite length_app. cbn. lia. }
  assert (∀ s, print_child (print_node fuel t (S (List.length p))) (token_of s) (edge n s)
    = Done (lines_at t p (cons s <$> default [] (paths_below fuel (heap t) <$> edge n s)))) as Hopt.
  { intros s. destruct (edge n s) as [c|] eqn:Hc; [by apply Hchild|done]. }
  pose proof (Hopt SStar) as H1. pose proof (Hopt SPlus) as H2. cbn [edge token_of] in H1, H2.
  rewrite H1. cbn [mbind exec_bind]. rewrite H2. cbn [mbind exec_bind].
  rewrite (print_children_ok _ t p (paths_below fuel (heap t))).
  2: { intros k c Hin. apply (Hchild (SLit k)). apply hash_find_iff; [|done].
       by destruct (sh_keys _ Hsh l n Hn). }
  cbn [mbind exec_bind]. unfold mret, exec_ret. f_equal.
  assert (node_line (List.length p) (label p) (topic__node_num_subs (Some n)) = path_line t (p ++ [])) as ->.
  { rewrite app_nil_r. unfold path_line. by rewrite (subs_at_walk t p l n). }
  rewrite <-!lines_at_app. done.
Qed.

(** C35: Printing the topic tree, as the thread of a client does at its end, always ends, never reads a
    bad pointer, and prints each node exactly once: one line for each path of the tree, indented
    by its depth, with its last token and the number of subscribers filed there. *)
Theorem topic__print_tree_lines t :
  tree_wf t →
  ∃ ps, NoDup ps ∧ (∀ p, p ∈ ps ↔ is_Some (walk (heap t) root p)) ∧
    topic__print_tree (Some t) = Done ("[TREE]" +:+ NL +:+ cat (path_line t <$> ps) +:+ NL)%string.
Proof.
  intros Hw. pose proof (tw_shape t Hw) as Hsh.
  exists (paths_below (print_fuel t) (heap t) root). split; [by apply NoDup_paths_below|]. split.
  - intros p. by apply (elem_of_paths_below _ _ _ []).
  - unfold topic__print_tree.
    assert (print_node (print_fuel t) t 0 "#root" root
      = Done (lines_at t [] (paths_below (print_fuel t) (heap t) root))) as ->
      by (by apply (print_node_ok t (print_fuel t) root [])).
    done.
Qed.

(** The tree with one subscriber to home/+. *)
Lemma topic__print_tree_lines_witness :
  tree_wf sample_tree1 ∧
  ∃ ps, NoDup ps ∧ (∀ p, p ∈ ps ↔ is_Some (walk (heap sample_tree1) root p)) ∧
    topic__print_tree (Some sample_tree1)
    = Done ("[TREE]" +:+ NL +:+ cat (path_line sample_tree1 <$> ps) +:+ NL)%string.
Proof. exact (conj sample_tree1_wf (topic__print_tree_lines sample_tree1 sample_tree1_wf)). Defined.

Example sample_tree1_printed :
  topic__print_tree (Some sample_tree1) =
  Done ("[TREE]" +:+ NL +:+ "─ #root (0)" +:+ NL +:+ "   │─ home (0)" +:+ NL
        +:+ "   │   │─ + (1)" +:+ NL +:+ NL)%string.
Proof. vm_compute. reflexivity. Qed.

(** ** Frames *)

Section frames.
Context `{Malloc}.

(** A frame whose payload is these bytes. *)
Definition holds_data (f : bpsp__frame) (data : bytes) : Prop :=
  data_size f = Z.of_nat (List.length data) ∧ payload f = (if data then None else Some (Some <$> data)).

(** The payload is printed up to its first NUL. *)
Lemma print_payload_ok f data :
  holds_data f data → data_size f + 1 < 2 ^ 32 → malloc_ok (data_size f + 1) = true →
  print_payload f = Done (if data then ""%string else (str (upto_nul data) +:+ NL)%string).
Proof.
  intros [Hsize Hp] Hlen Hm. unfold print_payload. rewrite Hp, u32_small by lia.
  destruct data as [|c data]; [by rewrite (proj2 (Z.ltb_ge _ _)) by (cbn in Hsize; lia)|].
  rewrite (proj2 (Z.ltb_lt _ _)) by (cbn in Hsize; lia). unfold mem__malloc. rewrite Hm, Hsize in *.
  remember (c :: data) as l eqn:El.
  assert (mem__memcpy (Some (replicate (Z.to_nat (Z.of_nat (List.length l) + 1)) None)) 0
    (Some (Some <$> l)) (Z.of_nat (List.length l)) = Done (Some ((Some <$> l) ++ [None]))) as ->.
  { unfold mem__memcpy. rewrite (proj2 (Z.eqb_neq _ _)) by (subst l; cbn; lia).
    rewrite length_fmap, length_replicate, Z.leb_refl.
    rewrite (proj2 (Z.leb_le (0 + _) _)) by lia. cbn [andb take Z.to_nat app].
    rewrite Z.add_0_l, Nat2Z.id, (take_ge (Some <$> l)), drop_replicate by (by rewrite length_fmap).
    by replace (Z.to_nat (Z.of_nat (List.length l) + 1) - List.length l)%nat with 1%nat by lia. }
  cbn [mbind exec_bind deref].
  pose proof (put_cell_at (Some <$> l) None [] NUL) as Hput. rewrite length_fmap in Hput. rewrite Hput.
  cbn [mbind exec_bind]. unfold cells_cstr. rewrite cells_chars_app. subst l. done.
Qed.

(** A size of 2^32 - 1 wraps around: the block has no room for the payload. *)
Lemma print_payload_wraps f :
  data_size f = 2 ^ 32 - 1 → print_payload f = Undef.
Proof.
  intros Hd. unfold print_payload. rewrite Hd. change (u32 (2 ^ 32 - 1 + 1)) with 0.
  change (0 <? 2 ^ 32 - 1) with true. unfold mem__malloc, mem__memcpy. change (2 ^ 32 - 1 =? 0) with false.
  destruct (malloc_ok 0), (payload f) as [l|]; cbn [replicate Z.to_nat List.length]; try done.
  by rewrite andb_false_r.
Qed.

Lemma print_headers_ok hs : all_str hs → ∃ text, print_headers hs = Done text.
Proof.
  induction 1 as [|[k v] hs Hv _ (text & IH)]; [by eexists|]. cbn in *. destruct v as [|v]; [done|].
  rewrite IH. by eexists.
Qed.

(** Nothing is printed unless it is asked for; then a frame that the library built is printed, and
    a frame with an unknown opcode is not, as its text lies outside the table. *)
Lemma frame__print_off frame : frame__print false frame = Done ""%string.
Proof. done. Qed.

Lemma frame__print_on f data :
  holds_data f data → data_size f + 1 < 2 ^ 32 → malloc_ok (data_size f + 1) = true →
  0 ≤ opcode f ≤ 8 → all_str (var_headers f) → ∃ text, frame__print true (Some f) = Done text.
Proof.
  intros Hd Hlen Hm Hop Hhs. unfold frame__print. cbn [negb].
  assert (∃ op, frame__get_op_text (opcode f) = Done op) as [op ->].
  { unfold frame__get_op_text. destruct (lookup_lt_is_Some_2 op_text (Z.to_nat (opcode f))) as [x ->];
      [cbn; lia|by eexists]. }
  destruct (print_headers_ok _ Hhs) as [hs ->]. rewrite (print_payload_ok f data) by done. by eexists.
Qed.

Lemma frame__print_unknown_opcode f : 8 < opcode f → frame__print true (Some f) = Undef.
Proof.
  intros Hop. unfold frame__print, frame__get_op_text. cbn [negb].
  by rewrite lookup_ge_None_2 by (cbn; lia).
Qed.
End frames.
