(* ===== verification/DtorTree.v ===== *)
(** * Freeing a topic tree

    [topic__dtor_tree] frees every node below the root, whatever the tree holds, and leaves the
    root empty.  [desc] lists the nodes of a subtree. *)
From S2P Require Import Prelude Status Uthash Mem Subscriber Topic TopicShape TopicSpec TopicProps.
Local Open Scope Z_scope.

Notation node_heap := (gmap positive topic__node) (only parsing).

(** The edges of a node, in the order in which its children are freed. *)
Definition edges (n : topic__node) : list (sym * positive) :=
  (pair SStar <$> option_list (ml_node n)) ++ (pair SPlus <$> option_list (sl_node n))
  ++ ((fun e => (SLit e.1, e.2)) <$> nodes n).

Fixpoint desc (fuel : nat) (h : node_heap) (l : positive) : list positive :=
  match fuel with
  | O => []
  | S fuel =>
      match h !! l with
      | None => []
      | Some n => l :: (edges n ≫= fun e => desc fuel h e.2)
      end
  end.

(** All nodes below [l] are there, with distinct keys, and not deeper than [fuel]. *)
Fixpoint deep (fuel : nat) (h : node_heap) (l : positive) : Prop :=
  match fuel with
  | O => False
  | S fuel => ∃ n, h !! l = Some n ∧ NoDup (nodes n).*1 ∧ ∀ e, e ∈ edges n → deep fuel h e.2
  end.

Lemma elem_of_edges h l n s c :
  shape h → h !! l = Some n → (s, c) ∈ edges n ↔ edge n s = Some c.
Proof.
  intros Hsh Hn. destruct (sh_keys h Hsh l n Hn) as [Hk _].
  assert (∀ s0 o, (s, c) ∈ pair s0 <$> option_list o ↔ s = s0 ∧ o = Some c) as Hopt.
  { intros s0 [x|]; cbn; [rewrite list_elem_of_singleton|rewrite elem_of_nil]; naive_solver. }
  unfold edges. rewrite !elem_of_app, !Hopt, list_elem_of_fmap. destruct s as [k| |]; cbn.
  - rewrite hash_find_iff by done. split.
    + intros [[? _]|[[? _]|([k' c'] & [= -> ->] & ?)]]; done.
    + intros Hin. right. right. by exists (k, c).
  - split; [intros [[? _]|[[_ ?]|(? & [= ] & _)]]; done|]. intros ->. by right; left.
  - split; [intros [[_ ?]|[[? _]|(? & [= ] & _)]]; done|]. intros ->. by left.
Qed.

Lemma NoDup_edges h l n : shape h → h !! l = Some n → NoDup (edges n).*1.
Proof.
  intros Hsh Hn. destruct (sh_keys h Hsh l n Hn) as [Hk _]. unfold edges. rewrite !fmap_app.
  assert (∀ (s : sym) (o : option positive), (pair s <$> option_list o).*1 = if o then [s] else []) as Hopt
    by (by intros s []).
  rewrite !Hopt, <-list_fmap_compose.
  assert ((fst ∘ (fun e : string * positive => (SLit e.1, e.2))) <$> nodes n = SLit <$> (nodes n).*1) as ->
    by (by rewrite <-list_fmap_compose).
  assert (∀ s, s ∈ SLit <$> (nodes n).*1 → ∃ k, s = SLit k) as Hlit
    by (intros s (k & -> & _)%list_elem_of_fmap; by eexists).
  assert (NoDup (SLit <$> (nodes n).*1)) as Hnd by (apply NoDup_fmap_2; [by intros ? ? [= ->]|done]).
  assert (SStar ∉ SLit <$> (nodes n).*1) as H1 by (by intros (? & [= ])%Hlit).
  assert (SPlus ∉ SLit <$> (nodes n).*1) as H2 by (by intros (? & [= ])%Hlit).
  destruct (ml_node n), (sl_node n); cbn; rewrite ?NoDup_cons, ?elem_of_cons; naive_solver.
Qed.

(** ** The nodes of a subtree *)

Lemma desc_cons fuel h l n : h !! l = Some n → desc (S fuel) h l = l :: (edges n ≫= fun e => desc fuel h e.2).
Proof. cbn. by intros ->. Qed.

Lemma desc_path fuel h l y :
  shape h → y ∈ desc fuel h l → ∃ q, walk h l q = Some y.
Proof.
  intros Hsh. revert l. induction fuel as [|fuel IH]; intros l; [by intros ?%not_elem_of_nil|].
  cbn [desc]. destruct (h !! l) as [n|] eqn:Hn; [|by intros ?%not_elem_of_nil].
  intros [->|Hy]%elem_of_cons; [by exists []|]. apply list_elem_of_bind in Hy as ([s c] & Hy & Hin).
  apply (elem_of_edges h l n) in Hin; [|done..]. destruct (IH c Hy) as [q Hq]. exists (s :: q).
  cbn. unfold step. rewrite Hn. cbn. by rewrite Hin.
Qed.

Section shape.
Context (h : node_heap) (Hsh : shape h).

Lemma child_path p l n s c :
  walk h root p = Some l → h !! l = Some n → (s, c) ∈ edges n → walk h root (p ++ [s]) = Some c.
Proof.
  intros Hp Hn Hin. apply (elem_of_edges h l n) in Hin; [|done..]. rewrite walk_snoc, Hp. cbn.
  unfold step. by rewrite Hn.
Qed.

Lemma deep_path fuel p l : walk h root p = Some l → (size h ≤ List.length p + fuel)%nat → deep fuel h l.
Proof.
  revert p l. induction fuel as [|fuel IH]; intros p l Hp Hf.
  { pose proof (path_length h p l Hsh Hp). lia. }
  destruct (walk_alloc h p l Hsh Hp) as [n Hn]. exists n. split; [done|].
  split; [by destruct (sh_keys h Hsh l n Hn)|]. intros [s c] Hin.
  apply (IH (p ++ [s])); [by eapply child_path|]. rewrite length_app. cbn. lia.
Qed.

Lemma desc_all fuel p q l y :
  walk h root p = Some l → walk h l q = Some y → (size h ≤ List.length p + fuel)%nat → y ∈ desc fuel h l.
Proof.
  revert l p q. induction fuel as [|fuel IH]; intros l p q Hp Hq Hf.
  { pose proof (path_length _ p l Hsh Hp). lia. }
  destruct (walk_alloc _ p l Hsh Hp) as [n Hn]. rewrite (desc_cons _ _ _ n) by done.
  destruct q as [|s q]; [injection Hq as <-; left|]. right. cbn in Hq. unfold step in Hq. rewrite Hn in Hq.
  cbn in Hq. destruct (edge n s) as [c|] eqn:Hc; [|done]. apply list_elem_of_bind. exists (s, c).
  apply (elem_of_edges h l n) in Hc; [|done..]. split; [|done].
  apply (IH c (p ++ [s]) q); [by eapply child_path|done|]. rewrite length_app. cbn. lia.
Qed.

Lemma NoDup_desc fuel p l : walk h root p = Some l → NoDup (desc fuel h l).
Proof.
  revert p l. induction fuel as [|fuel IH]; intros p l Hp; [constructor|].
  destruct (walk_alloc h p l Hsh Hp) as [n Hn]. rewrite (desc_cons _ _ _ n) by done.
  assert (Hdp : ∀ s c y, (s, c) ∈ edges n → y ∈ desc fuel h c → ∃ q, walk h root (p ++ s :: q) = Some y).
  { intros s c y Hin [q Hq]%desc_path; [|done]. exists q.
    pose proof (child_path p l n s c Hp Hn Hin) as Hc.
    replace (p ++ s :: q) with ((p ++ [s]) ++ q) by (by rewrite <-app_assoc).
    by rewrite walk_app, Hc. }
  pose proof (shape_tree_like h Hsh) as Ht. apply NoDup_cons. split.
  - intros ([s c] & Hy & Hin)%list_elem_of_bind. destruct (Hdp s c l Hin Hy) as [q Hq].
    pose proof (walk_inj h _ _ _ Ht Hp Hq) as E. rewrite <-(app_nil_r p) in E at 1.
    by apply app_inv_head in E.
  - pose proof (NoDup_edges h l n Hsh Hn) as Hnd. apply NoDup_bind.
    + intros [s1 c1] [s2 c2] y H1 H2 Hy1 Hy2.
      destruct (Hdp _ _ _ H1 Hy1) as [q1 Hq1], (Hdp _ _ _ H2 Hy2) as [q2 Hq2].
      pose proof (walk_inj h _ _ _ Ht Hq1 Hq2) as E. apply app_inv_head in E. injection E as -> _.
      apply (elem_of_edges h l n) in H1, H2; [|done..]. congruence.
    + intros [s c] Hin. apply (IH (p ++ [s])). by eapply child_path.
    + by eapply NoDup_fmap_1.
Qed.
End shape.

(** Only the nodes of the subtree matter. *)
Lemma deep_ext fuel h h' l :
  deep fuel h l → (∀ y, y ∈ desc fuel h l → h' !! y = h !! y) → deep fuel h' l ∧ desc fuel h' l = desc fuel h l.
Proof.
  revert l. induction fuel as [|fuel IH]; intros l Hd Hext; [done|]. destruct Hd as (n & Hn & Hk & Hd).
  rewrite (desc_cons fuel h l n) in Hext |- * by done.
  assert (h' !! l = Some n) as Hn' by (rewrite Hext; [done|left]).
  rewrite (desc_cons fuel h' l n) by done.
  assert (∀ e, e ∈ edges n → deep fuel h' e.2 ∧ desc fuel h' e.2 = desc fuel h e.2) as Hall.
  { intros e He. apply IH; [by apply Hd|]. intros y Hy. apply Hext. right. apply list_elem_of_bind.
    by exists e. }
  split.
  - exists n. split_and!; [done|done|]. intros e He. by apply Hall.
  - apply (f_equal (cons l)). clear Hn Hn' Hd Hext. induction (edges n) as [|e es IHe]; [done|]. rewrite !bind_cons.
    rewrite IHe by (intros; apply Hall; by right). by destruct (Hall e) as [_ ->]; [left|].
Qed.

(** ** Freeing *)

(** The heap without the nodes [X]. *)
Definition without (X : list positive) (h : node_heap) : node_heap := filter (fun e => e.1 ∉ X) h.

Lemma lookup_without X h y : without X h !! y = if decide (y ∈ X) then None else h !! y.
Proof.
  unfold without. rewrite map_lookup_filter. destruct (h !! y); cbn; [|by case_decide].
  by repeat case_guard || case_decide.
Qed.

(** A node that has nothing any more. *)
Definition emptied (n : topic__node) : topic__node :=
  set_nodes (set_subs (set_sl_node (set_ml_node n None) None) []) [].

Section free.
Context (fuel : nat).
Notation free := (topic__free_node fuel).
Context (free_ok : ∀ t l, deep fuel (heap t) l → NoDup (desc fuel (heap t) l) →
  free t l = Done (with_heap t (without (desc fuel (heap t) l) (heap t)))).
Context (h : node_heap) (l : positive).

(** Of [h] the nodes [X] are freed, and [l] has become [n]. *)
Definition partly (t : bpsp__topic_tree) (n : topic__node) (X : list positive) : bpsp__topic_tree :=
  with_heap t (<[l := n]> (without X h)).

Lemma get_partly t n X : get_node (partly t n X) l = Done n.
Proof. unfold get_node, partly. cbn. by rewrite lookup_insert_eq. Qed.

Lemma put_partly t n n' X : put_node (partly t n X) l n' = partly t n' X.
Proof. unfold put_node, partly. cbn. by rewrite insert_insert_eq. Qed.

Lemma free_one t n X c :
  deep fuel h c → NoDup (l :: X ++ desc fuel h c) →
  free (partly t n X) c = Done (partly t n (X ++ desc fuel h c)).
Proof.
  intros Hd [Hl (_ & Hdis & Hnd)%NoDup_app]%NoDup_cons. rewrite elem_of_app in Hl.
  destruct (deep_ext fuel h (heap (partly t n X)) c Hd) as [Hd' E].
  { intros y Hy. cbn. rewrite lookup_insert_ne by (intros ->; tauto).
    rewrite lookup_without, decide_False; [done|]. intros HX. by apply (Hdis y). }
  rewrite free_ok, E by (done || by rewrite E). unfold partly. cbn. unfold with_heap. do 2 f_equal.
  apply map_eq. intros y. rewrite lookup_without. destruct (decide (y = l)) as [->|Hy].
  - rewrite !lookup_insert_eq, decide_False; tauto.
  - rewrite !lookup_insert_ne, !lookup_without by done.
    destruct (decide (y ∈ X ++ desc fuel h c)) as [Hin|Hin]; rewrite elem_of_app in Hin;
      repeat case_decide; tauto.
Qed.

Lemma free_child_ok t n X (o : option positive) :
  (∀ c, o = Some c → deep fuel h c) → NoDup (l :: X ++ (option_list o ≫= desc fuel h)) →
  free_child free (partly t n X) o = Done (partly t n (X ++ (option_list o ≫= desc fuel h))).
Proof.
  intros Hd Hnd. destruct o as [c|]; cbn in *; [|by rewrite app_nil_r].
  rewrite app_nil_r in *. apply free_one; [by apply Hd|done].
Qed.

Lemma free_children_ok t n X (hs : list (string * positive)) :
  nodes n = hs → NoDup hs.*1 → (∀ e, e ∈ hs → deep fuel h e.2) →
  NoDup (l :: X ++ (hs ≫= fun e => desc fuel h e.2)) →
  free_children free (partly t n X) l hs
  = Done (partly t (set_nodes n []) (X ++ (hs ≫= fun e => desc fuel h e.2))).
Proof.
  revert n X. induction hs as [|[k c] hs IH]; intros n X Hn Hk Hd Hnd.
  { cbn. rewrite app_nil_r. do 2 f_equal. destruct n; cbn in *. by subst. }
  cbn [free_children]. rewrite get_partly. cbn [mbind exec_bind]. rewrite put_partly.
  apply NoDup_cons in Hk as [Hk Hks]. rewrite Hn. cbn [hash_del].
  rewrite (proj2 (hash_find_None k hs)), decide_True by done.
  rewrite bind_cons in *. cbn [snd] in *.
  rewrite free_one; [|apply (Hd (k, c)); left|].
  2: { rewrite app_assoc, app_comm_cons in Hnd. by apply NoDup_app in Hnd as [? _]. }
  cbn [mbind exec_bind]. rewrite IH; [|done|done| |].
  - by rewrite <-app_assoc.
  - intros e He. apply Hd. by right.
  - by rewrite <-app_assoc.
Qed.

Lemma dtor_node_ok t n :
  heap t = h → h !! l = Some n → NoDup (nodes n).*1 → (∀ e, e ∈ edges n → deep fuel h e.2) →
  NoDup (l :: (edges n ≫= fun e => desc fuel h e.2)) →
  dtor_node_with free t l = Done (partly t (emptied n) (edges n ≫= fun e => desc fuel h e.2)).
Proof.
  intros Ht Hn Hk Hd Hnd.
  set (D1 := option_list (ml_node n) ≫= desc fuel h). set (D2 := option_list (sl_node n) ≫= desc fuel h).
  set (D3 := nodes n ≫= fun e => desc fuel h e.2).
  assert ((edges n ≫= fun e => desc fuel h e.2) = (([] ++ D1) ++ D2) ++ D3) as E.
  { unfold edges. rewrite !bind_app, !app_assoc. subst D1 D2 D3. f_equal; [f_equal|].
    - by destruct (ml_node n).
    - by destruct (sl_node n).
    - generalize (nodes n). intros hs. induction hs as [|e hs IH]; [done|]. cbn [fmap list_fmap].
      by rewrite !bind_cons, IH. }
  rewrite E in *. pose proof Hnd as Hnd2. rewrite app_comm_cons in Hnd2.
  apply NoDup_app in Hnd2 as [Hnd2 _]. pose proof Hnd2 as Hnd1. rewrite app_comm_cons in Hnd1.
  apply NoDup_app in Hnd1 as [Hnd1 _].
  assert (t = partly t n []) as ->.
  { unfold partly. destruct t; cbn in *. subst. unfold with_heap. cbn. f_equal. apply map_eq. intros y.
    destruct (decide (y = l)) as [->|Hy]; [by rewrite lookup_insert_eq|].
    rewrite lookup_insert_ne by done. rewrite lookup_without. by rewrite decide_False by set_solver. }
  unfold dtor_node_with. rewrite get_partly. cbn [mbind exec_bind].
  rewrite free_child_ok; [|intros c Hc; apply (Hd (SStar, c)); unfold edges; rewrite Hc; set_solver|done].
  cbn [mbind exec_bind]. rewrite get_partly. cbn [mbind exec_bind]. rewrite put_partly.
  rewrite free_child_ok; [|intros c Hc; apply (Hd (SPlus, c)); unfold edges; rewrite Hc; set_solver|done].
  cbn [mbind exec_bind]. rewrite get_partly. cbn [mbind exec_bind]. rewrite put_partly, get_partly.
  cbn [mbind exec_bind]. rewrite free_children_ok; [done|done|done| |done].
  intros [k c] Hin. apply (Hd (SLit k, c)). unfold edges. rewrite !elem_of_app. right. right.
  apply list_elem_of_fmap. by exists (k, c).
Qed.
End free.

Lemma free_node_ok fuel t l :
  deep fuel (heap t) l → NoDup (desc fuel (heap t) l) →
  topic__free_node fuel t l = Done (with_heap t (without (desc fuel (heap t) l) (heap t))).
Proof.
  revert t l. induction fuel as [|fuel IH]; intros t l; [done|]. intros (n & Hn & Hk & Hd) Hnd.
  rewrite (desc_cons _ _ _ n) in * by done. cbn [topic__free_node].
  rewrite (dtor_node_ok fuel IH (heap t) l t n) by done. cbn [mbind exec_bind].
  unfold partly, with_heap, mem__free. cbn. rewrite lookup_insert_eq. cbn.
  do 2 f_equal. apply map_eq. intros y. rewrite lookup_without. apply NoDup_cons in Hnd as [Hl _].
  destruct (decide (y = l)) as [->|Hy].
  - rewrite lookup_delete_eq, decide_True; [done|left].
  - rewrite lookup_delete_ne, lookup_insert_ne, lookup_without by done.
    do 2 case_decide; set_solver.
Qed.

Lemma dtor_tree_ok t :
  shape (heap t) → rw_lock t = Unlocked →
  ∃ t', topic__dtor_tree t = Done t' ∧ bare t' ∧ sub_heap t' = sub_heap t ∧ rw_lock t' = Unlocked
    ∧ next t' = next t.
Proof.
  intros Hsh Hl. unfold topic__dtor_tree, pthread_rwlock_wrlock. rewrite decide_True by done.
  cbn [mbind exec_bind]. set (t1 := with_lock t _). unfold tree_fuel. cbn [heap with_lock t1].
  assert (walk (heap t) root [] = Some root) as Hr by done.
  pose proof (deep_path _ Hsh (S (S (size (heap t)))) [] root Hr ltac:(cbn; lia)) as (n & Hn & Hk & Hd).
  pose proof (NoDup_desc _ Hsh (S (S (size (heap t)))) [] root Hr) as Hnd.
  rewrite (desc_cons _ _ _ n) in Hnd by done. unfold topic__dtor_node.
  rewrite (dtor_node_ok _ (free_node_ok _) (heap t) root t1 n) by done. cbn [mbind exec_bind].
  eexists. split; [done|]. split; [|done]. exists (emptied n). split; [|done].
  change (heap _) with (<[root := emptied n]> (without (edges n ≫= fun e => desc (S (size (heap t))) (heap t) e.2) (heap t))).
  apply map_eq. intros y. destruct (decide (y = root)) as [->|Hy].
  - by rewrite lookup_insert_eq, lookup_singleton_eq.
  - rewrite lookup_insert_ne, lookup_singleton_ne, lookup_without by done. case_decide as Hin; [done|].
    destruct (heap t !! y) as [m|] eqn:Hm; [|done]. destruct Hin.
    destruct (sh_reach _ Hsh y) as [q Hq]; [by eexists|].
    pose proof (desc_all _ Hsh (S (S (size (heap t)))) [] q root y Hr Hq ltac:(cbn; lia)) as Hy'.
    rewrite (desc_cons _ _ _ n) in Hy' by done. by apply elem_of_cons in Hy' as [->|?].
Qed.

(** C32: Freeing a topic tree, whatever it holds, ends, uses no node that is already freed and frees
    each node below the root exactly once; a well-formed tree without subscribers and nodes is
    left, its lock is free, and no subscriber is touched. *)
Theorem topic__dtor_tree_frees t :
  tree_wf t → rw_lock t = Unlocked →
  ∃ t', topic__dtor_tree t = Done t' ∧ tree_wf t' ∧ size (heap t') = 1%nat ∧ (∀ p, subs_at t' p = [])
    ∧ sub_heap t' = sub_heap t ∧ rw_lock t' = Unlocked.
Proof.
  intros Hw Hl. destruct (dtor_tree_ok t (tw_shape t Hw) Hl) as (t' & E & Hb & Hs & Hl' & Hn).
  exists t'. split_and!; [done| | |by intros; apply bare_subs|done|done].
  - apply bare_wf; [done|]. rewrite Hn. apply (tw_next t Hw), (sh_root _ (tw_shape t Hw)).
  - destruct Hb as (n & -> & _). apply map_size_singleton.
Qed.

(** The tree with one subscriber to home/+ has three nodes. *)
Lemma topic__dtor_tree_frees_witness :
  size (heap sample_tree1) = 3%nat ∧
  ∃ t', topic__dtor_tree sample_tree1 = Done t' ∧ tree_wf t' ∧ size (heap t') = 1%nat ∧
    (∀ p, subs_at t' p = []) ∧ sub_heap t' = sub_heap sample_tree1 ∧ rw_lock t' = Unlocked.
Proof.
  split; [vm_compute; reflexivity|].
  apply (topic__dtor_tree_frees sample_tree1); [apply sample_tree1_wf|vm_compute; reflexivity].
Defined.
