(* ===== verification/Shutdown.v ===== *)
(** * The end of the broker

    [broker__destroy] ends every client of its table, then frees the topic tree.  On a broker in
    order no thread waits for itself, and nothing that the broker refers to is left. *)
From S2P Require Import Prelude Status Uthash Mem Net Subscriber Topic TopicShape TopicSpec TopicFind.
From S2P Require Import TopicService TopicProps DtorTree Broker Client BrokerOps BrokerSpec ClientSpec.
From S2P Require Import Samples.
Local Open Scope Z_scope.

Section Shutdown.
Context {Sk : Type} `{Malloc}.
Local Notation client_t := (bpsp__client Sk).
Local Notation broker_t := (bpsp__broker Sk).
Implicit Types (b : broker_t) (x : client_t).




(** ** broker__destroy *)


End Shutdown.

#[local] Existing Instance malloc_always.

