(* ===== verification/Tests.v ===== *)
(** * The test programs of the repository, computed

    test/topic_test.c, frame_test.c, client_test.c and util_test.c print what they see and check
    little; here their calls are made on the model, and the results are what the programs are
    expected to show.  The threads of client_test.c run one after the other. *)
From S2P Require Import Prelude Status Uthash Mem Net Text Clock Frame Subscriber Topic TopicSpec Broker Client.
From S2P Require Import BrokerOps Print Log Samples.
Local Open Scope Z_scope.

#[local] Existing Instance malloc_always.

Notation test_broker := (bpsp__broker script_socket) (only parsing).

(** ** topic_test.c *)

Definition test_client (b : test_broker) : exec (positive * test_broker) :=
  '(c, b) ← client__new sample_rand b None false; c ← deref c; mret (c, b).

Definition test_sub (b : test_broker) (topic : string) (c : positive) : exec (positive * test_broker) :=
  '(s, b) ← new_subscriber b (Some topic) None (Some c) None; s ← deref s; mret (s, b).

Inductive tree_call := AddSub (s : positive) | DelSub (s : positive) | PrintTree.

(** The calls on the tree, with their status or what they print. *)
Fixpoint tree_calls (t : bpsp__topic_tree) (cs : list tree_call)
  : exec (list status__err * list string * bpsp__topic_tree) :=
  match cs with
  | [] => mret ([], [], t)
  | AddSub s :: cs =>
      '(e, t) ← topic__add_subscriber t (Some s) true;
      '(es, out, t) ← tree_calls t cs; mret (e :: es, out, t)
  | DelSub s :: cs =>
      '(e, t) ← topic__del_subscriber t s true;
      '(es, out, t) ← tree_calls t cs; mret (e :: es, out, t)
  | PrintTree :: cs =>
      l ← topic__print_tree (Some t);
      '(es, out, t) ← tree_calls t cs; mret (es, l :: out, t)
  end.

(** What is printed of the subscribers that are found. *)
Definition find_sub (t : bpsp__topic_tree) (topic : string) : exec string :=
  '(r, _) ← topic__tree_find_subscribers t (Some topic) false;
  ids ← deref (mapM _id (default [] r));
  mret ("FINDING TOPIC: " +:+ topic +:+ NL +:+ "HELLO"
        +:+ match r with Some _ => foldr (fun i out => i +:+ NL +:+ out) NL ids | None => "" end)%string.

Definition topic_test (b : test_broker) :=
  '(client, b) ← test_client b;
  '(sub, b) ← test_sub b "locationA/sensorA/*" client;
  '(client1, b) ← test_client b;
  '(sub1, b) ← test_sub b "locationA/sensorA/uptime" client1;
  '(client2, b) ← test_client b;
  '(sub2, b) ← test_sub b "locationA/sensorA/uptime" client2;
  '(sub3, b) ← test_sub b "locationA/sensorA/downtime" client;
  '(sub4, b) ← test_sub b "locationA/sensorA/uptime" client;
  '(es, out, t) ← tree_calls (topic_tree b)
    [AddSub sub; AddSub sub1; AddSub sub2; AddSub sub3; AddSub sub4; AddSub sub4; PrintTree;
     DelSub sub4; PrintTree; DelSub sub; PrintTree; DelSub sub; PrintTree; DelSub sub2; PrintTree;
     DelSub sub3; PrintTree; DelSub sub1; PrintTree; DelSub sub3; PrintTree;
     AddSub sub1; AddSub sub2; AddSub sub3; AddSub sub4; PrintTree];
  n1 ← find_sub t "locationA/sensorA";
  n2 ← find_sub t "locationA/sensorA/uptime";
  n3 ← find_sub t "locationA/sensorB/uptime";
  n4 ← find_sub t "locationB/sensorB";
  n5 ← find_sub t "locationB/sensorA";
  t ← topic__dtor_tree t;
  mret (es, out, [n1; n2; n3; n4; n5], size (heap t)).

(** Nothing is added twice; the empty nodes go with the last subscriber; the search finds the three
    subscribers of the topic, wherever they were added again; at the end only the root is left. *)
Example topic_test_shows :
  match topic_test sample_new with
  | Done (es, out, found, nodes) =>
      es = [BPSP_OK; BPSP_OK; BPSP_OK; BPSP_OK; BPSP_OK; BPSP_TREE_DUP_SUBSCRIBER; BPSP_OK; BPSP_OK;
            BPSP_OK; BPSP_OK; BPSP_OK; BPSP_OK; BPSP_OK; BPSP_OK; BPSP_OK; BPSP_OK; BPSP_OK]
      ∧ out !! 6%nat = Some ("[TREE]" +:+ NL +:+ node_line 0 "#root" 0 +:+ NL)%string
      ∧ out !! 8%nat = Some ("[TREE]" +:+ NL +:+ node_line 0 "#root" 0 +:+ node_line 1 "locationA" 0
          +:+ node_line 2 "sensorA" 0 +:+ node_line 3 "uptime" 3 +:+ node_line 3 "downtime" 1 +:+ NL)%string
      ∧ found !! 0%nat = Some ("FINDING TOPIC: locationA/sensorA" +:+ NL +:+ "HELLO" +:+ NL)%string
      ∧ found !! 1%nat = Some ("FINDING TOPIC: locationA/sensorA/uptime" +:+ NL
          +:+ "HELLOAR8pG_0/locationA/sensorA/uptime" +:+ NL +:+ "XevM3_0/locationA/sensorA/uptime" +:+ NL
          +:+ "duL2j_0/locationA/sensorA/uptime" +:+ NL +:+ NL)%string
      ∧ nodes = 1%nat
  | _ => False
  end.
Proof. vm_compute. split_and!; reflexivity. Qed.

(** ** frame_test.c *)

(** One block of [test__frame_var_headers]: the headers are parsed and printed again. *)
Definition test_pair (f : bpsp__frame) (data : string) : exec (string * bpsp__frame) :=
  '(_, f) ← frame__parse_var_header f (chars data) (strlen data);
  '(_, block) ← var_header__to_bytes (var_headers f) (mem__malloc (vars_size f + 1));
  block ← deref block;
  block ← put_cell block (vars_size f) NUL;
  text ← cells_cstr block;
  let line := (text +:+ " - " +:+ int_text (vars_size f))%string in
  '(_, f) ← frame__empty f;
  mret (line, f).

Fixpoint test_pairs (f : bpsp__frame) (ds : list string) : exec (list string) :=
  match ds with
  | [] => mret []
  | d :: ds => '(l, f) ← test_pair f d; ls ← test_pairs f ds; mret (l :: ls)
  end.

(** [Q] stands for the double quote. *)
Definition quoted (s : string) : string := str ((fun c => if decide (c = "Q"%char) then QUOTE else c) <$> chars s).

Definition test__frame_var_headers : exec (list string) :=
  frame ← deref frame__new;
  test_pairs frame (quoted <$>
    [""; "Qx-usernameQQhaidaoQ;"; "Qx-usern\QameQQhaidaoQ;"; "Qx-usernameQQhaidaoQ;Qx-passwordQQ12345Q;";
     "Qx-usernameQQhaidaoQ;Qx-passwordQQ12345Q;Qcontent-typeQQjsonQ;";
     "Qx-usernameQQhaidaoQ;Qx-usernameQQ12345Q;"]%string).

Example frame_test_shows :
  test__frame_var_headers = Done (quoted <$>
    [" - 0"; "Qx-usernameQQhaidaoQ; - 21"; "Qx-usern\QameQQhaidaoQ; - 23";
     "Qx-usernameQQhaidaoQ;Qx-passwordQQ12345Q; - 41";
     "Qx-usernameQQhaidaoQ;Qx-passwordQQ12345Q;Qcontent-typeQQjsonQ; - 62";
     "Qx-usernameQQ12345Q; - 20"]%string).
Proof. vm_compute. reflexivity. Qed.

(** ** client_test.c *)

(** The body of a thread with the number [i]: what it prints. *)
Definition test_thread (b : test_broker) (i : Z) : exec (string * test_broker) :=
  '(client, b) ← client__new sample_rand b None true;
  let topic := String (ascii_of_nat (Z.to_nat (Z.abs (Z.rem i 42) + 48))) "/locationA/sensorA/temperature" in
  '(_, b) ← client__sub1 b client (Some topic) (Some "_88"%string) true;
  '(_, b) ← client__sub1 b client (Some topic) (Some "_77"%string) true;
  '(s, b) ← client__unsub0 b client (Some topic) (Some "_88"%string) true;
  text ← status__get_text s;
  mret (text, b).

Fixpoint test_threads (b : test_broker) (tids : list Z) : exec (list string * test_broker) :=
  match tids with
  | [] => mret ([], b)
  | i :: tids => '(x, b) ← test_thread b i; '(xs, b) ← test_threads b tids; mret (x :: xs, b)
  end.

(** With the numbers of ten threads, two of which share a topic. *)
Definition client_test : exec (list string * string) :=
  '(xs, b) ← test_threads sample_new [0; 1; 2; 3; 4; 5; 6; 7; 8; 42];
  l ← topic__print_tree (Some (topic_tree b));
  mret (xs, l).

Definition topic_lines (first : string) (subs : nat) : string :=
  (node_line 1 first 0 +:+ node_line 2 "locationA" 0 +:+ node_line 3 "sensorA" 0
   +:+ node_line 4 "temperature" subs)%string.

(** Every thread ends well, and its second subscription is left. *)
Example client_test_shows :
  client_test = Done (replicate 10 "OK"%string,
    ("[TREE]" +:+ NL +:+ node_line 0 "#root" 0 +:+ topic_lines "0" 2
     +:+ foldr String.append NL ((fun s => topic_lines s 1) <$> ["1"; "2"; "3"; "4"; "5"; "6"; "7"; "8"]))%string).
Proof. vm_compute. reflexivity. Qed.

(** ** util_test.c: the date at the time of the clock *)

Example util_test_shows : date_now_utc 1634137504 33 = Some "2021-10-13T15:05:04.000000Z"%string.
Proof. vm_compute. reflexivity. Qed.
